(* ===== verification/_CoqProject ===== *)
-Q . S2P
Prelude.v
CFloat.v
FloatBounds.v
Scanf.v
Scheduler.v
SchedulerInv.v
SchedulerExact.v
SchedulerProps.v
SnapshotRing.v
ClusterState.v
ClusterStateProps.v
Registry.v
RegistryProps.v
ChunkPlanner.v
PlannerDag.v
PlannerProps.v
Workload.v
WorkloadProps.v
MasterRecovery.v
MasterRecoveryProps.v
Envelope.v
Layout.v
Declarations.v
AbiProps.v
Threads.v
Tables.v
ClusterThreads.v
SchedulerThreads.v
RegistryThreads.v
WorkloadThreads.v
RecoveryThreads.v
Router.v
RouterThreads.v
WorkerTransport.v
WireProps.v
MasterMain.v
WalImage.v
WorkerMain.v
WorkerState.v
Discovery.v
DisplayBridge.v
Capabilities.v
CapImages.v
WorkerRecovery.v
ResourceMonitor.v
WorkerThreads.v
Executor.v
ExecutorProps.v
Config.v
Log.v
LogThreads.v
ZmqContext.v
UiModel.v
UiCoordinator.v
Agent.v
AgentThreads.v
Lifecycle.v
SysInfo.v
MasterStart.v
Getopt.v
Compat.v
CommandLine.v
TestPrograms.v
SelfTests.v
