(* ===== verification/Prelude.v ===== *)
(** * Void_OS-Merger: a verification of the cluster master and worker

    Void_OS-Merger joins several machines into one logical device.  A master
    daemon keeps the authoritative cluster state, plans workloads into chunks,
    places chunks on workers under leases and recovers what a lost worker held;
    worker daemons join it over ZeroMQ, report heartbeats and run chunks in
    child processes.  A command-line client talks to the master, an agent
    reports the load of a machine, and a common layer holds the configuration,
    the logger, the messaging context, the probing of the system and the
    compatibility functions for Windows.  This library translates the C sources
    of those parts into executable definitions and proves the properties that
    make them correct.

    ** Parts and files

    Shared:
    - [Prelude] (this file): machine integers, C strings, scanning loops,
      tactics, and the lemmas on tables that all components use.
    - [CFloat]: IEEE [float] and [double] on the executable [spec_float];
      [FloatBounds]: rounding of quotients, and percentages within 0 and 100.
    - [Scanf]: the conversions [%s], [%llu] and [%d] of [scanf] and [printf].
    - [Layout]: sizes, offsets, [store] and [load] of C types on the target ABI;
      [Declarations]: every constant, enumeration and structure that a header or
      a C file declares, a prefix per unit; [AbiProps]: which units agree on
      what they share, and where the headers differ from the sources.
    - [Threads]: the mutex functions of [compat.h], programs whose steps are
      single accesses to shared memory, and their interleavings; [Locked]
      programs (lock, body, unlock) and the theorem [linearized] about them.
      [Tables]: arrays with a count that such programs search, walk, append to
      and overwrite, and the list of live entries they mirror.
    - [Lifecycle]: create and destroy of every context of master and worker, and
      the two daemons' [main], on a ledger of memory blocks, mutexes, ZeroMQ contexts and sockets.

    The master ([src/master/src/]):
    - [Scheduler] ([scheduler.c]): the tables of workers, chunks and leases as
      the record [sched]; registration, submission, the tick (expiry, hard
      filters, score, placement) and release.  [SchedulerInv] proves the
      safety invariant, [SchedulerExact] that the books balance,
      [SchedulerProps] the contracts; [SchedulerThreads] runs its operations on
      several threads.
    - [SnapshotRing]: the ring of four reference-counted snapshots that
      [cluster_state.c] and [registry.c] both contain, as a class
      [SnapshotSource] with the client's theorem proved once against it.
    - [ClusterState], [ClusterStateProps] ([cluster_state.c]): membership,
      leases, metrics, versions, the write-ahead image, snapshots.
      [ClusterThreads]: the same operations as programs over the arrays and
      counts of the context, run by several threads.  [WalImage]: the bytes of
      the write-ahead file, records and replay, under the list of records.
    - [Registry], [RegistryProps] ([registry.c]): worker records, heartbeats,
      chunk tracking, the stale sweep, snapshots; [RegistryThreads].
    - [ChunkPlanner], [PlannerDag], [PlannerProps] ([chunk_planner.c]):
      strategies, chunk identifiers and the topology check.
    - [Workload], [WorkloadProps] ([workload.c]): jobs, readiness of chunks,
      results, deadlines; [WorkloadThreads].
    - [MasterRecovery], [MasterRecoveryProps] ([recovery.c]): observed workers,
      leases, the timeout sweep, incoming results; [RecoveryThreads].
    - [Envelope]: the message envelope of both sides with its codec, and the
      class [Zmq] of sockets; [Router] ([router.c]) on top of it, and
      [RouterThreads], the sends of several threads on one socket.
    - [MasterMain] ([main.c]): start-up, the rounds of the event loop with the
      join and heartbeat handlers over the cluster state, persistence, crashes
      and restarts; [MasterStart]: [main] around them, from the log level and
      the cluster's UUID to the exit code.
    - [UiCoordinator] ([ui_coordinator.c]): the text view and the intents.

    The worker ([src/worker/src/]):
    - [WorkerTransport] ([transport.c]); [WireProps] relates it to the router.
    - [WorkerMain] ([main.c]): identity, options, connection, the join and the
      loop, and the composition of its traffic with the master's rounds.
    - [WorkerState] ([worker_state.c]): the life cycle as a state machine.
    - [Discovery] ([discovery.c]), [DisplayBridge] ([display_bridge.c]),
      [Capabilities] ([capabilities.c], with the memory image of its records,
      which [CapImages] shows to be the layout of the declared structures).
    - [WorkerRecovery] ([recovery.c]): the book of leases and reconciliation.
    - [ResourceMonitor] ([resource_monitor.c]): the ring of samples.
    - [WorkerThreads]: the operations of the state machine and of the monitor
      on several threads.
    - [Executor], [ExecutorProps] ([executor.c]): validation, shared
      reservations, the monitoring loop of the child and its callbacks.

    The common layer ([src/common/]): [Config] ([config.c]), the configuration
    parser; [Log] ([log.c]), levels, lines and the ring file, and
    [LogThreads], calls of several threads; [ZmqContext]
    ([zmq_context.c], [zmq_sockets.c]), the reference-counted context of several
    processes and the socket helpers; [SysInfo] ([sys_info.c]), the Linux
    probes; [Getopt] and [Compat] ([compat.h]), option parsing, the clock and
    the process calls of the Windows layer (mutexes are in [Threads], thread
    creation and joining in [AgentThreads]).

    Around them: [UiModel] ([src/ui/src/model.c]), the view model; [Agent]
    ([src/agent/src/]), its loop and the capability cache; [AgentThreads], its
    main and probe threads as interleaved steps; [CommandLine], the parsers of
    [master/src/cli.c], [worker/src/cli.c] and [cli/src/main.c], the first of
    them against the class [Getopt] of option scanners; [TestPrograms], the
    inline functions of [result.h] and the programs under [tests/]; and
    [SelfTests], the suites inside the sources, as runs of the models.

    ** How the code is translated

    - A structure is a [Record], an enumeration an [Inductive] with the
      source's constructors, an operation one [Definition] with the source's
      name that returns the C result together with the new state.  Loops whose
      body is a search are [find_idx]; other loops are fixpoints of their own.
    - A table with its count is the list of its live entries; an index out of
      the count does not exist.  Arrays read or written beyond a count (rings,
      line buffers, the router's identity buffer) are kept as full arrays and
      out-of-bounds accesses are explicit.
    - Integers are in [Z] with the wrap of their type ([u8], [u16], [u32],
      [u64], [s32]) after every operation that can leave it.
    - Character arrays hold C strings: [strncpy] cuts, comparison is equality.
      Bytes on the wire and in files are lists of [Z].
    - Operations that hold a mutex from start to end are one step in the file
      of their component.  That this is sound is a theorem for the cluster
      state, the scheduler, the registry, the workload manager, the recovery
      engine, the router's sends, the worker's state machine and the resource
      monitor: the [...Threads] files write the operations again as programs of
      single reads and writes, and [Threads.linearized] shows that their
      interleavings are sequences of the one-step operations.  The logger reads
      its threshold outside its mutex, and [LogThreads] keeps those reads apart.
      The executor holds its mutex in sections, and [Executor] interleaves the
      sections.
    - The context pointer of an operation is valid; other pointers that may be
      [NULL] are options.  Allocation failure is an argument of the
      constructors.
    - What the program gets from outside is an argument: the clock, the results
      of file operations, [fork], [pipe], [read] and [waitpid], the contents of
      uninitialised buffers.  ZeroMQ sockets are a type of the class [Zmq].  A
      receive with DONTWAIT returns -1 when nothing is there; one without it
      waits until a frame or a signal comes, and where neither comes the program
      waits for ever: [WaitsForFrame] of a router's round, [WaitsForEver] of a
      master's, [Waits] of a worker's.  The documented behaviour of [zmq_recv] is in
      [ZmqLaws]; [wire] is a concrete socket that satisfies both.
    - Console output is modelled where it is the component's purpose: the
      workload dashboard and the logger.

    ** What is proved

    - Invariants of every reachable state, by induction on the operations:
      scheduler (safety, balanced books), cluster state, registry, workload
      manager, recovery engine, master daemon (across crashes), transport
      session (any calls in any order), worker leases, shared reservations under interleaving.
    - Optimised or in-place routines equal their specification: the topology
      check and topological orders, the two snapshot searches, the stale and
      timeout sweeps, the in-place readiness pass, the reconciliation loop.
    - Refinement of an abstract model: snapshots as immutable values, the
      worker's state machine as a link automaton, the sample ring as a log, the
      bytes of the write-ahead file as a list of records.
    - Threads: any interleaving of the operations of a component under a mutex
      is a sequence of its one-step operations, so the invariants above hold at
      every unlocked moment and no access leaves a table; threads that are
      scheduled finish; identifiers are given out once; frames of different
      sends and lines of different log calls do not mix, and a dropped line is
      one that a threshold in force stopped; the agent's two threads never
      see a half-written cache or use a freed block, and the join at the end
      returns.
    - Interfaces: the units that exchange memory images declare the same
      layouts; the contexts of master and worker and the two daemons give back
      the memory, mutexes, ZeroMQ contexts and sockets they acquire, except the
      socket that a second connection or start overwrites.
    - The test programs and in-source suites pass, computed on the models.
    - Functional behaviour with its error branches: ticks, releases, chunk
      results, runs to completion, the join handshake, the traffic of a worker
      daemon from its start to a signal or to a wait that does not end, the master's rounds on that traffic,
      executions, the configuration format, the view model, system probing.
    - Safety across processes: the messaging context under any interleaving of
      acquisitions, releases and forks.
    - Types and bounds: what the command lines return, percentages of the view
      model and of the agent in floating point, the agent's poll timeout (with
      what a clock that steps back does to it), the logger's ring file, the clock
      of the Windows layer.
    - Round trips: write-ahead image, envelope, router framing, results across
      a reconnect, long options, client commands, [load] after [store].
      Termination: the topology
      check's queue, the execution loop, the parsers, the memory probe and the
      reconciliation loop.

    Where the code does not do what it means to, an [Example] evaluates the
    case beside the theorem that holds (a fifth snapshot, a cut worker id, a
    clock that runs backwards, the daemons' framing, a worker whose master stays
    silent, a long comment line, ...).

    ** Fuel

    Structural recursion is used wherever the loop allows it.  Loops that do
    not run over a list carry fuel and return [None] when it runs out, and the
    fuel the operation passes is proved to be enough: the topology check (one
    turn per queue entry), [reconcile_loop] (one per lease), [config_loop]
    and [meminfo_loop] (one per byte), [master_cli_loop] (one per byte the
    option scanner has not read).  [join_loop] makes the 50 attempts of the
    source.  [exec_loop] depends on the outside world; it is proved to end once
    the clock passes the timeout.  The event loops of the daemons and of the
    agent run over the list of turns the outside world offers.  The loops of
    the [...Threads] files run over the arrays' lengths plus one and stop at
    the count, which the invariant keeps within them.

    ** What is not modelled

    Console output other than the workload dashboard's and the logger's; the functions
    that [ids.h] declares, which are defined nowhere; the web interface and the
    build.  The source lines that no definition translates are includes,
    prototypes, [extern] declarations, help and mock texts and the guards that
    select the in-source suites.
    The master's daemon does not call the scheduler, the workload manager, the
    planner, the registry or the recovery engine, so there is no composition of
    those to model; each is verified against its own callers' operations.
    One step per operation remains an assumption for the messaging context of
    [zmq_context.c] and for each critical section of the executor, and all
    threads see one memory in the order of their steps: what C leaves undefined
    in a data race is reported where the code has one, not modelled. *)
From Stdlib Require Export ZArith Lia.
From stdpp Require Export base strings numbers option sets list.

#[export] Set Default Goal Selector "!".

(** * Machine integers

    An unsigned integer of width w is a [Z] in [0 .. 2^w-1]; every C operation
    that can leave the range is followed by the wrap of its type. *)

Open Scope Z_scope.

Definition u8 (z : Z) : Z := z mod 2 ^ 8.
Definition u16 (z : Z) : Z := z mod 2 ^ 16.
Definition u32 (z : Z) : Z := z mod 2 ^ 32.
Definition u64 (z : Z) : Z := z mod 2 ^ 64.
(** [int]: increments, decrements and conversions wrap in two's complement. *)
Definition s32 (z : Z) : Z := (z + 2 ^ 31) mod 2 ^ 32 - 2 ^ 31.

Definition in_u8 (z : Z) : Prop := 0 <= z < 2 ^ 8.
Definition in_u16 (z : Z) : Prop := 0 <= z < 2 ^ 16.
Definition in_u32 (z : Z) : Prop := 0 <= z < 2 ^ 32.
Definition in_u64 (z : Z) : Prop := 0 <= z < 2 ^ 64.
Definition in_s32 (z : Z) : Prop := - 2 ^ 31 <= z < 2 ^ 31.

(** A pointer argument that may be [NULL]. *)
Abbreviation ptr A := (option A) (only parsing).
Abbreviation NULL := None (only parsing).

(** * C strings

    A [char] array is modelled by the C string it holds (the bytes before its
    terminator).  [strncpy (dst, src, N - 1)] into a zero-initialised array of
    N bytes leaves the first N - 1 characters of [src]; [strcmp a b == 0] is
    string equality. *)

Definition strncpy (n : nat) (src : string) : string := String.substring 0 n src.
#[global] Arguments strncpy : simpl never.
Definition strcmp_eq (s t : string) : bool := String.eqb s t.

(** The C string at the front of a byte buffer (bytes up to the first NUL). *)
Fixpoint cstr_of_bytes (bs : list Z) : string :=
  match bs with
  | [] => EmptyString
  | b :: bs =>
      if b =? 0 then EmptyString
      else String (Ascii.ascii_of_N (Z.to_N b)) (cstr_of_bytes bs)
  end.

Fixpoint bytes_of_string (s : string) : list Z :=
  match s with
  | EmptyString => []
  | String c s => Z.of_N (Ascii.N_of_ascii c) :: bytes_of_string s
  end.

(** [p + n] on a string whose bytes after the terminator are zero. *)
Fixpoint str_skip (n : nat) (s : string) : string :=
  match n, s with
  | O, _ => s
  | S n, EmptyString => EmptyString
  | S n, String _ s => str_skip n s
  end.

Definition isspace (c : Z) : bool := (c =? 32) || ((9 <=? c) && (c <=? 13)).
Definition isdigit (c : Z) : bool := (48 <=? c) && (c <=? 57).

Fixpoint skip_space (l : list Z) : list Z :=
  match l with
  | c :: l' => if isspace c then skip_space l' else l
  | [] => []
  end.

Fixpoint digits_val (acc : Z) (l : list Z) : Z :=
  match l with
  | c :: l' => if isdigit c then digits_val (acc * 10 + (c - 48)) l' else acc
  | [] => acc
  end.

(** [strtol (s, NULL, 10)] with 64-bit [long]: it saturates. *)
Definition strtol10 (s : string) : Z :=
  match skip_space (bytes_of_string s) with
  | 45 :: l => Z.max (- 2 ^ 63) (- digits_val 0 l)
  | 43 :: l => Z.min (2 ^ 63 - 1) (digits_val 0 l)
  | l => Z.min (2 ^ 63 - 1) (digits_val 0 l)
  end.

(** [atoi s] is [(int) strtol (s, NULL, 10)]. *)
Definition atoi (s : string) : Z := s32 (strtol10 s).

(** * Scanning loops *)

(** [for (i = 0; i < n; i++) if (p (a[i])) break;] *)
Fixpoint find_idx {A} (p : A -> bool) (l : list A) : option nat :=
  match l with
  | [] => None
  | x :: l => if p x then Some O else S <$> find_idx p l
  end.

(** The number of entries a loop counts. *)
Definition countb {A} (p : A -> bool) (l : list A) : nat := length (List.filter p l).

Definition sumZ {A} (f : A -> Z) (l : list A) : Z := foldr (fun x acc => f x + acc) 0 l.

(** * Tactics *)

Create HintDb cint.
Create HintDb tbl.

Ltac cinv H := inversion H; subst; clear H.

(** Boolean comparisons in hypotheses and goal become propositions. *)
Ltac bprop :=
  repeat match goal with
  | H : _ && _ = true |- _ => apply andb_true_iff in H; destruct H
  | H : _ || _ = false |- _ => apply orb_false_iff in H; destruct H
  | H : negb _ = true |- _ => apply negb_true_iff in H
  | H : negb _ = false |- _ => apply negb_false_iff in H
  | H : (_ =? _) = true |- _ => apply Z.eqb_eq in H
  | H : (_ =? _) = false |- _ => apply Z.eqb_neq in H
  | H : (_ <? _) = true |- _ => apply Z.ltb_lt in H
  | H : (_ <? _) = false |- _ => apply Z.ltb_ge in H
  | H : (_ <=? _) = true |- _ => apply Z.leb_le in H
  | H : (_ <=? _) = false |- _ => apply Z.leb_gt in H
  | H : (_ >? _) = _ |- _ => rewrite Z.gtb_ltb in H
  | H : (_ >=? _) = _ |- _ => rewrite Z.geb_leb in H
  | H : strcmp_eq _ _ = true |- _ => apply String.eqb_eq in H
  | H : strcmp_eq _ _ = false |- _ => apply String.eqb_neq in H
  end.

(** Splits every [if] and [match] on a boolean of the goal. *)
Ltac destr_if :=
  match goal with
  | |- context [if ?b then _ else _] => destruct b eqn:?
  end.

(** The same for a hypothesis. *)
Ltac destr_if_hyp :=
  match goal with
  | H : context [if ?b then _ else _] |- _ => destruct b eqn:?
  end.

(** * Integers *)

Lemma u8_id z : in_u8 z -> u8 z = z.
Proof. apply Z.mod_small. Qed.
Lemma u16_id z : in_u16 z -> u16 z = z.
Proof. apply Z.mod_small. Qed.
Lemma u32_id z : in_u32 z -> u32 z = z.
Proof. apply Z.mod_small. Qed.
Lemma u64_id z : in_u64 z -> u64 z = z.
Proof. apply Z.mod_small. Qed.
Lemma s32_id z : in_s32 z -> s32 z = z.
Proof. unfold in_s32, s32. intros. rewrite Z.mod_small; lia. Qed.

Lemma u8_range z : in_u8 (u8 z).
Proof. apply Z.mod_pos_bound. lia. Qed.
Lemma u16_range z : in_u16 (u16 z).
Proof. apply Z.mod_pos_bound. lia. Qed.
Lemma u32_range z : in_u32 (u32 z).
Proof. apply Z.mod_pos_bound. lia. Qed.
Lemma u64_range z : in_u64 (u64 z).
Proof. apply Z.mod_pos_bound. lia. Qed.
#[export] Hint Resolve u8_range u16_range u32_range u64_range : cint.

(** Differences of unsigned clocks: the wrap shows when time runs backwards. *)
Lemma u64_sub_spec a b :
  in_u64 a -> in_u64 b -> u64 (a - b) = if b <=? a then a - b else a - b + 2 ^ 64.
Proof.
  unfold in_u64, u64. intros Ha Hb. destr_if; bprop.
  - apply Z.mod_small. lia.
  - rewrite <- (Z_mod_plus_full (a - b) 1). apply Z.mod_small. lia.
Qed.

(** * Strings *)

Lemma strcmp_eq_refl s : strcmp_eq s s = true.
Proof. apply String.eqb_refl. Qed.

Lemma strcmp_eq_true s t : strcmp_eq s t = true <-> s = t.
Proof. apply String.eqb_eq. Qed.

Lemma strcmp_ne s t : s <> t -> strcmp_eq s t = false.
Proof. apply String.eqb_neq. Qed.

Lemma strncpy_short n s : (String.length s <= n)%nat -> strncpy n s = s.
Proof.
  unfold strncpy. revert n. induction s as [|c s IH]; intros [|n] H; cbn in *; try done; try lia.
  f_equal. apply IH. lia.
Qed.

Lemma strncpy_length n s : String.length (strncpy n s) = Nat.min n (String.length s).
Proof.
  unfold strncpy. revert n. induction s as [|c s IH]; intros [|n]; cbn; try done.
  f_equal. apply IH.
Qed.

Lemma strncpy_idemp n s : strncpy n (strncpy n s) = strncpy n s.
Proof. apply strncpy_short. rewrite strncpy_length. lia. Qed.

(** A string cut by [strncpy] never compares equal to the original. *)
Lemma strncpy_cut n s : (n < String.length s)%nat -> strncpy n s <> s.
Proof.
  intros H E. assert (String.length (strncpy n s) = String.length s) by congruence.
  rewrite strncpy_length in *. lia.
Qed.

(** * [find_idx] *)

Section FindIdx.
Context {A : Type}.
Implicit Types (p : A -> bool) (l : list A).

Lemma find_idx_Some p l i :
  find_idx p l = Some i ->
  exists x, l !! i = Some x /\ p x = true /\
            forall j y, (j < i)%nat -> l !! j = Some y -> p y = false.
Proof.
  revert i. induction l as [|x l IH]; intros i H; cbn in H; [done|].
  destruct (p x) eqn:E.
  - injection H as <-. exists x. repeat split; auto. lia.
  - destruct (find_idx p l) as [k|] eqn:F; cbn in H; [|done]. injection H as <-.
    destruct (IH k eq_refl) as (y & Hy & Hp & Hlt). exists y. repeat split; auto.
    intros [|j] z Hj Hz; cbn in Hz; [congruence|]. apply (Hlt j); [lia|done].
Qed.

Lemma find_idx_lt p l i : find_idx p l = Some i -> (i < length l)%nat.
Proof. intros H. destruct (find_idx_Some _ _ _ H) as (x & Hx & _). by apply lookup_lt_Some in Hx. Qed.

Lemma find_idx_None p l : find_idx p l = None <-> Forall (fun x => p x = false) l.
Proof.
  induction l as [|x l IH]; cbn; [done|].
  rewrite Forall_cons, <- IH. destruct (p x), (find_idx p l); cbn; intuition congruence.
Qed.

Lemma find_idx_first p l i x :
  l !! i = Some x -> p x = true ->
  (forall j y, (j < i)%nat -> l !! j = Some y -> p y = false) ->
  find_idx p l = Some i.
Proof.
  revert i. induction l as [|z l IH]; intros i Hx Hp Hlt; [done|].
  destruct i as [|i]; cbn in Hx |- *.
  - injection Hx as ->. by rewrite Hp.
  - rewrite (Hlt O z) by (done || lia). rewrite (IH i); [done| | |]; auto.
    intros j y Hj Hy. apply (Hlt (S j) y); [lia|done].
Qed.

Lemma find_idx_exists p l x : x ∈ l -> p x = true -> exists i, find_idx p l = Some i.
Proof.
  intros Hx Hp. destruct (find_idx p l) eqn:E; [eauto|].
  rewrite find_idx_None, Forall_forall in E. apply E in Hx. congruence.
Qed.

Lemma find_idx_app_l p l k i : find_idx p l = Some i -> find_idx p (l ++ k) = Some i.
Proof.
  revert i. induction l as [|x l IH]; intros i H; cbn in *; [done|].
  destruct (p x); [done|]. destruct (find_idx p l); cbn in *; [|done].
  by rewrite (IH _ eq_refl).
Qed.

Lemma find_idx_ext p q l : (forall x, x ∈ l -> p x = q x) -> find_idx p l = find_idx q l.
Proof.
  induction l as [|x l IH]; intros H; cbn; [done|].
  rewrite (H x) by set_solver. rewrite IH by set_solver. done.
Qed.

End FindIdx.

Ltac find_idx_inv H :=
  let x := fresh "x" in
  let Hx := fresh "Hx" in let Hp := fresh "Hp" in let Hlt := fresh "Hlt" in
  destruct (find_idx_Some _ _ _ H) as (x & Hx & Hp & Hlt).

(** * Sums *)

Section Sums.
Context {A : Type}.
Implicit Types (f g : A -> Z) (l : list A).

Lemma sumZ_cons f x l : sumZ f (x :: l) = f x + sumZ f l.
Proof. done. Qed.

Lemma sumZ_app f l k : sumZ f (l ++ k) = sumZ f l + sumZ f k.
Proof. unfold sumZ. induction l as [|x l IH]; cbn in *; lia. Qed.

Lemma sumZ_snoc f l x : sumZ f (l ++ [x]) = sumZ f l + f x.
Proof. rewrite sumZ_app. unfold sumZ at 2. cbn. lia. Qed.

Lemma sumZ_alter f (h : A -> A) l i x :
  l !! i = Some x -> sumZ f (alter h i l) = sumZ f l - f x + f (h x).
Proof.
  unfold sumZ. revert i. induction l as [|y l IH]; intros [|i] H; cbn in *; try done.
  - injection H as ->. lia.
  - rewrite (IH i) by done. lia.
Qed.

Lemma sumZ_insert f l i x y :
  l !! i = Some x -> sumZ f (<[i := y]> l) = sumZ f l - f x + f y.
Proof.
  intros H. rewrite <- (sumZ_alter f (fun _ => y) l i x H). f_equal.
  clear H. revert i. induction l as [|z l IH]; intros [|i]; [done..|].
  change (z :: <[i := y]> l = z :: alter (fun _ => y) i l). by rewrite IH.
Qed.

Lemma sumZ_nonneg f l : (forall x, x ∈ l -> 0 <= f x) -> 0 <= sumZ f l.
Proof.
  unfold sumZ. induction l as [|x l IH]; intros H; cbn; [lia|].
  assert (0 <= f x) by (apply H; set_solver).
  assert (0 <= foldr (fun x acc => f x + acc) 0 l) by (apply IH; set_solver). lia.
Qed.

Lemma sumZ_lookup_le f l i x :
  (forall y, y ∈ l -> 0 <= f y) -> l !! i = Some x -> f x <= sumZ f l.
Proof.
  unfold sumZ. revert i. induction l as [|y l IH]; intros [|i] H Hx; cbn in *; try done.
  - injection Hx as ->. assert (0 <= sumZ f l) by (apply sumZ_nonneg; set_solver).
    unfold sumZ in *. lia.
  - assert (0 <= f y) by (apply H; set_solver).
    assert (f x <= foldr (fun x acc => f x + acc) 0 l) by (apply (IH i); set_solver). lia.
Qed.

Lemma sumZ_ext f g l : (forall x, x ∈ l -> f x = g x) -> sumZ f l = sumZ g l.
Proof.
  unfold sumZ. induction l as [|x l IH]; intros H; cbn; [done|].
  rewrite (H x) by set_solver. rewrite IH by set_solver. done.
Qed.

Lemma sumZ_zero l : sumZ (fun _ => 0) l = 0.
Proof. unfold sumZ. by induction l. Qed.

Lemma countb_cons (p : A -> bool) x l :
  countb p (x :: l) = ((if p x then 1 else 0) + countb p l)%nat.
Proof. unfold countb. cbn. by destruct (p x). Qed.

Lemma countb_le (p : A -> bool) l : (countb p l <= length l)%nat.
Proof. induction l as [|x l IH]; [done|]. rewrite countb_cons. cbn. destr_if; lia. Qed.

Lemma countb_all (p : A -> bool) l :
  countb p l = length l <-> Forall (fun x => p x = true) l.
Proof.
  induction l as [|x l IH]; [done|].
  rewrite countb_cons, Forall_cons. cbn. pose proof (countb_le p l).
  destr_if; [rewrite <- IH; intuition lia|].
  split; [lia|]. intros []; congruence.
Qed.

Lemma countb_pos (p : A -> bool) l : (0 < countb p l)%nat <-> exists x, x ∈ l /\ p x = true.
Proof.
  induction l as [|x l IH].
  - split; [cbn; lia|]. intros (y & Hy & _). by apply not_elem_of_nil in Hy.
  - rewrite countb_cons. setoid_rewrite elem_of_cons. destr_if.
    + split; [|lia]. eauto.
    + cbn. rewrite IH. split; [naive_solver|]. intros (y & [->|] & Hy); [congruence|eauto].
Qed.

End Sums.
#[global] Arguments sumZ {A} f l : simpl never.

(** * Updating one entry of an array *)

Section Alter.
Context {A B : Type}.
Implicit Types (l : list A).

(** A field the update leaves alone reads the same in the whole array. *)
Lemma fmap_alter_same (f : A -> B) (h : A -> A) l i :
  (forall x, l !! i = Some x -> f (h x) = f x) -> f <$> alter h i l = f <$> l.
Proof.
  revert i. induction l as [|y l IH]; intros [|i] H; cbn in *; try done.
  - by rewrite (H y).
  - f_equal. by apply IH.
Qed.

Lemma Forall_alter_one (P : A -> Prop) (h : A -> A) l i :
  Forall P l -> (forall x, l !! i = Some x -> P x -> P (h x)) -> Forall P (alter h i l).
Proof.
  intros HP Hh. revert i Hh. induction HP as [|y l Hy HP IH]; intros [|i] Hh; cbn in *; auto.
Qed.

Lemma alter_out (h : A -> A) l i : (length l <= i)%nat -> alter h i l = l.
Proof.
  revert i. induction l as [|y l IH]; intros [|i] H; cbn in *; try done; [lia|].
  f_equal. apply IH. lia.
Qed.

Lemma elem_of_alter (h : A -> A) l i x :
  x ∈ alter h i l -> x ∈ l \/ exists y, l !! i = Some y /\ x = h y.
Proof.
  revert i. induction l as [|y l IH]; intros [|i] H; cbn in *; [set_solver..| |].
  - apply elem_of_cons in H. destruct H as [->|H]; [right; eauto|left; set_solver].
  - apply elem_of_cons in H. destruct H as [->|H]; [left; set_solver|].
    destruct (IH i H) as [|]; [left; set_solver|by right].
Qed.

End Alter.

(** * Tables with distinct keys *)

Section Keys.
Context {A B : Type} (f : A -> B).
Implicit Types (l : list A).

Lemma key_unique l x y : NoDup (f <$> l) -> x ∈ l -> y ∈ l -> f x = f y -> x = y.
Proof.
  intros N [i Hi]%list_elem_of_lookup [j Hj]%list_elem_of_lookup E.
  assert (i = j); [|congruence]. eapply (NoDup_lookup _ i j (f x)); [exact N| |].
  - by rewrite list_lookup_fmap, Hi.
  - rewrite list_lookup_fmap, Hj. cbn. by rewrite E.
Qed.

Lemma fmap_insert_same l i x y :
  l !! i = Some x -> f y = f x -> f <$> <[i := y]> l = f <$> l.
Proof.
  intros Hx E. rewrite list_fmap_insert, E. apply list_insert_id. by rewrite list_lookup_fmap, Hx.
Qed.

Lemma find_key_None (p : A -> bool) l (k : B) :
  (forall x, f x = k -> p x = true) -> find_idx p l = None -> k ∉ f <$> l.
Proof.
  rewrite find_idx_None, Forall_forall. intros Hp H (x & -> & Hx)%list_elem_of_fmap.
  specialize (H x Hx). rewrite Hp in H by done. done.
Qed.

Lemma fmap_delete l k : f <$> delete k l = delete k (f <$> l).
Proof. revert k. induction l as [|x l IH]; intros [|k]; cbn; try done. f_equal. apply IH. Qed.

(** Which entry an update of one entry touched. *)
Lemma elem_of_alter_key (h : A -> A) l k y x :
  NoDup (f <$> l) -> l !! k = Some y -> x ∈ alter h k l -> x = h y \/ (x ∈ l /\ f x <> f y).
Proof.
  intros N Hy [j Hj]%list_elem_of_lookup. rewrite list_lookup_alter in Hj.
  destruct (decide (k = j)) as [<-|Hne].
  - left. rewrite Hy in Hj. cbn in Hj. congruence.
  - right. assert (x ∈ l) as Hx by (by eapply list_elem_of_lookup_2). split; [done|]. intros E.
    apply Hne. eapply (NoDup_lookup (f <$> l) k j (f y)); [done| |].
    + by rewrite list_lookup_fmap, Hy.
    + rewrite list_lookup_fmap, Hj. cbn. by rewrite E.
Qed.

Lemma alter_keeps (h : A -> A) l k y x :
  l !! k = Some y -> x ∈ l -> f x <> f y -> x ∈ alter h k l.
Proof.
  intros Hy [j Hj]%list_elem_of_lookup Hne. apply list_elem_of_lookup. exists j.
  rewrite list_lookup_alter_ne; [done|]. congruence.
Qed.

Lemma alter_hits (h : A -> A) l k y : l !! k = Some y -> h y ∈ alter h k l.
Proof. intros Hy. apply list_elem_of_lookup. exists k. by rewrite list_lookup_alter_eq, Hy. Qed.

End Keys.

Lemma NoDup_snoc {A} (l : list A) x : NoDup l -> x ∉ l -> NoDup (l ++ [x]).
Proof. intros H Hx. rewrite Permutation_app_comm. cbn. by apply NoDup_cons. Qed.

Lemma delete_perm {A} (l : list A) k x : l !! k = Some x -> l ≡ₚ x :: delete k l.
Proof. apply delete_Permutation. Qed.
