(* ===== verification/CFloat.v ===== *)
(** IEEE 754 arithmetic of the C types [float] and [double], on the Standard
    Library's executable [spec_float]: [double] has 53 bits of precision and
    exponents below 1024, [float] has 24 bits and exponents below 128.  The
    comparison operators are those of C: false on a NaN. *)
From Stdlib Require Import SpecFloat.
From Stdlib Require Export SpecFloat.
From S2P Require Import Prelude.

Abbreviation cdouble := spec_float (only parsing).
Abbreviation cfloat := spec_float (only parsing).

#[export] Instance spec_float_eq_dec : EqDecision spec_float.
Proof. solve_decision. Defined.

(** * [double] *)

Definition dadd : cdouble -> cdouble -> cdouble := SFadd 53 1024.
Definition dmul : cdouble -> cdouble -> cdouble := SFmul 53 1024.
Definition ddiv : cdouble -> cdouble -> cdouble := SFdiv 53 1024.
(** [(double) z] for an integer, rounded to nearest even. *)
Definition double_of_Z (z : Z) : cdouble := binary_normalize 53 1024 z 0 false.
(** [x > y] *)
Definition dgtb (x y : cdouble) : bool := SFltb y x.
(** [x >= y] *)
Definition dgeb (x y : cdouble) : bool := SFleb y x.

(** * [float] *)

Definition fadd : cfloat -> cfloat -> cfloat := SFadd 24 128.
Definition fdiv : cfloat -> cfloat -> cfloat := SFdiv 24 128.
Definition fmul : cfloat -> cfloat -> cfloat := SFmul 24 128.
Definition float_of_Z (z : Z) : cfloat := binary_normalize 24 128 z 0 false.
Definition fltb (x y : cfloat) : bool := SFltb x y.
Definition fgeb (x y : cfloat) : bool := SFleb y x.
(** The conversion to [double] is exact; it renormalises the mantissa. *)
Definition double_of_float (x : cfloat) : cdouble :=
  match x with
  | S754_finite s m e => binary_normalize 53 1024 (cond_Zopp s (Zpos m)) e s
  | _ => x
  end.

(** * The order is strict *)

Lemma SFltb_irrefl x : SFltb x x = false.
Proof.
  unfold SFltb, SFcompare. destruct x as [[]|[]| |[] m e]; try done;
    rewrite Z.compare_refl; change (Pos.compare_cont Eq m m) with (Pos.compare m m);
    by rewrite Pos.compare_refl.
Qed.

(** [SFltb] on finite numbers, as inequalities. *)
Lemma SFltb_finite s1 m1 e1 s2 m2 e2 :
  SFltb (S754_finite s1 m1 e1) (S754_finite s2 m2 e2) = true <->
  match s1, s2 with
  | true, false => True
  | false, true => False
  | false, false => e1 < e2 \/ (e1 = e2 /\ (m1 < m2)%positive)
  | true, true => e2 < e1 \/ (e1 = e2 /\ (m2 < m1)%positive)
  end.
Proof.
  unfold SFltb, SFcompare.
  change (Pos.compare_cont Eq m1 m2) with (Pos.compare m1 m2).
  destruct s1, s2; try done;
    destruct (Z.compare_spec e1 e2); try destruct (Pos.compare_spec m1 m2); cbn;
    split; intros; try done; lia.
Qed.

Lemma SFltb_trans x y z : SFltb x y = true -> SFltb y z = true -> SFltb x z = true.
Proof.
  destruct x as [[]|[]| |s1 m1 e1], y as [[]|[]| |s2 m2 e2], z as [[]|[]| |s3 m3 e3];
    rewrite ?SFltb_finite; unfold SFltb, SFcompare; try done;
    try (destruct s1; done); try (destruct s2; done); try (destruct s3; done);
    try (destruct s1, s2; done); try (destruct s1, s3; done); try (destruct s2, s3; done).
  destruct s1, s2, s3; try done; lia.
Qed.

Lemma dgtb_trans x y z : dgtb x y = true -> dgtb y z = true -> dgtb x z = true.
Proof. unfold dgtb. intros. eapply SFltb_trans; eauto. Qed.

Lemma dgtb_irrefl x : dgtb x x = false.
Proof. apply SFltb_irrefl. Qed.

Lemma dgtb_asym x y : dgtb x y = true -> dgtb y x = false.
Proof.
  intros H. destruct (dgtb y x) eqn:E; [|done].
  by rewrite <- (dgtb_irrefl x), (dgtb_trans _ _ _ H E).
Qed.

(** What does not exceed [h] does not exceed anything above [h]. *)
Lemma dgtb_below x y h : dgtb y h = true -> dgtb x h = false -> dgtb x y = false.
Proof.
  intros H Hx. destruct (dgtb x y) eqn:E; [|done].
  by rewrite <- Hx, (dgtb_trans _ _ _ E H).
Qed.
#[export] Hint Resolve dgtb_trans dgtb_irrefl dgtb_asym dgtb_below : cint.
