(* ===== verification/FloatBounds.v ===== *)
(** Bounds of [double] quotients: the ratio of two integers [0 <= a <= b] below
    2^53, divided and multiplied by 100 in [double] arithmetic, lies between 0
    and 100 and is never a NaN, although both operations round. *)
From S2P Require Import Prelude CFloat.

(** * Digits and shifts *)

Lemma digits2_bounds p : 2 ^ (Zpos (digits2_pos p) - 1) <= Zpos p < 2 ^ Zpos (digits2_pos p).
Proof.
  induction p as [p IH|p IH|]; cbn [digits2_pos]; [..|cbn; lia].
  all: rewrite Pos2Z.inj_succ; replace (Z.succ (Zpos (digits2_pos p)) - 1) with (Z.succ (Zpos (digits2_pos p) - 1)) by lia;
    rewrite !Z.pow_succ_r by lia; lia.
Qed.

(** The number of digits from the bounds. *)
Lemma digits2_unique p d : 2 ^ (d - 1) <= Zpos p < 2 ^ d -> 0 < d -> Zpos (digits2_pos p) = d.
Proof.
  intros [H1 H2] Hd. pose proof (digits2_bounds p) as [B1 B2]. set (k := Zpos (digits2_pos p)) in *.
  assert (0 < k) by (unfold k; lia). clearbody k.
  destruct (Z.lt_trichotomy k d) as [L|[L|L]]; [|done|].
  - pose proof (Z.pow_le_mono_r 2 k (d - 1)). lia.
  - pose proof (Z.pow_le_mono_r 2 d (k - 1)). lia.
Qed.

Lemma shr_1_m r : 0 <= shr_m r -> shr_m (shr_1 r) = shr_m r / 2.
Proof.
  destruct r as [m r s]. cbn [shr_m]. intros H. destruct m as [|[p|p|]|p]; try done; try lia; cbn [shr_1 shr_m].
  - apply Z.div_unique with 1; lia.
  - apply Z.div_unique with 0; lia.
Qed.

Lemma shr_1_exact m : 0 <= m -> (exists k, m = 2 * k) ->
  shr_1 (Build_shr_record m false false) = Build_shr_record (m / 2) false false.
Proof.
  intros H [k ->]. replace (2 * k / 2) with k by (rewrite Z.mul_comm, Z.div_mul; done). destruct k as [|p|p]; [done|done|lia].
Qed.

Lemma iter_shr_m p : forall r, 0 <= shr_m r -> shr_m (iter_pos shr_1 p r) = shr_m r / 2 ^ Zpos p.
Proof.
  assert (forall m a b, 0 < a -> 0 < b -> m / 2 ^ a / 2 ^ b = m / 2 ^ (a + b)) as Hd.
  { intros. rewrite Z.pow_add_r by lia. apply Z.div_div; try (apply Z.pow_nonzero; lia). apply Z.pow_pos_nonneg; lia. }
  assert (forall m a, 0 <= m -> 0 <= m / 2 ^ Zpos a) as Hp
    by (intros; apply Z.div_pos; [lia|]; apply Z.pow_pos_nonneg; lia).
  induction p as [p IH|p IH|]; intros r Hr; cbn [iter_pos].
  - assert (0 <= shr_m r / 2) by (apply Z.div_pos; lia).
    rewrite IH, IH, shr_1_m by (rewrite ?IH, ?shr_1_m; auto; rewrite shr_1_m; auto).
    change 2 with (2 ^ 1) at 1. rewrite Hd, Hd by lia. f_equal. f_equal. lia.
  - rewrite IH, IH by (rewrite ?IH; auto). rewrite Hd by lia. f_equal. f_equal. lia.
  - by rewrite shr_1_m.
Qed.

Lemma iter_shr_exact p : forall k, 0 <= k ->
  iter_pos shr_1 p (Build_shr_record (k * 2 ^ Zpos p) false false) = Build_shr_record k false false.
Proof.
  induction p as [p IH|p IH|]; intros k Hk; cbn [iter_pos].
  - replace (k * 2 ^ Zpos (xI p)) with (2 * (k * 2 ^ Zpos p * 2 ^ Zpos p)).
    2: { replace (Zpos (xI p)) with (1 + Zpos p + Zpos p) by lia. rewrite !Z.pow_add_r by lia. lia. }
    pose proof (Z.pow_pos_nonneg 2 (Zpos p)).
    rewrite shr_1_exact by (eauto; nia). rewrite (Z.mul_comm 2), Z.div_mul by done. rewrite IH by nia. by apply IH.
  - replace (k * 2 ^ Zpos (xO p)) with (k * 2 ^ Zpos p * 2 ^ Zpos p).
    2: { replace (Zpos (xO p)) with (Zpos p + Zpos p) by lia. rewrite !Z.pow_add_r by lia. lia. }
    pose proof (Z.pow_pos_nonneg 2 (Zpos p)). rewrite IH by nia. by apply IH.
  - change (2 ^ 1) with 2. rewrite shr_1_exact by (try exists k; lia). by rewrite Z.div_mul.
Qed.

(** * Rounding *)

Lemma round_range m l : 0 <= m -> m <= round_nearest_even m l <= m + 1.
Proof. intros. destruct l as [|[]]; cbn; try lia. destruct (Z.even m); lia. Qed.

(** The first shift and the rounding: the result is the floor or one more, and
    never passes an integer bound the value does not pass. *)
Lemma shr_round m l n q :
  0 <= m -> 0 <= n -> 
  (let r := fst (shr (shr_record_of_loc m l) 0 n) in round_nearest_even (shr_m r) (loc_of_shr_record r)) = q ->
  m / 2 ^ n <= q /\ forall B, m < B * 2 ^ n \/ (m = B * 2 ^ n /\ l = loc_Exact) -> q <= B.
Proof.
  intros Hm Hn <-. assert (shr_m (shr_record_of_loc m l) = m) as Hs by (by destruct l as [|[]]).
  assert (0 < 2 ^ n) as Hp by (apply Z.pow_pos_nonneg; lia).
  set (r := fst (shr (shr_record_of_loc m l) 0 n)).
  assert (shr_m r = m / 2 ^ n) as Hr.
  { unfold r, shr. destruct n as [|p|p]; [|cbn [fst]; rewrite iter_shr_m; by rewrite Hs|lia].
    cbn [fst]. rewrite Hs. by rewrite Z.div_1_r. }
  assert (0 <= m / 2 ^ n) by (by apply Z.div_pos).
  pose proof (round_range (shr_m r) (loc_of_shr_record r) ltac:(lia)) as R. split; [cbv zeta; lia|].
  intros B [HB|[-> ->]].
  - assert (m / 2 ^ n < B) by (apply Z.div_lt_upper_bound; lia). cbv zeta. lia.
  - assert (r = Build_shr_record B false false) as ->; [|done].
    unfold r, shr. cbn [shr_record_of_loc]. destruct n as [|p|p]; [|cbn [fst]; apply iter_shr_exact; nia|lia].
    cbn [fst]. f_equal. lia.
Qed.

(** [binary_round_aux] far from the ends of the range, on at least 53 digits. *)
Lemma round_aux_spec m ex l d :
  2 ^ (d - 1) <= Zpos m < 2 ^ d -> 53 <= d -> -1000 <= d + ex <= 900 ->
  exists q, Zpos m / 2 ^ (d - 53) <= q /\
    (forall B, Zpos m < B * 2 ^ (d - 53) \/ (Zpos m = B * 2 ^ (d - 53) /\ l = loc_Exact) -> q <= B) /\
    exists mz ez, binary_round_aux 53 1024 false (Zpos m) ex l = S754_finite false mz ez /\
      2 ^ 52 <= Zpos mz < 2 ^ 53 /\
      ((q < 2 ^ 53 /\ Zpos mz = q /\ ez = ex + (d - 53)) \/ (q = 2 ^ 53 /\ Zpos mz = 2 ^ 52 /\ ez = ex + (d - 53) + 1)).
Proof.
  intros Hd H53 He. pose proof (digits2_unique m d Hd ltac:(lia)) as Hdig.
  set (q := let r := fst (shr (shr_record_of_loc (Zpos m) l) 0 (d - 53)) in
            round_nearest_even (shr_m r) (loc_of_shr_record r)).
  destruct (shr_round (Zpos m) l (d - 53) q ltac:(lia) ltac:(lia) eq_refl) as [Q1 Q2].
  exists q. split; [done|]. split; [done|].
  assert (2 ^ d = 2 ^ 53 * 2 ^ (d - 53)) as E1 by (rewrite <- Z.pow_add_r by lia; f_equal; lia).
  assert (2 ^ (d - 1) = 2 ^ 52 * 2 ^ (d - 53)) as E2 by (rewrite <- Z.pow_add_r by lia; f_equal; lia).
  assert (q <= 2 ^ 53) as U by (apply Q2; left; lia).
  assert (2 ^ 52 <= q) as L.
  { etrans; [|exact Q1]. apply Z.div_le_lower_bound; [apply Z.pow_pos_nonneg; lia|]. lia. }
  assert (fst (shr (shr_record_of_loc (Zpos m) l) ex (d - 53)) = fst (shr (shr_record_of_loc (Zpos m) l) 0 (d - 53)) /\
          snd (shr (shr_record_of_loc (Zpos m) l) ex (d - 53)) = ex + (d - 53)) as [F1 F2].
  { unfold shr. destruct (d - 53) eqn:E; cbn; split; try done; lia. }
  assert (forall k, -1000 <= k -> fexp 53 1024 k = k - 53) as Hf by (intros; unfold fexp, emin; lia).
  unfold binary_round_aux, shr_fexp at 1. cbn [Zdigits2]. rewrite Hdig, Hf by lia.
  replace (d + ex - 53 - ex) with (d - 53) by lia.
  destruct (shr (shr_record_of_loc (Zpos m) l) ex (d - 53)) as [mrs e']. cbn [fst snd] in F1, F2. subst e'.
  rewrite F1. change (round_nearest_even _ _) with q.
  destruct q as [|qp|qp]; [lia| |lia]. unfold shr_fexp. cbn [Zdigits2 shr_record_of_loc].
  destruct (Z.eq_dec (Zpos qp) (2 ^ 53)) as [E|N].
  - rewrite (digits2_unique qp 54) by lia. rewrite Hf by lia. injection E as ->.
    replace (54 + (ex + (d - 53)) - 53 - (ex + (d - 53))) with 1 by lia.
    cbn [shr iter_pos shr_1 shr_m]. rewrite (proj2 (Z.leb_le _ _)) by lia.
    eexists _, _. split; [reflexivity|]. split; [lia|]. right. lia.
  - rewrite (digits2_unique qp 53) by lia. rewrite Hf by lia.
    replace (53 + (ex + (d - 53)) - 53 - (ex + (d - 53))) with 0 by lia. cbn [shr shr_m].
    rewrite (proj2 (Z.leb_le _ _)) by lia. eexists _, _. split; [reflexivity|]. split; [lia|]. left. lia.
Qed.

(** * Integers below 2^53 convert exactly *)

Lemma iter_xO p n : Zpos (Pos.iter xO p n) = Zpos p * 2 ^ Zpos n.
Proof.
  induction n as [|n IH] using Pos.peano_ind; [cbn; lia|].
  rewrite Pos.iter_succ, Pos2Z.inj_succ, Z.pow_succ_r by lia. rewrite Pos2Z.inj_xO, IH. lia.
Qed.

(** A mantissa of 53 digits and an exponent whose value is [z]. *)
Definition normal_of (z : Z) (m : positive) (e : Z) : Prop :=
  2 ^ 52 <= Zpos m < 2 ^ 53 /\ -52 <= e <= 0 /\ Zpos m = z * 2 ^ (- e).

Lemma round_exact m e :
  2 ^ 52 <= Zpos m < 2 ^ 53 -> -900 <= e <= 800 ->
  binary_round_aux 53 1024 false (Zpos m) e loc_Exact = S754_finite false m e.
Proof.
  intros Hm He. destruct (round_aux_spec m e loc_Exact 53) as (q & Q1 & Q2 & mz & ez & -> & _ & Q3); [lia..|].
  cbn in Q1, Q2. rewrite Z.div_1_r in Q1. specialize (Q2 (Zpos m) ltac:(right; split; [lia|done])).
  destruct Q3 as [(_ & Hz & ->)|(-> & _)]; [|lia]. f_equal; [|lia]. assert (Zpos mz = Zpos m) by lia. congruence.
Qed.

Lemma double_of_Z_exact z : 0 < z < 2 ^ 53 -> exists m e, double_of_Z z = S754_finite false m e /\ normal_of z m e.
Proof.
  intros Hz. destruct z as [|p|p]; [lia| |lia]. unfold double_of_Z, binary_normalize, binary_round.
  pose proof (digits2_bounds p) as [B1 B2]. set (d := Zpos (digits2_pos p)) in *. assert (0 < d) as Hd by (unfold d; lia).
  clearbody d. assert (d <= 53) as Hd53.
  { destruct (Z.le_gt_cases d 53); [done|]. pose proof (Z.pow_le_mono_r 2 53 (d - 1)). lia. }
  assert (fexp 53 1024 (d + 0) = d - 53) as -> by (unfold fexp, emin; lia). unfold shl_align. rewrite Z.sub_0_r.
  destruct (d - 53) as [|n|n] eqn:E; [|lia|].
  - assert (d = 53) as -> by lia. rewrite round_exact by lia. eexists _, _. split; [reflexivity|].
    unfold normal_of. cbn [Z.opp Z.pow]. lia.
  - assert (Zpos (Pos.iter xO p n) = Zpos p * 2 ^ (53 - d)) as Ei by (rewrite iter_xO; f_equal; f_equal; lia).
    assert (2 ^ 52 <= Zpos (Pos.iter xO p n) < 2 ^ 53) as Hi.
    { rewrite Ei. replace 52 with ((d - 1) + (53 - d)) by lia. replace 53 with (d + (53 - d)) at 4 by lia.
      rewrite !Z.pow_add_r by lia. pose proof (Z.pow_pos_nonneg 2 (53 - d)). split; [nia|]. apply Z.mul_lt_mono_pos_r; lia. }
    rewrite round_exact by lia. eexists _, _. split; [reflexivity|]. split; [done|]. split; [lia|].
    rewrite Ei. f_equal. f_equal. lia.
Qed.

(** * The quotient is at most 1 *)

(** At most 1, of full precision. *)
Definition at_most_one (m : positive) (e : Z) : Prop :=
  2 ^ 52 <= Zpos m < 2 ^ 53 /\ -200 <= e /\ (e <= -53 \/ (Zpos m = 2 ^ 52 /\ e = -52)).

Lemma normal_order a b m1 e1 m2 e2 :
  0 < a <= b -> normal_of a m1 e1 -> normal_of b m2 e2 -> e1 <= e2 /\ (e1 = e2 -> Zpos m1 <= Zpos m2).
Proof.
  intros Hab (A1 & A2 & A3) (B1 & B2 & B3). split.
  - destruct (Z.le_gt_cases e1 e2) as [|G]; [done|]. exfalso.
    replace (- e2) with (- e1 + (e1 - e2)) in B3 by lia. rewrite Z.pow_add_r in B3 by lia.
    assert (2 <= 2 ^ (e1 - e2)) by (apply (Z.pow_le_mono_r 2 1); lia).
    assert (0 < 2 ^ (- e1)) by (apply Z.pow_pos_nonneg; lia). set (X := 2 ^ (- e1)) in *. set (Y := 2 ^ (e1 - e2)) in *.
    assert (a * X <= b * X) by (apply Z.mul_le_mono_nonneg_r; lia). assert (b * X * 2 <= b * X * Y) by nia. lia.
  - intros ->. assert (0 < 2 ^ (- e2)) by (apply Z.pow_pos_nonneg; lia). nia.
Qed.

Lemma div_core m1 e1 m2 e2 :
  2 ^ 52 <= Zpos m1 < 2 ^ 53 -> 2 ^ 52 <= Zpos m2 < 2 ^ 53 -> -52 <= e1 <= 0 -> -52 <= e2 <= 0 ->
  SFdiv_core_binary 53 1024 (Zpos m1) e1 (Zpos m2) e2 =
  (Zpos m1 * 2 ^ 53 / Zpos m2, e1 - e2 - 53, new_location (Zpos m2) ((Zpos m1 * 2 ^ 53) mod Zpos m2)).
Proof.
  intros H1 H2 E1 E2. unfold SFdiv_core_binary. cbn [Zdigits2].
  rewrite (digits2_unique m1 53), (digits2_unique m2 53) by lia.
  assert (fexp 53 1024 (53 + e1 - (53 + e2)) = e1 - e2 - 53) as -> by (unfold fexp, emin; lia).
  rewrite Z.min_l by lia. replace (e1 - e2 - (e1 - e2 - 53)) with 53 by lia.
  rewrite Z.shiftl_mul_pow2 by lia. unfold Z.div, Z.modulo.
  by destruct (Z.div_eucl (Zpos m1 * 2 ^ 53) (Zpos m2)).
Qed.

Lemma ddiv_at_most_one a b m1 e1 m2 e2 :
  0 < a <= b -> normal_of a m1 e1 -> normal_of b m2 e2 ->
  exists m e, ddiv (S754_finite false m1 e1) (S754_finite false m2 e2) = S754_finite false m e /\ at_most_one m e.
Proof.
  intros Hab N1 N2. destruct (normal_order _ _ _ _ _ _ Hab N1 N2) as [O1 O2].
  destruct N1 as (A1 & A2 & _), N2 as (B1 & B2 & _).
  unfold ddiv, SFdiv. rewrite div_core by lia. cbn [xorb].
  set (N := Zpos m1 * 2 ^ 53). set (l := new_location _ _).
  assert (N = Zpos m2 * (N / Zpos m2) + N mod Zpos m2) as Hdm by (apply Z.div_mod; lia).
  pose proof (Z.mod_pos_bound N (Zpos m2) ltac:(lia)) as Hmod.
  assert (2 ^ 52 <= N / Zpos m2) as Q1 by (apply Z.div_le_lower_bound; unfold N; lia).
  assert (N / Zpos m2 < 2 ^ 54) as Q2 by (apply Z.div_lt_upper_bound; unfold N; lia).
  assert (e1 = e2 -> N / Zpos m2 < 2 ^ 53 \/ (N / Zpos m2 = 2 ^ 53 /\ l = loc_Exact)) as Q3.
  { intros E. specialize (O2 E). destruct (Z.eq_dec (Zpos m1) (Zpos m2)) as [Em|Em].
    - right. unfold l, N. rewrite Em. rewrite (Z.mul_comm (Zpos m2)), Z.div_mul, Z.mod_mul by done.
      split; [done|]. unfold new_location, new_location_even, new_location_odd. by destruct (Z.even _).
    - left. apply Z.div_lt_upper_bound; unfold N; lia. }
  destruct (N / Zpos m2) as [|Q|Q]; [lia| |lia]. clearbody N l.
  destruct (Z.lt_ge_cases (Zpos Q) (2 ^ 53)) as [L|L].
  - destruct (round_aux_spec Q (e1 - e2 - 53) l 53) as (q & R1 & R2 & mz & ez & -> & R3 & R4); [lia..|].
    cbn [Z.sub Z.pow] in R1, R2. exists mz, ez. split; [done|]. unfold at_most_one. split; [done|]. lia.
  - destruct (round_aux_spec Q (e1 - e2 - 53) l 54) as (q & R1 & R2 & mz & ez & -> & R3 & R4); [lia..|].
    change (54 - 53) with 1 in *. change (2 ^ 1) with 2 in *.
    exists mz, ez. split; [done|]. unfold at_most_one. split; [done|].
    destruct (Z.eq_dec e1 e2) as [E|E]; [|lia]. destruct (Q3 E) as [|[HQ ->]]; [lia|].
    specialize (R2 (2 ^ 52) ltac:(right; split; [lia|done])). lia.
Qed.

(** * Times 100 *)

Definition hundred : cdouble := double_of_Z 100.

Lemma hundred_eq : hundred = S754_finite false 7036874417766400 (-46).
Proof. vm_compute. reflexivity. Qed.

(** Between 0 and 100, and a number. *)
Definition percent_ok (x : cdouble) : Prop := SFleb (S754_zero false) x = true /\ SFleb x hundred = true.

Lemma SFleb_finite m1 e1 m2 e2 :
  e1 < e2 \/ (e1 = e2 /\ Zpos m1 <= Zpos m2) -> SFleb (S754_finite false m1 e1) (S754_finite false m2 e2) = true.
Proof.
  intros H. unfold SFleb, SFcompare. change (Pos.compare_cont Eq m1 m2) with (Pos.compare m1 m2).
  destruct (Z.compare_spec e1 e2); try done; [|lia]. destruct (Pos.compare_spec m1 m2); try done. lia.
Qed.

Lemma leb_hundred m e :
  e < -46 \/ (e = -46 /\ Zpos m <= 7036874417766400) -> percent_ok (S754_finite false m e).
Proof. intros H. split; [reflexivity|]. rewrite hundred_eq. by apply SFleb_finite. Qed.

Lemma dmul_hundred m e : at_most_one m e -> percent_ok (dmul (S754_finite false m e) hundred).
Proof.
  intros (H1 & H2 & H3). rewrite hundred_eq.
  unfold dmul, SFmul. cbn [xorb]. destruct H3 as [H3|[Hm ->]].
  2: { assert (m = 4503599627370496%positive) as -> by (apply Pos2Z.inj; rewrite Hm; reflexivity).
       vm_compute. split; reflexivity. }
  set (P := (m * 7036874417766400)%positive).
  assert (Zpos P = Zpos m * 7036874417766400) as HP by apply Pos2Z.inj_mul. clearbody P.
  destruct (Z.lt_ge_cases (Zpos P) (2 ^ 105)) as [L|L].
  - destruct (round_aux_spec P (e + -46) loc_Exact 105) as (q & R1 & R2 & mz & ez & -> & R3 & R4); [lia..|].
    apply leb_hundred. change (105 - 53) with 52 in *. lia.
  - destruct (round_aux_spec P (e + -46) loc_Exact 106) as (q & R1 & R2 & mz & ez & -> & R3 & R4); [lia..|].
    change (106 - 53) with 53 in *. specialize (R2 (100 * 2 ^ 46) ltac:(left; lia)).
    apply leb_hundred. lia.
Qed.

(** The percentage of [a] in [b]. *)
Lemma percent_bounds a b :
  0 <= a <= b -> 0 < b < 2 ^ 53 ->
  percent_ok (dmul (ddiv (double_of_Z a) (double_of_Z b)) (double_of_Z 100)).
Proof.
  intros Ha Hb. destruct (double_of_Z_exact b Hb) as (m2 & e2 & -> & N2).
  destruct (Z.eq_dec a 0) as [->|Hne]; [vm_compute; split; reflexivity|].
  destruct (double_of_Z_exact a ltac:(lia)) as (m1 & e1 & -> & N1).
  destruct (ddiv_at_most_one a b m1 e1 m2 e2) as (m & e & -> & H); [lia|done|done|].
  by apply dmul_hundred.
Qed.

(** All of it is exactly 100, and none of it is 0. *)
Lemma percent_ends b : 0 < b < 2 ^ 53 ->
  dmul (ddiv (double_of_Z b) (double_of_Z b)) (double_of_Z 100) = hundred /\
  dmul (ddiv (double_of_Z 0) (double_of_Z b)) (double_of_Z 100) = S754_zero false.
Proof.
  intros Hb. destruct (double_of_Z_exact b Hb) as (m & e & -> & N). split; [|reflexivity].
  destruct N as (H1 & H2 & _). unfold ddiv, SFdiv. rewrite div_core by lia. cbn [xorb].
  rewrite (Z.mul_comm (Zpos m)), Z.div_mul, Z.mod_mul by done.
  replace (e - e - 53) with (-53) by lia.
  assert (new_location (Zpos m) 0 = loc_Exact) as ->
    by (unfold new_location, new_location_even, new_location_odd; by destruct (Z.even _)).
  reflexivity.
Qed.
