(* ===== verification/Scanf.v ===== *)
(** What the sources use of [fscanf] and [printf]: words, unsigned numbers and
    literal text read from a file's bytes, decimal numbers printed, and that
    reading undoes printing. *)
From stdpp Require Import pretty.
From S2P Require Import Prelude.

(** * Reading *)

(** [%ns]: at most [n] characters up to white space. *)
Fixpoint word_of (n : nat) (l : list Z) : list Z :=
  match n, l with
  | S n, c :: l => if isspace c then [] else c :: word_of n l
  | _, _ => []
  end.

(** Leading white space is skipped; [None] when the input ends first. *)
Definition scan_word (n : nat) (l : list Z) : option (list Z * list Z) :=
  match skip_space l with
  | [] => None
  | l => let w := word_of n l in Some (w, drop (length w) l)
  end.

(** The word as the C string in its buffer. *)
Definition fscanf_word (n : nat) (file : list Z) : option string :=
  (fun p => cstr_of_bytes p.1) <$> scan_word n file.

Fixpoint digit_run (l : list Z) : list Z :=
  match l with
  | c :: l => if isdigit c then c :: digit_run l else []
  | [] => []
  end.

Definition scan_sign (l : list Z) : bool * list Z :=
  match l with
  | c :: l' => if c =? 45 then (true, l') else if c =? 43 then (false, l') else (false, l)
  | [] => (false, [])
  end.

(** [%llu]: an optional sign and at least one digit; it saturates. *)
Definition scan_u64 (l : list Z) : option (Z * list Z) :=
  let '(neg, l) := scan_sign (skip_space l) in
  match digit_run l with
  | [] => None
  | ds =>
      let v := digits_val 0 ds in
      Some (if v >? 2 ^ 64 - 1 then 2 ^ 64 - 1 else if neg then u64 (- v) else v, drop (length ds) l)
  end.

(** * Printing *)

(** [%d] and [%lld]. *)
Definition fmt_d (z : Z) : string := pretty z.

(** * Numbers *)

Lemma isdigit_range c : isdigit c = true -> 48 <= c <= 57.
Proof. unfold isdigit. intros. by bprop. Qed.

Lemma isdigit_not_space c : isdigit c = true -> isspace c = false.
Proof.
  intros H%isdigit_range. unfold isspace. rewrite (proj2 (Z.eqb_neq c 32)) by lia.
  by rewrite (proj2 (Z.leb_gt c 13)), andb_false_r by lia.
Qed.

Lemma pretty_char_digit (r : N) : (r < 10)%N ->
  Z.of_N (Ascii.N_of_ascii (pretty_N_char r)) = 48 + Z.of_N r.
Proof.
  intros Hr. assert (r = 0 \/ r = 1 \/ r = 2 \/ r = 3 \/ r = 4 \/ r = 5 \/ r = 6 \/ r = 7 \/ r = 8 \/ r = 9)%N as C by lia.
  repeat destruct C as [->|C]; try subst; reflexivity.
Qed.

(** The digits in front of [s], most significant first. *)
Lemma pretty_go_digits x : forall s, exists ds,
  bytes_of_string (pretty_N_go x s) = ds ++ bytes_of_string s /\
  Forall (fun c => isdigit c = true) ds /\ (x <> 0%N -> ds <> []) /\
  forall t, digits_val 0 (ds ++ t) = digits_val (Z.of_N x) t.
Proof.
  induction (N.lt_wf_0 x) as [x _ IH]; intros s.
  destruct (N.eq_dec x 0%N) as [->|Hx]; [exists []; rewrite pretty_N_go_0; done|].
  rewrite pretty_N_go_step by lia.
  pose proof (N.mod_lt x 10%N ltac:(done)) as Hr. pose proof (N.div_mod x 10%N ltac:(done)) as Hd.
  destruct (IH (x `div` 10)%N) with (s := String (pretty_N_char (x `mod` 10)%N) s) as (ds & E & F & _ & V);
    [apply N.div_lt; lia|].
  pose proof (pretty_char_digit _ Hr) as Hc. set (c := Z.of_N _) in Hc.
  assert (isdigit c = true) as Hdg.
  { unfold isdigit. rewrite Hc. set (r := (x `mod` 10)%N) in *. clearbody r.
    rewrite (proj2 (Z.leb_le 48 _)), (proj2 (Z.leb_le _ 57)) by lia. done. }
  exists (ds ++ [c]). split; [rewrite E; cbn [bytes_of_string]; by rewrite <- app_assoc|].
  split; [apply Forall_app; by repeat constructor|]. split; [by destruct ds|].
  intros t. rewrite <- app_assoc, V. cbn [app digits_val]. rewrite Hdg, Hc. f_equal.
  set (r := (x `mod` 10)%N) in *. set (q := (x `div` 10)%N) in *. clearbody r q. lia.
Qed.

(** A printed number is a non-empty run of digits with that value. *)
Lemma fmt_d_digits n : 0 <= n -> exists d ds,
  bytes_of_string (fmt_d n) = d :: ds /\ Forall (fun c => isdigit c = true) (d :: ds) /\
  forall t, digits_val 0 (d :: ds ++ t) = digits_val n t.
Proof.
  intros Hn. unfold fmt_d. destruct (Z.eq_dec n 0) as [->|Hz]; [exists 48, []; by repeat constructor|].
  assert (pretty n = pretty_N_go (Z.to_N n) "") as ->.
  { unfold pretty, pretty_Z. destruct n as [|p|p]; [done| |lia]. reflexivity. }
  destruct (pretty_go_digits (Z.to_N n) "") as (ds & E & F & N & V). rewrite Z2N.id in V by lia.
  destruct ds as [|d ds]; [destruct N; [lia|done]|]. exists d, ds.
  rewrite E. cbn [bytes_of_string]. by rewrite app_nil_r.
Qed.

Lemma digit_run_app ds t :
  Forall (fun c => isdigit c = true) ds -> match t with [] => True | c :: _ => isdigit c = false end ->
  digit_run (ds ++ t) = ds.
Proof.
  intros F Ht. induction F as [|c ds Hc F IH]; cbn; [destruct t as [|c t]; cbn; [done|by rewrite Ht]|]. by rewrite Hc, IH.
Qed.

Lemma skip_space_app sp l : Forall (fun c => isspace c = true) sp -> skip_space (sp ++ l) = skip_space l.
Proof. induction 1 as [|c sp Hc _ IH]; cbn; [done|]. by rewrite Hc. Qed.

Lemma skip_space_digit c l : isdigit c = true -> skip_space (c :: l) = c :: l.
Proof. intros H. cbn. by rewrite isdigit_not_space. Qed.

Lemma scan_sign_digit c l : isdigit c = true -> scan_sign (c :: l) = (false, c :: l).
Proof. intros H%isdigit_range. cbn. by rewrite !(proj2 (Z.eqb_neq _ _)) by lia. Qed.

(** Reading a number that was printed behind white space. *)
Lemma scan_u64_fmt sp n t :
  Forall (fun c => isspace c = true) sp -> in_u64 n -> match t with [] => True | c :: _ => isdigit c = false end ->
  scan_u64 (sp ++ bytes_of_string (fmt_d n) ++ t) = Some (n, t).
Proof.
  intros Hsp Hn Ht. unfold in_u64 in Hn. destruct (fmt_d_digits n) as (d & ds & E & F & V); [lia|].
  unfold scan_u64. rewrite skip_space_app by done. rewrite E. cbn [app].
  pose proof (proj1 (proj1 (Forall_cons _ _ _) F)) as Hd. rewrite skip_space_digit by done.
  rewrite scan_sign_digit by done. change (d :: ds ++ t) with ((d :: ds) ++ t). rewrite digit_run_app by done.
  specialize (V []). rewrite app_nil_r in V. change (digits_val n []) with n in V. cbv iota zeta. rewrite V.
  rewrite Z.gtb_ltb, (proj2 (Z.ltb_ge _ _)) by lia. by rewrite drop_app_length.
Qed.

Lemma word_of_app w t n :
  Forall (fun c => isspace c = false) w -> match t with [] => True | c :: _ => isspace c = true end ->
  (length w <= n)%nat -> word_of n (w ++ t) = w.
Proof.
  intros F Ht. revert n. induction F as [|c w Hc F IH]; intros n Hn.
  - destruct n, t as [|c t]; cbn; try done. by rewrite Ht.
  - destruct n as [|n]; cbn in Hn; [lia|]. cbn. rewrite Hc, IH by lia. done.
Qed.

(** Reading a word. *)
Lemma scan_word_app sp w t n :
  Forall (fun c => isspace c = true) sp -> Forall (fun c => isspace c = false) w -> w <> [] ->
  match t with [] => True | c :: _ => isspace c = true end -> (length w <= n)%nat ->
  scan_word n (sp ++ w ++ t) = Some (w, t).
Proof.
  intros Hsp Hw Hne Ht Hn. unfold scan_word. rewrite skip_space_app by done.
  destruct w as [|c w]; [done|]. cbn [app skip_space].
  pose proof (proj1 (proj1 (Forall_cons _ _ _) Hw)) as Hc. cbn in Hc. rewrite Hc.
  change (c :: w ++ t) with ((c :: w) ++ t). rewrite word_of_app by done. by rewrite drop_app_length.
Qed.

Lemma scan_word_start w t n :
  Forall (fun c => isspace c = false) w -> w <> [] ->
  match t with [] => True | c :: _ => isspace c = true end -> (length w <= n)%nat ->
  scan_word n (w ++ t) = Some (w, t).
Proof. by apply (scan_word_app []). Qed.
