(* ===== verification/Scheduler.v ===== *)
(** The placement scheduler of the master ([master/src/scheduler.c]): the
    worker, chunk and lease tables, the hard filters, the score and the
    operations of the public interface.  Each operation holds
    [g_sched_mutex] from its first read to its return, so it is one atomic
    transition of the state.  A table [g_x] with its count [g_x_count] is the
    list of its live entries. *)
From S2P Require Import Prelude CFloat.

Definition MAX_SWORKERS : nat := 64.
Definition MAX_SCHUNKS : nat := 128.

Record vom_worker_view := {
  wv_worker_id : string;
  wv_platform : Z;
  wv_runtime : Z;
  wv_cpu_units : Z;
  wv_reserv_cpu : Z;
  wv_free_memory_mb : Z;
  wv_reserv_mem_mb : Z;
  wv_battery_pct : cfloat;
  wv_active_chunks : Z;
  wv_has_touch_input : Z;
  wv_draining : Z;
  wv_healthy : Z;
  wv_reliability_score : cdouble
}.

Record vom_chunk_plan := {
  cp_chunk_id : Z;
  cp_workload_id : Z;
  cp_required_platform : Z;
  cp_required_runtime : Z;
  cp_required_cpu : Z;
  cp_required_memory_mb : Z;
  cp_requires_touch : Z;
  cp_is_blocked : bool;
  cp_preferred_node : Z
}.

Record vom_assignment_lease := {
  al_chunk_id : Z;
  al_assigned_worker_id : string;
  al_lease_expires_ms : Z;
  al_is_active : bool
}.

(** The file-scope tables. *)
Record sched := {
  g_workers : list vom_worker_view;
  g_chunks : list vom_chunk_plan;
  g_leases : list vom_assignment_lease
}.

(** * Field updates *)

Definition wv_set_reserved (w : vom_worker_view) (cpu mem active : Z) : vom_worker_view :=
  {| wv_worker_id := wv_worker_id w; wv_platform := wv_platform w;
     wv_runtime := wv_runtime w; wv_cpu_units := wv_cpu_units w;
     wv_reserv_cpu := cpu; wv_free_memory_mb := wv_free_memory_mb w;
     wv_reserv_mem_mb := mem; wv_battery_pct := wv_battery_pct w;
     wv_active_chunks := active; wv_has_touch_input := wv_has_touch_input w;
     wv_draining := wv_draining w; wv_healthy := wv_healthy w;
     wv_reliability_score := wv_reliability_score w |}.

Definition al_deactivate (l : vom_assignment_lease) : vom_assignment_lease :=
  {| al_chunk_id := al_chunk_id l; al_assigned_worker_id := al_assigned_worker_id l;
     al_lease_expires_ms := al_lease_expires_ms l; al_is_active := false |}.

Definition sc_set_workers (ws : list vom_worker_view) (s : sched) : sched :=
  {| g_workers := ws; g_chunks := g_chunks s; g_leases := g_leases s |}.
Definition sc_set_chunks (cs : list vom_chunk_plan) (s : sched) : sched :=
  {| g_workers := g_workers s; g_chunks := cs; g_leases := g_leases s |}.
Definition sc_set_leases (ls : list vom_assignment_lease) (s : sched) : sched :=
  {| g_workers := g_workers s; g_chunks := g_chunks s; g_leases := ls |}.

(** * Operations *)

Definition vom_scheduler_init : sched :=
  {| g_workers := []; g_chunks := []; g_leases := [] |}.

Definition vom_scheduler_register_worker (worker : ptr vom_worker_view) (s : sched) : Z * sched :=
  match worker with
  | NULL => (-1, s)
  | Some worker =>
      match find_idx (fun w => strcmp_eq (wv_worker_id w) (wv_worker_id worker)) (g_workers s) with
      | Some i => (0, sc_set_workers (<[i := worker]> (g_workers s)) s)
      | None =>
          if (MAX_SWORKERS <=? length (g_workers s))%nat then (-1, s)
          else (0, sc_set_workers (g_workers s ++ [worker]) s)
      end
  end.

Definition vom_scheduler_submit_ready_chunk (chunk : ptr vom_chunk_plan) (s : sched) : Z * sched :=
  match chunk with
  | NULL => (-1, s)
  | Some chunk =>
      match find_idx (fun c => cp_chunk_id c =? cp_chunk_id chunk) (g_chunks s) with
      | Some i => (0, sc_set_chunks (<[i := chunk]> (g_chunks s)) s)
      | None =>
          if (MAX_SCHUNKS <=? length (g_chunks s))%nat then (-1, s)
          else (0, sc_set_chunks (g_chunks s ++ [chunk]) s)
      end
  end.

Definition evaluate_hard_filters (chunk : vom_chunk_plan) (worker : vom_worker_view) : bool :=
  if (wv_healthy worker =? 0) || negb (wv_draining worker =? 0) then false
  else if negb (wv_platform worker =? cp_required_platform chunk) then false
  else if negb (wv_runtime worker =? cp_required_runtime chunk) then false
  else if negb (cp_requires_touch chunk =? 0) && (wv_has_touch_input worker =? 0) then false
  else
    let available_cpu :=
      if wv_cpu_units worker >? wv_reserv_cpu worker
      then wv_cpu_units worker - wv_reserv_cpu worker else 0 in
    if available_cpu <? cp_required_cpu chunk then false
    else
      let available_mem :=
        if wv_free_memory_mb worker >? wv_reserv_mem_mb worker
        then u64 (wv_free_memory_mb worker - wv_reserv_mem_mb worker) else 0 in
      if available_mem <? cp_required_memory_mb chunk then false else true.

Definition calculate_worker_score (chunk : vom_chunk_plan) (worker : vom_worker_view) : cdouble :=
  let score := double_of_Z 0 in
  let total_cpu_capacity := double_of_Z (wv_cpu_units worker) in
  let free_cpu_ratio :=
    ddiv (double_of_Z (wv_cpu_units worker - wv_reserv_cpu worker)) total_cpu_capacity in
  let score := dadd score (dmul free_cpu_ratio (double_of_Z 40)) in
  let score := dadd score (dmul (wv_reliability_score worker) (double_of_Z 30)) in
  let worker_node_numeric_id := u32 (atoi (str_skip 7 (wv_worker_id worker))) in
  let score :=
    if worker_node_numeric_id =? cp_preferred_node chunk
    then dadd score (double_of_Z 20) else score in
  if fgeb (wv_battery_pct worker) (float_of_Z 0)
  then dadd score
         (dmul (ddiv (double_of_float (wv_battery_pct worker)) (double_of_Z 100)) (double_of_Z 10))
  else dadd score (double_of_Z 10).

(** The placement scan of the tick: [w] is the index of the first worker of
    [ws]; [best] and [hi] are [best_worker_idx] ([-1] is [None]) and
    [highest_score]. *)
Fixpoint scan_workers (chunk : vom_chunk_plan) (w : nat) (ws : list vom_worker_view)
    (best : option nat) (hi : cdouble) : option nat * cdouble :=
  match ws with
  | [] => (best, hi)
  | worker :: ws =>
      if evaluate_hard_filters chunk worker then
        let score := calculate_worker_score chunk worker in
        if dgtb score hi then scan_workers chunk (S w) ws (Some w) score
        else scan_workers chunk (S w) ws best hi
      else scan_workers chunk (S w) ws best hi
  end.

Definition best_worker (chunk : vom_chunk_plan) (ws : list vom_worker_view) : option nat :=
  fst (scan_workers chunk 0 ws None (double_of_Z (-1))).

(** What a worker gets back when a lease on [chunk] ends. *)
Definition give_back (chunk : vom_chunk_plan) (w : vom_worker_view) : vom_worker_view :=
  wv_set_reserved w
    (if wv_reserv_cpu w >=? cp_required_cpu chunk
     then u8 (wv_reserv_cpu w - cp_required_cpu chunk) else wv_reserv_cpu w)
    (if wv_reserv_mem_mb w >=? cp_required_memory_mb chunk
     then u64 (wv_reserv_mem_mb w - cp_required_memory_mb chunk) else wv_reserv_mem_mb w)
    (s32 (wv_active_chunks w - 1)).

Definition reserve (chunk : vom_chunk_plan) (w : vom_worker_view) : vom_worker_view :=
  wv_set_reserved w
    (u8 (wv_reserv_cpu w + cp_required_cpu chunk))
    (u64 (wv_reserv_mem_mb w + cp_required_memory_mb chunk))
    (s32 (wv_active_chunks w + 1)).

(** [for (w...) if (strcmp (g_workers[w].worker_id, id) == 0) { ...; break; }] *)
Definition return_resources (chunk : vom_chunk_plan) (id : string)
    (ws : list vom_worker_view) : list vom_worker_view :=
  match find_idx (fun w => strcmp_eq (wv_worker_id w) id) ws with
  | Some w => alter (give_back chunk) w ws
  | None => ws
  end.

(** The lease check at the head of the tick's loop body: the flag is
    [already_leased]; an expired lease is switched off and its resources
    returned. *)
Definition check_lease (now : Z) (chunk : vom_chunk_plan) (s : sched) : bool * sched :=
  match find_idx (fun l => (al_chunk_id l =? cp_chunk_id chunk) && al_is_active l) (g_leases s) with
  | Some i =>
      match g_leases s !! i with
      | Some l =>
          if now >? al_lease_expires_ms l then
            (false,
             sc_set_workers (return_resources chunk (al_assigned_worker_id l) (g_workers s))
               (sc_set_leases (alter al_deactivate i (g_leases s)) s))
          else (true, s)
      | None => (false, s)
      end
  | None => (false, s)
  end.

Definition new_lease (now : Z) (chunk : vom_chunk_plan) (target : vom_worker_view) :
    vom_assignment_lease :=
  {| al_chunk_id := cp_chunk_id chunk;
     al_assigned_worker_id := strncpy 63 (wv_worker_id target);
     al_lease_expires_ms := u64 (now + 30000);
     al_is_active := true |}.

(** The placement half of the loop body.  [out] is [out_leases] up to
    [dispatched_count]. *)
Definition place_chunk (now : Z) (chunk : vom_chunk_plan) (s : sched)
    (out : list vom_assignment_lease) : sched * list vom_assignment_lease :=
  match best_worker chunk (g_workers s) with
  | None => (s, out)
  | Some b =>
      match g_workers s !! b with
      | None => (s, out)
      | Some target =>
          let s1 := sc_set_workers (alter (reserve chunk) b (g_workers s)) s in
          let l := new_lease now chunk target in
          match find_idx (fun l => negb (al_is_active l)) (g_leases s) with
          | Some i => (sc_set_leases (<[i := l]> (g_leases s)) s1, out ++ [l])
          | None =>
              if (length (g_leases s) <? MAX_SCHUNKS)%nat
              then (sc_set_leases (g_leases s ++ [l]) s1, out ++ [l])
              else (s1, out)
          end
      end
  end.

(** One iteration of the tick's loop over [g_chunks]. *)
Definition tick_chunk (now : Z) (chunk : vom_chunk_plan) (s : sched)
    (out : list vom_assignment_lease) : sched * list vom_assignment_lease :=
  if cp_is_blocked chunk then (s, out)
  else
    let (already_leased, s1) := check_lease now chunk s in
    if already_leased then (s1, out) else place_chunk now chunk s1 out.

Fixpoint tick_loop (now max_leases : Z) (cs : list vom_chunk_plan) (s : sched)
    (out : list vom_assignment_lease) : sched * list vom_assignment_lease :=
  match cs with
  | [] => (s, out)
  | chunk :: cs =>
      if Z.of_nat (length out) >=? max_leases then (s, out)
      else let (s1, out1) := tick_chunk now chunk s out in tick_loop now max_leases cs s1 out1
  end.

(** Returns [dispatched_count], the leases written to [out_leases] and the
    new state. *)
Definition vom_scheduler_tick (current_time_ms max_leases : Z) (s : sched) :
    Z * list vom_assignment_lease * sched :=
  let (s1, out) := tick_loop current_time_ms max_leases (g_chunks s) s [] in
  (Z.of_nat (length out), out, s1).

Definition vom_scheduler_release_lease (chunk_id : Z) (s : sched) : sched :=
  match find_idx (fun l => (al_chunk_id l =? chunk_id) && al_is_active l) (g_leases s) with
  | None => s
  | Some i =>
      match g_leases s !! i with
      | None => s
      | Some l =>
          let s1 := sc_set_leases (alter al_deactivate i (g_leases s)) s in
          match find_idx (fun c => cp_chunk_id c =? chunk_id) (g_chunks s) with
          | None => s1
          | Some c =>
              match g_chunks s !! c with
              | None => s1
              | Some chunk =>
                  sc_set_chunks (delete c (g_chunks s))
                    (sc_set_workers
                       (return_resources chunk (al_assigned_worker_id l) (g_workers s)) s1)
              end
          end
      end
  end.

(** * The repository's own scheduler tests, evaluated *)

Definition test_worker (id : string) (cpu mem draining : Z) : vom_worker_view :=
  {| wv_worker_id := id; wv_platform := 0; wv_runtime := 0; wv_cpu_units := cpu;
     wv_reserv_cpu := 0; wv_free_memory_mb := mem; wv_reserv_mem_mb := 0;
     wv_battery_pct := S754_zero false; wv_active_chunks := 0; wv_has_touch_input := 0;
     wv_draining := draining; wv_healthy := 1;
     wv_reliability_score := double_of_Z 1 |}.

Definition test_chunk (id cpu mem : Z) : vom_chunk_plan :=
  {| cp_chunk_id := id; cp_workload_id := 601; cp_required_platform := 0;
     cp_required_runtime := 0; cp_required_cpu := cpu; cp_required_memory_mb := mem;
     cp_requires_touch := 0; cp_is_blocked := false; cp_preferred_node := 0 |}.

Definition test_sched (w : vom_worker_view) (c : vom_chunk_plan) : sched :=
  snd (vom_scheduler_submit_ready_chunk (Some c)
         (snd (vom_scheduler_register_worker (Some w) vom_scheduler_init))).

Example test_tick_assigns_chunk :
  let s := test_sched (test_worker "worker-01" 8 16384 0) (test_chunk 2001 2 512) in
  fst (vom_scheduler_tick 1000 10 s) =
  (1, [ {| al_chunk_id := 2001; al_assigned_worker_id := "worker-01";
           al_lease_expires_ms := 31000; al_is_active := true |} ]).
Proof. vm_compute. reflexivity. Qed.

Example test_reject_insufficient_cpu :
  let s := test_sched (test_worker "worker-tiny" 1 4096 0) (test_chunk 3001 8 512) in
  fst (fst (vom_scheduler_tick 1000 10 s)) = 0.
Proof. vm_compute. reflexivity. Qed.

Example test_reject_draining_worker :
  let s := test_sched (test_worker "worker-drain" 8 16384 1) (test_chunk 4001 1 256) in
  fst (fst (vom_scheduler_tick 1000 10 s)) = 0.
Proof. vm_compute. reflexivity. Qed.

Example test_lease_release :
  let s := test_sched (test_worker "worker-01" 4 4096 0) (test_chunk 5001 2 1024) in
  let s1 := snd (vom_scheduler_tick 1000 10 s) in
  let s2 := vom_scheduler_release_lease 5001 s1 in
  let s3 := snd (vom_scheduler_submit_ready_chunk (Some (test_chunk 5002 2 1024)) s2) in
  fst (fst (vom_scheduler_tick 2000 10 s3)) = 1.
Proof. vm_compute. reflexivity. Qed.
