(* ===== verification/SchedulerInv.v ===== *)
(** Invariants of the scheduler over every reachable state: table sizes and
    keys, capacity, one active lease per chunk, a lease slot for every
    dispatched chunk, and exact accounting of the reserved resources. *)
From S2P Require Import Prelude CFloat Scheduler.

(** * Well-formed tables *)

(** A worker view the interface accepts: fields in range, a terminated
    identifier, and no more reserved than the worker owns. *)
Definition worker_ok (w : vom_worker_view) : Prop :=
  (String.length (wv_worker_id w) <= 63)%nat /\
  0 <= wv_reserv_cpu w <= wv_cpu_units w /\ wv_cpu_units w < 2 ^ 8 /\
  0 <= wv_reserv_mem_mb w <= wv_free_memory_mb w /\ wv_free_memory_mb w < 2 ^ 64.

Definition chunk_ok (c : vom_chunk_plan) : Prop :=
  in_u8 (cp_required_cpu c) /\ in_u64 (cp_required_memory_mb c).

Definition active_leases (ls : list vom_assignment_lease) : list vom_assignment_lease :=
  List.filter al_is_active ls.

(** The chunks that hold an active lease. *)
Definition active_ids (ls : list vom_assignment_lease) : list Z :=
  al_chunk_id <$> active_leases ls.

Record sched_inv (s : sched) : Prop := {
  inv_workers_ok : Forall worker_ok (g_workers s);
  inv_workers_len : (length (g_workers s) <= MAX_SWORKERS)%nat;
  inv_workers_keys : NoDup (wv_worker_id <$> g_workers s);
  inv_chunks_ok : Forall chunk_ok (g_chunks s);
  inv_chunks_len : (length (g_chunks s) <= MAX_SCHUNKS)%nat;
  inv_chunks_keys : NoDup (cp_chunk_id <$> g_chunks s);
  inv_leases_len : (length (g_leases s) <= MAX_SCHUNKS)%nat;
  inv_leases_keys : NoDup (active_ids (g_leases s));
  inv_leases_chunk : forall id, id ∈ active_ids (g_leases s) -> id ∈ cp_chunk_id <$> g_chunks s;
  inv_leases_worker : forall l, l ∈ g_leases s -> al_is_active l = true ->
    al_assigned_worker_id l ∈ wv_worker_id <$> g_workers s
}.

(** The public operations, each one atomic step. *)
Inductive sched_step : sched -> sched -> Prop :=
| step_register s w : worker_ok w ->
    sched_step s (snd (vom_scheduler_register_worker (Some w) s))
| step_submit s c : chunk_ok c ->
    sched_step s (snd (vom_scheduler_submit_ready_chunk (Some c) s))
| step_tick s now max :
    sched_step s (snd (vom_scheduler_tick now max s))
| step_release s id :
    sched_step s (vom_scheduler_release_lease id s).

Inductive sched_reachable : sched -> Prop :=
| reach_init : sched_reachable vom_scheduler_init
| reach_step s t : sched_reachable s -> sched_step s t -> sched_reachable t.

(** * Exact accounting *)

(** What the chunk numbered [id] asks for, [f] being one of its demands. *)
Definition chunk_req (f : vom_chunk_plan -> Z) (cs : list vom_chunk_plan) (id : Z) : Z :=
  sumZ (fun c => if cp_chunk_id c =? id then f c else 0) cs.

(** What lease [l] costs worker [wid]. *)
Definition lease_cost (f : vom_chunk_plan -> Z) (cs : list vom_chunk_plan) (wid : string)
    (l : vom_assignment_lease) : Z :=
  if al_is_active l && strcmp_eq (al_assigned_worker_id l) wid
  then chunk_req f cs (al_chunk_id l) else 0.

Definition leased (f : vom_chunk_plan -> Z) (s : sched) (wid : string) : Z :=
  sumZ (lease_cost f (g_chunks s) wid) (g_leases s).

(** Every worker has reserved exactly what its active leases ask for. *)
Definition sched_exact (s : sched) : Prop :=
  forall w, w ∈ g_workers s ->
    wv_reserv_cpu w = leased cp_required_cpu s (wv_worker_id w) /\
    wv_reserv_mem_mb w = leased cp_required_memory_mb s (wv_worker_id w) /\
    wv_active_chunks w = leased (fun _ => 1) s (wv_worker_id w).

(** The steps that keep the books: a worker joins once with nothing reserved,
    and a chunk is not resubmitted while it holds a lease. *)
Inductive fresh_step : sched -> sched -> Prop :=
| fresh_register s w : worker_ok w ->
    wv_worker_id w ∉ wv_worker_id <$> g_workers s ->
    wv_reserv_cpu w = 0 -> wv_reserv_mem_mb w = 0 -> wv_active_chunks w = 0 ->
    fresh_step s (snd (vom_scheduler_register_worker (Some w) s))
| fresh_submit s c : chunk_ok c -> cp_chunk_id c ∉ active_ids (g_leases s) ->
    fresh_step s (snd (vom_scheduler_submit_ready_chunk (Some c) s))
| fresh_tick s now max : fresh_step s (snd (vom_scheduler_tick now max s))
| fresh_release s id : fresh_step s (vom_scheduler_release_lease id s).

Inductive fresh_reachable : sched -> Prop :=
| fresh_init : fresh_reachable vom_scheduler_init
| fresh_more s t : fresh_reachable s -> fresh_step s t -> fresh_reachable t.

(** * Hard filters and score *)

Lemma hard_filters_spec c w :
  worker_ok w -> chunk_ok c -> evaluate_hard_filters c w = true ->
  wv_healthy w <> 0 /\ wv_draining w = 0 /\ wv_platform w = cp_required_platform c /\
  wv_runtime w = cp_required_runtime c /\
  (cp_requires_touch c <> 0 -> wv_has_touch_input w <> 0) /\
  wv_reserv_cpu w + cp_required_cpu c <= wv_cpu_units w /\
  wv_reserv_mem_mb w + cp_required_memory_mb c <= wv_free_memory_mb w.
Proof.
  intros (_ & Hc & Hc8 & Hm & Hm64) ([Hr _] & [Hq _]). unfold evaluate_hard_filters.
  repeat (destr_if; try done); bprop; intros _; repeat split; auto; try lia.
  all: try (match goal with H : _ && _ = false |- _ => apply andb_false_iff in H; destruct H end;
            bprop; congruence).
  all: repeat destr_if_hyp; bprop; rewrite ?u64_id in * by (unfold in_u64; lia); lia.
Qed.

(** [scan_workers] keeps the best eligible worker seen so far. *)
Lemma scan_workers_spec c ws : forall w best hi best' hi',
  scan_workers c w ws best hi = (best', hi') ->
  (best' = best /\ hi' = hi \/
   exists i x, best' = Some (w + i)%nat /\ ws !! i = Some x /\
     evaluate_hard_filters c x = true /\ hi' = calculate_worker_score c x /\
     dgtb hi' hi = true) /\
  (forall i x, ws !! i = Some x -> evaluate_hard_filters c x = true ->
     dgtb (calculate_worker_score c x) hi' = false).
Proof.
  induction ws as [|x ws IH]; intros w best hi best' hi' H; cbn in H.
  - injection H as <- <-. split; [by left|done].
  - destruct (evaluate_hard_filters c x) eqn:F; [destruct (dgtb _ hi) eqn:G|].
    + destruct (IH _ _ _ _ _ H) as [Hb Hmax]. split.
      * right. destruct Hb as [[-> ->]|(i & y & -> & Hy & Fy & -> & Gy)].
        -- exists O, x. rewrite Nat.add_0_r. done.
        -- exists (S i), y. rewrite Nat.add_succ_r. eauto 10 with cint.
      * intros [|i] y Hy Fy; [|by eapply Hmax]. injection Hy as <-.
        destruct Hb as [[-> ->]|(i & y & -> & Hy & Fy' & -> & Gy)]; eauto with cint.
    + destruct (IH _ _ _ _ _ H) as [Hb Hmax]. split.
      * destruct Hb as [|(i & y & -> & Hy & Fy & -> & Gy)]; [by left|right].
        exists (S i), y. rewrite Nat.add_succ_r. done.
      * intros [|i] y Hy Fy; [|by eapply Hmax]. injection Hy as <-.
        destruct Hb as [[-> ->]|(i & y & -> & Hy & Fy' & -> & Gy)]; eauto with cint.
    + destruct (IH _ _ _ _ _ H) as [Hb Hmax]. split.
      * destruct Hb as [|(i & y & -> & Hy & Fy & -> & Gy)]; [by left|right].
        exists (S i), y. rewrite Nat.add_succ_r. done.
      * intros [|i] y Hy Fy; [cbn in Hy; congruence|by eapply Hmax].
Qed.

Lemma best_worker_eligible c ws b :
  best_worker c ws = Some b -> exists x, ws !! b = Some x /\ evaluate_hard_filters c x = true.
Proof.
  unfold best_worker. intros H.
  destruct (scan_workers c 0 ws None (double_of_Z (-1))) as [b' hi] eqn:E.
  cbn in H. subst. destruct (scan_workers_spec _ _ _ _ _ _ _ E) as [[[? _]|(i & x & Hi & Hx & F & _)] _];
    [done|]. injection Hi as ->. eauto.
Qed.

(** * The tables *)

Lemma give_back_key c w : wv_worker_id (give_back c w) = wv_worker_id w.
Proof. done. Qed.
Lemma reserve_key c w : wv_worker_id (reserve c w) = wv_worker_id w.
Proof. done. Qed.

Lemma return_resources_keys c id ws :
  wv_worker_id <$> return_resources c id ws = wv_worker_id <$> ws.
Proof. unfold return_resources. destruct (find_idx _ _); [|done]. by apply fmap_alter_same. Qed.

Lemma return_resources_len c id ws : length (return_resources c id ws) = length ws.
Proof. unfold return_resources. destruct (find_idx _ _); [|done]. apply length_alter. Qed.

Lemma give_back_ok c w : chunk_ok c -> worker_ok w -> worker_ok (give_back c w).
Proof.
  intros ([Hc _] & [Hm _]) (Hid & H). unfold worker_ok, give_back. cbn. split; [done|].
  repeat destr_if; bprop; rewrite ?u8_id, ?u64_id by (unfold in_u8, in_u64; lia); lia.
Qed.

Lemma return_resources_ok c id ws :
  chunk_ok c -> Forall worker_ok ws -> Forall worker_ok (return_resources c id ws).
Proof.
  intros Hc Hws. unfold return_resources. destruct (find_idx _ _); [|done].
  apply Forall_alter_one; [done|]. intros. by apply give_back_ok.
Qed.

Lemma reserve_ok c w :
  chunk_ok c -> worker_ok w -> evaluate_hard_filters c w = true -> worker_ok (reserve c w).
Proof.
  intros Hc Hw F. destruct (hard_filters_spec c w Hw Hc F) as (_ & _ & _ & _ & _ & Hcpu & Hmem).
  destruct Hc as ([Hc _] & [Hm _]). destruct Hw as (Hid & H).
  unfold worker_ok, reserve. cbn. split; [done|].
  rewrite u8_id, u64_id by (unfold in_u8, in_u64; lia). lia.
Qed.

(** * The active leases *)

Lemma active_ids_app ls l :
  al_is_active l = true -> active_ids (ls ++ [l]) = active_ids ls ++ [al_chunk_id l].
Proof.
  intros H. unfold active_ids, active_leases. rewrite List.filter_app. cbn. rewrite H.
  by rewrite fmap_app.
Qed.

Lemma active_ids_deactivate ls i l :
  ls !! i = Some l -> al_is_active l = true ->
  active_ids ls ≡ₚ al_chunk_id l :: active_ids (alter al_deactivate i ls).
Proof.
  unfold active_ids, active_leases. revert i. induction ls as [|x ls IH]; intros [|i] H Ha; try done.
  - injection H as ->. cbn. by rewrite Ha.
  - specialize (IH i H Ha). cbn. destruct (al_is_active x); cbn; [|done].
    rewrite IH. apply Permutation_swap.
Qed.

Lemma active_ids_insert ls i l n :
  ls !! i = Some l -> al_is_active l = false -> al_is_active n = true ->
  active_ids (<[i := n]> ls) ≡ₚ al_chunk_id n :: active_ids ls.
Proof.
  unfold active_ids, active_leases. revert i. induction ls as [|x ls IH]; intros [|i] H Ha Hn; try done.
  - injection H as ->. cbn. by rewrite Ha, Hn.
  - specialize (IH i H Ha Hn).
    change (<[S i := n]> (x :: ls)) with (x :: <[i := n]> ls).
    cbn. destruct (al_is_active x); cbn; [|done]. rewrite IH. apply Permutation_swap.
Qed.

Lemma elem_of_active_ids ls id :
  id ∈ active_ids ls <-> exists l, l ∈ ls /\ al_is_active l = true /\ al_chunk_id l = id.
Proof.
  unfold active_ids, active_leases. rewrite list_elem_of_fmap. setoid_rewrite list_elem_of_In.
  setoid_rewrite filter_In. split; intros (l & H); exists l; naive_solver.
Qed.

Lemma active_ids_all ls :
  find_idx (fun l => negb (al_is_active l)) ls = None -> length (active_ids ls) = length ls.
Proof.
  rewrite find_idx_None. intros H. unfold active_ids. rewrite length_fmap.
  apply countb_all. eapply Forall_impl; [exact H|]. intros l Hl. by apply negb_false_iff in Hl.
Qed.

Lemma find_active_None ls id :
  find_idx (fun l => (al_chunk_id l =? id) && al_is_active l) ls = None <-> id ∉ active_ids ls.
Proof.
  rewrite find_idx_None, Forall_forall, elem_of_active_ids. split.
  - intros H (l & Hl & Ha & <-). specialize (H l Hl). by rewrite Z.eqb_refl, Ha in H.
  - intros H l Hl. destruct (_ && _) eqn:E; [|done]. bprop. destruct H. eauto.
Qed.
#[export] Hint Resolve give_back_ok reserve_ok return_resources_ok : tbl.

(** * The two halves of the loop body *)

(** What the end of a lease does to the tables. *)
Definition end_lease (chunk : vom_chunk_plan) (i : nat) (l : vom_assignment_lease) (s : sched) : sched :=
  sc_set_workers (return_resources chunk (al_assigned_worker_id l) (g_workers s))
    (sc_set_leases (alter al_deactivate i (g_leases s)) s).

(** [ls'] is [ls] with [l] in a free slot. *)
Definition slot_write (ls : list vom_assignment_lease) (l : vom_assignment_lease)
    (ls' : list vom_assignment_lease) : Prop :=
  (exists i x, ls !! i = Some x /\ al_is_active x = false /\ ls' = <[i := l]> ls) \/
  ((length ls < MAX_SCHUNKS)%nat /\ ls' = ls ++ [l]).

Lemma check_lease_cases now c s b s' :
  check_lease now c s = (b, s') ->
  (b = true /\ s' = s /\ cp_chunk_id c ∈ active_ids (g_leases s)) \/
  (b = false /\ s' = s /\ cp_chunk_id c ∉ active_ids (g_leases s)) \/
  (b = false /\ exists i l, g_leases s !! i = Some l /\ al_is_active l = true /\
     al_chunk_id l = cp_chunk_id c /\ al_lease_expires_ms l < now /\ s' = end_lease c i l s).
Proof.
  unfold check_lease. intros H. destruct (find_idx _ _) as [i|] eqn:E.
  - find_idx_inv E. rewrite Hx in H. bprop. destr_if_hyp; simplify_eq; bprop.
    + right; right. split; [done|]. exists i, x. repeat split; auto.
    + left. repeat split; auto. apply elem_of_active_ids. exists x.
      split; [by eapply list_elem_of_lookup_2|done].
  - simplify_eq. right; left. by rewrite <- find_active_None.
Qed.

Lemma place_chunk_cases now c s out s' out' :
  place_chunk now c s out = (s', out') ->
  (s' = s /\ out' = out /\ best_worker c (g_workers s) = None) \/
  exists b w, best_worker c (g_workers s) = Some b /\ g_workers s !! b = Some w /\
    evaluate_hard_filters c w = true /\
    let s1 := sc_set_workers (alter (reserve c) b (g_workers s)) s in
    (exists ls', slot_write (g_leases s) (new_lease now c w) ls' /\
       s' = sc_set_leases ls' s1 /\ out' = out ++ [new_lease now c w]) \/
    (s' = s1 /\ out' = out /\ (MAX_SCHUNKS <= length (g_leases s))%nat /\
     find_idx (fun l => negb (al_is_active l)) (g_leases s) = None).
Proof.
  unfold place_chunk. intros H. destruct (best_worker _ _) as [b|] eqn:B; [|left; by simplify_eq].
  destruct (best_worker_eligible _ _ _ B) as (w & Hw & F). rewrite Hw in H.
  right. exists b, w. do 3 (split; [done|]). cbn zeta.
  destruct (find_idx _ _) as [i|] eqn:E.
  - find_idx_inv E. bprop. simplify_eq. left. eexists. split; [|done]. left. eauto.
  - destr_if_hyp; simplify_eq.
    + apply Nat.ltb_lt in Heqb0. left. eexists. split; [|done]. by right.
    + apply Nat.ltb_ge in Heqb0. by right.
Qed.

Lemma active_ids_slot_write ls l ls' :
  slot_write ls l ls' -> al_is_active l = true -> active_ids ls' ≡ₚ al_chunk_id l :: active_ids ls.
Proof.
  intros [(i & x & Hx & Ha & ->)|(_ & ->)] Hl.
  - by eapply active_ids_insert.
  - rewrite active_ids_app by done. by rewrite Permutation_app_comm.
Qed.

Lemma slot_write_len ls l ls' :
  slot_write ls l ls' -> (length ls <= MAX_SCHUNKS)%nat -> (length ls' <= MAX_SCHUNKS)%nat.
Proof.
  intros [(i & x & Hx & Ha & ->)|(Hlt & ->)] Hlen.
  - by rewrite length_insert.
  - rewrite length_app. cbn. lia.
Qed.

Lemma sumZ_slot_write f ls l ls' :
  (forall x, al_is_active x = false -> f x = 0) ->
  slot_write ls l ls' -> sumZ f ls' = sumZ f ls + f l.
Proof.
  intros Hf [(i & x & Hx & Ha & ->)|(_ & ->)].
  - rewrite (sumZ_insert _ _ _ _ _ Hx), (Hf x Ha). lia.
  - by rewrite sumZ_snoc.
Qed.

(** At most one active lease per pending chunk, so a chunk about to be placed
    always finds a slot in the lease table. *)
Lemma lease_slot_exists s c :
  sched_inv s -> c ∈ g_chunks s -> cp_chunk_id c ∉ active_ids (g_leases s) ->
  find_idx (fun l => negb (al_is_active l)) (g_leases s) = None ->
  (length (g_leases s) < MAX_SCHUNKS)%nat.
Proof.
  intros I Hc Hn Hall. rewrite <- (active_ids_all _ Hall).
  assert (S (length (active_ids (g_leases s))) <= length (cp_chunk_id <$> g_chunks s))%nat as Hle.
  { change (S (length (active_ids (g_leases s))))
      with (length (cp_chunk_id c :: active_ids (g_leases s))).
    apply submseteq_length, NoDup_submseteq.
    - apply NoDup_cons. split; [done|apply I].
    - intros id [->|Hid]%elem_of_cons; [by apply list_elem_of_fmap_2|by apply I]. }
  rewrite length_fmap in Hle. pose proof (inv_chunks_len s I). lia.
Qed.

(** * Preservation *)

Section EndLease.
Context (s : sched) (c : vom_chunk_plan) (i : nat) (l : vom_assignment_lease).
Hypothesis (I : sched_inv s) (Hc : chunk_ok c).
Hypothesis (Hl : g_leases s !! i = Some l) (Ha : al_is_active l = true).

Lemma end_lease_perm :
  active_ids (g_leases s) ≡ₚ al_chunk_id l :: active_ids (g_leases (end_lease c i l s)).
Proof. by apply active_ids_deactivate. Qed.

Lemma end_lease_gone : al_chunk_id l ∉ active_ids (g_leases (end_lease c i l s)).
Proof.
  pose proof (inv_leases_keys s I) as H. rewrite end_lease_perm in H.
  by apply NoDup_cons in H as [].
Qed.

Lemma end_lease_inv : sched_inv (end_lease c i l s).
Proof.
  pose proof (inv_leases_keys s I) as H. rewrite end_lease_perm in H. apply NoDup_cons in H as [Hn H].
  constructor; cbn; rewrite ?return_resources_len, ?return_resources_keys, ?length_alter;
    try apply I; auto with tbl.
  - apply return_resources_ok; [done|apply I].
  - intros id Hid. apply I. rewrite end_lease_perm. by apply elem_of_cons; right.
  - intros x [Hx|(y & _ & ->)]%elem_of_alter Hx'; [by apply I|done].
Qed.

End EndLease.

Lemma elem_of_slot_write ls l ls' x : slot_write ls l ls' -> x ∈ ls' -> x ∈ ls \/ x = l.
Proof.
  intros [(i & y & Hy & _ & ->)|(_ & ->)].
  - intros [j Hj]%list_elem_of_lookup. rewrite list_lookup_insert in Hj.
    destruct (decide _); [right; naive_solver|left; by eapply list_elem_of_lookup_2].
  - rewrite elem_of_app, list_elem_of_singleton. tauto.
Qed.

Lemma new_lease_worker now c w :
  worker_ok w -> al_assigned_worker_id (new_lease now c w) = wv_worker_id w.
Proof. intros [H _]. by apply strncpy_short. Qed.

Lemma write_lease_inv s c b w now ls' :
  sched_inv s -> c ∈ g_chunks s -> cp_chunk_id c ∉ active_ids (g_leases s) ->
  g_workers s !! b = Some w -> evaluate_hard_filters c w = true ->
  slot_write (g_leases s) (new_lease now c w) ls' ->
  sched_inv (sc_set_leases ls' (sc_set_workers (alter (reserve c) b (g_workers s)) s)).
Proof.
  intros I Hc Hn Hw F W. set (l := new_lease now c w) in *.
  assert (al_is_active l = true) as Ha by done.
  assert (al_chunk_id l = cp_chunk_id c) as Hid by done.
  assert (worker_ok w) as Hok by (eapply Forall_lookup; [apply (inv_workers_ok s I)|done]).
  pose proof (active_ids_slot_write _ _ _ W Ha) as P.
  assert (chunk_ok c) by (eapply Forall_forall; [apply (inv_chunks_ok s I)|done]).
  constructor; cbn; rewrite ?length_alter; try apply I.
  - apply Forall_alter_one; [apply I|]. intros x Hx _. simplify_eq. by apply reserve_ok.
  - rewrite fmap_alter_same by done. apply I.
  - eapply slot_write_len; [done|apply I].
  - rewrite P, Hid. apply NoDup_cons. split; [done|apply I].
  - intros id. rewrite P, Hid. intros [->|?]%elem_of_cons; [by apply list_elem_of_fmap_2|by apply I].
  - intros x Hx Hx'. rewrite fmap_alter_same by done.
    destruct (elem_of_slot_write _ _ _ _ W Hx) as [Hold| ->]; [by apply I|].
    unfold l. rewrite new_lease_worker by done. apply list_elem_of_fmap_2. by eapply list_elem_of_lookup_2.
Qed.

(** One iteration of the tick preserves any property that the end of an
    expired lease and the placement of an unleased chunk preserve. *)
Lemma tick_chunk_ind (P : sched -> Prop) now c s out s' out' :
  sched_inv s -> c ∈ g_chunks s -> P s ->
  (forall i l, sched_inv s -> g_leases s !! i = Some l -> al_is_active l = true ->
     al_chunk_id l = cp_chunk_id c -> P s -> P (end_lease c i l s)) ->
  (forall t b w ls', sched_inv t -> g_chunks t = g_chunks s -> P t ->
     cp_chunk_id c ∉ active_ids (g_leases t) ->
     g_workers t !! b = Some w -> evaluate_hard_filters c w = true ->
     slot_write (g_leases t) (new_lease now c w) ls' ->
     P (sc_set_leases ls' (sc_set_workers (alter (reserve c) b (g_workers t)) t))) ->
  tick_chunk now c s out = (s', out') -> P s'.
Proof.
  intros I Hc HP Hend Hput. unfold tick_chunk. destr_if; [by intros [= <- <-]|].
  destruct (check_lease now c s) as [al s1] eqn:C.
  assert (chunk_ok c) by (eapply Forall_forall; [apply (inv_chunks_ok s I)|done]).
  assert (al = false -> sched_inv s1 /\ g_chunks s1 = g_chunks s /\ P s1 /\
                        cp_chunk_id c ∉ active_ids (g_leases s1)) as Hs1.
  { intros ->. destruct (check_lease_cases _ _ _ _ _ C)
      as [(? & _)|[(_ & -> & ?)|(_ & i & l & Hl & Ha & Hid & _ & ->)]]; try done.
    split; [by apply end_lease_inv|]. split; [done|]. split; [by apply Hend|].
    rewrite <- Hid. by apply end_lease_gone. }
  destruct al.
  { intros [= <- <-]. by destruct (check_lease_cases _ _ _ _ _ C) as [(_ & -> & _)|[(? & _)|(? & _)]]. }
  destruct Hs1 as (I1 & Hcs & HP1 & Hn); [done|]. intros T.
  destruct (place_chunk_cases _ _ _ _ _ _ T) as [(-> & _)|(b & w & _ & Hw & F & [(ls' & W & -> & _)|(_ & _ & Hfull & Hall)])].
  - done.
  - by eapply Hput.
  - rewrite <- Hcs in Hc. pose proof (lease_slot_exists _ _ I1 Hc Hn Hall). lia.
Qed.

Lemma tick_chunk_inv now c s out s' out' :
  sched_inv s -> c ∈ g_chunks s -> tick_chunk now c s out = (s', out') ->
  sched_inv s' /\ g_chunks s' = g_chunks s.
Proof.
  intros I Hc T.
  refine (tick_chunk_ind (fun t => sched_inv t /\ g_chunks t = g_chunks s)
            now c s out s' out' I Hc (conj I eq_refl) _ _ T).
  - intros i l _ Hl Ha _ _. split; [|done]. apply end_lease_inv; auto.
    eapply Forall_forall; [apply (inv_chunks_ok s I)|done].
  - intros t b w ls' It Ht _ Hn Hw F W. split; [|done]. eapply write_lease_inv; eauto. by rewrite Ht.
Qed.

(** Induction over the tick's loop. *)
Lemma tick_loop_ind (P : sched -> list vom_assignment_lease -> Prop) now max s0 :
  sched_inv s0 ->
  (forall c s out s' out', sched_inv s -> g_chunks s = g_chunks s0 -> c ∈ g_chunks s0 ->
     Z.of_nat (length out) < max ->
     P s out -> tick_chunk now c s out = (s', out') -> P s' out') ->
  forall cs s out s' out', incl cs (g_chunks s0) -> sched_inv s -> g_chunks s = g_chunks s0 ->
  P s out -> tick_loop now max cs s out = (s', out') ->
  P s' out' /\ sched_inv s' /\ g_chunks s' = g_chunks s0.
Proof.
  intros I0 Hstep cs. induction cs as [|c cs IH]; intros s out s' out' Hin I Hcs HP H; cbn in H.
  - by simplify_eq.
  - destr_if_hyp; [by simplify_eq|]. bprop.
    destruct (tick_chunk now c s out) as [s1 out1] eqn:T.
    assert (c ∈ g_chunks s0) as Hc by (apply list_elem_of_In, Hin; by left).
    destruct (tick_chunk_inv _ _ _ _ _ _ I ltac:(by rewrite Hcs) T) as [I1 Hcs1].
    eapply (IH s1 out1); eauto; [|congruence]. intros x Hx. apply Hin. by right.
Qed.

Lemma tick_inv now max s :
  sched_inv s -> sched_inv (snd (vom_scheduler_tick now max s)).
Proof.
  intros I. unfold vom_scheduler_tick. destruct (tick_loop _ _ _ _ _) as [s' out] eqn:T.
  by destruct (tick_loop_ind (fun _ _ => True) now max s I ltac:(done) _ _ _ _ _ (incl_refl _) I eq_refl Logic.I T)
    as (_ & ? & _).
Qed.

Lemma register_inv s w :
  sched_inv s -> worker_ok w -> sched_inv (snd (vom_scheduler_register_worker (Some w) s)).
Proof.
  intros I Hw. unfold vom_scheduler_register_worker. destruct (find_idx _ _) as [i|] eqn:E.
  - find_idx_inv E. bprop. constructor; cbn; try apply I.
    + apply Forall_insert; [apply I|done].
    + rewrite length_insert. apply I.
    + rewrite (fmap_insert_same _ _ _ _ _ Hx) by done. apply I.
    + intros l. rewrite (fmap_insert_same _ _ _ _ _ Hx) by done. apply I.
  - destr_if; [done|]. apply Nat.leb_gt in Heqb. constructor; cbn; try apply I.
    + apply Forall_app. split; [apply I|by constructor].
    + rewrite length_app. cbn. lia.
    + rewrite fmap_app. apply NoDup_snoc; [apply I|].
      eapply find_key_None; [|exact E]. intros x Ex. by apply strcmp_eq_true.
    + intros l Hl Ha. rewrite fmap_app. apply elem_of_app. left. by apply I.
Qed.

Lemma submit_inv s c :
  sched_inv s -> chunk_ok c -> sched_inv (snd (vom_scheduler_submit_ready_chunk (Some c) s)).
Proof.
  intros I Hc. unfold vom_scheduler_submit_ready_chunk. destruct (find_idx _ _) as [i|] eqn:E.
  - find_idx_inv E. bprop.
    assert (cp_chunk_id <$> <[i := c]> (g_chunks s) = cp_chunk_id <$> g_chunks s) as K
      by (by eapply fmap_insert_same).
    constructor; cbn; rewrite ?K, ?length_insert; try apply I.
    apply Forall_insert; [apply I|done].
  - destr_if; [done|]. apply Nat.leb_gt in Heqb. constructor; cbn; try apply I.
    + apply Forall_app. split; [apply I|by constructor].
    + rewrite length_app. cbn. lia.
    + rewrite fmap_app. apply NoDup_snoc; [apply I|].
      eapply find_key_None; [|exact E]. intros x Ex. by apply Z.eqb_eq.
    + intros id Hid. rewrite fmap_app. apply elem_of_app. left. by apply I.
Qed.

(** What [vom_scheduler_release_lease] does, lease by lease. *)
Lemma release_cases id s :
  sched_inv s ->
  (id ∉ active_ids (g_leases s) /\ vom_scheduler_release_lease id s = s) \/
  exists i l k c, g_leases s !! i = Some l /\ al_is_active l = true /\ al_chunk_id l = id /\
    g_chunks s !! k = Some c /\ cp_chunk_id c = id /\
    vom_scheduler_release_lease id s =
    sc_set_chunks (delete k (g_chunks s)) (end_lease c i l s).
Proof.
  intros I. unfold vom_scheduler_release_lease. destruct (find_idx _ _) as [i|] eqn:E.
  - find_idx_inv E. bprop. rewrite Hx. right.
    assert (id ∈ cp_chunk_id <$> g_chunks s) as (c & Hid & Hc)%list_elem_of_fmap.
    { apply I, elem_of_active_ids. exists x. split; [by eapply list_elem_of_lookup_2|done]. }
    destruct (find_idx_exists (fun c => cp_chunk_id c =? id) (g_chunks s) c Hc) as [k K].
    { by apply Z.eqb_eq. }
    rewrite K. find_idx_inv K. bprop. rewrite Hx0. exists i, x, k, x0. done.
  - left. by rewrite <- find_active_None.
Qed.

Lemma release_inv id s : sched_inv s -> sched_inv (vom_scheduler_release_lease id s).
Proof.
  intros I. destruct (release_cases id s I) as [(_ & ->)|(i & l & k & c & Hl & Ha & Hid & Hk & Hc & ->)];
    [done|].
  assert (chunk_ok c) as Hok by (eapply Forall_lookup; [apply (inv_chunks_ok s I)|done]).
  pose proof (end_lease_inv s c i l I Hok Hl Ha) as I1.
  pose proof (end_lease_gone s c i l I Hl Ha) as Hn.
  pose proof (delete_perm _ _ _ Hk) as P.
  assert (cp_chunk_id <$> g_chunks s ≡ₚ id :: (cp_chunk_id <$> delete k (g_chunks s))) as PK
    by (rewrite <- Hc; change (cp_chunk_id c :: ?l) with (cp_chunk_id <$> c :: delete k (g_chunks s)); by rewrite <- P).
  constructor; cbn; try apply I1.
  - apply Forall_delete, I.
  - pose proof (inv_chunks_len s I) as L. rewrite P in L. cbn in L. lia.
  - pose proof (inv_chunks_keys s I) as N. rewrite PK in N. by apply NoDup_cons in N as [].
  - intros x Hx. pose proof (inv_leases_chunk _ I1 x Hx) as X. cbn in X. rewrite PK in X.
    apply elem_of_cons in X as [->|]; [|done]. by rewrite <- Hid in Hx.
Qed.

Lemma sched_step_inv s t : sched_inv s -> sched_step s t -> sched_inv t.
Proof.
  intros I H. destruct H;
    [by apply register_inv|by apply submit_inv|by apply tick_inv|by apply release_inv].
Qed.

Lemma init_inv : sched_inv vom_scheduler_init.
Proof. constructor; cbn; try apply NoDup_nil; try constructor; try lia; try (intros ? H; by apply elem_of_nil in H). Qed.

Lemma reachable_inv s : sched_reachable s -> sched_inv s.
Proof. induction 1; eauto using sched_step_inv, init_inv. Qed.
#[export] Hint Resolve reachable_inv sched_step_inv init_inv : tbl.
