(* ===== verification/SchedulerExact.v ===== *)
(** Exact accounting of the scheduler's reservations, and the scheduler's
    headline theorems with their concrete instances. *)
From S2P Require Import Prelude CFloat Scheduler SchedulerInv.

(** * Sums over tables with distinct keys *)

Lemma sumZ_perm {A} (f : A -> Z) l k : l ≡ₚ k -> sumZ f l = sumZ f k.
Proof. unfold sumZ. induction 1; cbn in *; lia. Qed.

Lemma sumZ_le_length {A} (f : A -> Z) l :
  (forall x, x ∈ l -> f x <= 1) -> sumZ f l <= Z.of_nat (length l).
Proof.
  unfold sumZ. induction l as [|x l IH]; intros H; cbn [foldr length]; [lia|].
  assert (f x <= 1) by (apply H; left).
  assert (foldr (fun x acc => f x + acc) 0 l <= Z.of_nat (length l))
    by (apply IH; intros; apply H; by right). lia.
Qed.

Lemma chunk_req_notin f cs id : id ∉ cp_chunk_id <$> cs -> chunk_req f cs id = 0.
Proof.
  unfold chunk_req, sumZ. induction cs as [|c cs IH]; intros H; cbn; [done|].
  apply not_elem_of_cons in H as [H1 H2]. rewrite IH by done.
  destruct (Z.eqb_spec (cp_chunk_id c) id); [congruence|lia].
Qed.

Lemma chunk_req_at f cs k c :
  NoDup (cp_chunk_id <$> cs) -> cs !! k = Some c -> chunk_req f cs (cp_chunk_id c) = f c.
Proof.
  intros N H. pose proof (delete_perm _ _ _ H) as P. rewrite P in N. cbn in N.
  apply NoDup_cons in N as [N _]. unfold chunk_req at 1. rewrite (sumZ_perm _ _ _ P), sumZ_cons.
  rewrite Z.eqb_refl. change (f c + chunk_req f (delete k cs) (cp_chunk_id c) = f c).
  rewrite chunk_req_notin by done. lia.
Qed.

Lemma chunk_req_delete f cs k c id :
  cs !! k = Some c -> cp_chunk_id c <> id -> chunk_req f (delete k cs) id = chunk_req f cs id.
Proof.
  intros H Hne. unfold chunk_req. rewrite (sumZ_perm _ _ _ (delete_perm _ _ _ H)), sumZ_cons.
  destruct (Z.eqb_spec (cp_chunk_id c) id); [done|lia].
Qed.

Lemma chunk_req_insert f cs k c c' id :
  cs !! k = Some c -> cp_chunk_id c <> id -> cp_chunk_id c' <> id ->
  chunk_req f (<[k := c']> cs) id = chunk_req f cs id.
Proof.
  intros H H1 H2. unfold chunk_req. rewrite (sumZ_insert _ _ _ _ _ H).
  destruct (Z.eqb_spec (cp_chunk_id c) id), (Z.eqb_spec (cp_chunk_id c') id); try done; lia.
Qed.

Lemma chunk_req_app f cs c id :
  cp_chunk_id c <> id -> chunk_req f (cs ++ [c]) id = chunk_req f cs id.
Proof.
  intros H. unfold chunk_req. rewrite sumZ_snoc.
  destruct (Z.eqb_spec (cp_chunk_id c) id); [done|lia].
Qed.

Lemma lease_cost_inactive f cs wid l : al_is_active l = false -> lease_cost f cs wid l = 0.
Proof. unfold lease_cost. by intros ->. Qed.

(** Changing the request table leaves the books alone when the chunks under
    lease keep their requests. *)
Lemma leased_ext f s t wid :
  g_leases t = g_leases s ->
  (forall id, id ∈ active_ids (g_leases s) -> chunk_req f (g_chunks t) id = chunk_req f (g_chunks s) id) ->
  leased f t wid = leased f s wid.
Proof.
  intros HL H. unfold leased. rewrite HL. apply sumZ_ext. intros l Hl. unfold lease_cost.
  destruct (al_is_active l) eqn:A; [|done]. cbn. destruct (strcmp_eq _ _); [|done].
  apply H, elem_of_active_ids. eauto.
Qed.

(** * Preservation of the books *)

Section Books.
Context (s : sched) (c : vom_chunk_plan) (k : nat).
Hypothesis (I : sched_inv s) (X : sched_exact s).
Hypothesis (Hk : g_chunks s !! k = Some c).

Lemma book_chunk_ok : chunk_ok c.
Proof. eapply Forall_lookup; [apply (inv_chunks_ok s I)|done]. Qed.

Lemma lease_cost_c f wid l :
  al_is_active l = true -> al_chunk_id l = cp_chunk_id c ->
  lease_cost f (g_chunks s) wid l = if strcmp_eq (al_assigned_worker_id l) wid then f c else 0.
Proof.
  intros Ha Hid. unfold lease_cost. rewrite Ha, Hid. cbn. destr_if; [|done].
  eapply chunk_req_at; [apply I|done].
Qed.

Lemma lease_cost_nonneg f wid l :
  (forall c, c ∈ g_chunks s -> 0 <= f c) -> 0 <= lease_cost f (g_chunks s) wid l.
Proof.
  intros Hf. unfold lease_cost. destr_if; [|done]. unfold chunk_req. apply sumZ_nonneg.
  intros x Hx. destr_if; [by apply Hf|done].
Qed.

Lemma leased_one_bound wid : 0 <= leased (fun _ => 1) s wid <= 128.
Proof.
  split.
  - apply sumZ_nonneg. intros. by apply lease_cost_nonneg.
  - etransitivity; [apply sumZ_le_length|pose proof (inv_leases_len s I); unfold MAX_SCHUNKS in *; lia].
    intros l _. unfold lease_cost. destr_if; [|lia].
    destruct (decide (al_chunk_id l ∈ cp_chunk_id <$> g_chunks s)) as [(x & Hx & Hin)%list_elem_of_fmap|Hn].
    + apply list_elem_of_lookup in Hin as [j Hj]. rewrite Hx.
      erewrite (chunk_req_at (fun _ => 1)); [done|apply I|done].
    + rewrite chunk_req_notin by done. lia.
Qed.

Lemma cpu_nonneg x : x ∈ g_chunks s -> 0 <= cp_required_cpu x.
Proof. intros H. eapply Forall_forall in H; [|apply (inv_chunks_ok s I)]. apply H. Qed.

Lemma mem_nonneg x : x ∈ g_chunks s -> 0 <= cp_required_memory_mb x.
Proof. intros H. eapply Forall_forall in H; [|apply (inv_chunks_ok s I)]. apply H. Qed.

Section End.
Context (i : nat) (l : vom_assignment_lease).
Hypothesis (Hl : g_leases s !! i = Some l) (Ha : al_is_active l = true).
Hypothesis (Hid : al_chunk_id l = cp_chunk_id c).

Lemma leased_end_lease f wid :
  leased f (end_lease c i l s) wid =
  leased f s wid - if strcmp_eq (al_assigned_worker_id l) wid then f c else 0.
Proof.
  unfold leased. cbn. rewrite (sumZ_alter _ _ _ _ _ Hl), lease_cost_c by done.
  rewrite lease_cost_inactive by done. lia.
Qed.

Lemma leased_at_least f :
  (forall x, x ∈ g_chunks s -> 0 <= f x) -> f c <= leased f s (al_assigned_worker_id l).
Proof.
  intros Hf. unfold leased.
  replace (f c) with (lease_cost f (g_chunks s) (al_assigned_worker_id l) l)
    by (rewrite lease_cost_c by done; by rewrite strcmp_eq_refl).
  eapply sumZ_lookup_le; [|done]. intros. by apply lease_cost_nonneg.
Qed.

Lemma end_lease_exact : sched_exact (end_lease c i l s).
Proof.
  intros x Hx. rewrite !leased_end_lease. cbn in Hx. unfold return_resources in Hx.
  destruct (find_idx _ _) as [j|] eqn:E.
  - find_idx_inv E. bprop.
    destruct (elem_of_alter_key wv_worker_id _ _ _ _ _ (inv_workers_keys s I) Hx0 Hx) as [-> |[Hin Hne]].
    + destruct (X x0 ltac:(by eapply list_elem_of_lookup_2)) as (Xc & Xm & Xa).
      assert (worker_ok x0) as (_ & Hok) by (eapply Forall_lookup; [apply (inv_workers_ok s I)|done]).
      pose proof (leased_at_least _ cpu_nonneg) as Lc. pose proof (leased_at_least _ mem_nonneg) as Lm.
      pose proof (leased_at_least (fun _ => 1) ltac:(done)) as La.
      pose proof (leased_one_bound (al_assigned_worker_id l)). destruct book_chunk_ok as ([? _] & [? _]).
      rewrite Hp in Xc, Xm, Xa. cbn. rewrite Hp, strcmp_eq_refl.
      rewrite u8_id, u64_id, s32_id by (unfold in_u8, in_u64, in_s32; lia).
      repeat destr_if; bprop; lia.
    + rewrite Hp in Hne. rewrite (strcmp_ne _ _ (not_eq_sym Hne)).
      rewrite !Z.sub_0_r. by apply X.
  - assert (strcmp_eq (al_assigned_worker_id l) (wv_worker_id x) = false) as ->;
      [|rewrite !Z.sub_0_r; by apply X].
    apply strcmp_ne. intros Eq. rewrite find_idx_None, Forall_forall in E.
    specialize (E x Hx). cbn in E. by rewrite Eq, strcmp_eq_refl in E.
Qed.

End End.

Section Put.
Context (now : Z) (b : nat) (w : vom_worker_view) (ls' : list vom_assignment_lease).
Hypothesis (Hw : g_workers s !! b = Some w) (F : evaluate_hard_filters c w = true).
Hypothesis (W : slot_write (g_leases s) (new_lease now c w) ls').

Lemma put_exact :
  sched_exact (sc_set_leases ls' (sc_set_workers (alter (reserve c) b (g_workers s)) s)).
Proof.
  assert (worker_ok w) as Hwok by (eapply Forall_lookup; [apply (inv_workers_ok s I)|done]).
  assert (forall f wid, leased f (sc_set_leases ls' (sc_set_workers (alter (reserve c) b (g_workers s)) s)) wid
            = leased f s wid + if strcmp_eq (wv_worker_id w) wid then f c else 0) as L.
  { intros f wid. unfold leased. cbn.
    rewrite (sumZ_slot_write _ _ _ _ (fun x => lease_cost_inactive f _ wid x) W).
    rewrite lease_cost_c by done. by rewrite new_lease_worker. }
  intros x Hx. rewrite !L. cbn in Hx.
  destruct (elem_of_alter_key wv_worker_id _ _ _ _ _ (inv_workers_keys s I) Hw Hx) as [-> |[Hin Hne]].
  - destruct (X w ltac:(by eapply list_elem_of_lookup_2)) as (Xc & Xm & Xa).
    destruct (hard_filters_spec c w Hwok book_chunk_ok F) as (_ & _ & _ & _ & _ & Hcpu & Hmem).
    pose proof (leased_one_bound (wv_worker_id w)). destruct book_chunk_ok as ([? _] & [? _]).
    destruct Hwok as (_ & Hok). cbn. rewrite strcmp_eq_refl.
    rewrite u8_id, u64_id, s32_id by (unfold in_u8, in_u64, in_s32; lia). lia.
  - rewrite (strcmp_ne _ _ (not_eq_sym Hne)), !Z.add_0_r. by apply X.
Qed.

End Put.
End Books.

Lemma tick_exact now max s :
  sched_inv s -> sched_exact s -> sched_exact (snd (vom_scheduler_tick now max s)).
Proof.
  intros I X. unfold vom_scheduler_tick. destruct (tick_loop _ _ _ _ _) as [s' out] eqn:T. cbn.
  refine (proj1 (tick_loop_ind (fun t _ => sched_exact t) now max s I _ _ _ _ _ _ (incl_refl _) I eq_refl X T)).
  intros c t o t' o' It Ht Hc _ Xt. rewrite <- Ht in Hc.
  pose proof Hc as [k Hk]%list_elem_of_lookup.
  intros Tc. refine (tick_chunk_ind sched_exact now c t o t' o' It Hc Xt _ _ Tc).
  - intros. by eapply end_lease_exact.
  - intros t1 b w ls' I1 Ht1 X1 _ Hw F W. rewrite <- Ht1 in Hk. by eapply put_exact.
Qed.

Lemma release_exact id s :
  sched_inv s -> sched_exact s -> sched_exact (vom_scheduler_release_lease id s).
Proof.
  intros I X. destruct (release_cases id s I) as [(_ & ->)|(i & l & k & c & Hl & Ha & Hid & Hk & Hc & ->)];
    [done|].
  assert (sched_exact (end_lease c i l s)) as X1 by (eapply end_lease_exact; eauto; congruence).
  pose proof (end_lease_gone s c i l I Hl Ha) as Hn.
  assert (forall f wid, leased f (sc_set_chunks (delete k (g_chunks s)) (end_lease c i l s)) wid =
                        leased f (end_lease c i l s) wid) as E.
  { intros f wid. apply leased_ext; [done|]. intros x Hx. cbn.
    eapply chunk_req_delete; [done|]. congruence. }
  intros w Hw. rewrite !E. by apply X1.
Qed.

Lemma submit_exact s c :
  sched_inv s -> sched_exact s -> cp_chunk_id c ∉ active_ids (g_leases s) ->
  sched_exact (snd (vom_scheduler_submit_ready_chunk (Some c) s)).
Proof.
  intros I X Hn. set (t := snd _).
  assert (g_workers t = g_workers s /\ g_leases t = g_leases s /\
          forall f x, cp_chunk_id c <> x -> chunk_req f (g_chunks t) x = chunk_req f (g_chunks s) x)
    as (Hw & Hl & Hr).
  { unfold t, vom_scheduler_submit_ready_chunk. destruct (find_idx _ _) as [j|] eqn:E.
    - find_idx_inv E. bprop. split_and!; [done..|]. intros f y Hy. cbn.
      eapply chunk_req_insert; [done|congruence|done].
    - destr_if; [done|]. split_and!; [done..|]. intros f y Hy. by apply chunk_req_app. }
  intros w. rewrite Hw. intros Hin.
  rewrite !(leased_ext _ s t) by (done || (intros x Hx; apply Hr; congruence)). by apply X.
Qed.

Lemma register_exact s w :
  sched_inv s -> sched_exact s -> worker_ok w -> wv_worker_id w ∉ wv_worker_id <$> g_workers s ->
  wv_reserv_cpu w = 0 -> wv_reserv_mem_mb w = 0 -> wv_active_chunks w = 0 ->
  sched_exact (snd (vom_scheduler_register_worker (Some w) s)).
Proof.
  intros I X Hok Hn Hc Hm Ha. unfold vom_scheduler_register_worker.
  destruct (find_idx _ _) as [i|] eqn:E.
  - find_idx_inv E. bprop. destruct Hn. rewrite <- Hp. apply list_elem_of_fmap_2.
    by eapply list_elem_of_lookup_2.
  - destr_if; [done|]. intros x Hx. cbn in Hx. revert Hx. rewrite elem_of_app, list_elem_of_singleton.
    intros [Hx| ->]; [by apply X|].
    assert (forall f, leased f (snd (0, sc_set_workers (g_workers s ++ [w]) s)) (wv_worker_id w) = 0) as Z0; [|by rewrite Hc, Hm, Ha, !Z0].
    intros f. unfold leased. cbn. rewrite (sumZ_ext _ (fun _ => 0)); [apply sumZ_zero|].
    intros l Hl. unfold lease_cost. destruct (al_is_active l) eqn:A; [|done]. cbn.
    destruct (strcmp_eq _ _) eqn:S; [|done]. bprop. destruct Hn. rewrite <- S. by apply I.
Qed.
