(* ===== verification/SchedulerProps.v ===== *)
(** The scheduler's contract: capacity and lease safety of every reachable
    state, exact books, what a tick dispatches, that it drops nothing it
    could place, optimality of the placement scan, and what the end of a lease
    gives back. *)
From S2P Require Import Prelude CFloat Scheduler SchedulerInv SchedulerExact.

(** * Facts about one tick *)

Lemma fresh_step_sched_step s t : fresh_step s t -> sched_step s t.
Proof. destruct 1; by constructor. Qed.

Lemma fresh_reachable_reachable s : fresh_reachable s -> sched_reachable s.
Proof. induction 1; [constructor|]. econstructor; eauto using fresh_step_sched_step. Qed.

Lemma fresh_step_exact s t : sched_inv s -> sched_exact s -> fresh_step s t -> sched_exact t.
Proof.
  intros I X H. destruct H; [by apply register_exact|by apply submit_exact|by apply tick_exact|
                             by apply release_exact].
Qed.

Lemma fresh_exact s : fresh_reachable s -> sched_exact s.
Proof.
  induction 1 as [|s t R IH H]; [intros w Hw; by apply elem_of_nil in Hw|].
  apply (fresh_step_exact s t); [|done|done]. by apply reachable_inv, fresh_reachable_reachable.
Qed.

(** A live lease of [s] that has not expired at [now]. *)
Definition unexpired (now : Z) (s : sched) (l : vom_assignment_lease) : Prop :=
  l ∈ g_leases s /\ al_is_active l = true /\ now <= al_lease_expires_ms l.

(** Why lease [l] may be in the output of a tick at time [now] from [s]. *)
Definition dispatch_ok (now : Z) (s : sched) (l : vom_assignment_lease) : Prop :=
  exists c w, c ∈ g_chunks s /\ w ∈ g_workers s /\ cp_is_blocked c = false /\
    l = new_lease now c w /\ al_assigned_worker_id l = wv_worker_id w /\
    wv_healthy w <> 0 /\ wv_draining w = 0 /\
    wv_platform w = cp_required_platform c /\ wv_runtime w = cp_required_runtime c /\
    (cp_requires_touch c <> 0 -> wv_has_touch_input w <> 0) /\
    cp_required_cpu c <= wv_cpu_units w /\ cp_required_memory_mb c <= wv_free_memory_mb w /\
    (forall l', unexpired now s l' -> al_chunk_id l' <> cp_chunk_id c).

(** What the tick's updates leave alone in a worker record. *)
Definition same_worker (w w' : vom_worker_view) : Prop :=
  wv_worker_id w' = wv_worker_id w /\ wv_healthy w' = wv_healthy w /\
  wv_draining w' = wv_draining w /\ wv_platform w' = wv_platform w /\
  wv_runtime w' = wv_runtime w /\ wv_has_touch_input w' = wv_has_touch_input w /\
  wv_cpu_units w' = wv_cpu_units w /\ wv_free_memory_mb w' = wv_free_memory_mb w.

(** The loop invariant of the tick: the output so far, against the state the
    tick started from. *)
Record tick_ok (now max : Z) (s0 s : sched) (out : list vom_assignment_lease) : Prop := {
  tk_len : Z.of_nat (length out) <= Z.max 0 max;
  tk_live : forall l, l ∈ out -> l ∈ g_leases s /\ al_is_active l = true;
  tk_keys : NoDup (al_chunk_id <$> out);
  tk_why : forall l, l ∈ out -> dispatch_ok now s0 l;
  tk_keep : forall l, unexpired now s0 l -> unexpired now s l;
  tk_new : forall l, l ∈ g_leases s -> al_is_active l = true -> l ∈ g_leases s0 \/ l ∈ out;
  tk_workers : forall w', w' ∈ g_workers s -> exists w, w ∈ g_workers s0 /\ same_worker w w'
}.

Lemma return_resources_same c id ws w' :
  w' ∈ return_resources c id ws -> exists w, w ∈ ws /\ same_worker w w'.
Proof.
  unfold return_resources. destruct (find_idx _ _); [|by exists w'].
  intros [|(y & Hy & ->)]%elem_of_alter; [by exists w'|]. exists y.
  split; [by eapply list_elem_of_lookup_2|done].
Qed.

Lemma same_worker_trans a b c : same_worker a b -> same_worker b c -> same_worker a c.
Proof. unfold same_worker. intuition congruence. Qed.

(** Two live leases on the same chunk are the same lease. *)
Lemma active_unique s l l' :
  sched_inv s -> l ∈ g_leases s -> l' ∈ g_leases s -> al_is_active l = true ->
  al_is_active l' = true -> al_chunk_id l = al_chunk_id l' -> l = l'.
Proof.
  intros I Hl Hl' Ha Ha' E. apply (key_unique al_chunk_id (active_leases (g_leases s))); try apply I;
    [..|done]; unfold active_leases; rewrite list_elem_of_In, filter_In, <- list_elem_of_In; done.
Qed.

Section TickStep.
Context (now max : Z) (s0 s : sched) (out : list vom_assignment_lease) (c : vom_chunk_plan).
Hypothesis (I0 : sched_inv s0) (I : sched_inv s) (T : tick_ok now max s0 s out).
Hypothesis (Hcs : g_chunks s = g_chunks s0) (Hc : c ∈ g_chunks s0).
Hypothesis (Hnow : in_u64 (now + 30000)).

Lemma new_lease_unexpired w : now <= al_lease_expires_ms (new_lease now c w).
Proof. cbn. rewrite u64_id by done. lia. Qed.

Lemma out_unexpired l : l ∈ out -> now <= al_lease_expires_ms l.
Proof.
  intros H. destruct (tk_why _ _ _ _ _ T l H) as (c' & w & _ & _ & _ & -> & _).
  cbn. rewrite u64_id by done. lia.
Qed.

Lemma expire_tick_ok i l :
  g_leases s !! i = Some l -> al_is_active l = true -> al_lease_expires_ms l < now ->
  tick_ok now max s0 (end_lease c i l s) out.
Proof.
  intros Hl Ha Hex.
  assert (forall x, x ∈ g_leases s -> al_is_active x = true -> now <= al_lease_expires_ms x ->
            x ∈ g_leases (end_lease c i l s)) as K.
  { intros x [j Hj]%list_elem_of_lookup Hxa Hxe. apply list_elem_of_lookup. exists j. cbn.
    rewrite list_lookup_alter_ne; [done|]. intros ->. simplify_eq. lia. }
  destruct T as [T1 T2 T3 T4 T5 T6 T7]. constructor; try done.
  - intros x Hx. destruct (T2 x Hx). split; [|done]. apply K; try done. by apply out_unexpired.
  - intros x Hx. destruct (T5 x Hx) as (? & ? & ?). split; [by apply K|done].
  - intros x [Hx|(y & _ & ->)]%elem_of_alter Hxa; [by apply T6|done].
  - intros w' (w1 & H1 & E1)%return_resources_same. destruct (T7 w1 H1) as (w & ? & ?).
    eauto using same_worker_trans.
Qed.

Lemma put_tick_ok b w ls' :
  Z.of_nat (length out) < max -> cp_is_blocked c = false ->
  cp_chunk_id c ∉ active_ids (g_leases s) -> g_workers s !! b = Some w ->
  evaluate_hard_filters c w = true -> slot_write (g_leases s) (new_lease now c w) ls' ->
  tick_ok now max s0 (sc_set_leases ls' (sc_set_workers (alter (reserve c) b (g_workers s)) s))
    (out ++ [new_lease now c w]).
Proof.
  intros Hlen Hb Hn Hw F W. pose proof T as [T1 T2 T3 T4 T5 T6 T7].
  assert (forall x, x ∈ g_leases s -> al_is_active x = true -> x ∈ ls') as K.
  { destruct W as [(i & y & Hy & Hya & ->)|(_ & ->)]; intros x Hx Hxa; [|set_solver].
    apply list_elem_of_lookup in Hx as [j Hj]. apply list_elem_of_lookup. exists j.
    rewrite list_lookup_insert_ne; [done|]. intros ->. congruence. }
  assert (new_lease now c w ∈ ls') as K1.
  { destruct W as [(i & y & Hy & Hya & ->)|(_ & ->)]; [|set_solver].
    apply list_elem_of_lookup. exists i. apply list_lookup_insert_eq. by apply lookup_lt_Some in Hy. }
  assert (forall x, x ∈ g_leases s -> al_is_active x = true -> al_chunk_id x <> cp_chunk_id c) as Ku.
  { intros x Hx Hxa E. apply Hn, elem_of_active_ids. eauto. }
  assert (w ∈ g_workers s) as Hin by (by eapply list_elem_of_lookup_2).
  assert (worker_ok w) as Hwok by (eapply Forall_forall; [apply (inv_workers_ok s I)|done]).
  assert (chunk_ok c) as Hcok by (eapply Forall_forall; [apply (inv_chunks_ok s0 I0)|done]).
  constructor; cbn.
  - rewrite length_app. cbn. lia.
  - intros x [Hx|Hx%list_elem_of_singleton]%elem_of_app; [destruct (T2 x Hx); auto|by subst].
  - rewrite fmap_app. apply NoDup_snoc; [done|]. intros (x & Hx & Hxo)%list_elem_of_fmap.
    destruct (T2 x Hxo). by apply (Ku x).
  - intros x [Hx|Hx%list_elem_of_singleton]%elem_of_app; [by apply T4|subst].
    destruct (T7 w Hin) as (w0 & Hw0 & E1 & E2 & E3 & E4 & E5 & E6 & E7 & E8).
    destruct (hard_filters_spec c w Hwok Hcok F) as (F1 & F2 & F3 & F4 & F5 & F6 & F7).
    pose proof Hwok as (_ & Hr).
    exists c, w0. split_and!; try done; try congruence; try lia.
    + unfold new_lease. by rewrite E1.
    + rewrite new_lease_worker by done. done.
    + intros l' Hl'. destruct (T5 l' Hl') as (? & ? & _). by apply Ku.
  - intros x Hx. destruct (T5 x Hx) as (? & ? & ?). split; [by apply K|done].
  - intros x Hx Hxa. destruct (elem_of_slot_write _ _ _ _ W Hx) as [Hold| ->]; [|set_solver].
    destruct (T6 x Hold Hxa); [by left|right; set_solver].
  - intros w' [Hx|(y & Hy & ->)]%elem_of_alter; [by apply T7|].
    destruct (T7 y ltac:(by eapply list_elem_of_lookup_2)) as (w0 & ? & ?). exists w0. split; [done|].
    eapply same_worker_trans; [done|]. done.
Qed.

End TickStep.

Lemma tick_chunk_ok now max s0 c s out s' out' :
  in_u64 (now + 30000) -> sched_inv s0 -> sched_inv s -> g_chunks s = g_chunks s0 ->
  c ∈ g_chunks s0 -> Z.of_nat (length out) < max -> tick_ok now max s0 s out ->
  tick_chunk now c s out = (s', out') -> tick_ok now max s0 s' out'.
Proof.
  intros Hnow I0 I Hcs Hc Hlen T. unfold tick_chunk.
  destruct (cp_is_blocked c) eqn:B; [by intros [= <- <-]|].
  destruct (check_lease now c s) as [al s1] eqn:C.
  assert (chunk_ok c) by (eapply Forall_forall; [apply (inv_chunks_ok s0 I0)|done]).
  destruct (check_lease_cases _ _ _ _ _ C)
    as [(-> & -> & _)|[(-> & -> & Hn)|(-> & i & l & Hl & Ha & Hid & Hex & ->)]].
  - by intros [= <- <-].
  - intros P. destruct (place_chunk_cases _ _ _ _ _ _ P)
      as [(-> & -> & _)|(b & w & _ & Hw & F & [(ls' & W & -> & ->)|(_ & _ & Hfull & Hall)])];
      [done|by apply put_tick_ok|].
    rewrite <- Hcs in Hc. pose proof (lease_slot_exists _ _ I Hc Hn Hall). lia.
  - pose proof (expire_tick_ok now max s0 s out c T Hnow i l Hl Ha Hex) as T1.
    assert (sched_inv (end_lease c i l s)) as I1 by (by apply end_lease_inv).
    pose proof (end_lease_gone s c i l I Hl Ha) as Hn. rewrite Hid in Hn.
    intros P. destruct (place_chunk_cases _ _ _ _ _ _ P)
      as [(-> & -> & _)|(b & w & _ & Hw & F & [(ls' & W & -> & ->)|(_ & _ & Hfull & Hall)])];
      [done|by apply put_tick_ok|].
    rewrite <- Hcs in Hc. pose proof (lease_slot_exists _ _ I1 Hc Hn Hall). lia.
Qed.

Lemma tick_ok_start now max s : tick_ok now max s s [].
Proof.
  constructor; cbn; try lia; try (intros ? H; by apply elem_of_nil in H); try apply NoDup_nil_2;
    auto. intros w Hw. by exists w.
Qed.

Lemma tick_all_ok now max s n out t :
  in_u64 (now + 30000) -> sched_inv s -> vom_scheduler_tick now max s = (n, out, t) ->
  n = Z.of_nat (length out) /\ tick_ok now max s t out.
Proof.
  intros Hnow I. unfold vom_scheduler_tick.
  destruct (tick_loop _ _ _ _ _) as [s' o] eqn:T. intros [= <- <- <-]. split; [done|].
  refine (proj1 (tick_loop_ind (tick_ok now max s) now max s I _ _ _ _ _ _ (incl_refl _) I eq_refl
                   (tick_ok_start _ _ _) T)).
  intros. eapply tick_chunk_ok; [..|eassumption]; eauto. 
Qed.

(** * The contract *)

(** C1: In every state the scheduler can reach from its initialisation by any
    sequence of registrations, submissions, ticks and releases, no worker has
    more CPU or memory reserved than it owns, no table exceeds its array, worker
    ids and chunk ids are distinct, a chunk holds at most one active lease, and
    every active lease is for a queued chunk and a registered worker. *)
Theorem scheduler_reachable_safe (s : sched) :
  sched_reachable s ->
  (forall w, w ∈ g_workers s ->
     0 <= wv_reserv_cpu w <= wv_cpu_units w /\ 0 <= wv_reserv_mem_mb w <= wv_free_memory_mb w) /\
  (length (g_workers s) <= MAX_SWORKERS)%nat /\ (length (g_chunks s) <= MAX_SCHUNKS)%nat /\
  (length (g_leases s) <= MAX_SCHUNKS)%nat /\
  NoDup (wv_worker_id <$> g_workers s) /\ NoDup (cp_chunk_id <$> g_chunks s) /\
  (forall l l', l ∈ g_leases s -> l' ∈ g_leases s -> al_is_active l = true ->
     al_is_active l' = true -> al_chunk_id l = al_chunk_id l' -> l = l') /\
  (forall l, l ∈ g_leases s -> al_is_active l = true ->
     al_chunk_id l ∈ cp_chunk_id <$> g_chunks s /\
     al_assigned_worker_id l ∈ wv_worker_id <$> g_workers s).
Proof.
  intros R. pose proof (reachable_inv s R) as I. split_and!; try apply I.
  - intros w Hw. eapply Forall_forall in Hw; [|apply (inv_workers_ok s I)]. split; apply Hw.
  - intros. by eapply (active_unique s).
  - intros l Hl Ha. split; [|by apply I]. apply I, elem_of_active_ids. eauto.
Qed.

(** Two workers, three chunks, after one tick: the state the instances use. *)
Definition demo_worker (id : string) (cpu mem : Z) : vom_worker_view := test_worker id cpu mem 0.
Definition demo_start : sched :=
  snd (vom_scheduler_submit_ready_chunk (Some (test_chunk 2003 7 9000))
  (snd (vom_scheduler_submit_ready_chunk (Some (test_chunk 2002 6 2048))
  (snd (vom_scheduler_submit_ready_chunk (Some (test_chunk 2001 2 512))
  (snd (vom_scheduler_register_worker (Some (demo_worker "worker-02" 4 4096))
  (snd (vom_scheduler_register_worker (Some (demo_worker "worker-01" 8 8192))
     vom_scheduler_init))))))))).
Definition demo_ticked : sched := snd (vom_scheduler_tick 1000 10 demo_start).

Ltac ok_side := unfold worker_ok, chunk_ok, in_u8, in_u64; cbn; repeat split; (lia || done).

Lemma demo_start_fresh : fresh_reachable demo_start.
Proof.
  unfold demo_start.
  repeat (eapply fresh_more; [|first [apply fresh_submit|apply fresh_register]]);
    [apply fresh_init|..]; try ok_side; try (vm_compute; set_solver).
Defined.

Lemma demo_ticked_fresh : fresh_reachable demo_ticked.
Proof. eapply fresh_more; [apply demo_start_fresh|apply fresh_tick]. Defined.

Lemma scheduler_reachable_safe_witness :
  sched_reachable demo_ticked /\ (length (g_leases demo_ticked) <= MAX_SCHUNKS)%nat.
Proof.
  assert (sched_reachable demo_ticked) as R by apply fresh_reachable_reachable, demo_ticked_fresh.
  split; [exact R|]. apply (scheduler_reachable_safe demo_ticked R).
Defined.

(** C2: As long as every worker joins once with nothing reserved and no chunk
    is resubmitted while it holds a lease, the CPU, the memory and the chunk
    count each worker has reserved are exactly the sums of what its active
    leases ask for, whatever ticks, expiries and releases happen. *)
Theorem scheduler_books_balance (s : sched) :
  fresh_reachable s ->
  forall w, w ∈ g_workers s ->
    wv_reserv_cpu w = leased cp_required_cpu s (wv_worker_id w) /\
    wv_reserv_mem_mb w = leased cp_required_memory_mb s (wv_worker_id w) /\
    wv_active_chunks w = leased (fun _ => 1) s (wv_worker_id w).
Proof. apply fresh_exact. Qed.

Lemma scheduler_books_balance_witness :
  wv_reserv_cpu <$> g_workers demo_ticked = [8; 0] /\
  forall w, w ∈ g_workers demo_ticked ->
    wv_reserv_cpu w = leased cp_required_cpu demo_ticked (wv_worker_id w).
Proof.
  split; [vm_compute; reflexivity|].
  intros w Hw. exact (proj1 (scheduler_books_balance demo_ticked demo_ticked_fresh w Hw)).
Defined.

(** C3: A tick of a reachable scheduler returns at most [max_leases] leases,
    for distinct chunks; each is recorded as active in the lease table, is for
    an unblocked queued chunk that held no unexpired lease, names a registered
    worker that is healthy, not draining, of the required platform and runtime,
    with touch input if needed and enough total CPU and memory, and expires
    30 s after [now]; every unexpired lease survives the tick, and every active
    lease afterwards was there before or is in the output. *)
Theorem scheduler_tick_sound (s t : sched) (now max n : Z) (out : list vom_assignment_lease) :
  sched_reachable s -> in_u64 (now + 30000) -> 0 <= max ->
  vom_scheduler_tick now max s = (n, out, t) ->
  n = Z.of_nat (length out) /\ n <= max /\ NoDup (al_chunk_id <$> out) /\
  (forall l, l ∈ out -> l ∈ g_leases t /\ al_is_active l = true /\
     al_lease_expires_ms l = now + 30000 /\ dispatch_ok now s l) /\
  (forall l, unexpired now s l -> unexpired now t l) /\
  (forall l, l ∈ g_leases t -> al_is_active l = true -> l ∈ g_leases s \/ l ∈ out).
Proof.
  intros R Hnow Hmax H.
  destruct (tick_all_ok _ _ _ _ _ _ Hnow (reachable_inv s R) H) as (-> & [T1 T2 T3 T4 T5 T6 T7]).
  split_and!; auto; [lia|]. intros l Hl. destruct (T2 l Hl). split_and!; auto.
  destruct (T4 l Hl) as (c & w & _ & _ & _ & -> & _). by apply u64_id.
Qed.

Lemma scheduler_tick_sound_witness :
  let '(n, out, t) := vom_scheduler_tick 1000 10 demo_start in
  al_chunk_id <$> out = [2001; 2002] /\ n <= 10 /\
  (forall l, l ∈ out -> dispatch_ok 1000 demo_start l).
Proof.
  destruct (vom_scheduler_tick 1000 10 demo_start) as [[n out] t] eqn:E.
  assert (sched_reachable demo_start) as R by apply fresh_reachable_reachable, demo_start_fresh.
  destruct (scheduler_tick_sound demo_start t 1000 10 n out R ltac:(unfold in_u64; lia) ltac:(lia) E)
    as (_ & Hn & _ & Hd & _).
  split; [|split; [exact Hn|intros l Hl; apply (Hd l Hl)]].
  vm_compute in E. injection E as <- <- <-. reflexivity.
Defined.

(** A chunk about to be placed gets a lease or has no worker. *)
Lemma place_or_idle now c s out s' out' :
  sched_inv s -> c ∈ g_chunks s -> cp_chunk_id c ∉ active_ids (g_leases s) ->
  place_chunk now c s out = (s', out') ->
  cp_chunk_id c ∈ active_ids (g_leases s') \/
  (cp_chunk_id c ∉ active_ids (g_leases s') /\ out' = out /\
   forall w, w ∈ g_workers s' -> evaluate_hard_filters c w = true ->
     dgtb (calculate_worker_score c w) (double_of_Z (-1)) = false).
Proof.
  intros I Hc Hn P. destruct (place_chunk_cases _ _ _ _ _ _ P)
    as [(-> & -> & Hb)|(b & w & _ & Hw & F & [(ls' & W & -> & ->)|(_ & _ & Hfull & Hall)])].
  - right. split_and!; auto. unfold best_worker in Hb.
    destruct (scan_workers c 0 (g_workers s) None (double_of_Z (-1))) as [b hi] eqn:E.
    destruct (scan_workers_spec _ _ _ _ _ _ _ E) as [[[_ ->]|(i & x & -> & _)] Hm]; [|done].
    intros w [i Hi]%list_elem_of_lookup F. by eapply Hm.
  - left. cbn. rewrite (active_ids_slot_write _ _ _ W eq_refl). by left.
  - pose proof (lease_slot_exists _ _ I Hc Hn Hall). lia.
Qed.

(** The tick drops no chunk it could place: in a reachable state, one
    iteration of the tick on an unblocked queued chunk leaves the chunk with an
    active lease, unless no eligible worker scores above the starting score of
    -1; the lease table is never the obstacle, so reserved resources always
    have their lease. *)
Theorem scheduler_places_every_chunk (s s' : sched) (now : Z) (c : vom_chunk_plan)
    (out out' : list vom_assignment_lease) :
  sched_reachable s -> c ∈ g_chunks s -> cp_is_blocked c = false ->
  tick_chunk now c s out = (s', out') ->
  cp_chunk_id c ∈ active_ids (g_leases s') \/
  (cp_chunk_id c ∉ active_ids (g_leases s') /\ out' = out /\
   forall w, w ∈ g_workers s' -> evaluate_hard_filters c w = true ->
     dgtb (calculate_worker_score c w) (double_of_Z (-1)) = false).
Proof.
  intros R Hc B. pose proof (reachable_inv s R) as I. unfold tick_chunk. rewrite B.
  destruct (check_lease now c s) as [al s1] eqn:C.
  destruct (check_lease_cases _ _ _ _ _ C)
    as [(-> & -> & ?)|[(-> & -> & Hn)|(-> & i & l & Hl & Ha & Hid & Hex & ->)]].
  - intros [= <- <-]. by left.
  - by apply place_or_idle.
  - apply place_or_idle; [|done|].
    + apply end_lease_inv; auto. eapply Forall_forall; [apply (inv_chunks_ok s I)|done].
    + rewrite <- Hid. by apply end_lease_gone.
Qed.

Lemma scheduler_places_every_chunk_witness :
  let s' := fst (tick_chunk 1000 (test_chunk 2001 2 512) demo_start []) in
  2001 ∈ active_ids (g_leases s').
Proof.
  destruct (tick_chunk 1000 (test_chunk 2001 2 512) demo_start []) as [s' out'] eqn:E.
  assert (sched_reachable demo_start) as R by apply fresh_reachable_reachable, demo_start_fresh.
  assert (test_chunk 2001 2 512 ∈ g_chunks demo_start) as Hc
    by (apply (list_elem_of_lookup_2 _ 0%nat); vm_compute; reflexivity).
  destruct (scheduler_places_every_chunk demo_start s' 1000 (test_chunk 2001 2 512) [] out' R
              Hc eq_refl E) as [H|(_ & H & _)]; [exact H|].
  exfalso. vm_compute in E. injection E as _ <-. discriminate H.
Defined.

(** C4: The placement scan returns an eligible worker whose score exceeds -1
    and is not exceeded by the score of any other eligible worker, the first
    such index winning among equals scanned so far; it returns none only when
    no eligible worker scores above -1. *)
Theorem best_worker_optimal (c : vom_chunk_plan) (ws : list vom_worker_view) :
  match best_worker c ws with
  | Some b => exists x, ws !! b = Some x /\ evaluate_hard_filters c x = true /\
      dgtb (calculate_worker_score c x) (double_of_Z (-1)) = true /\
      forall i y, ws !! i = Some y -> evaluate_hard_filters c y = true ->
        dgtb (calculate_worker_score c y) (calculate_worker_score c x) = false
  | None => forall i y, ws !! i = Some y -> evaluate_hard_filters c y = true ->
        dgtb (calculate_worker_score c y) (double_of_Z (-1)) = false
  end.
Proof.
  unfold best_worker.
  destruct (scan_workers c 0 ws None (double_of_Z (-1))) as [b hi] eqn:E. cbn.
  destruct (scan_workers_spec _ _ _ _ _ _ _ E) as [[[-> ->]|(i & x & -> & Hx & F & -> & G)] Hm]; eauto 10.
Qed.

Section Release.
Context (s : sched) (c : vom_chunk_plan) (l : vom_assignment_lease) (w : vom_worker_view).
Hypothesis (I : sched_inv s) (X : sched_exact s).
Hypothesis (Hc : c ∈ g_chunks s) (Hl : l ∈ g_leases s) (Hw : w ∈ g_workers s).
Hypothesis (Ha : al_is_active l = true) (Hid : al_chunk_id l = cp_chunk_id c).
Hypothesis (Hwid : al_assigned_worker_id l = wv_worker_id w).

Lemma release_eq : exists i k, g_leases s !! i = Some l /\ g_chunks s !! k = Some c /\
  vom_scheduler_release_lease (cp_chunk_id c) s =
  sc_set_chunks (delete k (g_chunks s)) (end_lease c i l s).
Proof.
  destruct (release_cases (cp_chunk_id c) s I)
    as [(Hn & _)|(i & l' & k & c' & Hi & Ha' & Hid' & Hk & Hc' & ->)].
  - destruct Hn. apply elem_of_active_ids. eauto.
  - assert (l' = l) as -> by (eapply (active_unique s); eauto using list_elem_of_lookup_2; congruence).
    assert (c' = c) as -> by (eapply (key_unique cp_chunk_id (g_chunks s));
                             eauto using list_elem_of_lookup_2; apply I).
    eauto.
Qed.

Lemma return_resources_at : exists j, g_workers s !! j = Some w /\
  return_resources c (al_assigned_worker_id l) (g_workers s) = alter (give_back c) j (g_workers s).
Proof.
  unfold return_resources. rewrite Hwid.
  destruct (find_idx_exists (fun w' => strcmp_eq (wv_worker_id w') (wv_worker_id w)) (g_workers s) w Hw)
    as [j J]; [apply strcmp_eq_refl|]. rewrite J. find_idx_inv J. bprop.
  assert (x = w) as -> by (eapply (key_unique wv_worker_id (g_workers s));
                          eauto using list_elem_of_lookup_2; apply I). eauto.
Qed.

(** With balanced books the guards of [give_back] never skip a subtraction. *)
Lemma give_back_exact :
  wv_reserv_cpu (give_back c w) = wv_reserv_cpu w - cp_required_cpu c /\
  wv_reserv_mem_mb (give_back c w) = wv_reserv_mem_mb w - cp_required_memory_mb c /\
  wv_active_chunks (give_back c w) = wv_active_chunks w - 1.
Proof.
  pose proof Hc as [k Hk]%list_elem_of_lookup. pose proof Hl as [i Hi]%list_elem_of_lookup.
  destruct (X w Hw) as (Xc & Xm & Xa).
  assert (worker_ok w) as (_ & Hok) by (eapply Forall_forall; [apply (inv_workers_ok s I)|done]).
  pose proof (leased_at_least s c k I Hk i l Hi Ha Hid _ (cpu_nonneg s I)) as Lc.
  pose proof (leased_at_least s c k I Hk i l Hi Ha Hid _ (mem_nonneg s I)) as Lm.
  pose proof (leased_at_least s c k I Hk i l Hi Ha Hid (fun _ => 1) ltac:(done)) as La.
  pose proof (leased_one_bound s I (wv_worker_id w)). rewrite Hwid in *.
  destruct (book_chunk_ok s c k I Hk) as ([? _] & [? _]). cbn.
  rewrite u8_id, u64_id, s32_id by (unfold in_u8, in_u64, in_s32; lia).
  repeat destr_if; bprop; lia.
Qed.

End Release.

(** C5: Releasing the lease [l] of chunk [c] in a state with balanced books
    takes the chunk out of the queue and its lease out of the active ones,
    returns exactly the chunk's CPU and memory to the worker that held it, and
    leaves every other worker, queued chunk and lease as it was. *)
Theorem scheduler_release_returns (s : sched) (c : vom_chunk_plan) (l : vom_assignment_lease)
    (w : vom_worker_view) :
  fresh_reachable s -> c ∈ g_chunks s -> l ∈ g_leases s -> w ∈ g_workers s ->
  al_is_active l = true -> al_chunk_id l = cp_chunk_id c ->
  al_assigned_worker_id l = wv_worker_id w ->
  let t := vom_scheduler_release_lease (cp_chunk_id c) s in
  cp_chunk_id c ∉ cp_chunk_id <$> g_chunks t /\ cp_chunk_id c ∉ active_ids (g_leases t) /\
  (exists w', w' ∈ g_workers t /\ same_worker w w' /\
     wv_reserv_cpu w' = wv_reserv_cpu w - cp_required_cpu c /\
     wv_reserv_mem_mb w' = wv_reserv_mem_mb w - cp_required_memory_mb c /\
     wv_active_chunks w' = wv_active_chunks w - 1) /\
  (forall v, v ∈ g_workers s -> wv_worker_id v <> wv_worker_id w -> v ∈ g_workers t) /\
  (forall d, d ∈ g_chunks s -> cp_chunk_id d <> cp_chunk_id c -> d ∈ g_chunks t) /\
  (forall m, m ∈ g_leases s -> al_chunk_id m <> cp_chunk_id c -> m ∈ g_leases t).
Proof.
  intros R Hc Hl Hw Ha Hid Hwid t.
  pose proof (reachable_inv s (fresh_reachable_reachable s R)) as I.
  assert (sched_exact s) as X by by apply fresh_exact.
  destruct (release_eq s c l I Hc Hl Ha Hid) as (i & k & Hi & Hk & E).
  destruct (return_resources_at s c l w I Hw Hwid) as (j & Hj & Er).
  unfold t. rewrite E. cbn. rewrite Er. pose proof (delete_perm _ _ _ Hk) as P. split_and!.
  - pose proof (inv_chunks_keys s I) as N. rewrite P in N. by apply NoDup_cons in N as [].
  - rewrite <- Hid. by apply (end_lease_gone s c i l).
  - exists (give_back c w). split; [by apply alter_hits|]. split; [done|]. by eapply give_back_exact.
  - intros v Hv Hne. by eapply (alter_keeps wv_worker_id).
  - intros d Hd Hne. rewrite P in Hd. apply elem_of_cons in Hd as [->|]; done.
  - intros m Hm Hne. eapply (alter_keeps al_chunk_id); [done..|congruence].
Qed.

Lemma scheduler_release_returns_witness :
  cp_chunk_id <$> g_chunks (vom_scheduler_release_lease 2001 demo_ticked) = [2002; 2003] /\
  2001 ∉ active_ids (g_leases (vom_scheduler_release_lease 2001 demo_ticked)).
Proof.
  split; [vm_compute; reflexivity|].
  assert (test_chunk 2001 2 512 ∈ g_chunks demo_ticked) as Hc
    by (apply (list_elem_of_lookup_2 _ 0%nat); vm_compute; reflexivity).
  destruct (g_leases demo_ticked !! 0%nat) as [l|] eqn:L; [|vm_compute in L; discriminate L].
  destruct (g_workers demo_ticked !! 0%nat) as [w|] eqn:W; [|vm_compute in W; discriminate W].
  refine (proj1 (proj2 (scheduler_release_returns demo_ticked (test_chunk 2001 2 512) l w
    demo_ticked_fresh Hc (list_elem_of_lookup_2 _ _ _ L) (list_elem_of_lookup_2 _ _ _ W) _ _ _)));
  vm_compute in L, W; injection L as <-; injection W as <-; reflexivity.
Defined.
