(* ===== verification/SnapshotRing.v ===== *)
(** The snapshot ring that [master/src/cluster_state.c] and
    [master/src/registry.c] both implement: four slots, a reference count per
    slot and the index where the next search starts.  The file holds the two
    search loops as written, their equivalence, the interface a component with
    such a ring promises to its clients, and the clients' theorem: a snapshot
    stays what it was when it was acquired for as long as it is held, provided
    no more than four are held at a time. *)
From S2P Require Import Prelude.

Definition SNAPSHOT_RING_SIZE : nat := 4.

Record ring (S : Type) := {
  ring_pool : list S;
  ring_refs : list Z;
  ring_tail : nat
}.
Arguments ring_pool {S} _.
Arguments ring_refs {S} _.
Arguments ring_tail {S} _.
Arguments Build_ring {S} _ _ _.

(** [snapshot_ref_counts[i]] *)
Definition ref_at (refs : list Z) (i : nat) : Z := default 0 (refs !! i).

Definition next_slot (i : nat) : nat := ((i + 1) mod SNAPSHOT_RING_SIZE)%nat.

(** [while (refs[slot] > 0) { slot = (slot + 1) % 4; n++; if (n >= 4) break; }]:
    [fuel] iterations are available, [n] is [search_count]. *)
Fixpoint search_while (fuel : nat) (refs : list Z) (slot n : nat) : nat :=
  match fuel with
  | O => slot
  | S fuel =>
      if ref_at refs slot >? 0 then
        if (SNAPSHOT_RING_SIZE <=? n + 1)%nat then next_slot slot
        else search_while fuel refs (next_slot slot) (n + 1)
      else slot
  end.

(** [for (i = 0; i < 4; i++) { if (refs[slot] == 0) break; slot = (slot + 1) % 4; }]:
    [n] iterations are left. *)
Fixpoint search_for (n : nat) (refs : list Z) (slot : nat) : nat :=
  match n with
  | O => slot
  | S n => if ref_at refs slot =? 0 then slot else search_for n refs (next_slot slot)
  end.

(** Copying the live state into [slot], taking a reference and moving the tail. *)
Definition ring_take {S} (slot : nat) (st : S) (r : ring S) : ring S :=
  Build_ring (<[slot := st]> (ring_pool r))
    (alter (fun n => u32 (n + 1)) slot (ring_refs r)) (next_slot slot).

(** Dropping a reference.  A pointer is the index of the slot it points to;
    an index outside the ring is any other pointer. *)
Definition ring_drop {S} (slot : nat) (r : ring S) : ring S :=
  Build_ring (ring_pool r)
    (alter (fun n => if n >? 0 then u32 (n - 1) else n) slot (ring_refs r)) (ring_tail r).

(** * The searches *)

Record ring_ok {S} (r : ring S) : Prop := {
  ring_pool_len : length (ring_pool r) = SNAPSHOT_RING_SIZE;
  ring_refs_len : length (ring_refs r) = SNAPSHOT_RING_SIZE;
  ring_refs_range : Forall in_u32 (ring_refs r);
  ring_tail_lt : (ring_tail r < SNAPSHOT_RING_SIZE)%nat
}.

Lemma next_slot_lt i : (next_slot i < SNAPSHOT_RING_SIZE)%nat.
Proof. apply Nat.mod_upper_bound. done. Qed.

Lemma ref_at_nonneg refs i : Forall in_u32 refs -> 0 <= ref_at refs i.
Proof.
  intros H. unfold ref_at. destruct (refs !! i) eqn:E; cbn; [|lia].
  eapply Forall_lookup in H; [|done]. apply H.
Qed.

(** The [while] loop never runs out of its four iterations, and both loops
    pick the same slot. *)
Lemma search_equiv fuel refs slot n :
  Forall in_u32 refs -> (n + fuel = SNAPSHOT_RING_SIZE)%nat ->
  search_while fuel refs slot n = search_for fuel refs slot.
Proof.
  intros Hr. revert slot n. induction fuel as [|fuel IH]; intros slot n Hn; cbn [search_while search_for]; [done|].
  pose proof (ref_at_nonneg refs slot Hr).
  destruct (Z.eqb_spec (ref_at refs slot) 0) as [->|Hne]; [done|].
  replace (ref_at refs slot >? 0) with true by (symmetry; rewrite Z.gtb_ltb; apply Z.ltb_lt; lia).
  destruct (Nat.leb_spec SNAPSHOT_RING_SIZE (n + 1)) as [Hle|Hgt].
  - assert (fuel = 0)%nat as -> by lia. done.
  - apply IH. lia.
Qed.

Lemma search_for_lt n refs slot :
  (slot < SNAPSHOT_RING_SIZE)%nat -> (search_for n refs slot < SNAPSHOT_RING_SIZE)%nat.
Proof.
  revert slot. induction n as [|n IH]; intros slot H; cbn; [done|].
  destr_if; [done|]. apply IH, next_slot_lt.
Qed.

(** The search returns a free slot whenever there is one. *)
Lemma search_for_free refs slot i :
  (slot < SNAPSHOT_RING_SIZE)%nat -> (i < SNAPSHOT_RING_SIZE)%nat -> ref_at refs i = 0 ->
  ref_at refs (search_for SNAPSHOT_RING_SIZE refs slot) = 0.
Proof.
  unfold SNAPSHOT_RING_SIZE. intros Hs Hi H0.
  destruct slot as [|[|[|[|]]]], i as [|[|[|[|]]]]; try lia; cbn;
    repeat match goal with
    | |- context [ref_at refs ?k =? 0] => destruct (Z.eqb_spec (ref_at refs k) 0); cbn
    end; congruence.
Qed.

(** The loop of a release stops at the slot the pointer names. *)
Lemma find_slot p : find_idx (fun i => Nat.eqb i p) (seq 0 SNAPSHOT_RING_SIZE) = if decide (p < SNAPSHOT_RING_SIZE)%nat then Some p else None.
Proof. do 4 (destruct p as [|p]; [done|]). done. Qed.

(** With every slot pinned, the search comes back to where it started. *)
Lemma search_for_full refs slot :
  (slot < SNAPSHOT_RING_SIZE)%nat ->
  (forall i, (i < SNAPSHOT_RING_SIZE)%nat -> ref_at refs i <> 0) ->
  search_for SNAPSHOT_RING_SIZE refs slot = slot.
Proof.
  unfold SNAPSHOT_RING_SIZE. intros Hs H.
  destruct slot as [|[|[|[|]]]]; try lia; cbn;
    repeat match goal with
    | |- context [ref_at refs ?k =? 0] =>
        destruct (Z.eqb_spec (ref_at refs k) 0) as [E|_]; [by apply H in E; [|lia]|cbn]
    end; done.
Qed.

Lemma ref_at_alter f refs i j :
  (i < length refs)%nat ->
  ref_at (alter f i refs) j = if decide (i = j) then f (ref_at refs j) else ref_at refs j.
Proof.
  intros H. unfold ref_at. rewrite list_lookup_alter. destruct (decide (i = j)) as [<-|]; [|done].
  destruct (lookup_lt_is_Some_2 _ _ H) as [x ->]. done.
Qed.

Lemma ring_take_ok {S} slot (st : S) r :
  (slot < SNAPSHOT_RING_SIZE)%nat -> ring_ok r -> ring_ok (ring_take slot st r).
Proof.
  intros Hs [H1 H2 H3 H4]. constructor; cbn.
  - by rewrite length_insert.
  - by rewrite length_alter.
  - apply Forall_alter_one; auto with cint.
  - apply next_slot_lt.
Qed.

Lemma ring_drop_ok {S} slot (r : ring S) : ring_ok r -> ring_ok (ring_drop slot r).
Proof.
  intros [H1 H2 H3 H4]. constructor; cbn; rewrite ?length_alter; auto.
  apply Forall_alter_one; [done|]. intros x _ Hx. destr_if; auto with cint.
Qed.

(** The release loop over the four slot addresses. *)
Lemma slot_search p (refs : list Z) (f : Z -> Z) :
  length refs = SNAPSHOT_RING_SIZE ->
  match find_idx (fun i => Nat.eqb i p) (seq 0 SNAPSHOT_RING_SIZE) with
  | Some i => i = p
  | None => alter f p refs = refs
  end.
Proof.
  intros Hl. destruct (find_idx _ _) as [i|] eqn:E.
  - find_idx_inv E. apply Nat.eqb_eq in Hp. subst. by apply lookup_seq in Hx as [-> _].
  - rewrite find_idx_None, Forall_forall in E. apply alter_out. rewrite Hl. apply Nat.nlt_ge.
    intros Hlt. specialize (E p ltac:(apply elem_of_seq; lia)). by rewrite Nat.eqb_refl in E.
Qed.

(** * The interface *)

(** A component with a snapshot ring: its live state, its ring, and that its
    acquire and release are the ring's. *)
Class SnapshotSource (C S : Type) := {
  ss_state : C -> S;
  ss_ring : C -> ring S;
  ss_acquire : C -> nat * C;
  ss_release : nat -> C -> C;
  ss_acquire_law : forall c, ring_ok (ss_ring c) ->
    let slot := search_for SNAPSHOT_RING_SIZE (ring_refs (ss_ring c)) (ring_tail (ss_ring c)) in
    fst (ss_acquire c) = slot /\
    ss_ring (snd (ss_acquire c)) = ring_take slot (ss_state c) (ss_ring c) /\
    ss_state (snd (ss_acquire c)) = ss_state c;
  ss_release_law : forall c slot, ring_ok (ss_ring c) ->
    ss_ring (ss_release slot c) = ring_drop slot (ss_ring c) /\
    ss_state (ss_release slot c) = ss_state c
}.

(** * Clients *)

Section Clients.
Context {C S : Type} `{SnapshotSource C S}.

(** Clients hold handles: the slot they were given and the state at that
    moment.  Between acquisitions and releases the component may change its
    live state in any way that leaves the ring alone. *)
Inductive client_step : C * list (nat * S) -> C * list (nat * S) -> Prop :=
| client_acquire c held : (length held < SNAPSHOT_RING_SIZE)%nat ->
    client_step (c, held) (snd (ss_acquire c), (fst (ss_acquire c), ss_state c) :: held)
| client_release c h1 slot v h2 :
    client_step (c, h1 ++ (slot, v) :: h2) (ss_release slot c, h1 ++ h2)
| client_mutate c c' held : ss_ring c' = ss_ring c ->
    client_step (c, held) (c', held).

Inductive client_reach (c0 : C) : C * list (nat * S) -> Prop :=
| client_start : client_reach c0 (c0, [])
| client_more x y : client_reach c0 x -> client_step x y -> client_reach c0 y.

Definition held_on (i : nat) (held : list (nat * S)) : Z :=
  sumZ (fun h => if decide (h.1 = i) then 1 else 0) held.

Record client_inv (x : C * list (nat * S)) : Prop := {
  ci_ok : ring_ok (ss_ring x.1);
  ci_slots : Forall (fun h => (h.1 < SNAPSHOT_RING_SIZE)%nat) x.2;
  ci_count : forall i, (i < SNAPSHOT_RING_SIZE)%nat -> ref_at (ring_refs (ss_ring x.1)) i = held_on i x.2;
  ci_one : NoDup (x.2.*1);
  ci_val : forall i v, (i, v) ∈ x.2 -> ring_pool (ss_ring x.1) !! i = Some v
}.

Lemma held_on_notin i held : i ∉ held.*1 -> held_on i held = 0.
Proof.
  unfold held_on, sumZ. induction held as [|[j v] held IH]; intros Hn; cbn; [done|].
  cbn in Hn. apply not_elem_of_cons in Hn as [? ?]. destruct (decide (j = i)); [congruence|].
  by rewrite IH.
Qed.

Lemma held_on_in i held : i ∈ held.*1 -> NoDup (held.*1) -> held_on i held = 1.
Proof.
  unfold held_on, sumZ. induction held as [|[j v] held IH]; intros Hi N; cbn; [by apply elem_of_nil in Hi|].
  cbn in Hi, N. apply NoDup_cons in N as [N1 N2]. destruct (decide (j = i)) as [->|Hne].
  - change (1 + held_on i held = 1). by rewrite held_on_notin.
  - rewrite IH; [done| |done]. apply elem_of_cons in Hi as [|]; [congruence|done].
Qed.

(** Fewer than four handles leave a slot free. *)
Lemma free_slot_exists (held : list (nat * S)) :
  (length held < SNAPSHOT_RING_SIZE)%nat ->
  exists i, (i < SNAPSHOT_RING_SIZE)%nat /\ i ∉ held.*1.
Proof.
  intros Hlen.
  destruct (decide (Forall (fun i => i ∈ held.*1) (seq 0 SNAPSHOT_RING_SIZE))) as [Hall|Hn].
  - exfalso. assert (length (seq 0 SNAPSHOT_RING_SIZE) <= length (held.*1))%nat as Hle.
    { apply submseteq_length, NoDup_submseteq; [apply NoDup_seq|]. by rewrite Forall_forall in Hall. }
    rewrite length_seq, length_fmap in Hle. lia.
  - apply not_Forall_Exists in Hn; [|intros; apply _]. apply Exists_exists in Hn as (i & Hi & Hn).
    apply elem_of_seq in Hi. exists i. split; [lia|done].
Qed.

Lemma client_acquire_inv c held :
  client_inv (c, held) -> (length held < SNAPSHOT_RING_SIZE)%nat ->
  client_inv (snd (ss_acquire c), (fst (ss_acquire c), ss_state c) :: held).
Proof.
  intros [I1 I2 I3 I4 I5] Hlen. cbn in *.
  destruct (ss_acquire_law c I1) as (Es & Er & _). cbn zeta in *. rewrite Es in *. clear Es.
  set (slot := search_for _ _ _) in *.
  assert (slot < SNAPSHOT_RING_SIZE)%nat as Hs by apply search_for_lt, I1.
  destruct (free_slot_exists held Hlen) as (i & Hi & Hni).
  assert (ref_at (ring_refs (ss_ring c)) slot = 0) as H0.
  { eapply search_for_free; [apply I1|exact Hi|]. by rewrite I3, held_on_notin. }
  assert (slot ∉ held.*1) as Hns.
  { intros Hin. rewrite I3, (held_on_in _ _ Hin I4) in H0 by done. lia. }
  clearbody slot.
  constructor; cbn; rewrite ?Er.
  - by apply ring_take_ok.
  - by constructor.
  - intros j Hj. cbn. rewrite ref_at_alter by (by rewrite (ring_refs_len _ I1)).
    unfold held_on. rewrite sumZ_cons. fold (held_on j held). cbn.
    destruct (decide (slot = j)) as [<-|Hne]; [|rewrite I3 by done; lia].
    rewrite H0, held_on_notin by done. done.
  - by apply NoDup_cons.
  - intros j v [Hjv|Hjv]%elem_of_cons; cbn.
    + injection Hjv as -> ->. apply list_lookup_insert_eq. by rewrite (ring_pool_len _ I1).
    + rewrite list_lookup_insert_ne; [by apply I5|]. intros <-. apply Hns.
      by apply (list_elem_of_fmap_2 fst _ (slot, v)).
Qed.

Lemma client_release_inv c h1 slot v h2 :
  client_inv (c, h1 ++ (slot, v) :: h2) -> client_inv (ss_release slot c, h1 ++ h2).
Proof.
  intros [I1 I2 I3 I4 I5]. cbn in *. destruct (ss_release_law c slot I1) as (Er & _).
  assert (h1 ++ (slot, v) :: h2 ≡ₚ (slot, v) :: h1 ++ h2) as P by (symmetry; apply Permutation_middle).
  rewrite P in I2, I4. cbn in I4. apply NoDup_cons in I4 as [N1 N2]. apply Forall_cons in I2 as [B1 B2].
  assert (forall i, held_on i (h1 ++ (slot, v) :: h2) =
                    (if decide (slot = i) then 1 else 0) + held_on i (h1 ++ h2)) as Hh.
  { intros i. unfold held_on. rewrite !sumZ_app, sumZ_cons. cbn. lia. }
  constructor; cbn; rewrite ?Er; auto.
  - by apply ring_drop_ok.
  - intros i Hi. cbn. rewrite ref_at_alter by (by rewrite (ring_refs_len _ I1)).
    rewrite I3, Hh by done. destruct (decide (slot = i)) as [<-|]; [|lia].
    rewrite held_on_notin by done. done.
  - intros i w Hw. apply I5. rewrite P. by right.
Qed.

Lemma client_step_inv x y : client_inv x -> client_step x y -> client_inv y.
Proof.
  intros I Hs. destruct Hs as [c held Hlen|c h1 slot v h2|c c' held E].
  - by apply client_acquire_inv.
  - by eapply client_release_inv.
  - destruct I as [I1 I2 I3 I4 I5]. cbn in *. constructor; cbn; by rewrite ?E.
Qed.

Lemma client_reach_inv c0 x :
  client_inv (c0, []) -> client_reach c0 x -> client_inv x.
Proof. intros I0. induction 1; eauto using client_step_inv. Qed.

(** The ring [calloc] leaves: no slot pinned. *)
Definition fresh_ring (z : S) : ring S :=
  Build_ring (replicate SNAPSHOT_RING_SIZE z) (replicate SNAPSHOT_RING_SIZE 0) 0.

Lemma client_inv_fresh c0 z : ss_ring c0 = fresh_ring z -> client_inv (c0, []).
Proof.
  intros E. constructor; cbn; rewrite ?E; try done.
  - constructor; try done; cbn; [|unfold SNAPSHOT_RING_SIZE; lia]. repeat constructor; unfold in_u32; lia.
  - cbn. intros [|[|[|[|]]]] Hi; unfold SNAPSHOT_RING_SIZE in Hi; try done; lia.
  - apply NoDup_nil_2.
  - intros i v Hv. by apply elem_of_nil in Hv.
Qed.

(** What a client may rely on. *)
Lemma client_held_immutable c0 z c held :
  ss_ring c0 = fresh_ring z -> client_reach c0 (c, held) ->
  NoDup held.*1 /\ forall slot v, (slot, v) ∈ held -> ring_pool (ss_ring c) !! slot = Some v.
Proof.
  intros E R. destruct (client_reach_inv _ _ (client_inv_fresh _ _ E) R) as [_ _ _ N V]. done.
Qed.

End Clients.
