(* ===== verification/ClusterState.v ===== *)
(** The authoritative cluster state of the master
    ([master/src/cluster_state.c]): membership, chunk leases, aggregates,
    versioning, the write-ahead image and the snapshot ring. *)
From stdpp Require Import gmap.
From S2P Require Import Prelude CFloat SnapshotRing.

Definition CLUSTER_MAX_WORKERS : nat := 32.
Definition CLUSTER_MAX_ACTIVE_LEASES : nat := 128.

Inductive WorkerHealth := WORKER_HEALTH_ONLINE | WORKER_HEALTH_DRAINING | WORKER_HEALTH_OFFLINE.
Inductive ClusterStatus :=
  CLUSTER_STATUS_BOOSTRAP | CLUSTER_STATUS_OPERATIONAL | CLUSTER_STATUS_DEGRADED.
Inductive LeaseStatus :=
  LEASE_STATUS_RUNNING | LEASE_STATUS_COMPLETED | LEASE_STATUS_FAILED | LEASE_STATUS_TIMED_OUT.

#[export] Instance WorkerHealth_eq_dec : EqDecision WorkerHealth.
Proof. solve_decision. Defined.
#[export] Instance ClusterStatus_eq_dec : EqDecision ClusterStatus.
Proof. solve_decision. Defined.
#[export] Instance LeaseStatus_eq_dec : EqDecision LeaseStatus.
Proof. solve_decision. Defined.

Record WorkerResources := {
  wr_total_memory_bytes : Z;
  wr_reserved_memory_bytes : Z;
  wr_total_cores : Z;
  wr_reserved_cores : Z
}.

Record WorkerMember := {
  wm_worker_id : Z;
  wm_health : WorkerHealth;
  wm_last_seen_timestamp_ms : Z;
  wm_resources : WorkerResources
}.

Record ChunkLease := {
  cl_chunk_id : Z;
  cl_status : LeaseStatus;
  cl_progress_percentage : cfloat;
  cl_failure_retry_count : Z
}.

Record ClusterMetrics := {
  m_aggregate_memory_bytes : Z;
  m_allocated_memory_bytes : Z;
  m_aggregate_cores : Z;
  m_allocated_cores : Z;
  m_active_worker_count : Z
}.

Record ClusterStateSnapshot := {
  cluster_uuid : string;
  master_epoch : Z;
  state_generation_version : Z;
  global_status : ClusterStatus;
  active_workers : list WorkerMember;
  active_leases : list ChunkLease;
  metrics : ClusterMetrics
}.

Record ClusterStateContext := {
  master_state : ClusterStateSnapshot;
  snapshot_pool : list ClusterStateSnapshot;
  pool_tail_idx : nat;
  snapshot_ref_counts : list Z
}.

Definition zero_metrics : ClusterMetrics :=
  {| m_aggregate_memory_bytes := 0; m_allocated_memory_bytes := 0; m_aggregate_cores := 0;
     m_allocated_cores := 0; m_active_worker_count := 0 |}.

(** The image [calloc] leaves in a snapshot. *)
Definition zero_snapshot : ClusterStateSnapshot :=
  {| cluster_uuid := ""; master_epoch := 0; state_generation_version := 0;
     global_status := CLUSTER_STATUS_BOOSTRAP; active_workers := []; active_leases := [];
     metrics := zero_metrics |}.

(** * Field updates *)

Definition cs_set_workers (ws : list WorkerMember) (s : ClusterStateSnapshot) : ClusterStateSnapshot :=
  {| cluster_uuid := cluster_uuid s; master_epoch := master_epoch s;
     state_generation_version := state_generation_version s; global_status := global_status s;
     active_workers := ws; active_leases := active_leases s; metrics := metrics s |}.
Definition cs_set_leases (ls : list ChunkLease) (s : ClusterStateSnapshot) : ClusterStateSnapshot :=
  {| cluster_uuid := cluster_uuid s; master_epoch := master_epoch s;
     state_generation_version := state_generation_version s; global_status := global_status s;
     active_workers := active_workers s; active_leases := ls; metrics := metrics s |}.
Definition cs_set_metrics (m : ClusterMetrics) (s : ClusterStateSnapshot) : ClusterStateSnapshot :=
  {| cluster_uuid := cluster_uuid s; master_epoch := master_epoch s;
     state_generation_version := state_generation_version s; global_status := global_status s;
     active_workers := active_workers s; active_leases := active_leases s; metrics := m |}.
Definition cs_set_status (st : ClusterStatus) (s : ClusterStateSnapshot) : ClusterStateSnapshot :=
  {| cluster_uuid := cluster_uuid s; master_epoch := master_epoch s;
     state_generation_version := state_generation_version s; global_status := st;
     active_workers := active_workers s; active_leases := active_leases s; metrics := metrics s |}.
(** [state->state_generation_version++] *)
Definition bump_version (s : ClusterStateSnapshot) : ClusterStateSnapshot :=
  {| cluster_uuid := cluster_uuid s; master_epoch := master_epoch s;
     state_generation_version := u64 (state_generation_version s + 1);
     global_status := global_status s;
     active_workers := active_workers s; active_leases := active_leases s; metrics := metrics s |}.

Definition ctx_set_state (s : ClusterStateSnapshot) (c : ClusterStateContext) : ClusterStateContext :=
  {| master_state := s; snapshot_pool := snapshot_pool c; pool_tail_idx := pool_tail_idx c;
     snapshot_ref_counts := snapshot_ref_counts c |}.

(** * Operations *)

Definition counted (w : WorkerMember) : bool :=
  match wm_health w with
  | WORKER_HEALTH_ONLINE | WORKER_HEALTH_DRAINING => true
  | WORKER_HEALTH_OFFLINE => false
  end.

Definition add_worker (m : ClusterMetrics) (w : WorkerMember) : ClusterMetrics :=
  let r := wm_resources w in
  if counted w then
    {| m_aggregate_memory_bytes := u64 (m_aggregate_memory_bytes m + wr_total_memory_bytes r);
       m_allocated_memory_bytes := u64 (m_allocated_memory_bytes m + wr_reserved_memory_bytes r);
       m_aggregate_cores := u32 (m_aggregate_cores m + wr_total_cores r);
       m_allocated_cores := u32 (m_allocated_cores m + wr_reserved_cores r);
       m_active_worker_count := u32 (m_active_worker_count m + 1) |}
  else m.

Definition internal_recalculate_aggregates (s : ClusterStateSnapshot) : ClusterStateSnapshot :=
  cs_set_metrics (foldl add_worker zero_metrics (active_workers s)) s.

(** [alloc] is whether [calloc] and [pthread_mutex_init] succeed. *)
Definition cluster_state_create (alloc : bool) (uuid : ptr string) (initial_epoch : Z) :
    ptr ClusterStateContext :=
  match uuid with
  | NULL => NULL
  | Some uuid =>
      if alloc then
        Some {| master_state :=
                  {| cluster_uuid := strncpy 63 uuid; master_epoch := initial_epoch;
                     state_generation_version := 1; global_status := CLUSTER_STATUS_BOOSTRAP;
                     active_workers := []; active_leases := []; metrics := zero_metrics |};
                snapshot_pool := replicate SNAPSHOT_RING_SIZE zero_snapshot;
                pool_tail_idx := 0;
                snapshot_ref_counts := replicate SNAPSHOT_RING_SIZE 0 |}
      else NULL
  end.

Definition cluster_state_register_worker (worker : ptr WorkerMember) (c : ClusterStateContext) :
    bool * ClusterStateContext :=
  match worker with
  | NULL => (false, c)
  | Some worker =>
      let state := master_state c in
      if (CLUSTER_MAX_WORKERS <=? length (active_workers state))%nat then (false, c)
      else
        match find_idx (fun w => wm_worker_id w =? wm_worker_id worker) (active_workers state) with
        | Some _ => (false, c)
        | None =>
            let state := cs_set_workers (active_workers state ++ [worker]) state in
            let state := bump_version state in
            let state :=
              if bool_decide (global_status state = CLUSTER_STATUS_BOOSTRAP) &&
                 (1 <=? length (active_workers state))%nat
              then cs_set_status CLUSTER_STATUS_OPERATIONAL state else state in
            (true, ctx_set_state (internal_recalculate_aggregates state) c)
        end
  end.

Definition is_failure (st : LeaseStatus) : bool :=
  match st with
  | LEASE_STATUS_FAILED | LEASE_STATUS_TIMED_OUT => true
  | LEASE_STATUS_RUNNING | LEASE_STATUS_COMPLETED => false
  end.

(** The writes through [lease]. *)
Definition lease_update (new_status : LeaseStatus) (progress : cfloat) (l : ChunkLease) : ChunkLease :=
  {| cl_chunk_id := cl_chunk_id l; cl_status := new_status; cl_progress_percentage := progress;
     cl_failure_retry_count :=
       if is_failure new_status then u32 (cl_failure_retry_count l + 1)
       else cl_failure_retry_count l |}.

(** The [memset] entry of a new chunk. *)
Definition zero_lease (chunk_id : Z) : ChunkLease :=
  {| cl_chunk_id := chunk_id; cl_status := LEASE_STATUS_RUNNING;
     cl_progress_percentage := S754_zero false; cl_failure_retry_count := 0 |}.

Definition cluster_state_update_lease (chunk_id : Z) (new_status : LeaseStatus) (progress : cfloat)
    (c : ClusterStateContext) : bool * ClusterStateContext :=
  let state := master_state c in
  match find_idx (fun l => cl_chunk_id l =? chunk_id) (active_leases state) with
  | None =>
      if (CLUSTER_MAX_ACTIVE_LEASES <=? length (active_leases state))%nat then (false, c)
      else
        let leases := active_leases state ++ [zero_lease chunk_id] in
        let leases := alter (lease_update new_status progress) (length (active_leases state)) leases in
        (true, ctx_set_state (bump_version (cs_set_leases leases state)) c)
  | Some lease_idx =>
      let leases := alter (lease_update new_status progress) lease_idx (active_leases state) in
      (true, ctx_set_state (bump_version (cs_set_leases leases state)) c)
  end.

Definition heartbeat_update (timestamp_ms : Z) (w : WorkerMember) : WorkerMember :=
  {| wm_worker_id := wm_worker_id w;
     wm_health := match wm_health w with
                  | WORKER_HEALTH_OFFLINE => WORKER_HEALTH_ONLINE
                  | h => h
                  end;
     wm_last_seen_timestamp_ms := timestamp_ms;
     wm_resources := wm_resources w |}.

Definition cluster_state_process_heartbeat (worker_id timestamp_ms : Z) (c : ClusterStateContext) :
    bool * ClusterStateContext :=
  let state := master_state c in
  match find_idx (fun w => wm_worker_id w =? worker_id) (active_workers state) with
  | None => (false, c)
  | Some i =>
      let state := cs_set_workers (alter (heartbeat_update timestamp_ms) i (active_workers state)) state in
      (true, ctx_set_state (internal_recalculate_aggregates (bump_version state)) c)
  end.

(** ** Snapshots.  A snapshot pointer is the index of its slot. *)

Definition cluster_state_acquire_snapshot (c : ClusterStateContext) : nat * ClusterStateContext :=
  let target_slot := search_while 4 (snapshot_ref_counts c) (pool_tail_idx c) 0 in
  (target_slot,
   {| master_state := master_state c;
      snapshot_pool := <[target_slot := master_state c]> (snapshot_pool c);
      pool_tail_idx := ((target_slot + 1) mod SNAPSHOT_RING_SIZE)%nat;
      snapshot_ref_counts := alter (fun n => u32 (n + 1)) target_slot (snapshot_ref_counts c) |}).

Definition cluster_state_release_snapshot (snapshot : ptr nat) (c : ClusterStateContext) :
    ClusterStateContext :=
  match snapshot with
  | NULL => c
  | Some p =>
      match find_idx (fun i => Nat.eqb i p) (seq 0 SNAPSHOT_RING_SIZE) with
      | None => c
      | Some i =>
          {| master_state := master_state c; snapshot_pool := snapshot_pool c;
             pool_tail_idx := pool_tail_idx c;
             snapshot_ref_counts :=
               alter (fun n => if n >? 0 then u32 (n - 1) else n) i (snapshot_ref_counts c) |}
      end
  end.

(** ** The write-ahead image

    A file is the structure image written to it, or [None] when it is shorter
    than one image.  [wb_ok] is whether [fopen (path, "wb")] succeeds,
    [fwrite_ok] whether [fwrite] writes the whole block: with [false] the
    truncated file is left behind. *)
Abbreviation wal_files := (gmap string (option ClusterStateSnapshot)).

Definition cluster_state_persist_to_wal (wb_ok fwrite_ok : bool) (path : ptr string)
    (c : ClusterStateContext) (fs : wal_files) : bool * wal_files :=
  match path with
  | NULL => (false, fs)
  | Some path =>
      if wb_ok then
        (fwrite_ok, <[path := if fwrite_ok then Some (master_state c) else None]> fs)
      else (false, fs)
  end.

(** [rb_ok] is whether [fopen (path, "rb")] succeeds on a file that exists. *)
Definition cluster_state_recover_from_wal (rb_ok : bool) (path : ptr string) (fs : wal_files)
    (c : ClusterStateContext) : bool * ClusterStateContext :=
  match path with
  | NULL => (false, c)
  | Some path =>
      match fs !! path with
      | None => (false, c)
      | Some file =>
          if rb_ok then
            match file with
            | None => (false, c)
            | Some temp_state => (true, ctx_set_state (bump_version temp_state) c)
            end
          else (false, c)
      end
  end.
