(* ===== verification/ClusterStateProps.v ===== *)
(** Correctness of the cluster state: the well-formedness of every reachable
    state with exact aggregates, versioning, retry counting, the write-ahead
    round trip and the immutability of held snapshots. *)
From stdpp Require Import gmap.
From S2P Require Import Prelude CFloat SnapshotRing ClusterState.

(** * The aggregates *)

Definition counted_sum (f : WorkerResources -> Z) (ws : list WorkerMember) : Z :=
  sumZ (fun w => if counted w then f (wm_resources w) else 0) ws.

(** What the metrics mean: sums over the workers that are online or draining,
    in the width of each field. *)
Definition metrics_of (ws : list WorkerMember) : ClusterMetrics :=
  {| m_aggregate_memory_bytes := u64 (counted_sum wr_total_memory_bytes ws);
     m_allocated_memory_bytes := u64 (counted_sum wr_reserved_memory_bytes ws);
     m_aggregate_cores := u32 (counted_sum wr_total_cores ws);
     m_allocated_cores := u32 (counted_sum wr_reserved_cores ws);
     m_active_worker_count := u32 (counted_sum (fun _ => 1) ws) |}.

Lemma u64_add_u64 a b : u64 (u64 a + b) = u64 (a + b).
Proof. unfold u64. by rewrite Zplus_mod_idemp_l. Qed.
Lemma u32_add_u32 a b : u32 (u32 a + b) = u32 (a + b).
Proof. unfold u32. by rewrite Zplus_mod_idemp_l. Qed.

Lemma counted_sum_snoc f ws w :
  counted_sum f (ws ++ [w]) = counted_sum f ws + if counted w then f (wm_resources w) else 0.
Proof. apply sumZ_snoc. Qed.

Lemma foldl_add_worker ws : foldl add_worker zero_metrics ws = metrics_of ws.
Proof.
  induction ws as [|w ws IH] using rev_ind; [done|].
  rewrite foldl_app. cbn. rewrite IH. unfold add_worker, metrics_of. cbn.
  rewrite !counted_sum_snoc. destruct (counted w); [|by rewrite !Z.add_0_r].
  by rewrite !u64_add_u64, !u32_add_u32.
Qed.

(** * The invariant *)

Record state_ok (s : ClusterStateSnapshot) : Prop := {
  so_uuid : (String.length (cluster_uuid s) <= 63)%nat;
  so_workers_len : (length (active_workers s) <= CLUSTER_MAX_WORKERS)%nat;
  so_workers_keys : NoDup (wm_worker_id <$> active_workers s);
  so_leases_len : (length (active_leases s) <= CLUSTER_MAX_ACTIVE_LEASES)%nat;
  so_leases_keys : NoDup (cl_chunk_id <$> active_leases s);
  so_retries : Forall (fun l => in_u32 (cl_failure_retry_count l)) (active_leases s);
  so_metrics : metrics s = metrics_of (active_workers s);
  so_version : in_u64 (state_generation_version s);
  so_status : global_status s =
    match active_workers s with [] => CLUSTER_STATUS_BOOSTRAP | _ => CLUSTER_STATUS_OPERATIONAL end
}.

#[export] Instance cluster_source : SnapshotSource ClusterStateContext ClusterStateSnapshot.
Proof.
  refine {| ss_state := master_state;
            ss_ring := fun c => Build_ring (snapshot_pool c) (snapshot_ref_counts c) (pool_tail_idx c);
            ss_acquire := cluster_state_acquire_snapshot;
            ss_release := fun slot => cluster_state_release_snapshot (Some slot) |}.
  - intros c [_ _ Hr _]. cbn -[search_for search_while] in *.
    rewrite (search_equiv SNAPSHOT_RING_SIZE _ _ 0 Hr) by done. done.
  - intros c slot [_ Hl _ _]. unfold cluster_state_release_snapshot, ring_drop. cbn -[seq] in *.
    pose proof (slot_search slot _ (fun n => if n >? 0 then u32 (n - 1) else n) Hl) as E.
    destruct (find_idx _ _); [by subst|]. by rewrite E.
Defined.

(** One step of the component, with the files it writes. *)
Inductive cs_step : ClusterStateContext * wal_files -> ClusterStateContext * wal_files -> Prop :=
| cs_register c fs w : cs_step (c, fs) (snd (cluster_state_register_worker (Some w) c), fs)
| cs_update c fs id st p : cs_step (c, fs) (snd (cluster_state_update_lease id st p c), fs)
| cs_heartbeat c fs id t : cs_step (c, fs) (snd (cluster_state_process_heartbeat id t c), fs)
| cs_acquire c fs : cs_step (c, fs) (snd (cluster_state_acquire_snapshot c), fs)
| cs_release c fs p : cs_step (c, fs) (cluster_state_release_snapshot p c, fs)
| cs_persist c fs o w p : cs_step (c, fs) (c, snd (cluster_state_persist_to_wal o w p c fs))
| cs_recover c fs o p : cs_step (c, fs) (snd (cluster_state_recover_from_wal o p fs c), fs)
| cs_restart c fs uuid epoch c' : cluster_state_create true (Some uuid) epoch = Some c' ->
    cs_step (c, fs) (c', fs).

Inductive cs_reachable : ClusterStateContext * wal_files -> Prop :=
| cs_start uuid epoch c : cluster_state_create true (Some uuid) epoch = Some c ->
    cs_reachable (c, ∅)
| cs_more x y : cs_reachable x -> cs_step x y -> cs_reachable y.

Definition cs_inv (x : ClusterStateContext * wal_files) : Prop :=
  state_ok (master_state x.1) /\
  forall p s, x.2 !! p = Some (Some s) -> state_ok s.

Lemma create_ok uuid epoch c :
  cluster_state_create true (Some uuid) epoch = Some c -> state_ok (master_state c).
Proof.
  intros [= <-]. constructor; cbn; try apply NoDup_nil_2; try done; try lia.
  rewrite strncpy_length. lia.
Qed.

Lemma bump_version_ok s : state_ok s -> state_ok (bump_version s).
Proof. intros [H1 H2 H3 H4 H5 H6 H7 H8 H9]. constructor; auto. apply u64_range. Qed.

Lemma register_worker_ok w c :
  state_ok (master_state c) ->
  state_ok (master_state (snd (cluster_state_register_worker (Some w) c))).
Proof.
  intros I. pose proof I as [H1 H2 H3 H4 H5 H6 H7 H8 H9]. unfold cluster_state_register_worker.
  destr_if; [done|]. apply Nat.leb_gt in Heqb.
  destruct (find_idx _ _) eqn:E; [done|]. cbn. rewrite H9, length_app.
  replace (1 <=? length (active_workers (master_state c)) + 1)%nat with true
    by (symmetry; apply Nat.leb_le; lia).
  assert (NoDup (wm_worker_id <$> active_workers (master_state c) ++ [w])) as N.
  { rewrite fmap_app. apply NoDup_snoc; [done|]. eapply find_key_None; [|done].
    intros x Hx. by apply Z.eqb_eq. }
  destruct (active_workers (master_state c)) as [|w0 ws] eqn:W;
    [rewrite bool_decide_eq_true_2 by done|rewrite bool_decide_eq_false_2 by done];
    constructor; cbn -[foldl]; rewrite ?W; auto using u64_range; try apply foldl_add_worker.
  all: cbn in *; rewrite ?length_app; cbn; lia.
Qed.

Lemma update_lease_ok id st p c :
  state_ok (master_state c) ->
  state_ok (master_state (snd (cluster_state_update_lease id st p c))).
Proof.
  intros I. pose proof I as [H1 H2 H3 H4 H5 H6 H7 H8 H9]. unfold cluster_state_update_lease.
  assert (forall l, in_u32 (cl_failure_retry_count l) ->
                    in_u32 (cl_failure_retry_count (lease_update st p l))) as Hr
    by (intros l Hl; cbn; destr_if; auto with cint).
  destruct (find_idx _ _) as [i|] eqn:E; [|destr_if; [done|]; apply Nat.leb_gt in Heqb].
  - apply bump_version_ok. constructor; auto; cbn.
    + by rewrite length_alter.
    + by rewrite fmap_alter_same.
    + apply Forall_alter_one; auto.
  - apply bump_version_ok. constructor; auto; cbn.
    + rewrite length_alter, length_app. cbn. lia.
    + rewrite fmap_alter_same by done. rewrite fmap_app. apply NoDup_snoc; [done|].
      eapply find_key_None; [|done]. intros x Hx. by apply Z.eqb_eq.
    + apply Forall_alter_one; auto. apply Forall_app. split; [done|]. constructor; [|done].
      cbn. unfold in_u32. lia.
Qed.

Lemma heartbeat_ok id t c :
  state_ok (master_state c) ->
  state_ok (master_state (snd (cluster_state_process_heartbeat id t c))).
Proof.
  intros I. pose proof I as [H1 H2 H3 H4 H5 H6 H7 H8 H9]. unfold cluster_state_process_heartbeat.
  destruct (find_idx _ _) as [i|] eqn:E; [|done].
  constructor; cbn -[foldl]; auto using u64_range.
  - by rewrite length_alter.
  - by rewrite fmap_alter_same.
  - apply foldl_add_worker.
  - rewrite H9. destruct (active_workers (master_state c)) as [|x l]; [done|by destruct i].
Qed.

Lemma cs_step_inv x y : cs_inv x -> cs_step x y -> cs_inv y.
Proof.
  intros [I F] H. destruct H; cbn in *.
  - split; [by apply register_worker_ok|done].
  - split; [by apply update_lease_ok|done].
  - split; [by apply heartbeat_ok|done].
  - done.
  - split; [|done]. unfold cluster_state_release_snapshot. destruct p; [|done].
    destruct (find_idx _ _); done.
  - split; [done|]. unfold cluster_state_persist_to_wal. destruct p; [|done]. destruct o; [|done].
    simpl snd. intros q s'. rewrite lookup_insert. destruct (decide _); [|by apply F].
    destruct w; intros [= <-]; done.
  - split; [|done]. unfold cluster_state_recover_from_wal. destruct p; [|done].
    destruct (fs !! _) as [[s0|]|] eqn:E; destruct o; try done. apply bump_version_ok. eauto.
  - split; [by eapply create_ok|done].
Qed.

Lemma cs_reachable_inv x : cs_reachable x -> cs_inv x.
Proof.
  induction 1 as [uuid epoch c H|]; [|eauto using cs_step_inv].
  split; [by eapply create_ok|]. intros p s Hs. cbn in Hs. by rewrite lookup_empty in Hs.
Qed.

(** * The contract *)

(** C9: In every state reachable from a fresh cluster by registrations, lease
    updates, heartbeats, snapshots, persistence, recovery and restarts, the
    worker and lease tables fit their arrays with distinct keys, the metrics
    are exactly the sums over the online and draining workers (in the width of
    each field), and the cluster is operational if and only if a worker has
    registered; every image in the write-ahead files satisfies the same. *)
Theorem cluster_reachable_consistent (c : ClusterStateContext) (fs : wal_files) :
  cs_reachable (c, fs) ->
  let s := master_state c in
  (length (active_workers s) <= CLUSTER_MAX_WORKERS)%nat /\
  (length (active_leases s) <= CLUSTER_MAX_ACTIVE_LEASES)%nat /\
  NoDup (wm_worker_id <$> active_workers s) /\ NoDup (cl_chunk_id <$> active_leases s) /\
  metrics s = metrics_of (active_workers s) /\
  (global_status s = CLUSTER_STATUS_OPERATIONAL <-> active_workers s <> []) /\
  (forall p i, fs !! p = Some (Some i) -> state_ok i).
Proof.
  intros R s. destruct (cs_reachable_inv _ R) as [[H1 H2 H3 H4 H5 H6 H7 H8 H9] F]. cbn in *.
  split_and!; auto. unfold s. rewrite H9. by destruct (active_workers (master_state c)).
Qed.

Definition demo_member (id mem cores : Z) : WorkerMember :=
  {| wm_worker_id := id; wm_health := WORKER_HEALTH_ONLINE; wm_last_seen_timestamp_ms := 1000;
     wm_resources := {| wr_total_memory_bytes := mem; wr_reserved_memory_bytes := 0;
                        wr_total_cores := cores; wr_reserved_cores := 0 |} |}.
Definition demo_ctx0 : ClusterStateContext :=
  match cluster_state_create true (Some "cluster-dev-uuid-001") 100 with
  | Some c => c
  | None => {| master_state := zero_snapshot; snapshot_pool := []; pool_tail_idx := 0;
               snapshot_ref_counts := [] |}
  end.
Definition demo_ctx1 : ClusterStateContext :=
  snd (cluster_state_register_worker (Some (demo_member 42 8192 4)) demo_ctx0).
Definition demo_ctx2 : ClusterStateContext :=
  snd (cluster_state_register_worker (Some (demo_member 43 4096 2)) demo_ctx1).

Lemma demo_ctx2_reachable : cs_reachable (demo_ctx2, ∅).
Proof.
  apply (cs_more (demo_ctx1, ∅)); [|apply cs_register].
  apply (cs_more (demo_ctx0, ∅)); [|apply cs_register].
  by eapply cs_start.
Defined.

Lemma cluster_reachable_consistent_witness :
  m_aggregate_cores (metrics (master_state demo_ctx2)) = 6 /\
  metrics (master_state demo_ctx2) = metrics_of (active_workers (master_state demo_ctx2)).
Proof.
  split; [vm_compute; reflexivity|].
  apply (cluster_reachable_consistent demo_ctx2 ∅ demo_ctx2_reachable).
Defined.

(** C14: Every mutating operation is all-or-nothing with exact versioning: a
    registration, lease update, heartbeat or recovery that returns [false]
    leaves the context untouched, and one that returns [true] raises the
    generation version of the state it installs by exactly one. *)
Theorem cluster_updates_versioned (c c' : ClusterStateContext) (ok : bool) :
  (forall w, cluster_state_register_worker w c = (ok, c') ->
     if ok then state_generation_version (master_state c') =
                u64 (state_generation_version (master_state c) + 1) else c' = c) /\
  (forall id st p, cluster_state_update_lease id st p c = (ok, c') ->
     if ok then state_generation_version (master_state c') =
                u64 (state_generation_version (master_state c) + 1) else c' = c) /\
  (forall id t, cluster_state_process_heartbeat id t c = (ok, c') ->
     if ok then state_generation_version (master_state c') =
                u64 (state_generation_version (master_state c) + 1) else c' = c) /\
  (forall o p fs, cluster_state_recover_from_wal o p fs c = (ok, c') ->
     if ok then exists path s, p = Some path /\ fs !! path = Some (Some s) /\
                master_state c' = bump_version s else c' = c).
Proof.
  split_and!.
  - intros [w|]; unfold cluster_state_register_worker; [|by intros [= <- <-]].
    destr_if; [by intros [= <- <-]|]. destruct (find_idx _ _); intros [= <- <-]; [done|].
    cbn. by destr_if.
  - intros id st p. unfold cluster_state_update_lease. destruct (find_idx _ _); [by intros [= <- <-]|].
    by destr_if; intros [= <- <-].
  - intros id t. unfold cluster_state_process_heartbeat. by destruct (find_idx _ _); intros [= <- <-].
  - intros o [path|] fs; unfold cluster_state_recover_from_wal; [|by intros [= <- <-]].
    destruct (fs !! path) as [[s|]|] eqn:E, o; intros [= <- <-]; eauto.
Qed.

Lemma cluster_updates_versioned_witness :
  cluster_state_process_heartbeat 42 2000 demo_ctx2 =
    (true, snd (cluster_state_process_heartbeat 42 2000 demo_ctx2)) /\
  state_generation_version (master_state (snd (cluster_state_process_heartbeat 42 2000 demo_ctx2))) =
    u64 (state_generation_version (master_state demo_ctx2) + 1).
Proof.
  assert (cluster_state_process_heartbeat 42 2000 demo_ctx2 =
    (true, snd (cluster_state_process_heartbeat 42 2000 demo_ctx2))) as E by (vm_compute; reflexivity).
  split; [exact E|].
  exact (proj1 (proj2 (proj2 (cluster_updates_versioned demo_ctx2 _ true))) 42 2000 E).
Defined.

(** ** Retry counting *)

(** A run of lease updates. *)
Fixpoint run_updates (us : list (Z * LeaseStatus * cfloat)) (c : ClusterStateContext) :
    ClusterStateContext :=
  match us with
  | [] => c
  | (id, st, p) :: us => run_updates us (snd (cluster_state_update_lease id st p c))
  end.

Definition failures (id : Z) (us : list (Z * LeaseStatus * cfloat)) : Z :=
  sumZ (fun u => if (u.1.1 =? id) && is_failure u.1.2 then 1 else 0) us.

(** The last status reported for [id], starting from [st]. *)
Definition last_status (id : Z) (us : list (Z * LeaseStatus * cfloat)) (st : LeaseStatus) : LeaseStatus :=
  foldl (fun st u => if u.1.1 =? id then u.1.2 else st) st us.

Definition lease_of (id : Z) (c : ClusterStateContext) (l : ChunkLease) : Prop :=
  l ∈ active_leases (master_state c) /\ cl_chunk_id l = id.

Lemma update_lease_same id st p c l :
  state_ok (master_state c) -> lease_of id c l ->
  lease_of id (snd (cluster_state_update_lease id st p c)) (lease_update st p l).
Proof.
  intros I [Hl Hid]. unfold cluster_state_update_lease.
  destruct (find_idx_exists (fun l => cl_chunk_id l =? id) _ l Hl) as [i E]; [by apply Z.eqb_eq|].
  rewrite E. find_idx_inv E. bprop.
  assert (x = l) as -> by (eapply (key_unique cl_chunk_id); [apply I| |done|congruence];
                          by eapply list_elem_of_lookup_2).
  split; [|done]. by apply alter_hits.
Qed.

Lemma update_lease_other id id' st p c l :
  id' <> id -> lease_of id c l -> lease_of id (snd (cluster_state_update_lease id' st p c)) l.
Proof.
  intros Hne [Hl Hid]. unfold cluster_state_update_lease.
  destruct (find_idx _ _) as [i|] eqn:E; [|destr_if; [done|]]; split; try done; cbn.
  - find_idx_inv E. bprop. eapply (alter_keeps cl_chunk_id); [done..|congruence].
  - eapply (alter_keeps cl_chunk_id _ _ _ (zero_lease id')); [|set_solver|cbn; congruence].
    by rewrite list_lookup_middle.
Qed.

(** A lease's retry counter counts: after any run of lease updates, an
    entry that was there at the start is still there, its retry count has
    grown by the number of FAILED and TIMED_OUT reports for its chunk (modulo
    2^32), and its status is the last one reported for the chunk, whatever was
    reported for other chunks in between. *)
Theorem cluster_retries_counted (us : list (Z * LeaseStatus * cfloat)) (c : ClusterStateContext)
    (fs : wal_files) (l : ChunkLease) :
  cs_reachable (c, fs) -> l ∈ active_leases (master_state c) ->
  exists l', l' ∈ active_leases (master_state (run_updates us c)) /\
    cl_chunk_id l' = cl_chunk_id l /\
    cl_failure_retry_count l' = u32 (cl_failure_retry_count l + failures (cl_chunk_id l) us) /\
    cl_status l' = last_status (cl_chunk_id l) us (cl_status l).
Proof.
  intros R Hl. destruct (cs_reachable_inv _ R) as [I _]. cbn in I. clear R fs.
  revert c l I Hl. induction us as [|[[id st] p] us IH]; intros c l I Hl; cbn.
  - exists l. split_and!; auto. unfold failures, sumZ. cbn. rewrite Z.add_0_r, u32_id; [done|].
    pose proof (so_retries _ I) as Hr. rewrite Forall_forall in Hr. auto.
  - pose proof (update_lease_ok id st p c I) as I1.
    unfold failures. rewrite sumZ_cons. fold (failures (cl_chunk_id l) us). cbn.
    destruct (Z.eqb_spec id (cl_chunk_id l)) as [->|Hne].
    + destruct (update_lease_same (cl_chunk_id l) st p c l I ltac:(done)) as [Hl1 _].
      destruct (IH _ _ I1 Hl1) as (l' & H1 & H2 & H3 & H4). exists l'. split_and!; auto.
      rewrite H3. cbn. destr_if; [|done]. by rewrite u32_add_u32, Z.add_assoc.
    + destruct (update_lease_other (cl_chunk_id l) id st p c l Hne ltac:(done)) as [Hl1 _].
      destruct (IH _ _ I1 Hl1) as (l' & H1 & H2 & H3 & H4). exists l'. split_and!; auto.
Qed.

Definition demo_leased : ClusterStateContext :=
  snd (cluster_state_update_lease 7 LEASE_STATUS_RUNNING (float_of_Z 0) demo_ctx2).

Lemma cluster_retries_counted_witness :
  exists l', l' ∈ active_leases (master_state (run_updates
      [(7, LEASE_STATUS_FAILED, float_of_Z 1); (8, LEASE_STATUS_FAILED, float_of_Z 1);
       (7, LEASE_STATUS_TIMED_OUT, float_of_Z 1); (7, LEASE_STATUS_RUNNING, float_of_Z 2)] demo_leased)) /\
    cl_failure_retry_count l' = 2 /\ cl_status l' = LEASE_STATUS_RUNNING.
Proof.
  destruct (cluster_retries_counted
    [(7, LEASE_STATUS_FAILED, float_of_Z 1); (8, LEASE_STATUS_FAILED, float_of_Z 1);
     (7, LEASE_STATUS_TIMED_OUT, float_of_Z 1); (7, LEASE_STATUS_RUNNING, float_of_Z 2)]
    demo_leased ∅ {| cl_chunk_id := 7; cl_status := LEASE_STATUS_RUNNING;
                     cl_progress_percentage := float_of_Z 0; cl_failure_retry_count := 0 |})
    as (l' & H1 & _ & H3 & H4).
  - eapply cs_more; [apply demo_ctx2_reachable|apply cs_update].
  - apply (list_elem_of_lookup_2 _ 0%nat). vm_compute. reflexivity.
  - exists l'. split; [exact H1|]. rewrite H3, H4. vm_compute. split; reflexivity.
Defined.

(** ** Persistence *)

(** The write-ahead image round-trips: a context that recovers from a
    path that a successful persist wrote gets exactly the persisted state with
    its version raised by one, whatever that context held before and whatever
    was persisted to other paths since; after a failed write the recovery
    fails and leaves the context untouched. *)
Theorem cluster_wal_roundtrip (c c' d : ClusterStateContext) (fs : wal_files) (path other : string)
    (wb' fw fw' : bool) :
  other <> path ->
  let fs1 := snd (cluster_state_persist_to_wal true fw (Some path) c fs) in
  let fs2 := snd (cluster_state_persist_to_wal wb' fw' (Some other) c' fs1) in
  fst (cluster_state_persist_to_wal true fw (Some path) c fs) = fw /\
  cluster_state_recover_from_wal true (Some path) fs2 d =
  (if fw then (true, ctx_set_state (bump_version (master_state c)) d) else (false, d)).
Proof.
  intros Hne fs1 fs2. split; [done|]. unfold cluster_state_recover_from_wal.
  assert (fs2 !! path = Some (if fw then Some (master_state c) else None)) as ->; [|by destruct fw].
  unfold fs2, fs1, cluster_state_persist_to_wal. simpl snd.
  destruct wb'; simpl snd; rewrite ?lookup_insert_ne by done; apply lookup_insert_eq.
Qed.

Lemma cluster_wal_roundtrip_witness :
  cluster_state_recover_from_wal true (Some "b")
    (snd (cluster_state_persist_to_wal true true (Some "a") demo_ctx1
      (snd (cluster_state_persist_to_wal true true (Some "b") demo_ctx2 ∅)))) demo_ctx0 =
  (true, ctx_set_state (bump_version (master_state demo_ctx2)) demo_ctx0).
Proof.
  refine (proj2 (cluster_wal_roundtrip demo_ctx2 demo_ctx1 demo_ctx0 ∅ "b" "a" true true true _)).
  discriminate.
Defined.

(** ** Snapshots *)

(** The operations leave the snapshot ring alone. *)
Lemma register_ring w c :
  ss_ring (snd (cluster_state_register_worker w c)) = ss_ring c.
Proof.
  unfold cluster_state_register_worker. destruct w; [|done]. destr_if; [done|]. by destruct (find_idx _ _).
Qed.

Lemma update_lease_ring id st p c :
  ss_ring (snd (cluster_state_update_lease id st p c)) = ss_ring c.
Proof. unfold cluster_state_update_lease. destruct (find_idx _ _); [done|]. by destr_if. Qed.

Lemma heartbeat_ring id t c :
  ss_ring (snd (cluster_state_process_heartbeat id t c)) = ss_ring c.
Proof. unfold cluster_state_process_heartbeat. by destruct (find_idx _ _). Qed.

(** What the master and its readers do: updates of the live state, and
    snapshots taken and returned, at most four held at a time. *)
Inductive cs_client : ClusterStateContext * list (nat * ClusterStateSnapshot) ->
    ClusterStateContext * list (nat * ClusterStateSnapshot) -> Prop :=
| csc_register c held w : cs_client (c, held) (snd (cluster_state_register_worker w c), held)
| csc_update c held id st p : cs_client (c, held) (snd (cluster_state_update_lease id st p c), held)
| csc_heartbeat c held id t : cs_client (c, held) (snd (cluster_state_process_heartbeat id t c), held)
| csc_acquire c held : (length held < SNAPSHOT_RING_SIZE)%nat ->
    cs_client (c, held) (snd (cluster_state_acquire_snapshot c),
                         (fst (cluster_state_acquire_snapshot c), master_state c) :: held)
| csc_release c h1 slot v h2 :
    cs_client (c, h1 ++ (slot, v) :: h2) (cluster_state_release_snapshot (Some slot) c, h1 ++ h2).

Inductive cs_clients (c0 : ClusterStateContext) :
    ClusterStateContext * list (nat * ClusterStateSnapshot) -> Prop :=
| csc_start : cs_clients c0 (c0, [])
| csc_more x y : cs_clients c0 x -> cs_client x y -> cs_clients c0 y.

Lemma cs_client_step x y : cs_client x y -> client_step x y.
Proof.
  destruct 1; [apply client_mutate, register_ring|apply client_mutate, update_lease_ring|
    apply client_mutate, heartbeat_ring|by apply (@client_acquire _ _ cluster_source)|
    apply (@client_release _ _ cluster_source)].
Qed.

Lemma cs_clients_reach c0 x : cs_clients c0 x -> client_reach c0 x.
Proof. induction 1; [apply client_start|eapply client_more; eauto using cs_client_step]. Qed.

(** C16: Held snapshots are immutable: while readers hold at most four
    snapshots at a time, each of them still reads, in its slot, exactly the
    state that was live when it was acquired, whatever updates, acquisitions
    and releases happened since, and no two handles share a slot. *)
Theorem cluster_snapshots_immutable (uuid : string) (epoch : Z) (c0 c : ClusterStateContext)
    (held : list (nat * ClusterStateSnapshot)) :
  cluster_state_create true (Some uuid) epoch = Some c0 -> cs_clients c0 (c, held) ->
  NoDup held.*1 /\ forall slot v, (slot, v) ∈ held -> snapshot_pool c !! slot = Some v.
Proof.
  intros [= <-] H.
  by refine (client_held_immutable _ zero_snapshot _ _ _ (cs_clients_reach _ _ H)).
Qed.

Lemma cluster_snapshots_immutable_witness :
  let c1 := snd (cluster_state_acquire_snapshot demo_ctx0) in
  snapshot_pool (snd (cluster_state_register_worker (Some (demo_member 42 8192 4)) c1)) !! 0%nat =
  Some (master_state demo_ctx0).
Proof.
  refine (proj2 (cluster_snapshots_immutable "cluster-dev-uuid-001" 100 demo_ctx0 _
                   [(0%nat, master_state demo_ctx0)] eq_refl _) 0%nat _ _).
  - eapply csc_more; [|apply csc_register]. eapply csc_more; [apply csc_start|].
    apply (csc_acquire demo_ctx0 []). cbn. unfold SNAPSHOT_RING_SIZE. lia.
  - by left.
Defined.

(** With four snapshots held, the fifth acquisition overwrites one of them. *)
Example fifth_snapshot_overwrites :
  let acq c := snd (cluster_state_acquire_snapshot c) in
  let c4 := acq (acq (acq (acq demo_ctx0))) in
  let c5 := snd (cluster_state_register_worker (Some (demo_member 42 8192 4)) c4) in
  let '(slot, c6) := cluster_state_acquire_snapshot c5 in
  slot = 0%nat /\ snapshot_pool c4 !! 0%nat = Some (master_state demo_ctx0) /\
  snapshot_pool c6 !! 0%nat = Some (master_state c5) /\ master_state c5 <> master_state demo_ctx0.
Proof. vm_compute. repeat split. discriminate. Qed.
