(* ===== verification/Registry.v ===== *)
(** The worker registry of the master ([master/src/registry.c]): worker
    records with their capabilities and tracked chunks, the stale sweep and
    the registry's snapshot ring. *)
From S2P Require Import Prelude SnapshotRing.

Definition REG_MAX_WORKERS : nat := 64.
Definition REG_MAX_CHUNKS : nat := 32.
Definition REG_NAME_MAX : nat := 64.

Inductive VomCpuArch := VOM_ARCH_X86_64 | VOM_ARCH_AARCH64 | VOM_ARCH_ARMV7 | VOM_ARCH_UNKNOWN.
Inductive VomLinkType := VOM_LINK_ETH | VOM_LINK_WIFI | VOM_LINK_CELLULAR | VOM_LINK_UNKNOWN.
Inductive WorkerRegStatus :=
  REG_STATUS_APPROVED | REG_STATUS_HEALTHY | REG_STATUS_DRAINING | REG_STATUS_DISCONNECTED.

#[export] Instance WorkerRegStatus_eq_dec : EqDecision WorkerRegStatus.
Proof. solve_decision. Defined.

Record vom_worker_capabilities := {
  cap_arch : VomCpuArch;
  cap_cores_online : Z;
  cap_cores_total : Z;
  cap_feature_bitmap : Z;
  cap_ram_total_mb : Z;
  cap_ram_free_mb : Z;
  cap_battery_percent : Z;
  cap_is_charging : bool;
  cap_is_ac_online : bool;
  cap_display_attached : bool;
  cap_display_width : Z;
  cap_display_height : Z;
  cap_touch_supported : bool;
  cap_network_link_type : VomLinkType;
  cap_network_bandwidth_kbps : Z
}.

Record WorkerRecord := {
  wrec_worker_id : string;
  wrec_transport_endpoint : string;
  wrec_status : WorkerRegStatus;
  wrec_last_seen_ms : Z;
  wrec_capabilities : vom_worker_capabilities;
  wrec_active_chunk_ids : list Z
}.

Record RegistrySnapshot := {
  reg_records : list WorkerRecord;
  reg_snapshot_version : Z
}.

Record vom_registry_context := {
  reg_state : RegistrySnapshot;
  reg_pool : list RegistrySnapshot;
  reg_pool_tail : nat;
  reg_ref_counts : list Z
}.

(** * Field updates *)

Definition rec_touch (st : WorkerRegStatus) (now : Z) (caps : vom_worker_capabilities)
    (r : WorkerRecord) : WorkerRecord :=
  {| wrec_worker_id := wrec_worker_id r; wrec_transport_endpoint := wrec_transport_endpoint r;
     wrec_status := st; wrec_last_seen_ms := now; wrec_capabilities := caps;
     wrec_active_chunk_ids := wrec_active_chunk_ids r |}.
Definition rec_set_status (st : WorkerRegStatus) (r : WorkerRecord) : WorkerRecord :=
  rec_touch st (wrec_last_seen_ms r) (wrec_capabilities r) r.
Definition rec_set_chunks (cs : list Z) (r : WorkerRecord) : WorkerRecord :=
  {| wrec_worker_id := wrec_worker_id r; wrec_transport_endpoint := wrec_transport_endpoint r;
     wrec_status := wrec_status r; wrec_last_seen_ms := wrec_last_seen_ms r;
     wrec_capabilities := wrec_capabilities r; wrec_active_chunk_ids := cs |}.

Definition reg_set_records (rs : list WorkerRecord) (ver : Z) (c : vom_registry_context) :
    vom_registry_context :=
  {| reg_state := {| reg_records := rs; reg_snapshot_version := ver |};
     reg_pool := reg_pool c; reg_pool_tail := reg_pool_tail c; reg_ref_counts := reg_ref_counts c |}.

Definition reg_recs (c : vom_registry_context) : list WorkerRecord := reg_records (reg_state c).
Definition reg_ver (c : vom_registry_context) : Z := reg_snapshot_version (reg_state c).

(** The record loop's test, [strcmp (r->worker_id, worker_id) == 0]. *)
Definition rec_is (worker_id : string) (r : WorkerRecord) : bool :=
  strcmp_eq (wrec_worker_id r) worker_id.

(** * Operations *)

Definition zero_registry : RegistrySnapshot := {| reg_records := []; reg_snapshot_version := 0 |}.

(** [alloc] is whether [calloc] and [pthread_mutex_init] succeed. *)
Definition vom_registry_create (alloc : bool) : ptr vom_registry_context :=
  if alloc then
    Some {| reg_state := {| reg_records := []; reg_snapshot_version := 1 |};
            reg_pool := replicate SNAPSHOT_RING_SIZE zero_registry;
            reg_pool_tail := 0;
            reg_ref_counts := replicate SNAPSHOT_RING_SIZE 0 |}
  else NULL.

Definition new_record (worker_id transport : string) (caps : vom_worker_capabilities) (now_ms : Z) :
    WorkerRecord :=
  {| wrec_worker_id := strncpy (REG_NAME_MAX - 1) worker_id;
     wrec_transport_endpoint := strncpy (REG_NAME_MAX - 1) transport;
     wrec_status := REG_STATUS_APPROVED; wrec_last_seen_ms := now_ms; wrec_capabilities := caps;
     wrec_active_chunk_ids := [] |}.

Definition vom_registry_on_worker_join (worker_id transport : ptr string)
    (caps : ptr vom_worker_capabilities) (now_ms : Z) (c : vom_registry_context) :
    bool * vom_registry_context :=
  match worker_id, transport, caps with
  | Some worker_id, Some transport, Some caps =>
      match find_idx (rec_is worker_id) (reg_recs c) with
      | Some i =>
          (true, reg_set_records
                   (alter (rec_touch REG_STATUS_APPROVED now_ms caps) i (reg_recs c))
                   (u64 (reg_ver c + 1)) c)
      | None =>
          if (REG_MAX_WORKERS <=? length (reg_recs c))%nat then (false, c)
          else (true, reg_set_records (reg_recs c ++ [new_record worker_id transport caps now_ms])
                        (u64 (reg_ver c + 1)) c)
      end
  | _, _, _ => (false, c)
  end.

(** The dynamic part of a heartbeat's capabilities. *)
Definition refresh_caps (d caps : vom_worker_capabilities) : vom_worker_capabilities :=
  {| cap_arch := cap_arch caps; cap_cores_online := cap_cores_online d;
     cap_cores_total := cap_cores_total caps; cap_feature_bitmap := cap_feature_bitmap caps;
     cap_ram_total_mb := cap_ram_total_mb caps; cap_ram_free_mb := cap_ram_free_mb d;
     cap_battery_percent := cap_battery_percent d; cap_is_charging := cap_is_charging d;
     cap_is_ac_online := cap_is_ac_online d; cap_display_attached := cap_display_attached caps;
     cap_display_width := cap_display_width caps; cap_display_height := cap_display_height caps;
     cap_touch_supported := cap_touch_supported caps;
     cap_network_link_type := cap_network_link_type caps;
     cap_network_bandwidth_kbps := cap_network_bandwidth_kbps caps |}.

Definition rec_heartbeat (d : vom_worker_capabilities) (now_ms : Z) (r : WorkerRecord) : WorkerRecord :=
  rec_touch
    (match wrec_status r with REG_STATUS_DISCONNECTED => REG_STATUS_HEALTHY | st => st end)
    now_ms (refresh_caps d (wrec_capabilities r)) r.

Definition vom_registry_on_worker_heartbeat (worker_id : ptr string)
    (dynamic_caps : ptr vom_worker_capabilities) (now_ms : Z) (c : vom_registry_context) :
    bool * vom_registry_context :=
  match worker_id, dynamic_caps with
  | Some worker_id, Some dynamic_caps =>
      match find_idx (rec_is worker_id) (reg_recs c) with
      | Some i =>
          (true, reg_set_records (alter (rec_heartbeat dynamic_caps now_ms) i (reg_recs c))
                   (u64 (reg_ver c + 1)) c)
      | None => (false, c)
      end
  | _, _ => (false, c)
  end.

Definition vom_registry_on_worker_leave (worker_id : ptr string) (c : vom_registry_context) :
    bool * vom_registry_context :=
  match worker_id with
  | Some worker_id =>
      match find_idx (rec_is worker_id) (reg_recs c) with
      | Some i =>
          (true, reg_set_records (alter (rec_set_status REG_STATUS_DISCONNECTED) i (reg_recs c))
                   (u64 (reg_ver c + 1)) c)
      | None => (false, c)
      end
  | NULL => (false, c)
  end.

Definition vom_registry_track_chunk (worker_id : ptr string) (chunk_id : Z)
    (c : vom_registry_context) : bool * vom_registry_context :=
  match worker_id with
  | Some worker_id =>
      match find_idx (rec_is worker_id) (reg_recs c) with
      | Some i =>
          match reg_recs c !! i with
          | Some r =>
              if (REG_MAX_CHUNKS <=? length (wrec_active_chunk_ids r))%nat then (false, c)
              else (true, reg_set_records
                            (<[i := rec_set_chunks (wrec_active_chunk_ids r ++ [chunk_id]) r]> (reg_recs c))
                            (u64 (reg_ver c + 1)) c)
          | None => (false, c)
          end
      | None => (false, c)
      end
  | NULL => (false, c)
  end.

(** The two nested loops of [vom_registry_untrack_chunk]: a matching record
    that does not track the chunk does not end the outer loop.  [None] is a
    run to the end. *)
Fixpoint untrack_loop (worker_id : string) (chunk_id : Z) (rs : list WorkerRecord) :
    option (list WorkerRecord) :=
  match rs with
  | [] => None
  | r :: rs =>
      match (if rec_is worker_id r
             then find_idx (fun x => x =? chunk_id) (wrec_active_chunk_ids r) else None) with
      | Some j => Some (rec_set_chunks (delete j (wrec_active_chunk_ids r)) r :: rs)
      | None => (fun rs' => r :: rs') <$> untrack_loop worker_id chunk_id rs
      end
  end.

Definition vom_registry_untrack_chunk (worker_id : ptr string) (chunk_id : Z)
    (c : vom_registry_context) : bool * vom_registry_context :=
  match worker_id with
  | Some worker_id =>
      match untrack_loop worker_id chunk_id (reg_recs c) with
      | Some rs => (true, reg_set_records rs (u64 (reg_ver c + 1)) c)
      | None => (false, c)
      end
  | NULL => (false, c)
  end.

(** [r->status != DISCONNECTED && (now_ms - r->last_seen_ms) > timeout_ms] *)
Definition is_stale (now_ms timeout_ms : Z) (r : WorkerRecord) : bool :=
  negb (bool_decide (wrec_status r = REG_STATUS_DISCONNECTED)) &&
  (u64 (now_ms - wrec_last_seen_ms r) >? timeout_ms).

(** The sweep's loop: [out] is [out_dead_workers] up to [dead_count], [ver]
    the version. *)
Fixpoint sweep_loop (now_ms timeout_ms max_out : Z) (rs : list WorkerRecord) (out : list string)
    (ver : Z) : list WorkerRecord * list string * Z :=
  match rs with
  | [] => ([], out, ver)
  | r :: rs =>
      if is_stale now_ms timeout_ms r then
        let out :=
          if Z.of_nat (length out) <? max_out
          then out ++ [strncpy (REG_NAME_MAX - 1) (wrec_worker_id r)] else out in
        let '(rs', out', ver') := sweep_loop now_ms timeout_ms max_out rs out (u64 (ver + 1)) in
        (rec_set_status REG_STATUS_DISCONNECTED r :: rs', out', ver')
      else
        let '(rs', out', ver') := sweep_loop now_ms timeout_ms max_out rs out ver in
        (r :: rs', out', ver')
  end.

(** [out_null] is whether the caller passes no output array. *)
Definition vom_registry_sweep_stale (now_ms timeout_ms : Z) (out_null : bool) (max_out : Z)
    (c : vom_registry_context) : Z * list string * vom_registry_context :=
  if out_null || (max_out <=? 0) then (0, [], c)
  else
    let '(rs, out, ver) := sweep_loop now_ms timeout_ms max_out (reg_recs c) [] (reg_ver c) in
    (Z.of_nat (length out), out, reg_set_records rs ver c).

Definition vom_registry_acquire_snapshot (c : vom_registry_context) : nat * vom_registry_context :=
  let slot := search_for 4 (reg_ref_counts c) (reg_pool_tail c) in
  (slot,
   {| reg_state := reg_state c;
      reg_pool := <[slot := reg_state c]> (reg_pool c);
      reg_pool_tail := ((slot + 1) mod SNAPSHOT_RING_SIZE)%nat;
      reg_ref_counts := alter (fun n => u32 (n + 1)) slot (reg_ref_counts c) |}).

Definition vom_registry_release_snapshot (snapshot : ptr nat) (c : vom_registry_context) :
    vom_registry_context :=
  match snapshot with
  | NULL => c
  | Some p =>
      match find_idx (fun i => Nat.eqb i p) (seq 0 SNAPSHOT_RING_SIZE) with
      | None => c
      | Some i =>
          {| reg_state := reg_state c; reg_pool := reg_pool c; reg_pool_tail := reg_pool_tail c;
             reg_ref_counts :=
               alter (fun n => if n >? 0 then u32 (n - 1) else n) i (reg_ref_counts c) |}
      end
  end.
