(* ===== verification/RegistryProps.v ===== *)
(** Correctness of the worker registry: the invariant of every reachable
    state, the stale sweep against its specification, heartbeats keeping
    workers alive, chunk tracking and held snapshots. *)
From S2P Require Import Prelude SnapshotRing Registry.

(** * The invariant *)

Definition record_ok (r : WorkerRecord) : Prop :=
  (String.length (wrec_worker_id r) < REG_NAME_MAX)%nat /\
  (String.length (wrec_transport_endpoint r) < REG_NAME_MAX)%nat /\
  (length (wrec_active_chunk_ids r) <= REG_MAX_CHUNKS)%nat /\ in_u64 (wrec_last_seen_ms r).

Record reg_ok (c : vom_registry_context) : Prop := {
  ro_records : Forall record_ok (reg_recs c);
  ro_len : (length (reg_recs c) <= REG_MAX_WORKERS)%nat;
  ro_keys : NoDup (wrec_worker_id <$> reg_recs c);
  ro_ver : in_u64 (reg_ver c)
}.

(** The operations, with clocks in range and worker ids that fit their
    field. *)
Inductive reg_step : vom_registry_context -> vom_registry_context -> Prop :=
| rs_join c id tr caps now : (String.length id < REG_NAME_MAX)%nat -> in_u64 now ->
    reg_step c (snd (vom_registry_on_worker_join (Some id) tr caps now c))
| rs_heartbeat c id caps now : in_u64 now ->
    reg_step c (snd (vom_registry_on_worker_heartbeat id caps now c))
| rs_leave c id : reg_step c (snd (vom_registry_on_worker_leave id c))
| rs_track c id k : reg_step c (snd (vom_registry_track_chunk id k c))
| rs_untrack c id k : reg_step c (snd (vom_registry_untrack_chunk id k c))
| rs_sweep c now t o m : reg_step c (snd (vom_registry_sweep_stale now t o m c))
| rs_acquire c : reg_step c (snd (vom_registry_acquire_snapshot c))
| rs_release c p : reg_step c (vom_registry_release_snapshot p c).

Inductive reg_reachable : vom_registry_context -> Prop :=
| rr_create c : vom_registry_create true = Some c -> reg_reachable c
| rr_step c d : reg_reachable c -> reg_step c d -> reg_reachable d.

(** * The sweep, as a specification *)

Definition sweep_record (now timeout : Z) (r : WorkerRecord) : WorkerRecord :=
  if is_stale now timeout r then rec_set_status REG_STATUS_DISCONNECTED r else r.

(** The workers a sweep finds stale, in table order. *)
Definition stale_ids (now timeout : Z) (rs : list WorkerRecord) : list string :=
  wrec_worker_id <$> List.filter (is_stale now timeout) rs.

Lemma u64_succ_add v n : u64 (u64 (v + 1) + n) = u64 (v + (1 + n)).
Proof. unfold u64. rewrite Zplus_mod_idemp_l. f_equal. lia. Qed.

Lemma sweep_loop_spec now timeout max rs : forall out ver,
  in_u64 ver -> Forall (fun r => String.length (wrec_worker_id r) < REG_NAME_MAX)%nat rs ->
  0 <= max ->
  sweep_loop now timeout max rs out ver =
  (sweep_record now timeout <$> rs,
   out ++ take (Z.to_nat max - length out) (stale_ids now timeout rs),
   u64 (ver + Z.of_nat (length (stale_ids now timeout rs)))).
Proof.
  induction rs as [|r rs IH]; intros out ver Hv Hrs Hm; cbn [sweep_loop fmap list_fmap].
  - cbn. rewrite take_nil, app_nil_r, Z.add_0_r, u64_id by done. done.
  - apply Forall_cons in Hrs as [Hr Hrs]. unfold stale_ids, sweep_record at 1. cbn [List.filter].
    destruct (is_stale now timeout r); [|by rewrite IH].
    rewrite IH by auto using u64_range. rewrite u64_succ_add. cbn [fmap list_fmap length].
    rewrite strncpy_short by (unfold REG_NAME_MAX in *; lia).
    destruct (Z.ltb_spec (Z.of_nat (length out)) max).
    + rewrite length_app. cbn [length].
      replace (Z.to_nat max - length out)%nat with (S (Z.to_nat max - (length out + 1))) by lia.
      cbn [take]. rewrite <- app_assoc. cbn [app].
      f_equal. f_equal. unfold stale_ids. lia.
    + replace (Z.to_nat max - length out)%nat with O by lia. cbn [take].
      f_equal. f_equal. unfold stale_ids. lia.
Qed.

(** * Preservation *)

Lemma reg_ok_alter c i f ver :
  reg_ok c -> (forall r, wrec_worker_id (f r) = wrec_worker_id r) ->
  (forall r, reg_recs c !! i = Some r -> record_ok r -> record_ok (f r)) -> in_u64 ver ->
  reg_ok (reg_set_records (alter f i (reg_recs c)) ver c).
Proof.
  intros [H1 H2 H3 _] Hk Hf Hv. constructor; cbn; auto.
  - apply Forall_alter_one; auto.
  - by rewrite length_alter.
  - rewrite fmap_alter_same; auto.
Qed.

Lemma join_ok id tr caps now c :
  (String.length id < REG_NAME_MAX)%nat -> in_u64 now -> reg_ok c ->
  reg_ok (snd (vom_registry_on_worker_join (Some id) tr caps now c)).
Proof.
  intros Hid Hnow I. unfold vom_registry_on_worker_join.
  destruct tr as [tr|], caps as [caps|]; try done. destruct (find_idx _ _) as [i|] eqn:E.
  - apply reg_ok_alter; auto using u64_range. intros r _ (? & ? & ? & _). done.
  - destr_if; [done|]. apply Nat.leb_gt in Heqb. destruct I as [H1 H2 H3 _]. constructor; cbn; auto using u64_range.
    + apply Forall_app. split; [done|]. constructor; [|done]. unfold record_ok. cbn.
      rewrite !strncpy_length. unfold REG_NAME_MAX, REG_MAX_CHUNKS, in_u64 in *. split_and!; lia.
    + rewrite length_app. cbn. lia.
    + rewrite fmap_app. apply NoDup_snoc; [done|]. cbn. rewrite strncpy_short by (unfold REG_NAME_MAX in *; lia).
      eapply find_key_None; [|exact E]. intros x Hx. by apply strcmp_eq_true.
Qed.

Lemma heartbeat_reg_ok id caps now c :
  in_u64 now -> reg_ok c -> reg_ok (snd (vom_registry_on_worker_heartbeat id caps now c)).
Proof.
  intros Hnow I. unfold vom_registry_on_worker_heartbeat. destruct id, caps; try done.
  destruct (find_idx _ _); [|done]. apply reg_ok_alter; auto using u64_range. intros r _ (? & ? & ? & _). done.
Qed.

Lemma leave_ok id c : reg_ok c -> reg_ok (snd (vom_registry_on_worker_leave id c)).
Proof.
  intros I. unfold vom_registry_on_worker_leave. destruct id; [|done].
  destruct (find_idx _ _); [|done]. apply reg_ok_alter; auto using u64_range.
Qed.

Lemma track_ok id k c : reg_ok c -> reg_ok (snd (vom_registry_track_chunk id k c)).
Proof.
  intros [H1 H2 H3 H0]. unfold vom_registry_track_chunk. destruct id; [|done].
  destruct (find_idx _ _) as [i|]; [|done]. destruct (reg_recs c !! i) as [r|] eqn:E; [|done].
  destr_if; [done|]. apply Nat.leb_gt in Heqb. constructor; cbn; auto using u64_range.
  - apply Forall_insert; [done|]. eapply Forall_lookup in H1 as (? & ? & ? & ?); [|done].
    unfold record_ok. cbn. rewrite length_app. cbn. split_and!; auto; try lia.
  - by rewrite length_insert.
  - by rewrite (fmap_insert_same _ _ _ _ _ E).
Qed.

Lemma untrack_loop_props id k rs rs' :
  untrack_loop id k rs = Some rs' ->
  wrec_worker_id <$> rs' = wrec_worker_id <$> rs /\ (Forall record_ok rs -> Forall record_ok rs').
Proof.
  revert rs'. induction rs as [|r rs IH]; intros rs' H; cbn in H; [done|].
  destruct (if rec_is id r then _ else _) as [j|] eqn:E.
  - injection H as <-. split; [done|]. intros [(? & ? & ? & ?) Hrs]%Forall_cons. constructor; [|done].
    unfold record_ok. cbn. split_and!; auto.
    destruct (rec_is id r); [|done]. apply find_idx_lt in E.
    pose proof (length_delete (wrec_active_chunk_ids r) j) as L.
    destruct (lookup_lt_is_Some_2 _ _ E) as [x Hx]. rewrite L by eauto. lia.
  - destruct (untrack_loop id k rs) as [rs1|]; [|done]. injection H as <-.
    destruct (IH _ eq_refl) as [K P]. split; [cbn; by rewrite K|].
    intros [? ?]%Forall_cons. constructor; auto.
Qed.

Lemma untrack_ok id k c : reg_ok c -> reg_ok (snd (vom_registry_untrack_chunk id k c)).
Proof.
  intros [H1 H2 H3 H0]. unfold vom_registry_untrack_chunk. destruct id; [|done].
  destruct (untrack_loop _ _ _) as [rs|] eqn:E; [|done].
  destruct (untrack_loop_props _ _ _ _ E) as [K P]. constructor; cbn; auto using u64_range; [|by rewrite K].
  by rewrite <- (length_fmap wrec_worker_id), K, length_fmap.
Qed.

Lemma sweep_keys now t (rs : list WorkerRecord) : wrec_worker_id <$> (sweep_record now t <$> rs) = wrec_worker_id <$> rs.
Proof.
  rewrite <- list_fmap_compose. apply list_fmap_ext. intros i r _. unfold compose, sweep_record. by destr_if.
Qed.

Lemma sweep_eq now t m c :
  reg_ok c -> 0 < m ->
  vom_registry_sweep_stale now t false m c =
  (let dead := take (Z.to_nat m) (stale_ids now t (reg_recs c)) in
   (Z.of_nat (length dead), dead,
    reg_set_records (sweep_record now t <$> reg_recs c)
      (u64 (reg_ver c + Z.of_nat (length (stale_ids now t (reg_recs c))))) c)).
Proof.
  intros [H1 _ _ H4] Hm. unfold vom_registry_sweep_stale.
  destruct (Z.leb_spec m 0); [lia|]. cbn [orb].
  rewrite sweep_loop_spec; [|done| |lia].
  - cbn [app length]. by rewrite Nat.sub_0_r.
  - eapply Forall_impl; [done|]. by intros r [Hr _].
Qed.

Lemma sweep_ok now t o m c : reg_ok c -> reg_ok (snd (vom_registry_sweep_stale now t o m c)).
Proof.
  intros I. destruct o; [done|]. destruct (Z.leb_spec m 0) as [Hm|Hm].
  - unfold vom_registry_sweep_stale. cbn. by apply Z.leb_le in Hm as ->.
  - rewrite sweep_eq by done. destruct I as [H1 H2 H3 H4].
    constructor; cbn; rewrite ?sweep_keys, ?length_fmap; auto using u64_range.
    rewrite Forall_fmap. eapply Forall_impl; [done|]. intros r Hr. unfold compose, sweep_record. by destr_if.
Qed.

Lemma reg_step_ok c d : reg_ok c -> reg_step c d -> reg_ok d.
Proof.
  intros I H. destruct H; eauto using join_ok, heartbeat_reg_ok, leave_ok, track_ok, untrack_ok, sweep_ok.
  - destruct I. by constructor.
  - unfold vom_registry_release_snapshot. destruct p; [|done]. destruct (find_idx _ _); [|done].
    destruct I. by constructor.
Qed.

Lemma reg_reachable_ok c : reg_reachable c -> reg_ok c.
Proof.
  induction 1 as [c H|]; [|eauto using reg_step_ok]. injection H as <-.
  constructor; cbn; [done|lia|apply NoDup_nil_2|unfold in_u64; cbn; lia].
Qed.

(** * The contract *)

(** In every state reachable from an empty registry by joins (with ids
    that fit their field), heartbeats, leaves, chunk tracking, sweeps and
    snapshots, there are at most 64 records with distinct, terminated ids, no
    record tracks more than 32 chunks, and every clock and version fits its
    width. *)
Theorem registry_reachable_ok (c : vom_registry_context) :
  reg_reachable c ->
  (length (reg_recs c) <= REG_MAX_WORKERS)%nat /\ NoDup (wrec_worker_id <$> reg_recs c) /\
  in_u64 (reg_ver c) /\
  forall r, r ∈ reg_recs c ->
    (String.length (wrec_worker_id r) < REG_NAME_MAX)%nat /\
    (length (wrec_active_chunk_ids r) <= REG_MAX_CHUNKS)%nat /\ in_u64 (wrec_last_seen_ms r).
Proof.
  intros R. destruct (reg_reachable_ok c R) as [H1 H2 H3 H4]. split_and!; auto.
  intros r Hr. rewrite Forall_forall in H1. by destruct (H1 r Hr) as (? & _ & ? & ?).
Qed.

Definition demo_caps : vom_worker_capabilities :=
  {| cap_arch := VOM_ARCH_AARCH64; cap_cores_online := 8; cap_cores_total := 8;
     cap_feature_bitmap := 0; cap_ram_total_mb := 8192; cap_ram_free_mb := 4096;
     cap_battery_percent := 80; cap_is_charging := false; cap_is_ac_online := false;
     cap_display_attached := true; cap_display_width := 1080; cap_display_height := 2400;
     cap_touch_supported := true; cap_network_link_type := VOM_LINK_WIFI;
     cap_network_bandwidth_kbps := 100000 |}.
Definition demo_reg0 : vom_registry_context :=
  match vom_registry_create true with
  | Some c => c
  | None => {| reg_state := zero_registry; reg_pool := []; reg_pool_tail := 0; reg_ref_counts := [] |}
  end.
Definition demo_reg1 : vom_registry_context :=
  snd (vom_registry_on_worker_join (Some "worker-01") (Some "tcp://1") (Some demo_caps) 1000 demo_reg0).
Definition demo_reg2 : vom_registry_context :=
  snd (vom_registry_on_worker_join (Some "worker-02") (Some "tcp://2") (Some demo_caps) 4000 demo_reg1).

Lemma demo_reg2_reachable : reg_reachable demo_reg2.
Proof.
  apply (rr_step demo_reg1); [apply (rr_step demo_reg0)|].
  - by apply rr_create.
  - apply rs_join; [apply Nat.ltb_lt; reflexivity|unfold in_u64; lia].
  - apply rs_join; [apply Nat.ltb_lt; reflexivity|unfold in_u64; lia].
Defined.

Lemma registry_reachable_ok_witness :
  wrec_worker_id <$> reg_recs demo_reg2 = ["worker-01"; "worker-02"] /\
  NoDup (wrec_worker_id <$> reg_recs demo_reg2).
Proof.
  split; [vm_compute; reflexivity|]. apply (registry_reachable_ok demo_reg2 demo_reg2_reachable).
Defined.

(** C17: The stale sweep is its specification: on a reachable registry with
    room for [max_out] names and no record seen after [now], it marks
    DISCONNECTED exactly the connected workers last seen more than [timeout]
    before [now], changes no other field of any record, reports the ids of the
    first [max_out] of them in table order and their number, and raises the
    version once per worker it marked. *)
Theorem registry_sweep_spec (c d : vom_registry_context) (now timeout max n : Z) (out : list string) :
  reg_reachable c -> in_u64 now -> 0 < max ->
  (forall r, r ∈ reg_recs c -> wrec_last_seen_ms r <= now) ->
  vom_registry_sweep_stale now timeout false max c = (n, out, d) ->
  let dead r := wrec_status r <> REG_STATUS_DISCONNECTED /\ now - wrec_last_seen_ms r > timeout in
  let deads := wrec_worker_id <$> filter dead (reg_recs c) in
  out = take (Z.to_nat max) deads /\ n = Z.of_nat (length out) /\
  reg_recs d = (fun r => if decide (dead r) then rec_set_status REG_STATUS_DISCONNECTED r else r)
                 <$> reg_recs c /\
  reg_ver d = u64 (reg_ver c + Z.of_nat (length deads)).
Proof.
  intros R Hnow Hm Hle H dead deads. pose proof (reg_reachable_ok c R) as I.
  assert (forall r, r ∈ reg_recs c -> is_stale now timeout r = bool_decide (dead r)) as E.
  { intros r Hr. unfold is_stale. rewrite u64_id.
    - unfold dead. destruct (decide (wrec_status r = REG_STATUS_DISCONNECTED)) as [->|Hne]; [done|].
      rewrite (bool_decide_eq_false_2 _ Hne). cbn. rewrite Z.gtb_ltb.
      destruct (Z.ltb_spec timeout (now - wrec_last_seen_ms r)); symmetry;
        [apply bool_decide_eq_true_2|apply bool_decide_eq_false_2]; intuition lia.
    - specialize (Hle r Hr). pose proof (ro_records c I) as Hall. rewrite Forall_forall in Hall.
      destruct (Hall r Hr) as (_ & _ & _ & ?). unfold in_u64 in *. lia. }
  assert (stale_ids now timeout (reg_recs c) = deads) as Es.
  { unfold stale_ids, deads. f_equal. revert E. clear. induction (reg_recs c) as [|r rs IH]; intros E; [done|].
    cbn [List.filter]. rewrite E by set_solver. rewrite filter_cons, <- IH by set_solver.
    by case_bool_decide; destruct (decide (dead r)). }
  rewrite sweep_eq, Es in H by done. injection H as <- <- <-. split_and!; try done.
  cbn. apply list_fmap_ext. intros i r Hr%list_elem_of_lookup_2. unfold sweep_record.
  rewrite E by done. by case_bool_decide; destruct (decide (dead r)).
Qed.

Lemma registry_sweep_spec_witness :
  let '(n, out, d) := vom_registry_sweep_stale 7000 5000 false 8 demo_reg2 in
  out = ["worker-01"] /\ n = Z.of_nat (length out).
Proof.
  destruct (vom_registry_sweep_stale 7000 5000 false 8 demo_reg2) as [[n out] d] eqn:E.
  destruct (registry_sweep_spec demo_reg2 d 7000 5000 8 n out demo_reg2_reachable
              ltac:(unfold in_u64; lia) ltac:(lia)) as (Ho & Hn & _).
  - intros r Hr. vm_compute in Hr |- *.
    repeat (apply elem_of_cons in Hr as [->|Hr]; [vm_compute; discriminate|]). by apply elem_of_nil in Hr.
  - exact E.
  - split; [|exact Hn]. vm_compute in E. injection E as <- <- <-. reflexivity.
Defined.

(** A heartbeat keeps its worker alive: after a worker's heartbeat at [t]
    is accepted, any number of sweeps at times between [t] and [t + timeout]
    neither disconnects nor reports it, and a worker swept before is back to
    HEALTHY by the heartbeat alone. *)
Theorem registry_heartbeat_keeps_alive (c d : vom_registry_context) (id : string)
    (caps : vom_worker_capabilities) (t timeout : Z) (sweeps : list (Z * Z)) :
  reg_reachable c -> in_u64 t ->
  Forall (fun s => t <= s.1 <= t + timeout /\ in_u64 s.1) sweeps ->
  vom_registry_on_worker_heartbeat (Some id) (Some caps) t c = (true, d) ->
  let swept := foldl (fun c s => snd (vom_registry_sweep_stale s.1 timeout false s.2 c)) d sweeps in
  exists r, r ∈ reg_recs d /\ r ∈ reg_recs swept /\ wrec_worker_id r = id /\
    wrec_last_seen_ms r = t /\ wrec_status r <> REG_STATUS_DISCONNECTED.
Proof.
  intros R Ht Hs H. cbn zeta.
  assert (exists r, r ∈ reg_recs d /\ wrec_worker_id r = id /\ wrec_last_seen_ms r = t /\
                    wrec_status r <> REG_STATUS_DISCONNECTED) as (r & Hr & Hid & Hseen & Hst).
  { unfold vom_registry_on_worker_heartbeat in H. destruct (find_idx _ _) as [i|] eqn:E; [|done].
    find_idx_inv E. apply strcmp_eq_true in Hp. injection H as <-. exists (rec_heartbeat caps t x).
    split; [by apply alter_hits|]. split_and!; try done. by destruct x as [?? []]. }
  exists r. split_and!; auto.
  assert (reg_ok d) as I.
  { replace d with (snd (vom_registry_on_worker_heartbeat (Some id) (Some caps) t c)) by (by rewrite H).
    by apply heartbeat_reg_ok, reg_reachable_ok. }
  clear H R. revert d I Hr. induction Hs as [|[now m] sweeps [Hb Hnow] Hs IH]; intros d I Hr; cbn; [done|].
  apply IH; [by apply sweep_ok|]. cbn in *. destruct (Z.leb_spec m 0) as [Hm|Hm].
  - unfold vom_registry_sweep_stale. cbn. by apply Z.leb_le in Hm as ->.
  - rewrite sweep_eq by done. cbn. apply list_elem_of_fmap. exists r. split; [|done].
    unfold sweep_record, is_stale. rewrite Hseen, u64_id by (unfold in_u64 in *; lia).
    replace (now - t >? timeout) with false by (symmetry; rewrite Z.gtb_ltb; apply Z.ltb_ge; lia).
    by rewrite andb_false_r.
Qed.

Lemma registry_heartbeat_keeps_alive_witness :
  let d := snd (vom_registry_on_worker_heartbeat (Some "worker-01") (Some demo_caps) 6500 demo_reg2) in
  exists r, r ∈ reg_recs (snd (vom_registry_sweep_stale 7000 5000 false 8 d)) /\
    wrec_worker_id r = "worker-01" /\ wrec_status r <> REG_STATUS_DISCONNECTED.
Proof.
  destruct (registry_heartbeat_keeps_alive demo_reg2
    (snd (vom_registry_on_worker_heartbeat (Some "worker-01") (Some demo_caps) 6500 demo_reg2))
    "worker-01" demo_caps 6500 5000 [(7000, 8)] demo_reg2_reachable)
    as (r & _ & H1 & H2 & _ & H3).
  - unfold in_u64. lia.
  - constructor; [cbn; unfold in_u64; lia|constructor].
  - vm_compute. reflexivity.
  - exists r. split; [exact H1|split; [exact H2|exact H3]].
Defined.

(** ** Chunk tracking *)

Lemma untrack_loop_at id k rs i r j :
  find_idx (rec_is id) rs = Some i -> rs !! i = Some r ->
  find_idx (fun x => x =? k) (wrec_active_chunk_ids r) = Some j ->
  untrack_loop id k rs = Some (<[i := rec_set_chunks (delete j (wrec_active_chunk_ids r)) r]> rs).
Proof.
  revert i. induction rs as [|r0 rs IH]; intros i Hi Hr Hj; cbn in *; [done|].
  destruct (rec_is id r0) eqn:E.
  - injection Hi as <-. injection Hr as ->. by rewrite Hj.
  - destruct (find_idx (rec_is id) rs) as [i'|] eqn:F; cbn in Hi; [|done]. injection Hi as <-.
    by rewrite (IH i').
Qed.

Lemma find_idx_snoc_new (k : Z) l : k ∉ l -> find_idx (fun x => x =? k) (l ++ [k]) = Some (length l).
Proof.
  induction l as [|x l IH]; intros Hn; cbn; [by rewrite Z.eqb_refl|].
  apply not_elem_of_cons in Hn as [Hne Hn]. destruct (Z.eqb_spec x k); [congruence|]. by rewrite IH.
Qed.

Lemma delete_snoc {A} (l : list A) x : delete (length l) (l ++ [x]) = l.
Proof. induction l as [|y l IH]; cbn; [done|]. by f_equal. Qed.

(** Tracking a chunk the worker does not already hold and untracking it
    is the identity on the records; in between the worker's list ends with the
    chunk and no other record changed.  Tracking fails, changing nothing, only
    for an unknown worker or one that already tracks 32 chunks. *)
Theorem registry_track_untrack (c : vom_registry_context) (id : string) (k : Z) :
  reg_reachable c ->
  let '(ok, d) := vom_registry_track_chunk (Some id) k c in
  if ok then
    exists i r, reg_recs c !! i = Some r /\ wrec_worker_id r = id /\
      reg_recs d = <[i := rec_set_chunks (wrec_active_chunk_ids r ++ [k]) r]> (reg_recs c) /\
      (k ∉ wrec_active_chunk_ids r ->
       fst (vom_registry_untrack_chunk (Some id) k d) = true /\
       reg_recs (snd (vom_registry_untrack_chunk (Some id) k d)) = reg_recs c)
  else d = c /\
    (id ∉ wrec_worker_id <$> reg_recs c \/
     exists r, r ∈ reg_recs c /\ wrec_worker_id r = id /\
               length (wrec_active_chunk_ids r) = REG_MAX_CHUNKS).
Proof.
  intros R. pose proof (reg_reachable_ok c R) as I. unfold vom_registry_track_chunk.
  destruct (find_idx _ _) as [i|] eqn:E.
  2:{ split; [done|]. left. eapply find_key_None; [|exact E]. intros x Hx. by apply strcmp_eq_true. }
  find_idx_inv E. rewrite Hx. apply strcmp_eq_true in Hp. destr_if.
  - apply Nat.leb_le in Heqb. split; [done|]. right. exists x.
    split_and!; [by eapply list_elem_of_lookup_2|done|].
    pose proof (ro_records c I) as Hall. eapply Forall_lookup in Hall as (_ & _ & ? & _); [|done]. lia.
  - exists i, x. split_and!; auto. intros Hn. unfold vom_registry_untrack_chunk. cbn [snd].
    set (x' := rec_set_chunks _ x).
    assert (<[i := x']> (reg_recs c) !! i = Some x') as Hx'.
    { apply list_lookup_insert_eq. by apply lookup_lt_Some in Hx. }
    change (reg_recs (reg_set_records (<[i := x']> (reg_recs c)) (u64 (reg_ver c + 1)) c))
      with (<[i := x']> (reg_recs c)).
    rewrite (untrack_loop_at id k _ i x' (length (wrec_active_chunk_ids x))); auto.
    + split; [done|]. unfold x'. cbn -[delete]. rewrite delete_snoc, list_insert_insert_eq. apply list_insert_id.
      rewrite Hx. by destruct x.
    + eapply find_idx_first; [exact Hx'|by apply strcmp_eq_true|].
      intros j y Hj Hy. rewrite list_lookup_insert_ne in Hy by lia. eauto.
    + by apply find_idx_snoc_new.
Qed.

Lemma registry_track_untrack_witness :
  let d := snd (vom_registry_track_chunk (Some "worker-02") 77 demo_reg2) in
  reg_recs (snd (vom_registry_untrack_chunk (Some "worker-02") 77 d)) = reg_recs demo_reg2.
Proof.
  pose proof (registry_track_untrack demo_reg2 "worker-02" 77 demo_reg2_reachable) as H.
  destruct (vom_registry_track_chunk (Some "worker-02") 77 demo_reg2) as [ok d] eqn:E.
  destruct ok; [|vm_compute in E; discriminate E].
  destruct H as (i & r & Hr & Hid & _ & H). apply H.
  assert (r ∈ reg_recs demo_reg2) as Hin by (eapply list_elem_of_lookup_2; exact Hr).
  vm_compute in Hin.
  repeat (apply elem_of_cons in Hin as [->|Hin]; [apply not_elem_of_nil|]). by apply elem_of_nil in Hin.
Defined.

(** ** Snapshots *)

#[export] Instance registry_source : SnapshotSource vom_registry_context RegistrySnapshot.
Proof.
  refine {| ss_state := reg_state;
            ss_ring := fun c => Build_ring (reg_pool c) (reg_ref_counts c) (reg_pool_tail c);
            ss_acquire := vom_registry_acquire_snapshot;
            ss_release := fun slot => vom_registry_release_snapshot (Some slot) |}.
  - done.
  - intros c slot [_ Hl _ _]. unfold vom_registry_release_snapshot, ring_drop. cbn -[seq] in *.
    pose proof (slot_search slot _ (fun n => if n >? 0 then u32 (n - 1) else n) Hl) as E.
    destruct (find_idx _ _); [by subst|]. by rewrite E.
Defined.

(** What the master does between snapshots. *)
Inductive reg_mutation : vom_registry_context -> vom_registry_context -> Prop :=
| rm_join c id tr caps now : reg_mutation c (snd (vom_registry_on_worker_join id tr caps now c))
| rm_heartbeat c id caps now : reg_mutation c (snd (vom_registry_on_worker_heartbeat id caps now c))
| rm_leave c id : reg_mutation c (snd (vom_registry_on_worker_leave id c))
| rm_track c id k : reg_mutation c (snd (vom_registry_track_chunk id k c))
| rm_untrack c id k : reg_mutation c (snd (vom_registry_untrack_chunk id k c))
| rm_sweep c now t o m : reg_mutation c (snd (vom_registry_sweep_stale now t o m c)).

Lemma reg_mutation_ring c d : reg_mutation c d -> ss_ring d = ss_ring c.
Proof.
  destruct 1; unfold vom_registry_on_worker_join, vom_registry_on_worker_heartbeat,
    vom_registry_on_worker_leave, vom_registry_track_chunk, vom_registry_untrack_chunk,
    vom_registry_sweep_stale;
  repeat (case_match; try done).
Qed.

Inductive reg_clients (c0 : vom_registry_context) :
    vom_registry_context * list (nat * RegistrySnapshot) -> Prop :=
| rc_start : reg_clients c0 (c0, [])
| rc_mutate c d held : reg_clients c0 (c, held) -> reg_mutation c d -> reg_clients c0 (d, held)
| rc_acquire c held : reg_clients c0 (c, held) -> (length held < SNAPSHOT_RING_SIZE)%nat ->
    reg_clients c0 (snd (vom_registry_acquire_snapshot c),
                    (fst (vom_registry_acquire_snapshot c), reg_state c) :: held)
| rc_release c h1 slot v h2 : reg_clients c0 (c, h1 ++ (slot, v) :: h2) ->
    reg_clients c0 (vom_registry_release_snapshot (Some slot) c, h1 ++ h2).

Lemma reg_clients_reach c0 x : reg_clients c0 x -> client_reach c0 x.
Proof.
  induction 1; [apply client_start|..]; (eapply client_more; [eassumption|]).
  - by apply client_mutate, reg_mutation_ring.
  - by apply (@client_acquire _ _ registry_source).
  - apply (@client_release _ _ registry_source).
Qed.

(** Held registry snapshots are immutable: while readers hold at most
    four at a time, each still reads the records that were live when it was
    acquired, whatever joins, heartbeats, sweeps and other acquisitions
    happened since. *)
Theorem registry_snapshots_immutable (c0 c : vom_registry_context)
    (held : list (nat * RegistrySnapshot)) :
  vom_registry_create true = Some c0 -> reg_clients c0 (c, held) ->
  NoDup held.*1 /\ forall slot v, (slot, v) ∈ held -> reg_pool c !! slot = Some v.
Proof.
  intros [= <-] H. by refine (client_held_immutable _ zero_registry _ _ _ (reg_clients_reach _ _ H)).
Qed.

Lemma registry_snapshots_immutable_witness :
  let c1 := snd (vom_registry_acquire_snapshot demo_reg1) in
  reg_pool (snd (vom_registry_on_worker_leave (Some "worker-01") c1)) !! 0%nat =
  Some (reg_state demo_reg1).
Proof.
  refine (proj2 (registry_snapshots_immutable demo_reg0 _ [(0%nat, reg_state demo_reg1)] eq_refl _) 0%nat _ _).
  - eapply rc_mutate; [|apply rm_leave]. apply (rc_acquire demo_reg0 demo_reg1 []); [|cbn; unfold SNAPSHOT_RING_SIZE; lia].
    eapply rc_mutate; [apply rc_start|apply rm_join].
  - by left.
Defined.

(** ** Where the code falls short *)

Definition long_id : string :=
  "worker-0123456789-0123456789-0123456789-0123456789-0123456789-0123456789".

(** An id longer than its field: each join adds another record, and no
    heartbeat finds any of them. *)
Example long_id_duplicates :
  let join c := snd (vom_registry_on_worker_join (Some long_id) (Some "tcp://1") (Some demo_caps) 1000 c) in
  let c := join (join demo_reg0) in
  length (reg_recs c) = 2%nat /\
  fst (vom_registry_on_worker_heartbeat (Some long_id) (Some demo_caps) 2000 c) = false.
Proof. vm_compute. split; reflexivity. Qed.

(** A sweep whose clock is behind a record's takes the wrapped difference for
    a long silence. *)
Example sweep_clock_behind :
  snd (fst (vom_registry_sweep_stale 3999 5000 false 8 demo_reg2)) = ["worker-02"].
Proof. vm_compute. reflexivity. Qed.
