(* ===== verification/ChunkPlanner.v ===== *)
(** The chunk planner of the master ([master/src/chunk_planner.c]): the
    strategy table, the two planning strategies with their deterministic chunk
    identifiers, and the topology check (Kahn's algorithm with the array queue
    of the source). *)
From S2P Require Import Prelude CFloat.

Definition MAX_STRATEGIES : nat := 16.
Definition MAX_CHUNKS : nat := 64.
Definition MAX_EDGES : nat := 128.
Definition MAX_NAME_LEN : nat := 64.
Definition HASH_SEED : Z := 0x9E3779B97F4A7C15.

Inductive StrategyType :=
  STRATEGY_INDEPENDENT_BATCH | STRATEGY_SEQUENTIAL_PIPELINE | STRATEGY_MAP_REDUCE | STRATEGY_UNSUPPORTED.
#[export] Instance StrategyType_eq_dec : EqDecision StrategyType.
Proof. solve_decision. Defined.

Definition strategy_code (t : StrategyType) : Z :=
  match t with
  | STRATEGY_INDEPENDENT_BATCH => 0
  | STRATEGY_SEQUENTIAL_PIPELINE => 1
  | STRATEGY_MAP_REDUCE => 2
  | STRATEGY_UNSUPPORTED => 3
  end.

Record Workload := {
  wl_workload_name : string;
  wl_strategy_type : StrategyType;
  wl_total_input_size_bytes : Z;
  wl_compute_intensity_factor : Z;
  wl_is_splittable : bool;
  wl_raw_data_node_id : Z
}.

Record ChunkNode := {
  cn_chunk_id : Z;
  cn_memory_demand_bytes : Z;
  cn_cpu_cores_demand : Z;
  cn_target_node_id : Z;
  cn_data_locality_score : cdouble
}.

Record DependencyEdge := { de_src_chunk_id : Z; de_dst_chunk_id : Z }.

Record ExecutionPlan := {
  ep_chunks : list ChunkNode;
  ep_edges : list DependencyEdge;
  ep_is_valid : bool
}.

Definition PlanGenerationFunc : Type := Workload -> ExecutionPlan -> bool * ExecutionPlan.

Record StrategyRegistry := { sr_type : StrategyType; sr_plan_fn : ptr PlanGenerationFunc }.

(** * Identifiers *)

(** [hash ^= hash >> 33] *)
Definition xorshift33 (h : Z) : Z := Z.lxor h (Z.shiftr h 33).

Definition generate_deterministic_chunk_id (base_hash chunk_index : Z) : Z :=
  let hash := Z.lxor base_hash (u64 chunk_index) in
  let hash := xorshift33 hash in
  let hash := u64 (hash * 0xff51afd7ed558ccd) in
  let hash := xorshift33 hash in
  let hash := u64 (hash * 0xc4ceb9fe1a85ec53) in
  xorshift33 hash.

(** A [char] (signed) converted to [uint64_t]. *)
Definition u64_of_char (b : Z) : Z := u64 (if b <? 128 then b else b - 256).

Definition hash_char (hash b : Z) : Z := u64 (Z.lxor hash (u64_of_char b) * 1099511628211).

Definition compute_workload_base_hash (wl : Workload) : Z :=
  let hash := foldl hash_char HASH_SEED (take MAX_NAME_LEN (bytes_of_string (wl_workload_name wl))) in
  let hash := Z.lxor hash (wl_total_input_size_bytes wl) in
  Z.lxor hash (strategy_code (wl_strategy_type wl)).

(** * The strategy table *)

Definition register_planning_strategy (type : StrategyType) (fn : ptr PlanGenerationFunc)
    (g_strategy_registry : list StrategyRegistry) : bool * list StrategyRegistry :=
  if (MAX_STRATEGIES <=? length g_strategy_registry)%nat then (false, g_strategy_registry)
  else (true, g_strategy_registry ++ [ {| sr_type := type; sr_plan_fn := fn |} ]).

Fixpoint find_strategy (type : StrategyType) (g_strategy_registry : list StrategyRegistry) :
    ptr PlanGenerationFunc :=
  match g_strategy_registry with
  | [] => NULL
  | s :: rest =>
      match sr_plan_fn s with
      | Some fn => if bool_decide (sr_type s = type) then Some fn else find_strategy type rest
      | NULL => find_strategy type rest
      end
  end.

(** * The strategies *)

Definition batch_chunk (wl : Workload) (base_hash chunk_size : Z) (i : nat) : ChunkNode :=
  let scheduled_node := Z.of_nat i mod 4 in
  {| cn_chunk_id := generate_deterministic_chunk_id base_hash (Z.of_nat i);
     cn_memory_demand_bytes := u64 (chunk_size + 1024 * 1024 * 64);
     cn_cpu_cores_demand := u64 (wl_compute_intensity_factor wl * 2);
     cn_target_node_id := scheduled_node;
     cn_data_locality_score :=
       double_of_Z (if scheduled_node =? wl_raw_data_node_id wl then 1 else 0) |}.

Definition plan_independent_batch_strategy : PlanGenerationFunc := fun wl out_plan =>
  let base_hash := compute_workload_base_hash wl in
  let chunk_size := wl_total_input_size_bytes wl / 4 in
  (true, {| ep_chunks := batch_chunk wl base_hash chunk_size <$> seq 0 4;
            ep_edges := []; ep_is_valid := true |}).

Definition pipeline_chunk (wl : Workload) (base_hash step_memory : Z) (i : nat) : ChunkNode :=
  {| cn_chunk_id := generate_deterministic_chunk_id base_hash (Z.of_nat i);
     cn_memory_demand_bytes := step_memory;
     cn_cpu_cores_demand := wl_compute_intensity_factor wl;
     cn_target_node_id := wl_raw_data_node_id wl;
     cn_data_locality_score := double_of_Z 1 |}.

(** [edges[i] = (chunks[i], chunks[i + 1])] for consecutive chunks. *)
Fixpoint chain_edges (chunks : list ChunkNode) : list DependencyEdge :=
  match chunks with
  | a :: (b :: _) as rest =>
      {| de_src_chunk_id := cn_chunk_id a; de_dst_chunk_id := cn_chunk_id b |} :: chain_edges rest
  | _ => []
  end.

Definition plan_sequential_pipeline_strategy : PlanGenerationFunc := fun wl out_plan =>
  let base_hash := compute_workload_base_hash wl in
  let step_memory := wl_total_input_size_bytes wl / 2 in
  let chunks := pipeline_chunk wl base_hash step_memory <$> seq 0 4 in
  (true, {| ep_chunks := chunks; ep_edges := chain_edges chunks; ep_is_valid := true |}).

(** The plan [memset] leaves. *)
Definition zero_plan : ExecutionPlan := {| ep_chunks := []; ep_edges := []; ep_is_valid := false |}.

(** [out_plan] is what the caller's structure holds on entry. *)
Definition generate_chunk_graph (g_strategy_registry : list StrategyRegistry) (wl : ptr Workload)
    (out_plan : ptr ExecutionPlan) : bool * ptr ExecutionPlan :=
  match out_plan, wl with
  | Some _, Some wl =>
      if negb (wl_is_splittable wl) then (false, Some zero_plan)
      else
        match find_strategy (wl_strategy_type wl) g_strategy_registry with
        | NULL => (false, Some zero_plan)
        | Some strategy_call =>
            let (ok, plan) := strategy_call wl zero_plan in (ok, Some plan)
        end
  | _, _ => (false, out_plan)
  end.

(** * The topology check *)

(** One edge's pass over the chunks in the counting loop. *)
Definition count_edge (chunks : list ChunkNode) (in_degree : list Z) (e : DependencyEdge) : list Z :=
  zip_with (fun c d => if cn_chunk_id c =? de_dst_chunk_id e then d + 1 else d) chunks in_degree.

Definition in_degrees (plan : ExecutionPlan) : list Z :=
  foldl (count_edge (ep_chunks plan)) (replicate (length (ep_chunks plan)) 0) (ep_edges plan).

(** The indices the first queue loop enqueues: [j] is the index of the first
    entry. *)
Fixpoint zero_indices (j : nat) (in_degree : list Z) : list nat :=
  match in_degree with
  | [] => []
  | d :: rest => if d =? 0 then j :: zero_indices (S j) rest else zero_indices (S j) rest
  end.

(** The inner loop over [j]: decrements every chunk with the neighbour's id
    and enqueues those that reach zero. *)
Fixpoint relax_loop (neighbor_id : Z) (j : nat) (chunks : list ChunkNode) (in_degree : list Z) :
    list Z * list nat :=
  match chunks, in_degree with
  | c :: chunks, d :: in_degree =>
      let (degs, new) := relax_loop neighbor_id (S j) chunks in_degree in
      if cn_chunk_id c =? neighbor_id
      then (d - 1 :: degs, if d - 1 =? 0 then j :: new else new)
      else (d :: degs, new)
  | _, _ => ([], [])
  end.

(** One edge of the loop over [i]; the state is [in_degree] and
    [processing_queue] up to [tail]. *)
Definition relax_edge (chunks : list ChunkNode) (current_id : Z) (st : list Z * list nat)
    (e : DependencyEdge) : list Z * list nat :=
  if de_src_chunk_id e =? current_id then
    let (degs, new) := relax_loop (de_dst_chunk_id e) 0 chunks (fst st) in (degs, snd st ++ new)
  else st.

(** [while (head < tail)]: [fuel] bounds the iterations; the result is the
    final [head] ([= processed_nodes_count]) and the queue. *)
Fixpoint kahn_loop (fuel : nat) (plan : ExecutionPlan) (head : nat) (st : list Z * list nat) :
    nat * (list Z * list nat) :=
  match fuel with
  | O => (head, st)
  | S fuel =>
      match snd st !! head with
      | None => (head, st)
      | Some current_idx =>
          let current_id :=
            match ep_chunks plan !! current_idx with Some c => cn_chunk_id c | None => 0 end in
          kahn_loop fuel plan (S head)
            (foldl (relax_edge (ep_chunks plan) current_id) st (ep_edges plan))
      end
  end.

Definition kahn_start (plan : ExecutionPlan) : list Z * list nat :=
  (in_degrees plan, zero_indices 0 (in_degrees plan)).

(** Each chunk is dequeued at most once, so [chunk_count] iterations do. *)
Definition verify_plan_topology_is_dag (plan : ExecutionPlan) : bool :=
  if negb (ep_is_valid plan) || (length (ep_chunks plan) =? 0)%nat then false
  else
    let '(processed_nodes_count, _) :=
      kahn_loop (S (length (ep_chunks plan))) plan 0 (kahn_start plan) in
    (processed_nodes_count =? length (ep_chunks plan))%nat.
