(* ===== verification/PlannerDag.v ===== *)
(** The topology check of the chunk planner is exact: it terminates within
    its queue array for every plan, and on plans with distinct chunk ids it
    accepts exactly those whose edges admit a topological order. *)
From S2P Require Import Prelude CFloat ChunkPlanner.

Section Kahn.
Context (cs : list ChunkNode) (es : list DependencyEdge).
Local Abbreviation n := (length cs).

(** [chunks[j].chunk_id] *)
Definition id_at (j : nat) : Z := match cs !! j with Some c => cn_chunk_id c | None => 0 end.

Definition indeg (y : Z) : Z := sumZ (fun e => if de_dst_chunk_id e =? y then 1 else 0) es.
(** Edges from [x] to [y]. *)
Definition cnt (l : list DependencyEdge) (x y : Z) : Z :=
  sumZ (fun e => if (de_src_chunk_id e =? x) && (de_dst_chunk_id e =? y) then 1 else 0) l.

Lemma id_at_lookup j c : cs !! j = Some c -> id_at j = cn_chunk_id c.
Proof. unfold id_at. by intros ->. Qed.

(** * The counting loop *)

Definition deg_fun (deg : list Z) (f : nat -> Z) : Prop :=
  length deg = n /\ forall j, (j < n)%nat -> deg !! j = Some (f j).

Lemma count_edge_spec deg f e :
  deg_fun deg f ->
  deg_fun (count_edge cs deg e) (fun j => f j + if de_dst_chunk_id e =? id_at j then 1 else 0).
Proof.
  intros [L H]. unfold count_edge. split.
  - rewrite length_zip_with. lia.
  - intros j Hj. rewrite lookup_zip_with. destruct (lookup_lt_is_Some_2 cs j Hj) as [c Hc].
    rewrite Hc, (H j Hj), (id_at_lookup _ _ Hc). cbn. rewrite Z.eqb_sym. destr_if; f_equal; lia.
Qed.

Lemma count_edges_spec l : forall deg f, deg_fun deg f ->
  deg_fun (foldl (count_edge cs) deg l)
    (fun j => f j + sumZ (fun e => if de_dst_chunk_id e =? id_at j then 1 else 0) l).
Proof.
  induction l as [|e l IH]; intros deg f H; cbn.
  - destruct H as [L H]. split; [done|]. intros j Hj. rewrite H by done. f_equal. unfold sumZ. cbn. lia.
  - destruct (IH _ _ (count_edge_spec _ _ e H)) as [L H']. split; [done|].
    intros j Hj. rewrite H' by done. rewrite sumZ_cons. f_equal. lia.
Qed.

Lemma in_degrees_spec v :
  deg_fun (in_degrees {| ep_chunks := cs; ep_edges := es; ep_is_valid := v |}) (fun j => indeg (id_at j)).
Proof.
  unfold in_degrees. cbn.
  destruct (count_edges_spec es (replicate n 0) (fun _ => 0)) as [L H].
  - split; [apply length_replicate|]. intros j Hj. by apply lookup_replicate_2.
  - split; [done|]. intros j Hj. by rewrite H.
Qed.

(** * The queue *)

(** The queue holds, once each, the chunks whose count has reached zero. *)
Definition queue_ok (deg : list Z) (q : list nat) : Prop :=
  NoDup q /\ forall j, j ∈ q <-> exists d, deg !! j = Some d /\ d <= 0.

Lemma zero_indices_spec deg : forall j0,
  Forall (fun d => 0 <= d) deg ->
  NoDup (zero_indices j0 deg) /\
  forall i, i ∈ zero_indices j0 deg <-> exists k d, i = (j0 + k)%nat /\ deg !! k = Some d /\ d <= 0.
Proof.
  induction deg as [|d deg IH]; intros j0 H; cbn.
  - split; [apply NoDup_nil_2|]. intros i. rewrite elem_of_nil. naive_solver.
  - apply Forall_cons in H as [Hd H]. destruct (IH (S j0) H) as [N E].
    assert (forall i, i ∈ zero_indices (S j0) deg <->
      exists k d', i = (j0 + S k)%nat /\ deg !! k = Some d' /\ d' <= 0) as E'.
    { intros i. rewrite E. by setoid_rewrite Nat.add_succ_r. }
    destruct (Z.eqb_spec d 0) as [->|Hne].
    + split.
      * apply NoDup_cons. split; [|done]. rewrite E'. intros (k & d' & ? & _). lia.
      * intros i. rewrite elem_of_cons, E'. split.
        -- intros [->|(k & d' & -> & ? & ?)]; [exists O, 0; rewrite Nat.add_0_r; done|].
           exists (S k), d'. done.
        -- intros ([|k] & d' & -> & ? & ?); [left; lia|right; eauto].
    + split; [done|]. intros i. rewrite E'. split.
      * intros (k & d' & -> & ? & ?). exists (S k), d'. done.
      * intros ([|k] & d' & -> & Hk & ?); [cbn in Hk; simplify_eq; lia|eauto].
Qed.

(** The inner loop: which counts it lowers, and what it enqueues. *)
Lemma relax_loop_spec y l : forall j0 deg degs new,
  length deg = length l -> relax_loop y j0 l deg = (degs, new) ->
  length degs = length deg /\
  (forall k c d, l !! k = Some c -> deg !! k = Some d ->
     degs !! k = Some (if cn_chunk_id c =? y then d - 1 else d)) /\
  NoDup new /\
  (forall i, i ∈ new <-> exists k c, i = (j0 + k)%nat /\ l !! k = Some c /\ cn_chunk_id c = y /\
                                     deg !! k = Some 1).
Proof.
  induction l as [|c l IH]; intros j0 [|d deg] degs new L H; cbn in L, H; try lia.
  - injection H as <- <-. split_and!; try done; [apply NoDup_nil_2|].
    intros i. rewrite elem_of_nil. naive_solver.
  - destruct (relax_loop y (S j0) l deg) as [degs1 new1] eqn:R.
    destruct (IH (S j0) deg degs1 new1 ltac:(lia) R) as (L1 & D1 & N1 & E1).
    assert (forall i, i ∈ new1 <-> exists k c, i = (j0 + S k)%nat /\ l !! k = Some c /\
              cn_chunk_id c = y /\ deg !! k = Some 1) as E'.
    { intros i. rewrite E1. by setoid_rewrite Nat.add_succ_r. }
    assert (j0 ∉ new1) as Hj0 by (rewrite E'; intros (k & ? & ? & _); lia).
    assert (degs = (if cn_chunk_id c =? y then d - 1 else d) :: degs1 /\
            new = if (cn_chunk_id c =? y) && (d - 1 =? 0) then j0 :: new1 else new1) as [-> ->].
    { destruct (cn_chunk_id c =? y); cbn; simplify_eq; [|done]. by destruct (d - 1 =? 0). }
    split_and!.
    + cbn. by f_equal.
    + intros [|k] c' d' Hc Hd; cbn in *; [by simplify_eq|by apply D1].
    + destr_if; [by apply NoDup_cons|done].
    + intros i. transitivity ((i = j0 /\ cn_chunk_id c = y /\ d = 1) \/ i ∈ new1).
      * destr_if; bprop; [rewrite elem_of_cons; intuition lia|].
        apply andb_false_iff in Heqb as [?|?]; bprop; intuition lia.
      * rewrite E'. split.
        -- intros [(-> & <- & ->)|(k & c' & -> & ?)]; [exists O, c; rewrite Nat.add_0_r; done|].
           exists (S k), c'. done.
        -- intros ([|k] & c' & -> & Hc & Hid & Hd); cbn in Hc, Hd; [left; simplify_eq; split; [lia|done]|].
           right. by exists k, c'.
Qed.

Lemma relax_edge_spec x e deg f q :
  deg_fun deg f -> queue_ok deg q ->
  exists deg' new, relax_edge cs x (deg, q) e = (deg', q ++ new) /\ queue_ok deg' (q ++ new) /\
    deg_fun deg' (fun j => f j - if (de_src_chunk_id e =? x) && (de_dst_chunk_id e =? id_at j) then 1 else 0).
Proof.
  intros [L D] [N Q]. unfold relax_edge. cbn [fst snd].
  destruct (Z.eqb_spec (de_src_chunk_id e) x) as [Hx|Hx]; cbn [andb].
  2:{ exists deg, []. rewrite app_nil_r. do 2 (split; [done|]). split; [done|]. intros j Hj. rewrite D by done.
      f_equal. lia. }
  destruct (relax_loop _ _ _ _) as [degs new] eqn:R.
  destruct (relax_loop_spec _ _ _ _ _ _ L R) as (L1 & D1 & N1 & E1).
  assert (forall j, (j < n)%nat -> degs !! j = Some (f j - if de_dst_chunk_id e =? id_at j then 1 else 0)) as D2.
  { intros j Hj. destruct (lookup_lt_is_Some_2 cs j Hj) as [c Hc].
    rewrite (D1 j c (f j) Hc (D j Hj)), (id_at_lookup _ _ Hc), Z.eqb_sym. destr_if; f_equal; lia. }
  assert (forall j, j ∈ new <-> (j < n)%nat /\ f j = 1 /\ de_dst_chunk_id e = id_at j) as E2.
  { intros j. rewrite E1. split.
    - intros (k & c & -> & Hc & Hid & Hd). cbn. assert (k < n)%nat by (by eapply lookup_lt_Some).
      rewrite D in Hd by done. rewrite (id_at_lookup _ _ Hc). split_and!; congruence.
    - intros (Hj & Hf & Hid). destruct (lookup_lt_is_Some_2 cs j Hj) as [c Hc].
      exists j, c. rewrite (id_at_lookup _ _ Hc) in Hid. rewrite D, Hf by done. done. }
  assert (forall j, j ∈ q <-> (j < n)%nat /\ f j <= 0) as Q2.
  { intros j. rewrite Q. split.
    - intros (d & Hd & ?). assert (j < n)%nat by (rewrite <- L; by eapply lookup_lt_Some).
      rewrite D in Hd by done. by simplify_eq.
    - intros [Hj ?]. exists (f j). by rewrite D. }
  exists degs, new. split; [done|]. split; [|split; [lia|done]]. split.
  - apply NoDup_app. split_and!; auto. intros j Hj. rewrite Q2 in Hj. rewrite E2. lia.
  - intros j. rewrite elem_of_app, Q2, E2. split.
    + intros H. assert (j < n)%nat as Hj by tauto. eexists. split; [by apply D2|].
      destruct (Z.eqb_spec (de_dst_chunk_id e) (id_at j)); intuition lia.
    + intros (d & Hd & Hle). assert (j < n)%nat as Hj by (rewrite <- L, <- L1; by eapply lookup_lt_Some).
      rewrite D2 in Hd by done. simplify_eq.
      destruct (Z.eqb_spec (de_dst_chunk_id e) (id_at j)); [|left; intuition lia].
      destruct (decide (f j <= 0)); [by left|right; split_and!; auto; lia].
Qed.

Lemma relax_edges_spec x l : forall deg f q,
  deg_fun deg f -> queue_ok deg q ->
  exists deg' new, foldl (relax_edge cs x) (deg, q) l = (deg', q ++ new) /\ queue_ok deg' (q ++ new) /\
    deg_fun deg' (fun j => f j - cnt l x (id_at j)).
Proof.
  induction l as [|e l IH]; intros deg f q D Q; cbn.
  - exists deg, []. rewrite app_nil_r. do 2 (split; [done|]). destruct D as [L D]. split; [done|].
    intros j Hj. rewrite D by done. unfold cnt, sumZ. cbn. f_equal. lia.
  - destruct (relax_edge_spec x e deg f q D Q) as (deg1 & new1 & -> & Q1 & D1).
    destruct (IH _ _ _ D1 Q1) as (deg2 & new2 & -> & Q2 & L2 & D2).
    exists deg2, (new1 ++ new2). rewrite app_assoc. do 2 (split; [done|]). split; [done|].
    intros j Hj. rewrite D2 by done. unfold cnt. rewrite sumZ_cons. f_equal. lia.
Qed.

(** * The main loop *)

Definition the_plan (v : bool) : ExecutionPlan :=
  {| ep_chunks := cs; ep_edges := es; ep_is_valid := v |}.

(** Edges into [y] already discounted: those from the dequeued chunks. *)
Definition discounted (done_ : list nat) (y : Z) : Z := sumZ (fun p => cnt es (id_at p) y) done_.

(** The loop invariant. *)
Record kahn_inv (head : nat) (st : list Z * list nat) : Prop := {
  ki_deg : deg_fun st.1 (fun j => indeg (id_at j) - discounted (take head st.2) (id_at j));
  ki_queue : queue_ok st.1 st.2;
  ki_head : (head <= length st.2)%nat
}.

Lemma kahn_queue_lt head st j : kahn_inv head st -> j ∈ st.2 -> (j < n)%nat.
Proof.
  intros [[L _] [_ Q] _] (d & Hd & _)%Q. rewrite <- L. by eapply lookup_lt_Some.
Qed.

(** The queue never outgrows its array. *)
Lemma kahn_queue_bound head st : kahn_inv head st -> (length st.2 <= n)%nat.
Proof.
  intros K. pose proof K as [_ [N _] _]. rewrite <- (length_seq n 0).
  apply submseteq_length, NoDup_submseteq; [done|].
  intros j Hj. apply elem_of_seq. pose proof (kahn_queue_lt _ _ _ K Hj). lia.
Qed.

Lemma kahn_start_inv v : kahn_inv 0 (kahn_start (the_plan v)).
Proof.
  pose proof (in_degrees_spec v) as [L D]. fold (the_plan v) in *.
  assert (Forall (fun d => 0 <= d) (in_degrees (the_plan v))) as Hpos.
  { apply Forall_lookup. intros j d Hd. assert (j < n)%nat by (rewrite <- L; by eapply lookup_lt_Some).
    rewrite D in Hd by done. simplify_eq. apply sumZ_nonneg. intros e _. by destr_if. }
  destruct (zero_indices_spec _ 0 Hpos) as [N E]. constructor; cbn [kahn_start fst snd]; [| |lia].
  - split; [done|]. intros j Hj. rewrite D by done. rewrite take_0.
    change (discounted [] (id_at j)) with 0. by rewrite Z.sub_0_r.
  - split; [done|]. intros j. rewrite E. split.
    + intros (k & d & Hk & ?). cbn in Hk. subst. by exists d.
    + intros (d & ?). by exists j, d.
Qed.

Lemma kahn_step head deg q j :
  kahn_inv head (deg, q) -> q !! head = Some j ->
  exists deg' new, foldl (relax_edge cs (id_at j)) (deg, q) es = (deg', q ++ new) /\
    kahn_inv (S head) (deg', q ++ new).
Proof.
  intros [D Q H] Hj. cbn in *.
  destruct (relax_edges_spec (id_at j) es deg _ q D Q) as (deg' & new & E & Q' & L' & D').
  exists deg', new. split; [done|]. assert (head < length q)%nat by (by eapply lookup_lt_Some).
  constructor; cbn [fst snd]; [|done|rewrite length_app; lia].
  split; [done|]. intros i Hi. rewrite D' by done.
  rewrite take_app_le by lia. rewrite (take_S_r _ _ _ Hj). unfold discounted.
  rewrite sumZ_snoc. f_equal. lia.
Qed.

(** The loop ends with the queue exhausted, whatever the edges are. *)
Lemma kahn_loop_ends v fuel : forall head st,
  kahn_inv head st -> (n < fuel + head)%nat ->
  exists deg' new, kahn_loop fuel (the_plan v) head st = (length (st.2 ++ new), (deg', st.2 ++ new)) /\
    kahn_inv (length (st.2 ++ new)) (deg', st.2 ++ new).
Proof.
  induction fuel as [|fuel IH]; intros head [deg q] K Hf.
  - pose proof (kahn_queue_bound _ _ K). pose proof (ki_head _ _ K). cbn in *. lia.
  - cbn [kahn_loop snd]. destruct (q !! head) as [j|] eqn:E.
    + change (match ep_chunks (the_plan v) !! j with Some c => cn_chunk_id c | None => 0 end) with (id_at j).
      destruct (kahn_step head deg q j K E) as (deg' & new & Es & K').
      change (ep_chunks (the_plan v)) with cs. change (ep_edges (the_plan v)) with es. rewrite Es.
      destruct (IH _ _ K') as (deg2 & new2 & -> & K2); [lia|]. cbn in *.
      exists deg2, (new ++ new2). rewrite app_assoc. done.
    + apply lookup_ge_None in E. assert (head = length q) as ->
        by (pose proof (ki_head _ _ K); cbn in *; lia).
      exists deg, []. cbn. rewrite app_nil_r. done.
Qed.

(** * Predecessors *)

Lemma sumZ_swap {A B} (F : A -> B -> Z) (l : list A) (k : list B) :
  sumZ (fun a => sumZ (F a) k) l = sumZ (fun b => sumZ (fun a => F a b) l) k.
Proof.
  induction l as [|a l IH]; [by rewrite sumZ_zero|]. rewrite sumZ_cons, IH.
  clear. induction k as [|b k IH]; [done|]. rewrite !sumZ_cons. lia.
Qed.

Hypothesis (Hids : NoDup (cn_chunk_id <$> cs)).

Lemma id_at_inj i j : (i < n)%nat -> (j < n)%nat -> id_at i = id_at j -> i = j.
Proof.
  intros Hi Hj E. destruct (lookup_lt_is_Some_2 cs i Hi) as [c Hc].
  destruct (lookup_lt_is_Some_2 cs j Hj) as [d Hd].
  rewrite (id_at_lookup _ _ Hc), (id_at_lookup _ _ Hd) in E.
  eapply (NoDup_lookup _ i j (cn_chunk_id c)); [exact Hids| |].
  - by rewrite list_lookup_fmap, Hc.
  - rewrite list_lookup_fmap, Hd. cbn. by rewrite E.
Qed.

(** How often [x] is the id of a listed chunk: once at most. *)
Definition hits (ps : list nat) (x : Z) : Z := sumZ (fun p => if x =? id_at p then 1 else 0) ps.

Lemma hits_bound ps x :
  NoDup ps -> (forall p, p ∈ ps -> (p < n)%nat) ->
  0 <= hits ps x <= 1 /\ (hits ps x = 1 <-> exists p, p ∈ ps /\ x = id_at p).
Proof.
  unfold hits. induction ps as [|p ps IH]; intros N B.
  - unfold sumZ. cbn. split; [lia|]. split; [lia|]. intros (p & Hp & _). by apply elem_of_nil in Hp.
  - apply NoDup_cons in N as [Hp N]. rewrite sumZ_cons.
    destruct IH as [IH1 IH2]; [done|intros; apply B; by right|].
    destruct (Z.eqb_spec x (id_at p)) as [->|Hne].
    + assert (sumZ (fun p0 => if id_at p =? id_at p0 then 1 else 0) ps = 0) as ->.
      { destruct (decide (sumZ (fun p0 => if id_at p =? id_at p0 then 1 else 0) ps = 1)) as [E|]; [|lia].
        apply IH2 in E as (p' & Hp' & E). apply id_at_inj in E; [by subst|apply B; by left|apply B; by right]. }
      split; [lia|]. split; [|done]. intros _. exists p. split; [by left|done].
    + split; [lia|]. rewrite Z.add_0_l, IH2. split; intros (p' & Hp' & E).
      * exists p'. split; [by right|done].
      * apply elem_of_cons in Hp' as [->|]; [done|eauto].
Qed.

Lemma discounted_hits ps y :
  discounted ps y = sumZ (fun e => if de_dst_chunk_id e =? y then hits ps (de_src_chunk_id e) else 0) es.
Proof.
  unfold discounted, cnt. rewrite sumZ_swap. apply sumZ_ext. intros e _. unfold hits.
  destruct (de_dst_chunk_id e =? y).
  - apply sumZ_ext. intros p _. by rewrite andb_true_r.
  - etransitivity; [|apply (sumZ_zero ps)]. apply sumZ_ext. intros p _. by rewrite andb_false_r.
Qed.

(** A chunk is enqueued exactly when every edge into it comes from a chunk
    already dequeued. *)
Lemma enqueued_iff head deg q j :
  kahn_inv head (deg, q) -> (j < n)%nat ->
  j ∈ q <-> forall e, e ∈ es -> de_dst_chunk_id e = id_at j ->
              exists p, p ∈ take head q /\ de_src_chunk_id e = id_at p.
Proof.
  intros K Hj. pose proof K as [[L D] [N Q] _]. cbn in *.
  assert (j ∈ q <-> indeg (id_at j) - discounted (take head q) (id_at j) <= 0) as ->.
  { rewrite Q. rewrite D by done. split; [intros (d & Hd & ?); by simplify_eq|eauto]. }
  assert (NoDup (take head q)) as Nt by (rewrite <- (take_drop head q) in N; by apply NoDup_app in N as (? & _)).
  assert (forall p, p ∈ take head q -> (p < n)%nat) as Bt.
  { intros p Hp. eapply (kahn_queue_lt _ _ p K). cbn. rewrite <- (take_drop head q). apply elem_of_app. by left. }
  pose proof (fun x => hits_bound (take head q) x Nt Bt) as Hh.
  rewrite discounted_hits. unfold indeg. set (P := take head q) in *. split.
  - intros Hle e [i He]%list_elem_of_lookup Hdst. apply Hh.
    set (g e := (if de_dst_chunk_id e =? id_at j then 1 else 0) -
                (if de_dst_chunk_id e =? id_at j then hits P (de_src_chunk_id e) else 0)).
    assert (sumZ g es <= 0) as Hs.
    { etransitivity; [|exact Hle]. clear. unfold g. induction es as [|a l IH]; [done|]. rewrite !sumZ_cons. lia. }
    assert (forall a, a ∈ es -> 0 <= g a) as Hg.
    { intros a _. unfold g. destruct (Hh (de_src_chunk_id a)) as [? _]. destr_if; lia. }
    pose proof (sumZ_lookup_le g es i e Hg He) as Hge. unfold g in Hge at 1.
    rewrite Hdst, Z.eqb_refl in Hge. destruct (Hh (de_src_chunk_id e)). lia.
  - intros H. apply Z.eq_le_incl, Z.sub_move_0_r, sumZ_ext. intros e He.
    destruct (Z.eqb_spec (de_dst_chunk_id e) (id_at j)) as [Hd|]; [|done].
    symmetry. apply Hh. by apply H.
Qed.

(** Every edge into a chunk among the first [head] of [q] starts at a chunk
    earlier in [q]. *)
Definition sources_first (head : nat) (q : list nat) : Prop :=
  forall b j e, (b < head)%nat -> q !! b = Some j -> e ∈ es -> de_dst_chunk_id e = id_at j ->
    exists a p, (a < b)%nat /\ q !! a = Some p /\ de_src_chunk_id e = id_at p.

Lemma sources_first_app head q new :
  (head <= length q)%nat -> sources_first head q -> sources_first head (q ++ new).
Proof.
  intros Hl T b j e Hb Hj He Hd. rewrite lookup_app_l in Hj by lia.
  destruct (T b j e Hb Hj He Hd) as (a & p & Ha & Hp & Hs). exists a, p.
  split_and!; auto. by apply lookup_app_l_Some.
Qed.

Lemma sources_first_step head deg q j :
  kahn_inv head (deg, q) -> q !! head = Some j -> sources_first head q -> sources_first (S head) q.
Proof.
  intros K Hj T b i e Hb Hi He Hd. destruct (decide (b = head)) as [->|]; [|apply (T b i e); auto; lia].
  rewrite Hj in Hi. injection Hi as <-.
  assert (j ∈ q) as Hin by (by eapply list_elem_of_lookup_2).
  rewrite (enqueued_iff head deg q j K) in Hin by (by eapply (kahn_queue_lt _ _ j K)).
  destruct (Hin e He Hd) as (p & [a Ha]%list_elem_of_lookup & Hs). exists a, p.
  apply lookup_take_Some in Ha as [??]. done.
Qed.

Lemma kahn_loop_order v fuel : forall head st h st',
  kahn_inv head st -> sources_first head st.2 -> kahn_loop fuel (the_plan v) head st = (h, st') ->
  sources_first h st'.2.
Proof.
  induction fuel as [|fuel IH]; intros head [deg q] h st' K T H; cbn [kahn_loop snd] in H; [by simplify_eq|].
  destruct (q !! head) as [j|] eqn:E; [|by simplify_eq].
  change (match ep_chunks (the_plan v) !! j with Some c => cn_chunk_id c | None => 0 end) with (id_at j) in H.
  change (ep_chunks (the_plan v)) with cs in H. change (ep_edges (the_plan v)) with es in H.
  destruct (kahn_step head deg q j K E) as (deg' & new & Es & K'). rewrite Es in H.
  eapply IH; [exact K'| |exact H]. cbn in *.
  apply sources_first_app; [apply lookup_lt_Some in E; lia|]. by eapply sources_first_step.
Qed.

(** [order] lists every chunk once, each after the sources of its edges. *)
Definition topological (order : list nat) : Prop :=
  order ≡ₚ seq 0 n /\ sources_first n order.

Lemma kahn_full v h st :
  kahn_loop (S n) (the_plan v) 0 (kahn_start (the_plan v)) = (h, st) ->
  h = n <-> exists order, topological order.
Proof.
  intros H. destruct (kahn_loop_ends v (S n) 0 _ (kahn_start_inv v)) as (deg & new & E & K); [lia|].
  pose proof (kahn_loop_order v (S n) 0 _ h st (kahn_start_inv v) ltac:(intros ???; lia) H) as T.
  rewrite H in E. injection E as -> ->. set (q := _ ++ new) in *. cbn in T.
  pose proof K as [_ [N _] _]. cbn in N. split.
  - intros Hn. exists q. split; [|by rewrite <- Hn].
    apply submseteq_length_Permutation; [|rewrite length_seq; lia].
    apply NoDup_submseteq; [done|]. intros j Hj. apply elem_of_seq.
    pose proof (kahn_queue_lt _ _ j K Hj). lia.
  - intros (order & P & S). apply Nat.le_antisymm; [exact (kahn_queue_bound _ _ K)|].
    rewrite <- (length_seq n 0), <- P. apply submseteq_length, NoDup_submseteq; [rewrite P; apply NoDup_seq|].
    intros j [b Hb]%list_elem_of_lookup. revert j Hb.
    induction (lt_wf b) as [b _ IH]. intros j Hb.
    assert (length order = n) as Ho by (by rewrite P, length_seq).
    assert (j < n)%nat as Hj.
    { assert (j ∈ order) as Hin by (by eapply list_elem_of_lookup_2). rewrite P in Hin.
      apply elem_of_seq in Hin. lia. }
    rewrite (enqueued_iff _ deg q j K Hj). intros e He Hd.
    assert (b < n)%nat as Hbn by (rewrite <- Ho; by eapply lookup_lt_Some).
    destruct (S b j e Hbn Hb He Hd) as (a & p & Ha & Hp & Hs).
    exists p. rewrite take_ge by done. eauto.
Qed.

End Kahn.

(** A run that exhausted its queue is the same with more fuel. *)
Lemma kahn_loop_more plan f : forall k head st h st',
  kahn_loop f plan head st = (h, st') -> snd st' !! h = None -> (f <= k)%nat ->
  kahn_loop k plan head st = (h, st').
Proof.
  induction f as [|f IH]; intros k head st h st' H Hn Hk; cbn [kahn_loop] in H.
  - injection H as -> ->. destruct k; cbn [kahn_loop]; [done|]. by rewrite Hn.
  - destruct k as [|k]; [lia|]. cbn [kahn_loop]. destruct (snd st !! head); [|done].
    eapply IH; eauto. lia.
Qed.

(** * The contract *)

Lemma verify_dag_spec (plan : ExecutionPlan) :
  NoDup (cn_chunk_id <$> ep_chunks plan) ->
  verify_plan_topology_is_dag plan = true <->
  ep_is_valid plan = true /\ ep_chunks plan <> [] /\
  exists order, topological (ep_chunks plan) (ep_edges plan) order.
Proof.
  intros N. unfold verify_plan_topology_is_dag. destruct plan as [cs es v]. cbn [ep_chunks ep_edges ep_is_valid] in *.
  destruct v; cbn [negb orb]; [|naive_solver].
  destruct cs as [|c cs']; [cbn; naive_solver|].
  change (length (c :: cs') =? 0)%nat with false. cbn iota. set (cs := c :: cs') in *.
  destruct (kahn_loop _ _ _ _) as [h st] eqn:E.
  rewrite Nat.eqb_eq, (kahn_full cs es N true h st E). naive_solver.
Qed.

(** C7: The topology check decides acyclicity: on a plan whose chunk ids are
    distinct it returns true if and only if the plan is marked valid, has a
    chunk, and its chunks can be listed, each exactly once, so that every edge
    into a chunk comes from a chunk listed before it. *)
Theorem verify_dag_iff_topological (plan : ExecutionPlan) :
  NoDup (cn_chunk_id <$> ep_chunks plan) ->
  verify_plan_topology_is_dag plan = true <->
  ep_is_valid plan = true /\ ep_chunks plan <> [] /\
  exists order, topological (ep_chunks plan) (ep_edges plan) order.
Proof. apply verify_dag_spec. Qed.

Definition demo_node (id : Z) : ChunkNode :=
  {| cn_chunk_id := id; cn_memory_demand_bytes := 0; cn_cpu_cores_demand := 0;
     cn_target_node_id := 0; cn_data_locality_score := double_of_Z 0 |}.
Definition demo_edge (a b : Z) : DependencyEdge := {| de_src_chunk_id := a; de_dst_chunk_id := b |}.

(** A diamond with an edge back: rejected, so no order exists. *)
Lemma verify_dag_iff_topological_witness :
  let cs := demo_node <$> [10; 20; 30; 40] in
  let es := [demo_edge 10 20; demo_edge 10 30; demo_edge 20 40; demo_edge 30 40] in
  (exists order, topological cs es order) /\
  ~ (exists order, topological cs (demo_edge 40 20 :: es) order).
Proof.
  intros cs es.
  assert (NoDup (cn_chunk_id <$> cs)) as N by (apply (bool_decide_unpack _); vm_compute; exact I).
  split.
  - pose proof (verify_dag_iff_topological {| ep_chunks := cs; ep_edges := es; ep_is_valid := true |} N) as H.
    apply H. vm_compute. reflexivity.
  - intros Ho.
    pose proof (verify_dag_iff_topological
      {| ep_chunks := cs; ep_edges := demo_edge 40 20 :: es; ep_is_valid := true |} N) as H.
    assert (false = true) as Hf; [|discriminate Hf].
    rewrite <- (proj2 H); [vm_compute; reflexivity|]. split; [reflexivity|split; [discriminate|exact Ho]].
Defined.

(** The check terminates inside its arrays for every plan, also one with
    duplicate ids, self-loops or edges to unknown chunks: the loop exits
    because the queue is exhausted (more iterations change nothing), every
    chunk index is enqueued at most once and is in range, so [tail] never
    exceeds [chunk_count]. *)
Theorem verify_dag_in_bounds (plan : ExecutionPlan) (fuel : nat) :
  (length (ep_chunks plan) < fuel)%nat ->
  exists degs queue,
    kahn_loop fuel plan 0 (kahn_start plan) = (length queue, (degs, queue)) /\
    kahn_loop (S (length (ep_chunks plan))) plan 0 (kahn_start plan) = (length queue, (degs, queue)) /\
    NoDup queue /\ (length queue <= length (ep_chunks plan))%nat /\
    Forall (fun j => (j < length (ep_chunks plan))%nat) queue.
Proof.
  intros Hf. destruct plan as [cs es v]. change {| ep_chunks := cs; ep_edges := es; ep_is_valid := v |}
    with (the_plan cs es v) in *. change (ep_chunks (the_plan cs es v)) with cs in *.
  destruct (kahn_loop_ends cs es v (S (length cs)) 0 _ (kahn_start_inv cs es v)) as (degs & new & E & K); [lia|].
  eexists degs, _. split; [|split; [exact E|]].
  - eapply kahn_loop_more; [exact E| |lia]. apply lookup_ge_None. done.
  - split; [apply K|]. split; [exact (kahn_queue_bound cs es _ _ K)|].
    apply Forall_forall. intros j Hj. exact (kahn_queue_lt cs es _ _ j K Hj).
Qed.

Lemma verify_dag_in_bounds_witness :
  exists degs queue,
    kahn_loop 4 {| ep_chunks := demo_node <$> [7; 7; 8]; ep_edges := [demo_edge 7 8; demo_edge 8 8];
                   ep_is_valid := true |} 0
      (kahn_start {| ep_chunks := demo_node <$> [7; 7; 8]; ep_edges := [demo_edge 7 8; demo_edge 8 8];
                     ep_is_valid := true |}) = (length queue, (degs, queue)) /\
    (length queue <= 3)%nat.
Proof.
  destruct (verify_dag_in_bounds
    {| ep_chunks := demo_node <$> [7; 7; 8]; ep_edges := [demo_edge 7 8; demo_edge 8 8];
       ep_is_valid := true |} 4) as (degs & queue & H & _ & _ & Hb & _); [cbn; lia|].
  exists degs, queue. split; [exact H|exact Hb].
Defined.
