(* ===== verification/PlannerProps.v ===== *)
(** Correctness of the chunk planner's strategies: chunk identifiers of one
    workload never collide, and every plan the registered strategies produce
    passes the topology check and splits the workload as documented. *)
From S2P Require Import Prelude CFloat ChunkPlanner PlannerDag.

(** * The identifier mix is a bijection *)

Lemma lxor_u64 a b : in_u64 a -> in_u64 b -> in_u64 (Z.lxor a b).
Proof.
  unfold in_u64. intros [Ha Ha'] [Hb Hb']. assert (0 <= Z.lxor a b) as H0 by (apply Z.lxor_nonneg; lia).
  split; [done|]. destruct (decide (Z.lxor a b = 0)) as [->|Hne]; [lia|].
  apply Z.log2_lt_pow2; [lia|]. eapply Z.le_lt_trans; [apply Z.log2_lxor; lia|].
  assert (forall z, 0 <= z < 2 ^ 64 -> Z.log2 z < 64) as Hl.
  { intros z Hz. destruct (decide (z = 0)) as [->|]; [cbn; lia|]. apply Z.log2_lt_pow2; lia. }
  apply Z.max_lub_lt; apply Hl; lia.
Qed.

Lemma shiftr_u64 a k : 0 <= k -> in_u64 a -> in_u64 (Z.shiftr a k).
Proof.
  unfold in_u64. intros Hk [Ha Hb]. rewrite Z.shiftr_div_pow2 by done.
  assert (0 < 2 ^ k) by (apply Z.pow_pos_nonneg; lia). split.
  - by apply Z.div_pos.
  - apply Z.le_lt_trans with a; [|done]. apply Z.div_le_upper_bound; nia.
Qed.

Lemma xorshift33_u64 h : in_u64 h -> in_u64 (xorshift33 h).
Proof. intros H. apply lxor_u64; [done|]. apply shiftr_u64; [lia|done]. Qed.
#[export] Hint Resolve lxor_u64 xorshift33_u64 : cint.

(** Shifting by more than half the width makes the xor-shift its own
    inverse. *)
Lemma xorshift33_involutive h : in_u64 h -> xorshift33 (xorshift33 h) = h.
Proof.
  intros [H0 H]. unfold xorshift33. rewrite Z.shiftr_lxor, Z.shiftr_shiftr by lia.
  replace (Z.shiftr h (33 + 33)) with 0.
  - by rewrite Z.lxor_0_r, Z.lxor_assoc, Z.lxor_nilpotent, Z.lxor_0_r.
  - rewrite Z.shiftr_div_pow2 by lia. symmetry. apply Z.div_small. lia.
Qed.

Lemma xorshift33_inj a b : in_u64 a -> in_u64 b -> xorshift33 a = xorshift33 b -> a = b.
Proof. intros Ha Hb E. by rewrite <- (xorshift33_involutive a Ha), E, xorshift33_involutive. Qed.

(** Multiplication by a constant with an inverse modulo 2^64. *)
Lemma mul_u64_inj c inv a b :
  u64 (c * inv) = 1 -> in_u64 a -> in_u64 b -> u64 (a * c) = u64 (b * c) -> a = b.
Proof.
  intros Hinv Ha Hb E.
  assert (forall x, in_u64 x -> u64 (u64 (x * c) * inv) = x) as Hx.
  { intros x Hx. unfold u64 in *. rewrite Zmult_mod_idemp_l, <- Z.mul_assoc, <- Zmult_mod_idemp_r, Hinv,
      Z.mul_1_r. by apply Z.mod_small. }
  by rewrite <- (Hx a Ha), E, Hx.
Qed.

Lemma chunk_id_inj base i j :
  in_u64 base -> in_u64 i -> in_u64 j ->
  generate_deterministic_chunk_id base i = generate_deterministic_chunk_id base j -> i = j.
Proof.
  intros Hb Hi Hj E. unfold generate_deterministic_chunk_id in E. rewrite !(u64_id i), !(u64_id j) in E by done.
  apply xorshift33_inj in E; auto with cint.
  apply (mul_u64_inj _ 11291846944257947611) in E; auto 6 with cint.
  apply xorshift33_inj in E; auto with cint.
  apply (mul_u64_inj _ 5725274745694666757) in E; auto with cint.
  apply xorshift33_inj in E; auto with cint.
  rewrite <- (Z.lxor_0_l i), <- (Z.lxor_0_l j), <- (Z.lxor_nilpotent base), !Z.lxor_assoc.
  by rewrite E.
Qed.

Lemma hash_char_u64 h b : in_u64 (hash_char h b).
Proof. apply u64_range. Qed.

Lemma base_hash_u64 wl : in_u64 (wl_total_input_size_bytes wl) -> in_u64 (compute_workload_base_hash wl).
Proof.
  intros H. unfold compute_workload_base_hash.
  assert (forall l h, in_u64 h -> in_u64 (foldl hash_char h l)) as Hf.
  { induction l as [|b l IH]; intros h Hh; cbn; [done|]. apply IH, hash_char_u64. }
  apply lxor_u64; [apply lxor_u64; [|done]|destruct (wl_strategy_type wl); unfold in_u64; cbn; lia].
  apply Hf. unfold in_u64, HASH_SEED. lia.
Qed.

(** * Chains *)

Lemma elem_of_chain_edges cs e :
  e ∈ chain_edges cs -> exists k a b, cs !! k = Some a /\ cs !! S k = Some b /\
    e = {| de_src_chunk_id := cn_chunk_id a; de_dst_chunk_id := cn_chunk_id b |}.
Proof.
  induction cs as [|a [|b cs] IH]; intros H; cbn in H; try by apply elem_of_nil in H.
  apply elem_of_cons in H as [->|H]; [by exists O, a, b|].
  destruct (IH H) as (k & x & y & Hx & Hy & ->). by exists (S k), x, y.
Qed.

Lemma chain_topological cs :
  NoDup (cn_chunk_id <$> cs) -> topological cs (chain_edges cs) (seq 0 (length cs)).
Proof.
  intros N. split; [done|]. intros b j e Hb Hj He Hd.
  apply lookup_seq in Hj as [-> _]. destruct (elem_of_chain_edges _ _ He) as (k & x & y & Hx & Hy & ->).
  cbn in *. rewrite <- (id_at_lookup cs _ _ Hy) in Hd.
  apply (id_at_inj cs N) in Hd; [subst b|by eapply lookup_lt_Some|done].
  exists k, k. split_and!; [lia| |symmetry; by apply id_at_lookup].
  apply lookup_seq. split; [done|]. by eapply lookup_lt_Some.
Qed.

Lemma no_edges_topological cs : topological cs [] (seq 0 (length cs)).
Proof. split; [done|]. intros b j e _ _ He. by apply elem_of_nil in He. Qed.

Lemma planned_ids_NoDup (f : nat -> ChunkNode) base m :
  in_u64 base -> Z.of_nat m <= 2 ^ 31 ->
  (forall i, cn_chunk_id (f i) = generate_deterministic_chunk_id base (Z.of_nat i)) ->
  NoDup (cn_chunk_id <$> (f <$> seq 0 m)).
Proof.
  intros Hb Hm Hf. rewrite <- list_fmap_compose. apply NoDup_alt. intros i j x Hi Hj.
  rewrite list_lookup_fmap in Hi, Hj.
  destruct (seq 0 m !! i) as [a|] eqn:Ea; [|done]. destruct (seq 0 m !! j) as [b|] eqn:Eb; [|done].
  apply lookup_seq in Ea as [-> ?], Eb as [-> ?]. cbn in Hi, Hj. rewrite Hf in Hi, Hj.
  assert (Z.of_nat i = Z.of_nat j); [|lia].
  eapply (chunk_id_inj base); [done|unfold in_u64; lia..|congruence].
Qed.

(** The table after the planner registers its two strategies. *)
Definition planner_strategies : list StrategyRegistry :=
  snd (register_planning_strategy STRATEGY_SEQUENTIAL_PIPELINE (Some plan_sequential_pipeline_strategy)
    (snd (register_planning_strategy STRATEGY_INDEPENDENT_BATCH (Some plan_independent_batch_strategy) []))).

(** * The contract *)

(** Chunk identifiers are collision-free within a workload: for any
    workload, two chunk indices (any [int] that is not negative) that are
    given the same identifier are the same index. *)
Theorem chunk_ids_collision_free (wl : Workload) (i j : Z) :
  in_u64 (wl_total_input_size_bytes wl) -> 0 <= i < 2 ^ 31 -> 0 <= j < 2 ^ 31 ->
  generate_deterministic_chunk_id (compute_workload_base_hash wl) i =
  generate_deterministic_chunk_id (compute_workload_base_hash wl) j -> i = j.
Proof.
  intros H Hi Hj. apply chunk_id_inj; [by apply base_hash_u64|unfold in_u64; lia..].
Qed.

Definition demo_workload (t : StrategyType) (split : bool) : Workload :=
  {| wl_workload_name := "OrderedDataTransform"; wl_strategy_type := t;
     wl_total_input_size_bytes := 1024 * 1024 * 1024 * 16; wl_compute_intensity_factor := 3;
     wl_is_splittable := split; wl_raw_data_node_id := 2 |}.

Lemma chunk_ids_collision_free_witness :
  let h := compute_workload_base_hash (demo_workload STRATEGY_SEQUENTIAL_PIPELINE true) in
  generate_deterministic_chunk_id h 0 <> generate_deterministic_chunk_id h 1.
Proof.
  intros h E.
  assert (0 = 1) as H; [|discriminate H].
  apply (chunk_ids_collision_free (demo_workload STRATEGY_SEQUENTIAL_PIPELINE true) 0 1);
    [unfold in_u64; cbn; lia|lia|lia|exact E].
Defined.

(** C8: Every workload the planner accepts gets a sound plan, and it accepts
    exactly the splittable workloads of a registered strategy: on those the
    plan is valid, has four chunks with distinct identifiers and passes the
    topology check; the batch plan has no edges and its chunks ask for a
    quarter of the input plus 64 MiB each, the pipeline chains each chunk to
    the next and asks for half the input per step on the node that holds the
    data.  Every other workload is rejected with an invalid plan, which the
    topology check refuses as well. *)
Theorem planner_output_sound (wl : Workload) (junk : ExecutionPlan) :
  in_u64 (wl_total_input_size_bytes wl) ->
  exists ok plan,
  generate_chunk_graph planner_strategies (Some wl) (Some junk) = (ok, Some plan) /\
  ok = ep_is_valid plan /\ verify_plan_topology_is_dag plan = ok /\
  (ok = true <-> wl_is_splittable wl = true /\
     (wl_strategy_type wl = STRATEGY_INDEPENDENT_BATCH \/ wl_strategy_type wl = STRATEGY_SEQUENTIAL_PIPELINE)) /\
  (ok = true -> length (ep_chunks plan) = 4%nat /\ NoDup (cn_chunk_id <$> ep_chunks plan) /\
     match wl_strategy_type wl with
     | STRATEGY_INDEPENDENT_BATCH => ep_edges plan = [] /\
         Forall (fun c => cn_memory_demand_bytes c =
                          u64 (wl_total_input_size_bytes wl / 4 + 67108864)) (ep_chunks plan)
     | _ => ep_edges plan = chain_edges (ep_chunks plan) /\ length (ep_edges plan) = 3%nat /\
         Forall (fun c => cn_memory_demand_bytes c = wl_total_input_size_bytes wl / 2 /\
                          cn_target_node_id c = wl_raw_data_node_id wl) (ep_chunks plan)
     end).
Proof.
  intros Hsz. pose proof (base_hash_u64 wl Hsz) as Hb.
  unfold generate_chunk_graph. destruct (wl_is_splittable wl) eqn:Es; cbn [negb].
  2:{ exists false, zero_plan. split_and!; try done. split; [done|]. intros [? _]. done. }
  destruct (wl_strategy_type wl) eqn:Et.
  3,4: exists false, zero_plan; split_and!; try done; split; [done|]; by intros [_ [?|?]].
  - pose proof (planned_ids_NoDup (batch_chunk wl (compute_workload_base_hash wl) (wl_total_input_size_bytes wl / 4))
      _ 4 Hb ltac:(lia) ltac:(done)) as N.
    eexists true, _. split; [reflexivity|]. split; [done|]. split.
    { apply verify_dag_spec; [exact N|]. split_and!; [done|done|]. eexists. apply no_edges_topological. }
    split; [intuition done|]. intros _. split; [done|]. split; [exact N|]. split; [done|].
    by repeat constructor.
  - pose proof (planned_ids_NoDup (pipeline_chunk wl (compute_workload_base_hash wl) (wl_total_input_size_bytes wl / 2))
      _ 4 Hb ltac:(lia) ltac:(done)) as N.
    eexists true, _. split; [reflexivity|]. split; [done|]. split.
    { apply verify_dag_spec; [exact N|]. split_and!; [done|done|]. eexists. by apply chain_topological. }
    split; [intuition done|]. intros _. split; [done|]. split; [exact N|]. split; [done|]. split; [done|].
    by repeat constructor.
Qed.

Lemma planner_output_sound_witness :
  exists ok plan,
  generate_chunk_graph planner_strategies (Some (demo_workload STRATEGY_SEQUENTIAL_PIPELINE true))
    (Some zero_plan) = (ok, Some plan) /\ verify_plan_topology_is_dag plan = ok /\ ok = true.
Proof.
  destruct (planner_output_sound (demo_workload STRATEGY_SEQUENTIAL_PIPELINE true) zero_plan)
    as (ok & plan & E & _ & V & A & _); [unfold in_u64; cbn; lia|].
  exists ok, plan. split; [exact E|split; [exact V|]]. apply A. split; [reflexivity|right; reflexivity].
Defined.

(** * The planner's own tests *)

Example forged_cycle_rejected :
  verify_plan_topology_is_dag
    {| ep_chunks := demo_node <$> [0xDEADE; 0xBEEFE];
       ep_edges := [demo_edge 0xDEADE 0xBEEFE; demo_edge 0xBEEFE 0xDEADE]; ep_is_valid := true |} = false.
Proof. vm_compute. reflexivity. Qed.
