(* ===== verification/Workload.v ===== *)
(** The workload engine of the master ([master/src/workload.c]): submission,
    planning, dependency-driven readiness, result aggregation, cancellation
    and deadlines. *)
From S2P Require Import Prelude CFloat.

Definition MAX_ACTIVE_WORKLOADS : nat := 32.
Definition SHORT_STR_LEN : nat := 64.

Inductive WorkloadState :=
  WL_STATE_SUBMITTED | WL_STATE_PLANNING | WL_STATE_EXECUTING | WL_STATE_COMPLETED | WL_STATE_FAILED
| WL_STATE_CANCELLED.
Inductive ChunkState :=
  CHK_STATE_PENDING | CHK_STATE_READY | CHK_STATE_RUNNING | CHK_STATE_COMPLETED | CHK_STATE_FAILED.
Inductive WorkloadStrategy := STRATEGY_BATCH | STRATEGY_PIPELINE.

#[export] Instance WorkloadState_eq_dec : EqDecision WorkloadState.
Proof. solve_decision. Defined.
#[export] Instance ChunkState_eq_dec : EqDecision ChunkState.
Proof. solve_decision. Defined.

Record UserWorkloadDesc := {
  uw_workload_name : string;
  uw_strategy : WorkloadStrategy;
  uw_total_size_bytes : Z;
  uw_intensity_factor : Z;
  uw_is_splittable : bool;
  uw_data_node_hint : Z;
  uw_deadline_seconds : Z
}.

Record ManagedChunkNode := {
  mc_chunk_id : Z;
  mc_memory_demand_bytes : Z;
  mc_cpu_cores_demand : Z;
  mc_target_node_id : Z;
  mc_data_locality_score : cdouble;
  mc_state : ChunkState;
  mc_assigned_worker : string;
  mc_output_checksum : string
}.

Record PlanDependencyEdge := { pe_src_chunk_id : Z; pe_dst_chunk_id : Z }.

Record ActiveWorkloadLifecycle := {
  job_workload_id : Z;
  job_name : string;
  job_state : WorkloadState;
  job_start_timestamp_ms : Z;
  job_deadline_seconds : Z;
  job_chunks : list ManagedChunkNode;
  job_edges : list PlanDependencyEdge;
  job_overall_progress : cfloat;
  job_aggregated_result_hash : string
}.

Record vom_workload_context := {
  wc_jobs : list ActiveWorkloadLifecycle;
  wc_next_workload_id : Z
}.

(** * Field updates *)

Definition mc_set_state (st : ChunkState) (c : ManagedChunkNode) : ManagedChunkNode :=
  {| mc_chunk_id := mc_chunk_id c; mc_memory_demand_bytes := mc_memory_demand_bytes c;
     mc_cpu_cores_demand := mc_cpu_cores_demand c; mc_target_node_id := mc_target_node_id c;
     mc_data_locality_score := mc_data_locality_score c; mc_state := st;
     mc_assigned_worker := mc_assigned_worker c; mc_output_checksum := mc_output_checksum c |}.
Definition mc_set_checksum (s : string) (c : ManagedChunkNode) : ManagedChunkNode :=
  {| mc_chunk_id := mc_chunk_id c; mc_memory_demand_bytes := mc_memory_demand_bytes c;
     mc_cpu_cores_demand := mc_cpu_cores_demand c; mc_target_node_id := mc_target_node_id c;
     mc_data_locality_score := mc_data_locality_score c; mc_state := mc_state c;
     mc_assigned_worker := mc_assigned_worker c; mc_output_checksum := s |}.

Definition job_set_state (st : WorkloadState) (j : ActiveWorkloadLifecycle) : ActiveWorkloadLifecycle :=
  {| job_workload_id := job_workload_id j; job_name := job_name j; job_state := st;
     job_start_timestamp_ms := job_start_timestamp_ms j;
     job_deadline_seconds := job_deadline_seconds j; job_chunks := job_chunks j;
     job_edges := job_edges j; job_overall_progress := job_overall_progress j;
     job_aggregated_result_hash := job_aggregated_result_hash j |}.
Definition job_set_chunks (cs : list ManagedChunkNode) (j : ActiveWorkloadLifecycle) :
    ActiveWorkloadLifecycle :=
  {| job_workload_id := job_workload_id j; job_name := job_name j; job_state := job_state j;
     job_start_timestamp_ms := job_start_timestamp_ms j;
     job_deadline_seconds := job_deadline_seconds j; job_chunks := cs;
     job_edges := job_edges j; job_overall_progress := job_overall_progress j;
     job_aggregated_result_hash := job_aggregated_result_hash j |}.
Definition job_set_progress (p : cfloat) (j : ActiveWorkloadLifecycle) : ActiveWorkloadLifecycle :=
  {| job_workload_id := job_workload_id j; job_name := job_name j; job_state := job_state j;
     job_start_timestamp_ms := job_start_timestamp_ms j;
     job_deadline_seconds := job_deadline_seconds j; job_chunks := job_chunks j;
     job_edges := job_edges j; job_overall_progress := p;
     job_aggregated_result_hash := job_aggregated_result_hash j |}.
Definition job_set_hash (h : string) (j : ActiveWorkloadLifecycle) : ActiveWorkloadLifecycle :=
  {| job_workload_id := job_workload_id j; job_name := job_name j; job_state := job_state j;
     job_start_timestamp_ms := job_start_timestamp_ms j;
     job_deadline_seconds := job_deadline_seconds j; job_chunks := job_chunks j;
     job_edges := job_edges j; job_overall_progress := job_overall_progress j;
     job_aggregated_result_hash := h |}.

(** * Planning *)

Definition mock_chunk (desc : UserWorkloadDesc) (wl_id : Z) (i : nat) : ManagedChunkNode :=
  {| mc_chunk_id := Z.lor (u64 (Z.shiftl wl_id 16)) (Z.of_nat i);
     mc_memory_demand_bytes := uw_total_size_bytes desc / 3;
     mc_cpu_cores_demand := uw_intensity_factor desc;
     mc_target_node_id := uw_data_node_hint desc;
     mc_data_locality_score := double_of_Z 1;
     mc_state := CHK_STATE_PENDING;
     mc_assigned_worker := ""; mc_output_checksum := "" |}.

(** Writes the chunks and the two edges of the chain. *)
Definition mock_invoke_chunk_planner (desc : UserWorkloadDesc) (wl_id : Z)
    (out_job : ActiveWorkloadLifecycle) : ActiveWorkloadLifecycle :=
  let c0 := mock_chunk desc wl_id 0 in
  let c1 := mock_chunk desc wl_id 1 in
  let c2 := mock_chunk desc wl_id 2 in
  {| job_workload_id := job_workload_id out_job; job_name := job_name out_job;
     job_state := job_state out_job; job_start_timestamp_ms := job_start_timestamp_ms out_job;
     job_deadline_seconds := job_deadline_seconds out_job;
     job_chunks := [c0; c1; c2];
     job_edges := [ {| pe_src_chunk_id := mc_chunk_id c0; pe_dst_chunk_id := mc_chunk_id c1 |};
                    {| pe_src_chunk_id := mc_chunk_id c1; pe_dst_chunk_id := mc_chunk_id c2 |} ];
     job_overall_progress := job_overall_progress out_job;
     job_aggregated_result_hash := job_aggregated_result_hash out_job |}.

(** [alloc] is whether [calloc] succeeds. *)
Definition vom_workload_init (alloc : bool) : ptr vom_workload_context :=
  if alloc then Some {| wc_jobs := []; wc_next_workload_id := 1001 |} else NULL.

(** * Readiness *)

(** One edge's test for chunk [id]: only the first chunk with the source's id
    is looked at. *)
Definition edge_satisfied (cs : list ManagedChunkNode) (id : Z) (e : PlanDependencyEdge) : bool :=
  if pe_dst_chunk_id e =? id then
    match find_idx (fun c => mc_chunk_id c =? pe_src_chunk_id e) cs with
    | Some k => match cs !! k with
                | Some c => bool_decide (mc_state c = CHK_STATE_COMPLETED)
                | None => true
                end
    | None => true
    end
  else true.

(** [parents_completed] after the loop over the edges. *)
Definition parents_completed (cs : list ManagedChunkNode) (es : list PlanDependencyEdge) (id : Z) : bool :=
  forallb (edge_satisfied cs id) es.

(** The body of the loop over [i]; it reads the states the earlier iterations
    have already written. *)
Definition evaluate_chunk (es : list PlanDependencyEdge) (cs : list ManagedChunkNode) (i : nat) :
    list ManagedChunkNode :=
  match cs !! i with
  | Some c =>
      if bool_decide (mc_state c = CHK_STATE_PENDING) && parents_completed cs es (mc_chunk_id c)
      then <[i := mc_set_state CHK_STATE_READY c]> cs else cs
  | None => cs
  end.

Definition evaluate_ready_chunks (job : ActiveWorkloadLifecycle) : ActiveWorkloadLifecycle :=
  job_set_chunks
    (foldl (evaluate_chunk (job_edges job)) (job_chunks job) (seq 0 (length (job_chunks job)))) job.

(** * Progress *)

Definition is_state (st : ChunkState) (c : ManagedChunkNode) : bool := bool_decide (mc_state c = st).

Definition fnv_byte (h b : Z) : Z := u64 (Z.lxor h b * 0x100000001b3).

Definition result_hash (cs : list ManagedChunkNode) : Z :=
  foldl (fun h c => foldl fnv_byte h (bytes_of_string (mc_output_checksum c))) 0xcbf29ce484222325 cs.

Definition hex_digit (d : Z) : Ascii.ascii :=
  Ascii.ascii_of_N (Z.to_N (if d <? 10 then 48 + d else 87 + d)).

(** ["%016llx"]: [n] digits are left to write. *)
Fixpoint hex_digits (n : nat) (h : Z) (acc : string) : string :=
  match n with
  | O => acc
  | S n => hex_digits n (h / 16) (String (hex_digit (h mod 16)) acc)
  end.

Definition recalculate_job_progress (job : ActiveWorkloadLifecycle) : ActiveWorkloadLifecycle :=
  let completed := Z.of_nat (countb (is_state CHK_STATE_COMPLETED) (job_chunks job)) in
  let failed := Z.of_nat (countb (is_state CHK_STATE_FAILED) (job_chunks job)) in
  let chunk_count := Z.of_nat (length (job_chunks job)) in
  let job := job_set_progress
    (if chunk_count >? 0 then fdiv (float_of_Z completed) (float_of_Z chunk_count) else float_of_Z 0) job in
  if failed >? 0 then job_set_state WL_STATE_FAILED job
  else if completed =? chunk_count then
    job_set_hash (strncpy (SHORT_STR_LEN - 1)
                    (String.append "sha256-" (hex_digits 16 (result_hash (job_chunks job)) "")))
      (job_set_state WL_STATE_COMPLETED job)
  else job.

(** * Operations *)

(** The entry of [jobs] a submission takes, as [calloc] left it, with the
    fields written before planning. *)
Definition new_job (id : Z) (input : UserWorkloadDesc) (now : Z) : ActiveWorkloadLifecycle :=
  {| job_workload_id := id; job_name := strncpy (SHORT_STR_LEN - 1) (uw_workload_name input);
     job_state := WL_STATE_PLANNING; job_start_timestamp_ms := now;
     job_deadline_seconds := uw_deadline_seconds input; job_chunks := []; job_edges := [];
     job_overall_progress := S754_zero false; job_aggregated_result_hash := "" |}.

Definition vom_workload_submit (input : ptr UserWorkloadDesc) (current_time_ms : Z)
    (ctx : vom_workload_context) : Z * vom_workload_context :=
  match input with
  | NULL => (0, ctx)
  | Some input =>
      if negb (uw_is_splittable input) then (0, ctx)
      else if (MAX_ACTIVE_WORKLOADS <=? length (wc_jobs ctx))%nat then (0, ctx)
      else
        let assigned_id := wc_next_workload_id ctx in
        let job := new_job assigned_id input current_time_ms in
        let job := mock_invoke_chunk_planner input assigned_id job in
        let job := evaluate_ready_chunks (job_set_state WL_STATE_EXECUTING job) in
        (assigned_id, {| wc_jobs := wc_jobs ctx ++ [job]; wc_next_workload_id := u64 (assigned_id + 1) |})
  end.

Definition wc_set_jobs (js : list ActiveWorkloadLifecycle) (ctx : vom_workload_context) :
    vom_workload_context :=
  {| wc_jobs := js; wc_next_workload_id := wc_next_workload_id ctx |}.

Definition vom_workload_cancel (workload_id : Z) (ctx : vom_workload_context) :
    bool * vom_workload_context :=
  match find_idx (fun j => job_workload_id j =? workload_id) (wc_jobs ctx) with
  | Some i => (true, wc_set_jobs (alter (job_set_state WL_STATE_CANCELLED) i (wc_jobs ctx)) ctx)
  | None => (false, ctx)
  end.

(** The writes to one chunk. *)
Definition write_result (result_state : ChunkState) (checksum : ptr string) (c : ManagedChunkNode) :
    ManagedChunkNode :=
  let c := mc_set_state result_state c in
  match checksum with
  | Some s => mc_set_checksum (strncpy (SHORT_STR_LEN - 1) s) c
  | NULL => c
  end.

(** What the result does to the job that holds chunk number [k]. *)
Definition update_job (k : nat) (result_state : ChunkState) (checksum : ptr string)
    (job : ActiveWorkloadLifecycle) : ActiveWorkloadLifecycle :=
  recalculate_job_progress
    (evaluate_ready_chunks
       (job_set_chunks (alter (write_result result_state checksum) k (job_chunks job)) job)).

(** The nested loops: a job with the id but without the chunk does not end
    the outer loop. *)
Fixpoint update_loop (workload_id chunk_id : Z) (result_state : ChunkState) (checksum : ptr string)
    (js : list ActiveWorkloadLifecycle) : option (list ActiveWorkloadLifecycle) :=
  match js with
  | [] => None
  | job :: js =>
      match (if job_workload_id job =? workload_id
             then find_idx (fun c => mc_chunk_id c =? chunk_id) (job_chunks job) else None) with
      | Some k => Some (update_job k result_state checksum job :: js)
      | None => (fun js' => job :: js') <$> update_loop workload_id chunk_id result_state checksum js
      end
  end.

Definition vom_workload_update_chunk_result (workload_id chunk_id : Z) (result_state : ChunkState)
    (checksum : ptr string) (ctx : vom_workload_context) : bool * vom_workload_context :=
  match update_loop workload_id chunk_id result_state checksum (wc_jobs ctx) with
  | Some js => (true, wc_set_jobs js ctx)
  | None => (false, ctx)
  end.

Definition check_deadline (now : Z) (job : ActiveWorkloadLifecycle) : ActiveWorkloadLifecycle :=
  if bool_decide (job_state job = WL_STATE_EXECUTING) then
    let elapsed_seconds := u64 (now - job_start_timestamp_ms job) / 1000 in
    if elapsed_seconds >=? job_deadline_seconds job then job_set_state WL_STATE_FAILED job else job
  else job.

Definition vom_workload_check_deadlines (current_time_ms : Z) (ctx : vom_workload_context) :
    vom_workload_context :=
  wc_set_jobs (check_deadline current_time_ms <$> wc_jobs ctx) ctx.

(** The values a line of the dashboard prints. *)
Definition summary_row (j : ActiveWorkloadLifecycle) : Z * string * WorkloadState * cdouble * string :=
  (job_workload_id j, job_name j, job_state j, double_of_float (fmul (job_overall_progress j) (float_of_Z 100)),
   job_aggregated_result_hash j).

Definition vom_workload_publish_summary_to_ui (ctx : vom_workload_context) : list (Z * string * WorkloadState * cdouble * string) :=
  summary_row <$> wc_jobs ctx.
