(* ===== verification/WorkloadProps.v ===== *)
(** Correctness of the workload engine: readiness is exactly what the
    dependencies allow, reachable contexts are well formed, results drive the
    job state, and a submitted job runs to completion. *)
From S2P Require Import Prelude CFloat Workload.

(** * Readiness *)

(** The specification: all chunks judged against the same states. *)
Definition ready_spec (cs : list ManagedChunkNode) (es : list PlanDependencyEdge)
    (c : ManagedChunkNode) : ManagedChunkNode :=
  if bool_decide (mc_state c = CHK_STATE_PENDING) && parents_completed cs es (mc_chunk_id c)
  then mc_set_state CHK_STATE_READY c else c.

(** Two chunk tables the tests of [edge_satisfied] cannot tell apart. *)
Definition same_view (c d : ManagedChunkNode) : Prop :=
  mc_chunk_id c = mc_chunk_id d /\
  (mc_state c = CHK_STATE_COMPLETED <-> mc_state d = CHK_STATE_COMPLETED).

Lemma find_idx_Forall2 {A} (R : A -> A -> Prop) (p : A -> bool) l k :
  (forall x y, R x y -> p x = p y) -> Forall2 R l k -> find_idx p l = find_idx p k.
Proof. intros Hp H. induction H; cbn; [done|]. rewrite (Hp _ _ H), IHForall2. done. Qed.

Lemma edge_satisfied_view cs ds id e :
  Forall2 same_view cs ds -> edge_satisfied cs id e = edge_satisfied ds id e.
Proof.
  intros H. unfold edge_satisfied. destr_if; [|done].
  rewrite (find_idx_Forall2 same_view _ cs ds); [|by intros x y [-> _]|done].
  destruct (find_idx _ ds) as [k|]; [|done].
  destruct (cs !! k) as [c|] eqn:Hc.
  - destruct (Forall2_lookup_l _ _ _ _ _ H Hc) as (d & -> & _ & E). by apply bool_decide_ext.
  - apply lookup_ge_None in Hc. rewrite (Forall2_length _ _ _ H) in Hc.
    by rewrite (proj2 (lookup_ge_None ds k) Hc).
Qed.

Lemma parents_completed_view cs ds es id :
  Forall2 same_view cs ds -> parents_completed cs es id = parents_completed ds es id.
Proof.
  intros H. unfold parents_completed. induction es as [|e es IH]; cbn; [done|].
  by rewrite IH, (edge_satisfied_view cs ds id e H).
Qed.

Lemma ready_spec_view cs es c : same_view (ready_spec cs es c) c.
Proof.
  unfold ready_spec. destr_if; [|done]. bprop. apply bool_decide_eq_true in H. split; [done|]. cbn.
  by rewrite H.
Qed.

Lemma evaluate_prefix es cs i :
  (i <= length cs)%nat ->
  foldl (evaluate_chunk es) cs (seq 0 i) = (ready_spec cs es <$> take i cs) ++ drop i cs.
Proof.
  induction i as [|i IH]; intros Hi; [done|].
  rewrite seq_S, foldl_app, IH by lia. cbn [foldl]. clear IH. rewrite Nat.add_0_l.
  destruct (lookup_lt_is_Some_2 cs i Hi) as [c Hc].
  assert (length (ready_spec cs es <$> take i cs) = i) as Hl by (rewrite length_fmap, length_take; lia).
  rewrite (drop_S _ _ _ Hc), (take_S_r _ _ _ Hc), fmap_app. cbn [fmap list_fmap].
  unfold evaluate_chunk. rewrite (list_lookup_middle _ _ _ i (eq_sym Hl)).
  assert (Forall2 same_view ((ready_spec cs es <$> take i cs) ++ c :: drop (S i) cs) cs) as V.
  { replace cs with (take i cs ++ c :: drop (S i) cs) at 4 by (by apply take_drop_middle). apply Forall2_app.
    - apply Forall2_fmap_l, Forall_Forall2_diag, Forall_true. intros x. apply ready_spec_view.
    - constructor; [done|]. apply Forall_Forall2_diag, Forall_true. done. }
  rewrite (parents_completed_view _ cs es _ V). rewrite <- app_assoc. cbn [app].
  destruct (bool_decide _ && _) eqn:E.
  - replace (ready_spec cs es c) with (mc_set_state CHK_STATE_READY c) by (unfold ready_spec; by rewrite E).
    by rewrite insert_app_r_alt, Hl, Nat.sub_diag by lia.
  - by replace (ready_spec cs es c) with c by (unfold ready_spec; by rewrite E).
Qed.

Lemma evaluate_ready_eq job :
  job_chunks (evaluate_ready_chunks job) =
  ready_spec (job_chunks job) (job_edges job) <$> job_chunks job.
Proof.
  cbn. rewrite evaluate_prefix by done. rewrite take_ge, drop_ge by done. apply app_nil_r.
Qed.

(** No chunk waits without a reason: each PENDING one has a parent that is
    not completed. *)
Definition job_closed (job : ActiveWorkloadLifecycle) : Prop :=
  forall c, c ∈ job_chunks job -> mc_state c = CHK_STATE_PENDING ->
    parents_completed (job_chunks job) (job_edges job) (mc_chunk_id c) = false.

Lemma evaluate_closed job : job_closed (evaluate_ready_chunks job).
Proof.
  intros c. rewrite evaluate_ready_eq. intros (d & -> & Hd)%list_elem_of_fmap Hp.
  rewrite (parents_completed_view _ (job_chunks job)).
  - unfold ready_spec in *. destruct (bool_decide (mc_state d = CHK_STATE_PENDING)) eqn:E; cbn [andb] in *.
    + destr_if_hyp; [done|]. done.
    + apply bool_decide_eq_false in E. done.
  - apply Forall2_fmap_l, Forall_Forall2_diag, Forall_true. intros x. apply ready_spec_view.
Qed.

(** * Reachable contexts *)

Definition chunk_id_of (wl_id i : Z) : Z := Z.lor (u64 (Z.shiftl wl_id 16)) i.

(** The shape every job keeps from its planning. *)
Definition job_planned (job : ActiveWorkloadLifecycle) : Prop :=
  let id := job_workload_id job in
  mc_chunk_id <$> job_chunks job = [chunk_id_of id 0; chunk_id_of id 1; chunk_id_of id 2] /\
  job_edges job = [ {| pe_src_chunk_id := chunk_id_of id 0; pe_dst_chunk_id := chunk_id_of id 1 |};
                    {| pe_src_chunk_id := chunk_id_of id 1; pe_dst_chunk_id := chunk_id_of id 2 |} ].

Definition completed_count (job : ActiveWorkloadLifecycle) : nat :=
  countb (is_state CHK_STATE_COMPLETED) (job_chunks job).

Definition progress_exact (job : ActiveWorkloadLifecycle) : Prop :=
  job_overall_progress job = fdiv (float_of_Z (Z.of_nat (completed_count job))) (float_of_Z 3).

Definition job_ok (job : ActiveWorkloadLifecycle) : Prop :=
  job_planned job /\ job_closed job /\ progress_exact job.

Record wl_ok (ctx : vom_workload_context) : Prop := {
  wo_len : (length (wc_jobs ctx) <= MAX_ACTIVE_WORKLOADS)%nat;
  wo_next : wc_next_workload_id ctx = 1001 + Z.of_nat (length (wc_jobs ctx));
  wo_ids : forall i job, wc_jobs ctx !! i = Some job -> job_workload_id job = 1001 + Z.of_nat i;
  wo_jobs : Forall job_ok (wc_jobs ctx)
}.

Inductive wl_step : vom_workload_context -> vom_workload_context -> Prop :=
| ws_submit c input now : wl_step c (snd (vom_workload_submit input now c))
| ws_cancel c id : wl_step c (snd (vom_workload_cancel id c))
| ws_update c id k st s : wl_step c (snd (vom_workload_update_chunk_result id k st s c))
| ws_deadlines c now : wl_step c (vom_workload_check_deadlines now c).

Inductive wl_reachable : vom_workload_context -> Prop :=
| wl_init c : vom_workload_init true = Some c -> wl_reachable c
| wl_more c d : wl_reachable c -> wl_step c d -> wl_reachable d.

Lemma chunk_id_of_eq id i : 0 <= id < 2 ^ 48 -> 0 <= i < 2 ^ 16 -> chunk_id_of id i = id * 2 ^ 16 + i.
Proof.
  intros Hid Hi. unfold chunk_id_of. rewrite Z.shiftl_mul_pow2 by lia.
  rewrite u64_id by (unfold in_u64; nia).
  assert (Z.land (id * 2 ^ 16) i = 0) as Hl; [|pose proof (Z.add_lor_land (id * 2 ^ 16) i); lia].
  apply Z.bits_inj'. intros n Hn. rewrite Z.land_spec, Z.bits_0.
  destruct (Z.lt_ge_cases n 16) as [Hlt|Hge].
  - by rewrite Z.mul_pow2_bits_low by done.
  - rewrite (Z.bits_above_log2 i n), andb_false_r; [done|lia|].
    destruct (decide (i = 0)) as [->|]; [cbn; lia|].
    eapply Z.lt_le_trans; [|exact Hge]. apply Z.log2_lt_pow2; lia.
Qed.

(** A property of jobs that only looks at chunks, edges, id and progress. *)
Lemma job_ok_state st job : job_ok job -> job_ok (job_set_state st job).
Proof. done. Qed.

Lemma recalculate_chunks job : job_chunks (recalculate_job_progress job) = job_chunks job.
Proof. unfold recalculate_job_progress. by repeat destr_if. Qed.
Lemma recalculate_edges job : job_edges (recalculate_job_progress job) = job_edges job.
Proof. unfold recalculate_job_progress. by repeat destr_if. Qed.
Lemma recalculate_id job : job_workload_id (recalculate_job_progress job) = job_workload_id job.
Proof. unfold recalculate_job_progress. by repeat destr_if. Qed.
Lemma recalculate_progress job :
  length (job_chunks job) = 3%nat -> progress_exact (recalculate_job_progress job).
Proof.
  intros H. unfold progress_exact, completed_count. rewrite recalculate_chunks.
  unfold recalculate_job_progress. rewrite H. by repeat destr_if.
Qed.

Lemma countb_fmap_same {A} (p : A -> bool) (f : A -> A) l :
  (forall x, p (f x) = p x) -> countb p (f <$> l) = countb p l.
Proof. intros H. induction l as [|x l IH]; [done|]. cbn [fmap list_fmap]. rewrite !countb_cons, H, IH. done. Qed.

Lemma evaluate_completed_count job : completed_count (evaluate_ready_chunks job) = completed_count job.
Proof.
  unfold completed_count. rewrite evaluate_ready_eq. apply countb_fmap_same. intros c.
  apply bool_decide_ext, ready_spec_view.
Qed.

Lemma job_planned_len job : job_planned job -> length (job_chunks job) = 3%nat.
Proof. intros [H _]. by rewrite <- (length_fmap mc_chunk_id), H. Qed.

Lemma evaluate_planned job : job_planned job -> job_planned (evaluate_ready_chunks job).
Proof.
  intros [H1 H2]. split; [|done]. rewrite evaluate_ready_eq, <- list_fmap_compose.
  change (job_workload_id (evaluate_ready_chunks job)) with (job_workload_id job). rewrite <- H1.
  apply list_fmap_ext. intros i c _. apply ready_spec_view.
Qed.

Lemma update_job_ok k st s job : job_ok job -> job_ok (update_job k st s job).
Proof.
  intros (P & _ & _). unfold update_job. set (j1 := job_set_chunks _ job).
  assert (job_planned j1) as P1.
  { destruct P as [H1 H2]. split; [|done]. unfold j1. cbn. rewrite fmap_alter_same; [done|].
    intros c _. unfold write_result. by destruct s. }
  pose proof (evaluate_planned j1 P1) as [E1 E2]. split_and!.
  - split; by rewrite ?recalculate_chunks, ?recalculate_edges, ?recalculate_id.
  - intros c. rewrite recalculate_chunks, recalculate_edges. apply evaluate_closed.
  - apply recalculate_progress, job_planned_len. by split.
Qed.

(** The update changes one job, the one it names. *)
Lemma update_loop_Some wl k st s js js' :
  update_loop wl k st s js = Some js' ->
  exists i job c, js !! i = Some job /\ job_workload_id job = wl /\
    find_idx (fun c => mc_chunk_id c =? k) (job_chunks job) = Some c /\
    js' = <[i := update_job c st s job]> js.
Proof.
  revert js'. induction js as [|job js IH]; intros js' H; cbn in H; [done|].
  destruct (if job_workload_id job =? wl then _ else _) as [c|] eqn:E.
  - injection H as <-. destr_if_hyp; [|done]. bprop. by exists O, job, c.
  - destruct (update_loop wl k st s js) as [js1|] eqn:F; [|done]. injection H as <-.
    destruct (IH js1 eq_refl) as (i & j & c & Hj & Hid & Hc & ->). by exists (S i), j, c.
Qed.

Lemma update_loop_None wl k st s js :
  update_loop wl k st s js = None ->
  forall job, job ∈ js -> job_workload_id job = wl -> k ∉ mc_chunk_id <$> job_chunks job.
Proof.
  induction js as [|job js IH]; cbn; intros H j Hj Hid; [by apply elem_of_nil in Hj|].
  destruct (if job_workload_id job =? wl then _ else _) as [c|] eqn:E; [done|].
  destruct (update_loop wl k st s js) eqn:F; [done|].
  apply elem_of_cons in Hj as [->|Hj]; [|by apply IH].
  rewrite Hid, Z.eqb_refl in E. eapply find_key_None; [|exact E]. intros x Hx. by apply Z.eqb_eq.
Qed.

Lemma submit_ok input now ctx : wl_ok ctx -> wl_ok (snd (vom_workload_submit input now ctx)).
Proof.
  intros [H1 H2 H3 H4]. unfold vom_workload_submit. destruct input as [d|]; [|done].
  destr_if; [done|]. destr_if; [done|]. apply Nat.leb_gt in Heqb0. unfold MAX_ACTIVE_WORKLOADS in *.
  cbn [snd]. constructor; cbn [wc_jobs wc_next_workload_id].
  - rewrite length_app. cbn. unfold MAX_ACTIVE_WORKLOADS. lia.
  - rewrite length_app, H2. cbn [length]. rewrite u64_id by (unfold in_u64; lia). lia.
  - intros i job Hi. apply lookup_app_Some in Hi as [Hi|[Hge Hi]]; [by apply H3|].
    apply list_lookup_singleton_Some in Hi as [Hi <-]. cbn. rewrite H2. lia.
  - apply Forall_app. split; [done|]. constructor; [|done]. split_and!.
    + by apply evaluate_planned.
    + apply evaluate_closed.
    + unfold progress_exact. rewrite evaluate_completed_count. done.
Qed.

Lemma Forall_job_ids (js : list ActiveWorkloadLifecycle) i job job' k j :
  js !! i = Some job -> job_workload_id job' = job_workload_id job ->
  (forall i job, js !! i = Some job -> job_workload_id job = 1001 + Z.of_nat i) ->
  <[i := job']> js !! k = Some j -> job_workload_id j = 1001 + Z.of_nat k.
Proof.
  intros Hi He H. rewrite list_lookup_insert. destruct (decide _) as [[<- _]|]; [|apply H].
  intros [= <-]. rewrite He. by apply H.
Qed.

Lemma wl_step_ok c d : wl_ok c -> wl_step c d -> wl_ok d.
Proof.
  intros I H. destruct H as [c input now|c id|c id k st s|c now]; [by apply submit_ok|..];
    destruct I as [H1 H2 H3 H4].
  - unfold vom_workload_cancel. destruct (find_idx _ _) as [i|] eqn:E; [|done].
    constructor; cbn; rewrite ?length_alter; try done.
    + intros k job. rewrite list_lookup_alter. destruct (decide _) as [->|]; [|apply H3].
      intros (j & Hj & ->)%fmap_Some. exact (H3 _ _ Hj).
    + by apply Forall_alter_one.
  - unfold vom_workload_update_chunk_result. destruct (update_loop _ _ _ _ _) as [js|] eqn:E; [|done].
    destruct (update_loop_Some _ _ _ _ _ _ E) as (i & job & x & Hi & _ & _ & ->).
    constructor; cbn; rewrite ?length_insert; auto.
    + intros k' j. eapply Forall_job_ids; eauto. unfold update_job. by rewrite recalculate_id.
    + apply Forall_insert; [done|]. apply update_job_ok. by eapply Forall_lookup in H4.
  - constructor; cbn; rewrite ?length_fmap; auto.
    + intros i job. rewrite list_lookup_fmap. intros (j & Hj & ->)%fmap_Some.
      rewrite <- (H3 i j Hj). unfold check_deadline. by repeat destr_if.
    + apply Forall_fmap. eapply Forall_impl; [exact H4|]. intros j Hj. unfold compose, check_deadline.
      by repeat destr_if.
Qed.

Lemma wl_reachable_ok c : wl_reachable c -> wl_ok c.
Proof.
  induction 1 as [c H|]; [|eauto using wl_step_ok]. injection H as <-.
  constructor; cbn; auto; unfold MAX_ACTIVE_WORKLOADS; lia || done.
Qed.

(** * One job, start to end *)

Lemma hex_digits_length n h acc : String.length (hex_digits n h acc) = (n + String.length acc)%nat.
Proof. revert h acc. induction n as [|n IH]; intros h acc; cbn; [done|]. rewrite IH. cbn. lia. Qed.

Lemma hash_label_short h :
  strncpy (SHORT_STR_LEN - 1) (String.append "sha256-" (hex_digits 16 h "")) =
  String.append "sha256-" (hex_digits 16 h "").
Proof.
  apply strncpy_short. pose proof (hex_digits_length 16 h "") as L.
  remember (hex_digits 16 h "") as t eqn:E. clear E.
  change (7 + String.length t <= 63)%nat. rewrite L. cbn. lia.
Qed.

Lemma countb_none {A} (p : A -> bool) l : Forall (fun x => p x = false) l -> countb p l = 0%nat.
Proof. induction 1 as [|x l Hx _ IH]; [done|]. by rewrite countb_cons, Hx, IH. Qed.

(** The recalculation of a job all of whose chunks are completed. *)
Lemma recalculate_done j :
  length (job_chunks j) = 3%nat -> Forall (fun c => mc_state c = CHK_STATE_COMPLETED) (job_chunks j) ->
  job_state (recalculate_job_progress j) = WL_STATE_COMPLETED /\
  job_overall_progress (recalculate_job_progress j) = float_of_Z 1 /\
  job_aggregated_result_hash (recalculate_job_progress j) =
    String.append "sha256-" (hex_digits 16 (result_hash (job_chunks j)) "").
Proof.
  intros L H. unfold recalculate_job_progress.
  assert (countb (is_state CHK_STATE_COMPLETED) (job_chunks j) = 3%nat) as ->.
  { rewrite <- L. apply countb_all. eapply Forall_impl; [exact H|]. intros c Hc. by apply bool_decide_eq_true. }
  assert (countb (is_state CHK_STATE_FAILED) (job_chunks j) = 0%nat) as ->.
  { apply countb_none. eapply Forall_impl; [exact H|]. intros c Hc. apply bool_decide_eq_false. by rewrite Hc. }
  rewrite L. change (Z.of_nat 0 >? 0) with false. change (Z.of_nat 3 =? Z.of_nat 3) with true. cbn iota.
  split; [done|]. split; [by vm_compute|]. apply hash_label_short.
Qed.

Section Pipeline.
Context (d : UserWorkloadDesc) (id now : Z) (s0 s1 s2 : string).
Hypothesis (Hid : 0 <= id < 2 ^ 48).

Definition submitted_job : ActiveWorkloadLifecycle :=
  evaluate_ready_chunks
    (job_set_state WL_STATE_EXECUTING (mock_invoke_chunk_planner d id (new_job id d now))).
Definition job_after1 : ActiveWorkloadLifecycle :=
  update_job 0 CHK_STATE_COMPLETED (Some s0) submitted_job.
Definition job_after2 : ActiveWorkloadLifecycle :=
  update_job 1 CHK_STATE_COMPLETED (Some s1) job_after1.
Definition job_after3 : ActiveWorkloadLifecycle :=
  update_job 2 CHK_STATE_COMPLETED (Some s2) job_after2.

Lemma chunk_id_of_eqb i j :
  0 <= i < 2 ^ 16 -> 0 <= j < 2 ^ 16 -> (chunk_id_of id i =? chunk_id_of id j) = (i =? j).
Proof.
  intros Hi Hj. rewrite !chunk_id_of_eq by done.
  destruct (Z.eqb_spec i j) as [->|Hne]; [by apply Z.eqb_eq|]. apply Z.eqb_neq. lia.
Qed.

(** The chunk table of the job, given each chunk's state and checksum. *)
Definition stage (t0 t1 t2 : ChunkState) (k0 k1 k2 : string) : list ManagedChunkNode :=
  [ mc_set_checksum k0 (mc_set_state t0 (mock_chunk d id 0));
    mc_set_checksum k1 (mc_set_state t1 (mock_chunk d id 1));
    mc_set_checksum k2 (mc_set_state t2 (mock_chunk d id 2)) ].

Lemma stage_ready t0 t1 t2 k0 k1 k2 es :
  es = job_edges submitted_job ->
  ready_spec (stage t0 t1 t2 k0 k1 k2) es <$> stage t0 t1 t2 k0 k1 k2 =
  stage (if bool_decide (t0 = CHK_STATE_PENDING) then CHK_STATE_READY else t0)
        (if bool_decide (t1 = CHK_STATE_PENDING) && bool_decide (t0 = CHK_STATE_COMPLETED)
         then CHK_STATE_READY else t1)
        (if bool_decide (t2 = CHK_STATE_PENDING) && bool_decide (t1 = CHK_STATE_COMPLETED)
         then CHK_STATE_READY else t2) k0 k1 k2.
Proof.
  intros ->. pose proof chunk_id_of_eqb as E. unfold ready_spec, parents_completed, edge_satisfied.
  cbn -[Z.lor u64 Z.shiftl bool_decide].
  change (Z.lor (u64 (Z.shiftl id 16)) (Z.of_nat 0)) with (chunk_id_of id 0).
  change (Z.lor (u64 (Z.shiftl id 16)) (Z.of_nat 1)) with (chunk_id_of id 1).
  change (Z.lor (u64 (Z.shiftl id 16)) (Z.of_nat 2)) with (chunk_id_of id 2).
  rewrite !E by lia. cbn -[bool_decide].
  unfold stage. rewrite !andb_true_r.
  destruct (bool_decide (t0 = CHK_STATE_PENDING)), (bool_decide (t1 = CHK_STATE_PENDING)),
    (bool_decide (t2 = CHK_STATE_PENDING)), (bool_decide (t0 = CHK_STATE_COMPLETED)),
    (bool_decide (t1 = CHK_STATE_COMPLETED)); reflexivity.
Qed.

Lemma submitted_stage :
  job_chunks submitted_job = stage CHK_STATE_READY CHK_STATE_PENDING CHK_STATE_PENDING "" "" "".
Proof.
  unfold submitted_job. rewrite evaluate_ready_eq.
  by rewrite (stage_ready CHK_STATE_PENDING CHK_STATE_PENDING CHK_STATE_PENDING "" "" "").
Qed.

(** A result lands in the table, and readiness follows from it. *)
Lemma update_stage k st s job t0 t1 t2 k0 k1 k2 t0' t1' t2' k0' k1' k2' :
  job_edges job = job_edges submitted_job -> job_chunks job = stage t0 t1 t2 k0 k1 k2 ->
  alter (write_result st (Some s)) k (stage t0 t1 t2 k0 k1 k2) = stage t0' t1' t2' k0' k1' k2' ->
  job_chunks (update_job k st (Some s) job) =
  ready_spec (stage t0' t1' t2' k0' k1' k2') (job_edges submitted_job) <$> stage t0' t1' t2' k0' k1' k2'.
Proof.
  intros He Hc Ha. unfold update_job. rewrite recalculate_chunks, evaluate_ready_eq. cbn [job_chunks job_set_chunks].
  by rewrite Hc, Ha, <- He.
Qed.

Lemma update_edges k st s job : job_edges (update_job k st s job) = job_edges job.
Proof. unfold update_job. by rewrite recalculate_edges. Qed.

Local Abbreviation cut := (strncpy (SHORT_STR_LEN - 1)).

Lemma after1_stage :
  job_chunks job_after1 = stage CHK_STATE_COMPLETED CHK_STATE_READY CHK_STATE_PENDING (cut s0) "" "".
Proof.
  unfold job_after1. erewrite update_stage; [|done|apply submitted_stage|reflexivity].
  by rewrite stage_ready.
Qed.

Lemma after2_stage :
  job_chunks job_after2 = stage CHK_STATE_COMPLETED CHK_STATE_COMPLETED CHK_STATE_READY (cut s0) (cut s1) "".
Proof.
  unfold job_after2. erewrite update_stage; [|apply update_edges|apply after1_stage|reflexivity].
  by rewrite stage_ready.
Qed.

Lemma after3_stage :
  job_chunks job_after3 =
  stage CHK_STATE_COMPLETED CHK_STATE_COMPLETED CHK_STATE_COMPLETED (cut s0) (cut s1) (cut s2).
Proof.
  unfold job_after3. erewrite update_stage; [|unfold job_after2, job_after1; by rewrite !update_edges|apply after2_stage|reflexivity].
  by rewrite stage_ready.
Qed.

#[local] Opaque recalculate_job_progress evaluate_ready_chunks result_hash hex_digits.
Lemma after3_done :
  job_state job_after3 = WL_STATE_COMPLETED /\ job_overall_progress job_after3 = float_of_Z 1 /\
  job_aggregated_result_hash job_after3 =
    String.append "sha256-"
      (hex_digits 16 (result_hash (stage CHK_STATE_COMPLETED CHK_STATE_COMPLETED CHK_STATE_COMPLETED
                                     (cut s0) (cut s1) (cut s2))) "").
Proof.
  pose proof after3_stage as E. unfold job_after3, update_job in *. rewrite recalculate_chunks in E.
  remember (evaluate_ready_chunks _) as j eqn:Ej. clear Ej.
  destruct (recalculate_done j) as (-> & -> & ->).
  - by rewrite E.
  - rewrite E. by repeat constructor.
  - by rewrite E.
Qed.

#[local] Transparent recalculate_job_progress evaluate_ready_chunks result_hash hex_digits.

End Pipeline.

Lemma update_job_id k st s job : job_workload_id (update_job k st s job) = job_workload_id job.
Proof. unfold update_job. by rewrite recalculate_id. Qed.

Lemma submitted_job_id d id now : job_workload_id (submitted_job d id now) = id.
Proof. done. Qed.

(** The update of the last job, when no earlier job shares its id. *)
Lemma update_last wl k st s js job c nid :
  (forall j, j ∈ js -> job_workload_id j <> wl) -> job_workload_id job = wl ->
  find_idx (fun c => mc_chunk_id c =? k) (job_chunks job) = Some c ->
  vom_workload_update_chunk_result wl k st s {| wc_jobs := js ++ [job]; wc_next_workload_id := nid |} =
  (true, {| wc_jobs := js ++ [update_job c st s job]; wc_next_workload_id := nid |}).
Proof.
  intros Hn Hid Hc. unfold vom_workload_update_chunk_result. cbn [wc_jobs].
  replace (update_loop wl k st s (js ++ [job])) with (Some (js ++ [update_job c st s job])); [done|].
  symmetry. induction js as [|j js IH]; cbn.
  - by rewrite Hid, Z.eqb_refl, Hc.
  - destruct (Z.eqb_spec (job_workload_id j) wl) as [E|]; [by apply Hn in E; [|left]|].
    rewrite IH; [done|]. intros; apply Hn. by right.
Qed.

Lemma find_stage d id t0 t1 t2 k0 k1 k2 (i : nat) :
  0 <= id < 2 ^ 48 -> (i < 3)%nat ->
  find_idx (fun c => mc_chunk_id c =? chunk_id_of id (Z.of_nat i)) (stage d id t0 t1 t2 k0 k1 k2) = Some i.
Proof.
  intros Hid Hi. assert (forall j, (j < 3)%nat ->
    (chunk_id_of id (Z.of_nat j) =? chunk_id_of id (Z.of_nat i)) = (Z.of_nat j =? Z.of_nat i)) as E
    by (intros; apply chunk_id_of_eqb; lia).
  unfold stage. cbn [find_idx mc_chunk_id mc_set_checksum mc_set_state mock_chunk].
  fold (chunk_id_of id (Z.of_nat 0)) (chunk_id_of id (Z.of_nat 1)) (chunk_id_of id (Z.of_nat 2)).
  rewrite !E by lia. by destruct i as [|[|[|]]]; [..|lia].
Qed.

(** * The contract *)

(** C19: In every context reachable by submissions, cancellations, results of
    any kind and deadline checks, there are at most 32 jobs with distinct ids,
    no two chunks of the context share an identifier, no chunk waits once all
    its parents are completed, and each job's progress is exactly its
    completed chunks over its chunks. *)
Theorem workload_reachable_ok (ctx : vom_workload_context) :
  wl_reachable ctx ->
  (length (wc_jobs ctx) <= MAX_ACTIVE_WORKLOADS)%nat /\
  (forall i j a b, wc_jobs ctx !! i = Some a -> wc_jobs ctx !! j = Some b ->
     job_workload_id a = job_workload_id b -> i = j) /\
  (forall i j a b x y, wc_jobs ctx !! i = Some a -> wc_jobs ctx !! j = Some b ->
     (job_chunks a !! x ≫= (fun c => Some (mc_chunk_id c))) = (job_chunks b !! y ≫= (fun c => Some (mc_chunk_id c))) ->
     (x < 3)%nat -> (y < 3)%nat -> i = j /\ x = y) /\
  (forall job, job ∈ wc_jobs ctx -> length (job_chunks job) = 3%nat /\
     job_overall_progress job = fdiv (float_of_Z (Z.of_nat (completed_count job))) (float_of_Z 3) /\
     forall c, c ∈ job_chunks job -> mc_state c = CHK_STATE_PENDING ->
       parents_completed (job_chunks job) (job_edges job) (mc_chunk_id c) = false).
Proof.
  intros R. destruct (wl_reachable_ok ctx R) as [H1 H2 H3 H4]. unfold MAX_ACTIVE_WORKLOADS in *. split_and!.
  - done.
  - intros i j a b Ha Hb E. rewrite (H3 _ _ Ha), (H3 _ _ Hb) in E. lia.
  - intros i j a b x y Ha Hb E Hx Hy.
    assert (forall k job z, wc_jobs ctx !! k = Some job -> (z < 3)%nat ->
      job_chunks job !! z ≫= (fun c => Some (mc_chunk_id c)) =
      Some ((1001 + Z.of_nat k) * 2 ^ 16 + Z.of_nat z) /\ (k < 32)%nat) as K.
    { intros k job z Hk Hz. assert (k < 32)%nat by (apply lookup_lt_Some in Hk; lia). split; [|done].
      destruct (Forall_lookup_1 _ _ _ _ H4 Hk) as ([P _] & _).
      assert ((mc_chunk_id <$> job_chunks job) !! z = Some (chunk_id_of (job_workload_id job) (Z.of_nat z))) as E'
        by (rewrite P; by destruct z as [|[|[|]]]; [..|lia]).
      rewrite list_lookup_fmap in E'. destruct (job_chunks job !! z); [|done]. cbn in *.
      rewrite E', (H3 _ _ Hk), chunk_id_of_eq by lia. done. }
    destruct (K _ _ _ Ha Hx) as [Ex ?], (K _ _ _ Hb Hy) as [Ey ?]. rewrite Ex, Ey in E. injection E as E. lia.
  - intros job Hj. destruct (proj1 (Forall_forall _ _) H4 job Hj) as (P & C & G).
    split; [by apply job_planned_len|]. done.
Qed.

Definition demo_desc : UserWorkloadDesc :=
  {| uw_workload_name := "render"; uw_strategy := STRATEGY_PIPELINE; uw_total_size_bytes := 3000;
     uw_intensity_factor := 2; uw_is_splittable := true; uw_data_node_hint := 1;
     uw_deadline_seconds := 60 |}.
Definition demo_wl0 : vom_workload_context := {| wc_jobs := []; wc_next_workload_id := 1001 |}.
Definition demo_wl1 : vom_workload_context := snd (vom_workload_submit (Some demo_desc) 5000 demo_wl0).
Definition demo_wl2 : vom_workload_context := snd (vom_workload_submit (Some demo_desc) 6000 demo_wl1).

Lemma demo_wl2_reachable : wl_reachable demo_wl2.
Proof.
  apply (wl_more demo_wl1); [|apply ws_submit]. apply (wl_more demo_wl0); [|apply ws_submit].
  by apply wl_init.
Defined.

Lemma workload_reachable_ok_witness :
  length (wc_jobs demo_wl2) = 2%nat /\
  forall job, job ∈ wc_jobs demo_wl2 -> length (job_chunks job) = 3%nat.
Proof.
  split; [vm_compute; reflexivity|]. intros job Hj.
  apply (workload_reachable_ok demo_wl2 demo_wl2_reachable). exact Hj.
Defined.

(** The readiness pass is its specification: although it updates the
    chunk table while it scans it, the result is that of judging every chunk
    against the states before the pass; a chunk becomes READY exactly if it
    was PENDING and every edge into it whose source is in the job comes from a
    completed chunk, and nothing else changes. *)
Theorem evaluate_ready_exact (job : ActiveWorkloadLifecycle) :
  job_chunks (evaluate_ready_chunks job) =
    (fun c => if bool_decide (mc_state c = CHK_STATE_PENDING) &&
                 parents_completed (job_chunks job) (job_edges job) (mc_chunk_id c)
              then mc_set_state CHK_STATE_READY c else c) <$> job_chunks job /\
  job_edges (evaluate_ready_chunks job) = job_edges job /\
  job_state (evaluate_ready_chunks job) = job_state job.
Proof. split; [apply evaluate_ready_eq|done]. Qed.

(** The state of a job follows from its chunks. *)
Lemma recalculate_decides j : length (job_chunks j) = 3%nat ->
  let failed := exists c, c ∈ job_chunks j /\ mc_state c = CHK_STATE_FAILED in
  let all_done := forall c, c ∈ job_chunks j -> mc_state c = CHK_STATE_COMPLETED in
  let j' := recalculate_job_progress j in
  (failed -> job_state j' = WL_STATE_FAILED) /\
  (all_done -> job_state j' = WL_STATE_COMPLETED /\
     job_aggregated_result_hash j' = String.append "sha256-" (hex_digits 16 (result_hash (job_chunks j)) "")) /\
  (~ failed -> ~ all_done -> job_state j' = job_state j).
Proof.
  intros L failed all_done j'. unfold failed, all_done, j'. split; [|split].
  - intros (c & Hc & Hf). unfold recalculate_job_progress.
    assert (0 < countb (is_state CHK_STATE_FAILED) (job_chunks j))%nat
      by (apply countb_pos; exists c; split; [done|by apply bool_decide_eq_true]).
    replace (Z.of_nat _ >? 0) with true; [done|]. symmetry. rewrite Z.gtb_ltb. apply Z.ltb_lt. lia.
  - intros Hall. destruct (recalculate_done j L) as (-> & _ & ->); [by apply Forall_forall|done].
  - intros Hf Hn. unfold recalculate_job_progress.
    assert (countb (is_state CHK_STATE_FAILED) (job_chunks j) = 0%nat) as ->.
    { apply countb_none, Forall_forall. intros c Hc. apply bool_decide_eq_false. intros ?. apply Hf. eauto. }
    destruct (Z.eqb_spec (Z.of_nat (countb (is_state CHK_STATE_COMPLETED) (job_chunks j)))
                (Z.of_nat (length (job_chunks j)))) as [Ec|]; [|done].
    destruct Hn. apply Nat2Z.inj, countb_all in Ec. intros c Hc. rewrite Forall_forall in Ec.
    exact (proj1 (bool_decide_eq_true _) (Ec c Hc)).
Qed.

(** What a result leaves of the rest of its job. *)
Lemma recalculate_same job :
  let job' := recalculate_job_progress job in
  job_name job' = job_name job /\ job_start_timestamp_ms job' = job_start_timestamp_ms job /\
  job_deadline_seconds job' = job_deadline_seconds job.
Proof. unfold recalculate_job_progress. by repeat destr_if. Qed.

(** The result in the chunk table, and readiness judged against that table. *)
Lemma update_chunks x st s job c : job_chunks job !! x = Some c ->
  let table := <[x := mc_set_checksum (match s with Some s => strncpy (SHORT_STR_LEN - 1) s | NULL => mc_output_checksum c end)
                        (mc_set_state st c)]> (job_chunks job) in
  job_chunks (update_job x st s job) = ready_spec table (job_edges job) <$> table.
Proof.
  intros Hx table. unfold update_job. rewrite recalculate_chunks, evaluate_ready_eq.
  cbn [job_set_chunks job_chunks job_edges].
  assert (alter (write_result st s) x (job_chunks job) = table) as ->; [|done].
  unfold table. apply list_eq. intros i. rewrite list_lookup_alter, list_lookup_insert.
  destruct (decide (x = i)) as [->|N].
  - rewrite Hx, decide_True by (split; [done|by eapply lookup_lt_Some]). cbn. f_equal. unfold write_result.
    destruct s; [done|]. by destruct c.
  - rewrite decide_False by (by intros []). done.
Qed.

(** C20: What a result does: on a reachable context the update succeeds exactly
    when the job is known and has the chunk.  Then, in that job alone, the first
    chunk with the id takes the state and, if one is given, the checksum (cut
    to 63 characters), every PENDING chunk whose parents are now completed
    becomes READY, no other chunk changes, and the job keeps its id, name,
    edges, start and deadline; it ends FAILED if one of its chunks is failed,
    otherwise COMPLETED with the aggregate hash of the chunk checksums if all
    of them are completed, otherwise in the state it had.  When the update
    fails nothing changes. *)
Theorem workload_result_drives_state (ctx : vom_workload_context) (wl k : Z) (st : ChunkState)
    (s : ptr string) :
  wl_reachable ctx ->
  let '(ok, ctx') := vom_workload_update_chunk_result wl k st s ctx in
  (ok = true <-> exists job, job ∈ wc_jobs ctx /\ job_workload_id job = wl /\ k ∈ mc_chunk_id <$> job_chunks job) /\
  if ok then
    exists i job job' x c, wc_jobs ctx !! i = Some job /\ job_workload_id job = wl /\
      job_chunks job !! x = Some c /\ mc_chunk_id c = k /\
      (forall y d, job_chunks job !! y = Some d -> mc_chunk_id d = k -> (x <= y)%nat) /\
      wc_jobs ctx' = <[i := job']> (wc_jobs ctx) /\ wc_next_workload_id ctx' = wc_next_workload_id ctx /\
      let checksum := match s with Some s => strncpy (SHORT_STR_LEN - 1) s | NULL => mc_output_checksum c end in
      let table := <[x := mc_set_checksum checksum (mc_set_state st c)]> (job_chunks job) in
      job_chunks job' = ready_spec table (job_edges job) <$> table /\
      job_workload_id job' = wl /\ job_edges job' = job_edges job /\ job_name job' = job_name job /\
      job_start_timestamp_ms job' = job_start_timestamp_ms job /\ job_deadline_seconds job' = job_deadline_seconds job /\
      let failed := exists c, c ∈ job_chunks job' /\ mc_state c = CHK_STATE_FAILED in
      let all_done := forall c, c ∈ job_chunks job' -> mc_state c = CHK_STATE_COMPLETED in
      (failed -> job_state job' = WL_STATE_FAILED) /\
      (all_done -> job_state job' = WL_STATE_COMPLETED /\
         job_aggregated_result_hash job' =
           String.append "sha256-" (hex_digits 16 (result_hash (job_chunks job')) "")) /\
      (~ failed -> ~ all_done -> job_state job' = job_state job)
  else ctx' = ctx.
Proof.
  intros R. pose proof (wl_reachable_ok ctx R) as [_ _ _ H4]. unfold vom_workload_update_chunk_result.
  destruct (update_loop _ _ _ _ _) as [js|] eqn:E.
  2:{ split; [|done]. split; [done|]. intros (job & Hj & Hid & Hk). by destruct (update_loop_None _ _ _ _ _ E job Hj Hid). }
  destruct (update_loop_Some _ _ _ _ _ _ E) as (i & job & x & Hi & Hid & Hx & ->).
  destruct (find_idx_Some _ _ _ Hx) as (c & Hc & Hp & Hfirst). bprop.
  split. { split; [|done]. intros _. exists job. split_and!; [by eapply list_elem_of_lookup_2|done|].
    rewrite <- Hp. apply list_elem_of_fmap_2. by eapply list_elem_of_lookup_2. }
  exists i, job, (update_job x st s job), x, c.
  assert (length (job_chunks (update_job x st s job)) = 3%nat) as L.
  { apply job_planned_len, update_job_ok. exact (Forall_lookup_1 _ _ _ _ H4 Hi). }
  do 4 (split; [done|]). split. { intros y d Hy Hd. destruct (Nat.le_gt_cases x y) as [|Lt]; [done|]. specialize (Hfirst y d Lt Hy). bprop. done. }
  do 2 (split; [done|]). split; [by apply update_chunks|]. split; [by rewrite update_job_id|].
  split; [apply update_edges|]. unfold update_job in *. set (j := evaluate_ready_chunks _) in *.
  destruct (recalculate_same j) as (-> & -> & ->). do 3 (split; [done|]). rewrite recalculate_chunks in *.
  change (job_state job) with (job_state j). by apply recalculate_decides.
Qed.

Lemma workload_result_drives_state_witness :
  exists i job job', wc_jobs demo_wl2 !! i = Some job /\ job_workload_id job = 1002 /\
    wc_jobs (snd (vom_workload_update_chunk_result 1002 65667072 CHK_STATE_FAILED None demo_wl2)) =
      <[i := job']> (wc_jobs demo_wl2).
Proof.
  pose proof (workload_result_drives_state demo_wl2 1002 65667072 CHK_STATE_FAILED None demo_wl2_reachable) as H.
  destruct (vom_workload_update_chunk_result 1002 65667072 CHK_STATE_FAILED None demo_wl2) as [ok c] eqn:E.
  destruct ok; [|vm_compute in E; discriminate E].
  destruct H as (_ & i & job & job' & x & y & H1 & H2 & _ & _ & _ & H3 & _). exists i, job, job'. split; [exact H1|split; [exact H2|exact H3]].
Defined.

#[local] Opaque recalculate_job_progress evaluate_ready_chunks result_hash hex_digits.

(** C21: A submitted job runs to completion: on any reachable context with a
    free slot a splittable workload gets the next id, its chunks become ready
    one at a time in dependency order as results come in, and after the third
    result the job is COMPLETED with progress 1 and the aggregate hash of the
    three checksums, every other job being untouched throughout. *)
Theorem workload_runs_to_completion (ctx : vom_workload_context) (d : UserWorkloadDesc) (now : Z)
    (s0 s1 s2 : string) :
  wl_reachable ctx -> uw_is_splittable d = true -> (length (wc_jobs ctx) < MAX_ACTIVE_WORKLOADS)%nat ->
  exists id c1 j1 j2 j3 j4,
  vom_workload_submit (Some d) now ctx = (id, c1) /\ id = 1001 + Z.of_nat (length (wc_jobs ctx)) /\
  wc_jobs c1 = wc_jobs ctx ++ [j1] /\
  mc_state <$> job_chunks j1 = [CHK_STATE_READY; CHK_STATE_PENDING; CHK_STATE_PENDING] /\
  let done_ i s c := vom_workload_update_chunk_result id (id * 65536 + i) CHK_STATE_COMPLETED (Some s) c in
  let c2 := snd (done_ 0 s0 c1) in let c3 := snd (done_ 1 s1 c2) in let c4 := snd (done_ 2 s2 c3) in
  wc_jobs c2 = wc_jobs ctx ++ [j2] /\
  mc_state <$> job_chunks j2 = [CHK_STATE_COMPLETED; CHK_STATE_READY; CHK_STATE_PENDING] /\
  wc_jobs c3 = wc_jobs ctx ++ [j3] /\
  mc_state <$> job_chunks j3 = [CHK_STATE_COMPLETED; CHK_STATE_COMPLETED; CHK_STATE_READY] /\
  wc_jobs c4 = wc_jobs ctx ++ [j4] /\
  job_state j4 = WL_STATE_COMPLETED /\ job_overall_progress j4 = float_of_Z 1 /\
  job_aggregated_result_hash j4 =
    String.append "sha256-" (hex_digits 16 (result_hash (job_chunks j4)) "").
Proof.
  intros R Hs Hlen. destruct (wl_reachable_ok ctx R) as [_ H2 H3 _]. unfold MAX_ACTIVE_WORKLOADS in *.
  set (id := 1001 + Z.of_nat (length (wc_jobs ctx))) in *.
  assert (0 <= id < 2 ^ 48) as Hid by (unfold id; lia).
  assert (forall i, 0 <= i < 3 -> id * 65536 + i = chunk_id_of id i) as Ecid
    by (intros; rewrite chunk_id_of_eq by lia; done).
  assert (forall j, j ∈ wc_jobs ctx -> job_workload_id j <> id) as Hother.
  { intros j [i Hi]%list_elem_of_lookup. rewrite (H3 _ _ Hi). apply lookup_lt_Some in Hi. unfold id. lia. }
  assert (vom_workload_submit (Some d) now ctx =
    (id, {| wc_jobs := wc_jobs ctx ++ [submitted_job d id now]; wc_next_workload_id := u64 (id + 1) |})) as Es.
  { unfold vom_workload_submit. rewrite Hs, H2. cbn [negb].
    by replace (MAX_ACTIVE_WORKLOADS <=? length (wc_jobs ctx))%nat with false
      by (symmetry; apply Nat.leb_gt; unfold MAX_ACTIVE_WORKLOADS; lia). }
  eexists id, _, (submitted_job d id now), (job_after1 d id now s0), (job_after2 d id now s0 s1),
    (job_after3 d id now s0 s1 s2).
  split; [exact Es|]. split; [done|]. split; [done|].
  pose proof (submitted_stage d id now Hid) as G1. pose proof (after1_stage d id now s0 Hid) as G2.
  pose proof (after2_stage d id now s0 s1 Hid) as G3. split; [by rewrite G1|]. cbn zeta.
  rewrite !Ecid by lia.
  rewrite (update_last _ _ _ _ (wc_jobs ctx) (submitted_job d id now) 0) by
    (done || (rewrite G1; by apply (find_stage d id _ _ _ _ _ _ 0); [|lia])).
  cbn [snd].
  change (update_job 0 CHK_STATE_COMPLETED (Some s0) (submitted_job d id now)) with (job_after1 d id now s0).
  rewrite (update_last _ _ _ _ (wc_jobs ctx) (job_after1 d id now s0) 1) by
    (done || (rewrite G2; by apply (find_stage d id _ _ _ _ _ _ 1); [|lia])
          || (unfold job_after1; by rewrite !update_job_id, submitted_job_id)).
  cbn [snd].
  change (update_job 1 CHK_STATE_COMPLETED (Some s1) (job_after1 d id now s0)) with (job_after2 d id now s0 s1).
  rewrite (update_last _ _ _ _ (wc_jobs ctx) (job_after2 d id now s0 s1) 2) by
    (done || (rewrite G3; by apply (find_stage d id _ _ _ _ _ _ 2); [|lia])
          || (unfold job_after2, job_after1; by rewrite !update_job_id, submitted_job_id)).
  cbn [snd wc_jobs].
  change (update_job 2 CHK_STATE_COMPLETED (Some s2) (job_after2 d id now s0 s1)) with (job_after3 d id now s0 s1 s2).
  destruct (after3_done d id now s0 s1 s2 Hid) as (D1 & D2 & D3).
  rewrite (after3_stage d id now s0 s1 s2 Hid). rewrite G2, G3. split_and!; done.
Qed.

#[local] Transparent recalculate_job_progress evaluate_ready_chunks result_hash hex_digits.

Lemma workload_runs_to_completion_witness :
  exists id c1 j1, vom_workload_submit (Some demo_desc) 7000 demo_wl2 = (id, c1) /\ id = 1003 /\
    wc_jobs c1 = wc_jobs demo_wl2 ++ [j1].
Proof.
  destruct (workload_runs_to_completion demo_wl2 demo_desc 7000 "aa" "bb" "cc" demo_wl2_reachable eq_refl)
    as (id & c1 & j1 & _ & _ & _ & H1 & H2 & H3 & _).
  - vm_compute. lia.
  - exists id, c1, j1. split; [exact H1|split; [rewrite H2; vm_compute; reflexivity|exact H3]].
Defined.

(** ** Where the code falls short *)

(** A result that arrives after a cancellation brings the job back. *)
Example cancelled_job_resurrected :
  let c1 := snd (vom_workload_cancel 1001 demo_wl1) in
  let c2 := snd (vom_workload_update_chunk_result 1001 65601536 CHK_STATE_FAILED None c1) in
  job_state <$> wc_jobs c1 = [WL_STATE_CANCELLED] /\ job_state <$> wc_jobs c2 = [WL_STATE_FAILED].
Proof. vm_compute. split; reflexivity. Qed.
