(* ===== verification/MasterRecovery.v ===== *)
(** The recovery engine of the master ([master/src/recovery.c]): heartbeat
    observations, lease records, the timeout sweep and the intake of results. *)
From S2P Require Import Prelude.

Definition REC_MAX_WORKERS : nat := 64.
Definition REC_MAX_LEASES : nat := 128.
Definition REC_NAME_MAX : nat := 64.

Inductive VomRetryAction := VOM_RETRY_NONE | VOM_RETRY_IMMEDIATE | VOM_RETRY_BACKOFF | VOM_RETRY_REPLAN.
Inductive UiHealthStatus := UI_HEALTH_OK | UI_HEALTH_WARN | UI_HEALTH_CRITICAL.
Inductive LeaseState := LEASE_ACTIVE | LEASE_UNCERTAIN | LEASE_EXPIRED | LEASE_RECONCILED.

#[export] Instance VomRetryAction_eq_dec : EqDecision VomRetryAction.
Proof. solve_decision. Defined.
#[export] Instance LeaseState_eq_dec : EqDecision LeaseState.
Proof. solve_decision. Defined.

Record rec_lease_record := {
  rl_lease_id : Z;
  rl_chunk_id : Z;
  rl_workload_id : Z;
  rl_assigned_worker_id : string;
  rl_lease_expires_ms : Z;
  rl_state : LeaseState;
  rl_retry_count : Z;
  rl_retry_policy : VomRetryAction
}.

Record rec_worker_obs := {
  ro_worker_id : string;
  ro_last_heartbeat_ms : Z;
  ro_is_healthy : bool
}.

Record vom_recovery_context := {
  rec_workers : list rec_worker_obs;
  rec_leases : list rec_lease_record;
  rec_summary_health : UiHealthStatus;
  rec_operational_status_text : string;
  rec_active_recovery_jobs : Z
}.

(** * Field updates *)

Definition rl_set (st : LeaseState) (retries : Z) (l : rec_lease_record) : rec_lease_record :=
  {| rl_lease_id := rl_lease_id l; rl_chunk_id := rl_chunk_id l; rl_workload_id := rl_workload_id l;
     rl_assigned_worker_id := rl_assigned_worker_id l; rl_lease_expires_ms := rl_lease_expires_ms l;
     rl_state := st; rl_retry_count := retries; rl_retry_policy := rl_retry_policy l |}.
Definition rl_set_state (st : LeaseState) (l : rec_lease_record) : rec_lease_record :=
  rl_set st (rl_retry_count l) l.

Definition rec_set_workers (ws : list rec_worker_obs) (c : vom_recovery_context) : vom_recovery_context :=
  {| rec_workers := ws; rec_leases := rec_leases c; rec_summary_health := rec_summary_health c;
     rec_operational_status_text := rec_operational_status_text c;
     rec_active_recovery_jobs := rec_active_recovery_jobs c |}.
Definition rec_set_leases (ls : list rec_lease_record) (c : vom_recovery_context) : vom_recovery_context :=
  {| rec_workers := rec_workers c; rec_leases := ls; rec_summary_health := rec_summary_health c;
     rec_operational_status_text := rec_operational_status_text c;
     rec_active_recovery_jobs := rec_active_recovery_jobs c |}.

(** * Operations *)

(** [alloc] is whether [calloc] succeeds. *)
Definition vom_recovery_init (alloc : bool) : ptr vom_recovery_context :=
  if alloc then
    Some {| rec_workers := []; rec_leases := []; rec_summary_health := UI_HEALTH_OK;
            rec_operational_status_text := strncpy (REC_NAME_MAX - 1) "HEALTHY";
            rec_active_recovery_jobs := 0 |}
  else NULL.

Definition obs_heartbeat (now_ms : Z) (w : rec_worker_obs) : rec_worker_obs :=
  {| ro_worker_id := ro_worker_id w; ro_last_heartbeat_ms := now_ms; ro_is_healthy := true |}.

Definition vom_recovery_register_worker_heartbeat (worker_id : ptr string) (now_ms : Z)
    (c : vom_recovery_context) : vom_recovery_context :=
  match worker_id with
  | NULL => c
  | Some worker_id =>
      match find_idx (fun w => strcmp_eq (ro_worker_id w) worker_id) (rec_workers c) with
      | Some i => rec_set_workers (alter (obs_heartbeat now_ms) i (rec_workers c)) c
      | None =>
          if (length (rec_workers c) <? REC_MAX_WORKERS)%nat then
            rec_set_workers
              (rec_workers c ++ [ {| ro_worker_id := strncpy (REC_NAME_MAX - 1) worker_id;
                                     ro_last_heartbeat_ms := now_ms; ro_is_healthy := true |} ]) c
          else c
      end
  end.

(** Step 1's inner loop: the active leases of a lost worker become uncertain,
    each counted in [active_recovery_jobs]. *)
Fixpoint mark_uncertain (worker_id : string) (ls : list rec_lease_record) (jobs : Z) :
    list rec_lease_record * Z :=
  match ls with
  | [] => ([], jobs)
  | l :: ls =>
      if strcmp_eq (rl_assigned_worker_id l) worker_id && bool_decide (rl_state l = LEASE_ACTIVE) then
        let (ls', jobs') := mark_uncertain worker_id ls (u32 (jobs + 1)) in
        (rl_set_state LEASE_UNCERTAIN l :: ls', jobs')
      else
        let (ls', jobs') := mark_uncertain worker_id ls jobs in (l :: ls', jobs')
  end.

(** [w->is_healthy && (now_ms - w->last_heartbeat_ms) > heartbeat_timeout_ms] *)
Definition missed_heartbeat (now_ms timeout_ms : Z) (w : rec_worker_obs) : bool :=
  ro_is_healthy w && (u64 (now_ms - ro_last_heartbeat_ms w) >? timeout_ms).

Definition obs_lost (w : rec_worker_obs) : rec_worker_obs :=
  {| ro_worker_id := ro_worker_id w; ro_last_heartbeat_ms := ro_last_heartbeat_ms w;
     ro_is_healthy := false |}.

(** The loop over the workers: the new workers, leases and counter, and
    [cluster_degraded]. *)
Fixpoint sweep_workers (now_ms timeout_ms : Z) (ws : list rec_worker_obs) (ls : list rec_lease_record)
    (jobs : Z) (degraded : bool) : list rec_worker_obs * list rec_lease_record * Z * bool :=
  match ws with
  | [] => ([], ls, jobs, degraded)
  | w :: ws =>
      if missed_heartbeat now_ms timeout_ms w then
        let (ls1, jobs1) := mark_uncertain (ro_worker_id w) ls jobs in
        let '(ws', ls', jobs', deg') := sweep_workers now_ms timeout_ms ws ls1 jobs1 true in
        (obs_lost w :: ws', ls', jobs', deg')
      else
        let '(ws', ls', jobs', deg') :=
          sweep_workers now_ms timeout_ms ws ls jobs (degraded || negb (ro_is_healthy w)) in
        (w :: ws', ls', jobs', deg')
  end.

(** Which leases step 2 takes, and what it makes of one. *)
Definition needs_requeue (now_ms : Z) (l : rec_lease_record) : bool :=
  bool_decide (rl_state l = LEASE_UNCERTAIN) ||
  (bool_decide (rl_state l = LEASE_ACTIVE) && (now_ms >? rl_lease_expires_ms l)).

Definition requeue (l : rec_lease_record) : rec_lease_record :=
  let retries := u32 (rl_retry_count l + 1) in
  if negb (bool_decide (rl_retry_policy l = VOM_RETRY_NONE)) && (retries <=? 3)
  then rl_set LEASE_EXPIRED retries l else rl_set LEASE_RECONCILED retries l.

Fixpoint requeue_leases (now_ms : Z) (ls : list rec_lease_record) (jobs : Z) :
    list rec_lease_record * Z :=
  match ls with
  | [] => ([], jobs)
  | l :: ls =>
      if needs_requeue now_ms l then
        let (ls', jobs') := requeue_leases now_ms ls (if jobs >? 0 then u32 (jobs - 1) else jobs) in
        (requeue l :: ls', jobs')
      else
        let (ls', jobs') := requeue_leases now_ms ls jobs in (l :: ls', jobs')
  end.

Definition vom_recovery_sweep_timeouts (now_ms heartbeat_timeout_ms : Z) (c : vom_recovery_context) :
    vom_recovery_context :=
  let '(ws, ls, jobs, cluster_degraded) :=
    sweep_workers now_ms heartbeat_timeout_ms (rec_workers c) (rec_leases c)
      (rec_active_recovery_jobs c) false in
  let (ls, jobs) := requeue_leases now_ms ls jobs in
  {| rec_workers := ws; rec_leases := ls;
     rec_summary_health := if cluster_degraded then UI_HEALTH_WARN else UI_HEALTH_OK;
     rec_operational_status_text :=
       strncpy (REC_NAME_MAX - 1) (if cluster_degraded then "DEGRADED / RECOVERING" else "HEALTHY");
     rec_active_recovery_jobs := jobs |}.

Definition vom_recovery_process_incoming_result (lease_id : Z) (worker_id result_hash : ptr string)
    (c : vom_recovery_context) : bool * vom_recovery_context :=
  match worker_id, result_hash with
  | Some worker_id, Some _ =>
      match find_idx (fun l => rl_lease_id l =? lease_id) (rec_leases c) with
      | None => (false, c)
      | Some i =>
          match rec_leases c !! i with
          | None => (false, c)
          | Some l =>
              if bool_decide (rl_state l = LEASE_EXPIRED) || bool_decide (rl_state l = LEASE_RECONCILED)
              then (false, c)
              else if negb (strcmp_eq (rl_assigned_worker_id l) worker_id) then (false, c)
              else (true, rec_set_leases (<[i := rl_set_state LEASE_RECONCILED l]> (rec_leases c)) c)
          end
      end
  | _, _ => (false, c)
  end.

Definition vom_recovery_inject_test_lease (lease_id chunk_id : Z) (worker_id : string)
    (expires_ms : Z) (policy : VomRetryAction) (c : vom_recovery_context) : vom_recovery_context :=
  if (length (rec_leases c) <? REC_MAX_LEASES)%nat then
    rec_set_leases
      (rec_leases c ++
         [ {| rl_lease_id := lease_id; rl_chunk_id := chunk_id; rl_workload_id := 999;
              rl_assigned_worker_id := strncpy (REC_NAME_MAX - 1) worker_id;
              rl_lease_expires_ms := expires_ms; rl_state := LEASE_ACTIVE; rl_retry_count := 0;
              rl_retry_policy := policy |} ]) c
  else c.
