(* ===== verification/MasterRecoveryProps.v ===== *)
(** Correctness of the recovery engine: the timeout sweep against its
    specification, the states leases can be in, and results committed at most
    once. *)
From S2P Require Import Prelude MasterRecovery.

(** * The sweep, loop by loop *)

Definition lost_to (worker_id : string) (l : rec_lease_record) : bool :=
  strcmp_eq (rl_assigned_worker_id l) worker_id && bool_decide (rl_state l = LEASE_ACTIVE).

(** Leases of the workers a sweep finds silent. *)
Definition lease_lost (now t : Z) (ws : list rec_worker_obs) (l : rec_lease_record) : bool :=
  existsb (fun w => missed_heartbeat now t w && lost_to (ro_worker_id w) l) ws.

Definition sweep_obs (now t : Z) (w : rec_worker_obs) : rec_worker_obs :=
  if missed_heartbeat now t w then obs_lost w else w.

Definition uncertain_if (p : rec_lease_record -> bool) (l : rec_lease_record) : rec_lease_record :=
  if p l then rl_set_state LEASE_UNCERTAIN l else l.

Lemma mark_uncertain_spec id ls : forall jobs, in_u32 jobs ->
  mark_uncertain id ls jobs =
  (uncertain_if (lost_to id) <$> ls, u32 (jobs + Z.of_nat (countb (lost_to id) ls))).
Proof.
  induction ls as [|l ls IH]; intros jobs H; cbn [mark_uncertain fmap list_fmap].
  - cbn. rewrite Z.add_0_r, u32_id by done. done.
  - rewrite countb_cons. fold (lost_to id l). unfold uncertain_if at 1.
    destruct (lost_to id l); rewrite IH by auto with cint; [|done].
    f_equal. unfold u32. rewrite Zplus_mod_idemp_l. f_equal. lia.
Qed.

Lemma lost_to_uncertain id p l : lost_to id (uncertain_if p l) = negb (p l) && lost_to id l.
Proof. unfold uncertain_if. destruct (p l); [|done]. unfold lost_to. cbn. by rewrite andb_false_r. Qed.

Lemma lease_lost_uncertain now t ws p l :
  lease_lost now t ws (uncertain_if p l) = negb (p l) && lease_lost now t ws l.
Proof.
  unfold lease_lost. induction ws as [|w ws IH]; cbn [existsb]; [by rewrite andb_false_r|].
  rewrite IH, lost_to_uncertain. by destruct (missed_heartbeat now t w), (p l), (lost_to (ro_worker_id w) l).
Qed.

Lemma uncertain_if_twice p q l :
  uncertain_if q (uncertain_if p l) = uncertain_if (fun l => p l || q (uncertain_if p l)) l.
Proof. unfold uncertain_if. by destruct (p l) eqn:E; cbn; [destr_if|]. Qed.

Lemma countb_split {A} (p q : A -> bool) l :
  (countb p l + countb (fun x => negb (p x) && q x) l)%nat = countb (fun x => p x || q x) l.
Proof. induction l as [|x l IH]; [done|]. rewrite !countb_cons. destruct (p x), (q x); cbn; lia. Qed.

(** A search by a field an update keeps. *)
Lemma find_idx_Forall2_fmap {A} (f : A -> A) (p : A -> bool) l :
  (forall x, p (f x) = p x) -> find_idx p l = find_idx p (f <$> l).
Proof. intros H. induction l as [|x l IH]; [done|]. cbn. by rewrite H, IH. Qed.

Lemma countb_mono {A} (p q : A -> bool) l :
  (forall x, p x = true -> q x = true) -> (countb p l <= countb q l)%nat.
Proof.
  intros H. induction l as [|x l IH]; [done|]. rewrite !countb_cons. specialize (H x).
  destruct (p x); [rewrite H by done; lia|]. destr_if; lia.
Qed.

Lemma countb_fmap {A B} (p : B -> bool) (f : A -> B) l : countb p (f <$> l) = countb (fun x => p (f x)) l.
Proof. induction l as [|x l IH]; [done|]. cbn [fmap list_fmap]. by rewrite !countb_cons, IH. Qed.

Lemma countb_ext {A} (p q : A -> bool) l : (forall x, p x = q x) -> countb p l = countb q l.
Proof. intros H. induction l as [|x l IH]; [done|]. by rewrite !countb_cons, H, IH. Qed.

Lemma sweep_workers_spec now t ws : forall ls jobs deg, in_u32 jobs ->
  sweep_workers now t ws ls jobs deg =
  (sweep_obs now t <$> ws, uncertain_if (lease_lost now t ws) <$> ls,
   u32 (jobs + Z.of_nat (countb (lease_lost now t ws) ls)),
   deg || existsb (fun w => negb (ro_is_healthy (sweep_obs now t w))) ws).
Proof.
  induction ws as [|w ws IH]; intros ls jobs deg H; cbn [sweep_workers fmap list_fmap existsb].
  - rewrite orb_false_r. unfold lease_lost. cbn.
    assert (countb (fun _ : rec_lease_record => false) ls = 0%nat) as -> by (by induction ls).
    rewrite Z.add_0_r, u32_id by done. f_equal. f_equal. f_equal.
    induction ls as [|l ls IHl]; [done|]. cbn [fmap list_fmap]. by rewrite <- IHl.
  - unfold sweep_obs at 1 3. destruct (missed_heartbeat now t w) eqn:M.
    + rewrite mark_uncertain_spec by done. rewrite IH by auto with cint. cbn [ro_is_healthy obs_lost negb].
      rewrite orb_true_r. cbn [orb]. f_equal. f_equal; [f_equal|].
      * rewrite <- list_fmap_compose. apply list_fmap_ext. intros i l _. unfold compose.
        rewrite uncertain_if_twice. unfold uncertain_if at 1 3.
        rewrite lease_lost_uncertain. unfold lease_lost. cbn [existsb]. rewrite M. cbn [andb].
        by destruct (lost_to (ro_worker_id w) l).
      * rewrite countb_fmap. unfold u32. rewrite Zplus_mod_idemp_l, <- Z.add_assoc, <- Nat2Z.inj_add.
        rewrite (countb_ext _ _ ls (fun l => lease_lost_uncertain now t ws (lost_to (ro_worker_id w)) l)).
        rewrite countb_split. f_equal. f_equal. f_equal. apply countb_ext. intros l.
        unfold lease_lost. cbn [existsb]. by rewrite M.
    + rewrite IH by done. rewrite orb_assoc. f_equal. f_equal; [f_equal|].
      * apply list_fmap_ext. intros i l _. unfold uncertain_if, lease_lost. cbn [existsb]. by rewrite M.
      * f_equal. f_equal. f_equal. apply countb_ext. intros l. unfold lease_lost. cbn [existsb]. by rewrite M.
Qed.

Definition requeue_if (now : Z) (l : rec_lease_record) : rec_lease_record :=
  if needs_requeue now l then requeue l else l.

Lemma requeue_leases_spec now ls : forall jobs, in_u32 jobs ->
  requeue_leases now ls jobs =
  (requeue_if now <$> ls, Z.max 0 (jobs - Z.of_nat (countb (needs_requeue now) ls))).
Proof.
  induction ls as [|l ls IH]; intros jobs H; cbn [requeue_leases fmap list_fmap].
  - unfold in_u32 in H. cbn. f_equal. lia.
  - rewrite countb_cons. unfold requeue_if at 1. unfold in_u32 in H. destruct (needs_requeue now l).
    + destruct (Z.gtb_spec jobs 0) as [Hj|Hj].
      * rewrite u32_id by (unfold in_u32; lia). rewrite IH by (unfold in_u32; lia). f_equal. lia.
      * rewrite IH by (unfold in_u32; lia). f_equal. lia.
    + rewrite IH by (unfold in_u32; lia). f_equal.
Qed.

(** * The invariant *)

Definition lease_ok (l : rec_lease_record) : Prop :=
  rl_state l <> LEASE_UNCERTAIN /\ 0 <= rl_retry_count l <= 1 /\
  (rl_state l = LEASE_ACTIVE -> rl_retry_count l = 0).

Record rec_ok (c : vom_recovery_context) : Prop := {
  rk_workers : (length (rec_workers c) <= REC_MAX_WORKERS)%nat;
  rk_leases : (length (rec_leases c) <= REC_MAX_LEASES)%nat;
  rk_lease_ok : Forall lease_ok (rec_leases c);
  rk_jobs : rec_active_recovery_jobs c = 0
}.

(** What one sweep makes of a lease. *)
Definition sweep_lease (now t : Z) (ws : list rec_worker_obs) (l : rec_lease_record) : rec_lease_record :=
  if bool_decide (rl_state l = LEASE_ACTIVE) &&
     (existsb (fun w => missed_heartbeat now t w && strcmp_eq (rl_assigned_worker_id l) (ro_worker_id w)) ws
      || (now >? rl_lease_expires_ms l))
  then rl_set (if bool_decide (rl_retry_policy l = VOM_RETRY_NONE) then LEASE_RECONCILED else LEASE_EXPIRED) 1 l
  else l.

Lemma lease_lost_active now t ws l :
  lease_lost now t ws l =
  bool_decide (rl_state l = LEASE_ACTIVE) &&
  existsb (fun w => missed_heartbeat now t w && strcmp_eq (rl_assigned_worker_id l) (ro_worker_id w)) ws.
Proof.
  unfold lease_lost. induction ws as [|w ws IH]; cbn [existsb]; [by rewrite andb_false_r|].
  rewrite IH. unfold lost_to.
  by destruct (missed_heartbeat now t w), (strcmp_eq _ _), (bool_decide _).
Qed.

Lemma sweep_lease_eq now t ws l :
  lease_ok l -> requeue_if now (uncertain_if (lease_lost now t ws) l) = sweep_lease now t ws l.
Proof.
  intros (Hu & _ & Hr). unfold sweep_lease, uncertain_if. rewrite lease_lost_active.
  destruct (bool_decide (rl_state l = LEASE_ACTIVE)) eqn:A; cbn [andb].
  - apply bool_decide_eq_true in A. specialize (Hr A). destruct (existsb _ ws); cbn [orb].
    + unfold requeue_if, requeue. cbn. rewrite Hr. by destruct (bool_decide (rl_retry_policy l = VOM_RETRY_NONE)).
    + unfold requeue_if, needs_requeue. rewrite A. cbn. destruct (now >? rl_lease_expires_ms l); [|done].
      unfold requeue. rewrite Hr. cbn. by destruct (bool_decide (rl_retry_policy l = VOM_RETRY_NONE)).
  - unfold requeue_if, needs_requeue. rewrite A. by rewrite bool_decide_eq_false_2.
Qed.

Lemma sweep_eq_rec now t c :
  rec_ok c ->
  let degraded := existsb (fun w => negb (ro_is_healthy (sweep_obs now t w))) (rec_workers c) in
  vom_recovery_sweep_timeouts now t c =
  {| rec_workers := sweep_obs now t <$> rec_workers c;
     rec_leases := sweep_lease now t (rec_workers c) <$> rec_leases c;
     rec_summary_health := if degraded then UI_HEALTH_WARN else UI_HEALTH_OK;
     rec_operational_status_text := if degraded then "DEGRADED / RECOVERING" else "HEALTHY";
     rec_active_recovery_jobs := 0 |}.
Proof.
  intros [H1 H2 H3 H4] deg. unfold vom_recovery_sweep_timeouts.
  rewrite H4, sweep_workers_spec by (unfold in_u32; lia). rewrite orb_false_l. fold deg.
  rewrite Z.add_0_l. pose proof (countb_le (lease_lost now t (rec_workers c)) (rec_leases c)) as Hc.
  unfold REC_MAX_LEASES in H2. rewrite u32_id by (unfold in_u32; lia).
  rewrite requeue_leases_spec by (unfold in_u32; lia). f_equal.
  - rewrite <- list_fmap_compose. apply list_fmap_ext. intros i l Hl. unfold compose.
    apply sweep_lease_eq. by eapply Forall_lookup_1.
  - by destruct deg.
  - rewrite countb_fmap. enough (countb (lease_lost now t (rec_workers c)) (rec_leases c) <=
      countb (fun l => needs_requeue now (uncertain_if (lease_lost now t (rec_workers c)) l)) (rec_leases c))%nat
      by lia.
    apply countb_mono. intros l Hl. unfold uncertain_if. by rewrite Hl.
Qed.

Inductive rec_step : vom_recovery_context -> vom_recovery_context -> Prop :=
| rec_heartbeat_step c id now : rec_step c (vom_recovery_register_worker_heartbeat id now c)
| rec_sweep_step c now t : rec_step c (vom_recovery_sweep_timeouts now t c)
| rec_inject_step c id k w e p : rec_step c (vom_recovery_inject_test_lease id k w e p c).

Lemma sweep_lease_ok now t ws l : lease_ok l -> lease_ok (sweep_lease now t ws l).
Proof.
  intros H. unfold sweep_lease. destr_if; [|done]. unfold lease_ok. cbn [rl_state rl_retry_count rl_set].
  destruct (bool_decide (rl_retry_policy l = VOM_RETRY_NONE)); (split; [done|]); (split; [lia|]); done.
Qed.

Lemma rec_step_ok c d : rec_ok c -> rec_step c d -> rec_ok d.
Proof.
  intros I H. destruct H as [c id now|c now t|c id k w e p].
  - destruct I as [H1 H2 H3 H4]. unfold vom_recovery_register_worker_heartbeat. destruct id as [id|]; [|done].
    destruct (find_idx _ _); [constructor; cbn; by rewrite ?length_alter|].
    destr_if; [|done]. apply Nat.ltb_lt in Heqb. constructor; cbn; auto. rewrite length_app. cbn. lia.
  - rewrite sweep_eq_rec by done. destruct I as [H1 H2 H3 H4].
    constructor; cbn; rewrite ?length_fmap; auto. apply Forall_fmap. eapply Forall_impl; [exact H3|].
    intros l. apply sweep_lease_ok.
  - destruct I as [H1 H2 H3 H4]. unfold vom_recovery_inject_test_lease. destr_if; [|done].
    apply Nat.ltb_lt in Heqb. constructor; cbn; auto.
    + rewrite length_app. cbn. lia.
    + apply Forall_app. split; [done|]. constructor; [|done]. by unfold lease_ok; cbn.
Qed.

Lemma result_ok id w h c : rec_ok c -> rec_ok (snd (vom_recovery_process_incoming_result id w h c)).
Proof.
  intros I. unfold vom_recovery_process_incoming_result. destruct w, h; try done.
  destruct (find_idx _ _) as [i|]; [|done]. destruct (rec_leases c !! i) as [l|] eqn:L; [|done].
  destr_if; [done|]. destr_if; [done|]. destruct I as [H1 H2 H3 H4].
  constructor; cbn; rewrite ?length_insert; auto. apply Forall_insert; [done|].
  destruct (Forall_lookup_1 _ _ _ _ H3 L) as (_ & ? & _). split; [done|]. by split.
Qed.

(** A history of the engine: the results it accepted, oldest first, each with
    the worker that sent it. *)
Inductive rec_history : vom_recovery_context -> list (Z * string) -> Prop :=
| rh_init c : vom_recovery_init true = Some c -> rec_history c []
| rh_step c d acc : rec_history c acc -> rec_step c d -> rec_history d acc
| rh_result c acc id w h : rec_history c acc ->
    rec_history (snd (vom_recovery_process_incoming_result id (Some w) h c))
      (if fst (vom_recovery_process_incoming_result id (Some w) h c) then acc ++ [(id, w)] else acc).

Lemma rec_history_ok c acc : rec_history c acc -> rec_ok c.
Proof.
  induction 1 as [c H| |]; eauto using rec_step_ok, result_ok. injection H as <-.
  constructor; cbn; auto; unfold REC_MAX_WORKERS, REC_MAX_LEASES; lia || done.
Qed.

(** * The contract *)

(** C23: The timeout sweep is its specification: in every state of the engine,
    with no heartbeat from the future, a sweep marks exactly the healthy
    workers silent for longer than the timeout as lost, ends exactly the
    active leases held by those workers or past their expiry (EXPIRED for
    replacement, or RECONCILED when the retry policy is NONE), each with its
    retry counted, leaves every other lease alone and none UNCERTAIN, and
    reports the cluster degraded exactly if some worker is now unhealthy. *)
Theorem recovery_sweep_spec (c : vom_recovery_context) (acc : list (Z * string)) (now t : Z) :
  rec_history c acc -> in_u64 now ->
  (forall w, w ∈ rec_workers c -> 0 <= ro_last_heartbeat_ms w <= now) ->
  let d := vom_recovery_sweep_timeouts now t c in
  let dead w := ro_is_healthy w = true /\ now - ro_last_heartbeat_ms w > t in
  let ended l := rl_state l = LEASE_ACTIVE /\
    ((exists w, w ∈ rec_workers c /\ dead w /\ rl_assigned_worker_id l = ro_worker_id w) \/
     now > rl_lease_expires_ms l) in
  rec_workers d = (fun w => if decide (dead w) then obs_lost w else w) <$> rec_workers c /\
  length (rec_leases d) = length (rec_leases c) /\
  (forall i l, rec_leases c !! i = Some l -> exists l', rec_leases d !! i = Some l' /\
     (ended l -> l' = rl_set (if decide (rl_retry_policy l = VOM_RETRY_NONE)
                             then LEASE_RECONCILED else LEASE_EXPIRED) 1 l) /\
     (~ ended l -> l' = l) /\ rl_state l' <> LEASE_UNCERTAIN) /\
  (rec_summary_health d = UI_HEALTH_WARN <-> exists w, w ∈ rec_workers d /\ ro_is_healthy w = false) /\
  rec_active_recovery_jobs d = 0.
Proof.
  intros R Hnow Hle d dead ended. pose proof (rec_history_ok c acc R) as I.
  unfold d. rewrite sweep_eq_rec by done. cbn [rec_workers rec_leases rec_summary_health rec_active_recovery_jobs].
  assert (forall w, w ∈ rec_workers c -> missed_heartbeat now t w = bool_decide (dead w)) as E.
  { intros w Hw. unfold missed_heartbeat, dead. specialize (Hle w Hw).
    rewrite u64_id by (unfold in_u64 in *; lia). rewrite Z.gtb_ltb.
    destruct (ro_is_healthy w), (Z.ltb_spec t (now - ro_last_heartbeat_ms w)); cbn; symmetry;
      (apply bool_decide_eq_true_2 || apply bool_decide_eq_false_2); intuition (lia || done). }
  assert (forall w, w ∈ rec_workers c -> sweep_obs now t w = if decide (dead w) then obs_lost w else w) as Es.
  { intros w Hw. unfold sweep_obs. rewrite E by done. by case_bool_decide; destruct (decide (dead w)). }
  split; [apply list_fmap_ext; intros i w Hw%list_elem_of_lookup_2; by apply Es|].
  split; [by rewrite length_fmap|]. split; [|split; [|done]].
  - intros i l Hl. exists (sweep_lease now t (rec_workers c) l). rewrite list_lookup_fmap, Hl.
    split; [done|].
    assert (bool_decide (rl_state l = LEASE_ACTIVE) &&
     (existsb (fun w => missed_heartbeat now t w && strcmp_eq (rl_assigned_worker_id l) (ro_worker_id w))
        (rec_workers c) || (now >? rl_lease_expires_ms l)) = true <-> ended l) as Hb.
    { rewrite andb_true_iff, orb_true_iff, existsb_exists, bool_decide_eq_true, Z.gtb_gt. unfold ended.
      apply and_iff_compat_l, or_iff_compat_r. split.
      - intros (w & Hw%list_elem_of_In & Hb). rewrite E in Hb by done. bprop.
        apply bool_decide_eq_true in H. eauto.
      - intros (w & Hw & Hd & Heq). exists w. split; [by apply list_elem_of_In|].
        rewrite E by done. rewrite bool_decide_eq_true_2 by done. by rewrite Heq, strcmp_eq_refl. }
    pose proof (sweep_lease_ok now t (rec_workers c) l (Forall_lookup_1 _ _ _ _ (rk_lease_ok c I) Hl)) as (Hu & _).
    unfold sweep_lease in *. split; [|split; [|done]].
    + intros He. rewrite (proj2 Hb He).
      by destruct (rl_retry_policy l).
    + intros Hn. destr_if; [|done]. by destruct (Hn (proj1 Hb eq_refl)).
  - destruct (existsb _ _) eqn:X.
    + split; [intros _|done]. apply existsb_exists in X as (w & Hw%list_elem_of_In & Hh). bprop.
      exists (sweep_obs now t w). split; [by apply list_elem_of_fmap_2|done].
    + split; [done|]. intros (w & (w0 & -> & Hw0)%list_elem_of_fmap & Hh).
      assert (existsb (fun w => negb (ro_is_healthy (sweep_obs now t w))) (rec_workers c) = true) as X'; [|congruence].
      apply existsb_exists. exists w0. split; [by apply list_elem_of_In|]. by rewrite Hh.
Qed.

Definition demo_rec0 : vom_recovery_context :=
  {| rec_workers := []; rec_leases := []; rec_summary_health := UI_HEALTH_OK;
     rec_operational_status_text := "HEALTHY"; rec_active_recovery_jobs := 0 |}.
Definition demo_rec1 : vom_recovery_context :=
  vom_recovery_register_worker_heartbeat (Some "worker-tablet-01") 10000 demo_rec0.
Definition demo_rec2 : vom_recovery_context :=
  vom_recovery_inject_test_lease 7001 501 "worker-tablet-01" 15000 VOM_RETRY_IMMEDIATE demo_rec1.

Lemma demo_rec2_history : rec_history demo_rec2 [].
Proof.
  apply (rh_step demo_rec1); [|apply rec_inject_step]. apply (rh_step demo_rec0); [|apply rec_heartbeat_step].
  by apply rh_init.
Defined.

Lemma recovery_sweep_spec_witness :
  rec_workers (vom_recovery_sweep_timeouts 25000 5000 demo_rec2) =
    [ {| ro_worker_id := "worker-tablet-01"; ro_last_heartbeat_ms := 10000; ro_is_healthy := false |} ] /\
  (rec_summary_health (vom_recovery_sweep_timeouts 25000 5000 demo_rec2) = UI_HEALTH_WARN <->
   exists w, w ∈ rec_workers (vom_recovery_sweep_timeouts 25000 5000 demo_rec2) /\ ro_is_healthy w = false).
Proof.
  split; [vm_compute; reflexivity|].
  apply (recovery_sweep_spec demo_rec2 [] 25000 5000 demo_rec2_history); [unfold in_u64; lia|].
  intros w Hw. vm_compute in Hw. apply elem_of_cons in Hw as [->|Hw]; [cbn; lia|]. by apply elem_of_nil in Hw.
Defined.

(** ** Results *)

(** Entry [i] is the first with its lease id, and it is settled in favour of
    worker [w]. *)
Definition settled (c : vom_recovery_context) (id : Z) (w : string) : Prop :=
  exists i l, find_idx (fun l => rl_lease_id l =? id) (rec_leases c) = Some i /\
    rec_leases c !! i = Some l /\ rl_assigned_worker_id l = w /\ rl_state l = LEASE_RECONCILED.

Lemma settled_step c d id w : rec_ok c -> rec_step c d -> settled c id w -> settled d id w.
Proof.
  intros I H (i & l & Hf & Hl & Hw & Hs). destruct H as [c wid now|c now t|c lid k wk e p].
  - exists i, l. unfold vom_recovery_register_worker_heartbeat. destruct wid; [|done].
    destruct (find_idx _ (rec_workers c)); [done|]. by destr_if.
  - rewrite sweep_eq_rec by done. exists i, l. cbn [rec_leases]. split; [|split; [|done]].
    + rewrite <- Hf. symmetry. apply (find_idx_Forall2_fmap (sweep_lease now t (rec_workers c))).
      intros x. unfold sweep_lease. by destr_if.
    + rewrite list_lookup_fmap, Hl. cbn. unfold sweep_lease. by rewrite Hs.
  - exists i, l. unfold vom_recovery_inject_test_lease. destr_if; [|done]. cbn.
    split; [by apply find_idx_app_l|]. split; [by apply lookup_app_l_Some|done].
Qed.

Lemma settled_rejects c id w w' h : settled c id w -> vom_recovery_process_incoming_result id w' h c = (false, c).
Proof.
  intros (i & l & Hf & Hl & _ & Hs). unfold vom_recovery_process_incoming_result.
  destruct w', h; try done. by rewrite Hf, Hl, Hs.
Qed.

Lemma result_settles id w h c d :
  vom_recovery_process_incoming_result id (Some w) h c = (true, d) -> settled d id w.
Proof.
  unfold vom_recovery_process_incoming_result. destruct h; [|done].
  destruct (find_idx _ _) as [i|] eqn:E; [|done]. destruct (rec_leases c !! i) as [l|] eqn:L; [|done].
  destr_if; [done|]. destr_if; [done|]. intros [= <-]. bprop.
  exists i, (rl_set_state LEASE_RECONCILED l). cbn. split_and!; try done.
  - find_idx_inv E. simplify_eq. eapply find_idx_first.
    + apply list_lookup_insert_eq. by apply lookup_lt_Some in L.
    + done.
    + intros j y Hj Hy. rewrite list_lookup_insert_ne in Hy by lia. eauto.
  - apply list_lookup_insert_eq. by apply lookup_lt_Some in L.
Qed.

Lemma result_keeps_settled id w h c id' w' :
  settled c id w -> settled (snd (vom_recovery_process_incoming_result id' w' h c)) id w.
Proof.
  intros S. destruct (decide (id' = id)) as [->|Hne]; [by rewrite (settled_rejects _ _ _ _ _ S)|].
  destruct S as (i & l & Hf & Hl & Hw & Hs). unfold vom_recovery_process_incoming_result.
  destruct w', h; try by exists i, l. destruct (find_idx (fun l => rl_lease_id l =? id') (rec_leases c)) as [j|] eqn:E; [|by exists i, l].
  destruct (rec_leases c !! j) as [m|] eqn:M; [|by exists i, l].
  destr_if; [by exists i, l|]. destr_if; [by exists i, l|]. cbn.
  find_idx_inv E. find_idx_inv Hf. bprop. simplify_eq.
  assert (j <> i) as Hji by congruence. exists i, l. cbn. split; [|split; [by rewrite list_lookup_insert_ne|done]].
  eapply find_idx_first; [by rewrite list_lookup_insert_ne|by apply Z.eqb_refl|].
  intros k y Hk Hy. rewrite list_lookup_insert in Hy. destruct (decide _) as [[-> _]|]; [|by eapply Hlt0].
  simplify_eq. cbn. by apply Z.eqb_neq.
Qed.

Lemma history_commits c acc : rec_history c acc -> NoDup acc.*1 /\ forall id w, (id, w) ∈ acc -> settled c id w.
Proof.
  intros R. induction R as [c H|c d acc R [N S] Hd|c acc id w h R [N S]].
  - split; [apply NoDup_nil_2|]. intros id w Hin. by apply elem_of_nil in Hin.
  - split; [done|]. intros id w Hin. eapply settled_step; eauto using rec_history_ok.
  - destruct (vom_recovery_process_incoming_result id (Some w) h c) as [ok d] eqn:E. cbn.
    assert (forall id' w', (id', w') ∈ acc -> settled d id' w') as S'.
    { intros id' w' Hin. replace d with (snd (vom_recovery_process_incoming_result id (Some w) h c)) by (by rewrite E).
      by apply result_keeps_settled, S. }
    destruct ok; [|done]. split.
    + rewrite fmap_app. apply NoDup_snoc; [done|]. cbn. intros ([id' w'] & Hid & Hin)%list_elem_of_fmap.
      cbn in Hid. subst. rewrite (settled_rejects _ _ _ _ _ (S _ _ Hin)) in E. done.
    + intros id' w' [Hin|Hin%list_elem_of_singleton]%elem_of_app; [by apply S'|].
      injection Hin as -> ->. by eapply result_settles.
Qed.

(** Results are committed at most once: over any history of heartbeats,
    sweeps, new leases and incoming results, no lease id has two results
    accepted, each accepted result came from the worker the lease is assigned
    to, and its lease is settled from then on, so that neither a sweep nor a
    late or duplicate result touches it. *)
Theorem recovery_commits_once (c : vom_recovery_context) (acc : list (Z * string)) :
  rec_history c acc ->
  NoDup acc.*1 /\
  forall id w, (id, w) ∈ acc ->
    (exists l, l ∈ rec_leases c /\ rl_lease_id l = id /\ rl_assigned_worker_id l = w /\
               rl_state l = LEASE_RECONCILED) /\
    forall w' h, vom_recovery_process_incoming_result id w' h c = (false, c).
Proof.
  intros R.
  destruct (history_commits c acc R) as [N S].
  split; [done|]. intros id w Hin. pose proof (S id w Hin) as Hs. split; [|intros; by eapply settled_rejects].
  destruct Hs as (i & l & Hf & Hl & Hw & Hst). exists l. find_idx_inv Hf. bprop. simplify_eq.
  split; [by eapply list_elem_of_lookup_2|done].
Qed.

Lemma recovery_commits_once_witness :
  let r := vom_recovery_process_incoming_result 7001 (Some "worker-tablet-01") (Some "h") demo_rec2 in
  fst r = true /\ vom_recovery_process_incoming_result 7001 (Some "worker-tablet-01") (Some "h") (snd r) = (false, snd r).
Proof.
  intros r. split; [vm_compute; reflexivity|].
  pose proof (rh_result demo_rec2 [] 7001 "worker-tablet-01" (Some "h") demo_rec2_history) as H.
  refine (proj2 (proj2 (recovery_commits_once _ _ H) 7001 "worker-tablet-01" _) _ _).
  vm_compute. left.
Defined.

(** The engine retries a lease at most once, and its job counter never
    shows work: in every state each lease's retry count is 0 or 1 and is 0
    while the lease is active, no lease is UNCERTAIN between operations, the
    tables fit their arrays, and [active_recovery_jobs] is 0. *)
Theorem recovery_states_ok (c : vom_recovery_context) (acc : list (Z * string)) :
  rec_history c acc ->
  (length (rec_workers c) <= REC_MAX_WORKERS)%nat /\ (length (rec_leases c) <= REC_MAX_LEASES)%nat /\
  rec_active_recovery_jobs c = 0 /\
  forall l, l ∈ rec_leases c ->
    rl_state l <> LEASE_UNCERTAIN /\ 0 <= rl_retry_count l <= 1 /\
    (rl_state l = LEASE_ACTIVE -> rl_retry_count l = 0).
Proof.
  intros R. destruct (rec_history_ok c acc R) as [H1 H2 H3 H4]. split_and!; auto.
  intros l Hl. rewrite Forall_forall in H3. by apply H3.
Qed.

Lemma recovery_states_ok_witness :
  rec_active_recovery_jobs (vom_recovery_sweep_timeouts 25000 5000 demo_rec2) = 0.
Proof.
  apply (recovery_states_ok (vom_recovery_sweep_timeouts 25000 5000 demo_rec2) []).
  eapply rh_step; [apply demo_rec2_history|apply rec_sweep_step].
Defined.
