(* ===== verification/Envelope.v ===== *)
(** The wire envelope shared by [master/src/router.c],
    [worker/src/transport.c] and the two [main.c] files: a C structure of
    2 + 2 + 4 + 8 + 8 bytes without padding, copied to and from the wire with
    [memcpy] on little-endian machines; and the messaging library's sockets as
    an interface. *)
From S2P Require Import Prelude.

Record envelope := {
  env_protocol_version : Z;
  env_message_code : Z;
  env_payload_length : Z;
  env_sequence_id : Z;
  env_timestamp_ms : Z
}.

(** [sizeof (envelope)] *)
Definition ENVELOPE_SIZE : nat := 24.

(** * Little-endian integers *)

Fixpoint le_bytes (n : nat) (z : Z) : list Z :=
  match n with
  | O => []
  | S n => z mod 256 :: le_bytes n (z / 256)
  end.

Fixpoint le_value (bs : list Z) : Z :=
  match bs with
  | [] => 0
  | b :: bs => b + 256 * le_value bs
  end.

Definition encode_envelope (e : envelope) : list Z :=
  le_bytes 2 (env_protocol_version e) ++ le_bytes 2 (env_message_code e) ++
  le_bytes 4 (env_payload_length e) ++ le_bytes 8 (env_sequence_id e) ++
  le_bytes 8 (env_timestamp_ms e).

(** Reads the first 24 bytes of a buffer. *)
Definition decode_envelope (bs : list Z) : envelope :=
  {| env_protocol_version := le_value (take 2 bs);
     env_message_code := le_value (take 2 (drop 2 bs));
     env_payload_length := le_value (take 4 (drop 4 bs));
     env_sequence_id := le_value (take 8 (drop 8 bs));
     env_timestamp_ms := le_value (take 8 (drop 16 bs)) |}.

Definition envelope_ok (e : envelope) : Prop :=
  in_u16 (env_protocol_version e) /\ in_u16 (env_message_code e) /\ in_u32 (env_payload_length e) /\
  in_u64 (env_sequence_id e) /\ in_u64 (env_timestamp_ms e).

(** * Sockets

    What the sources use of the messaging library.  [zmq_recv] returns the size
    of the frame (which may exceed the buffer) or a negative number and stores
    at most [len] bytes.  With the flag DONTWAIT it returns at once, -1 if no
    frame is there; without, it waits for the next frame, and [None] is a wait
    that does not end because none arrives.  [zmq_getsockopt (RCVMORE)] tells
    whether the message has more frames ([None] is a failure); [zmq_send]
    returns a negative number on failure. *)
Class Zmq (S : Type) := {
  zmq_recv_dontwait : S -> Z -> Z * list Z * S;
  zmq_recv_wait : S -> Z -> option (Z * list Z * S);
  zmq_rcvmore : S -> option bool;
  zmq_send : S -> list Z -> bool -> Z * S
}.

(** A receive without DONTWAIT, [interrupted] telling whether a signal arrives
    while it waits: the handlers are installed without [SA_RESTART], and the call
    then fails with [EINTR]. *)
Definition zmq_recv_blocking {S} `{Zmq S} (interrupted : bool) (s : S) (len : Z) : option (Z * list Z * S) :=
  if interrupted then Some (-1, [], s) else zmq_recv_wait s len.

(** What a receive of at most [len] bytes may give. *)
Definition recv_sound {S} (len : Z) (r : Z * list Z * S) : Prop :=
  let '(rc, bs, _) := r in
  (rc < 0 \/ exists frame, rc = Z.of_nat (length frame) /\ bs = take (Z.to_nat len) frame) /\
  rc < 2 ^ 31 /\ Forall in_u8 bs.

(** The documented behaviour of [zmq_recv]: its result is an [int], and a message
    is delivered with all its frames, so while there are more of them a receive
    does not wait. *)
Class ZmqLaws (S : Type) `{Zmq S} := {
  zmq_dontwait_law : forall s len, recv_sound len (zmq_recv_dontwait s len);
  zmq_wait_law : forall s len r, zmq_recv_wait s len = Some r -> recv_sound len r;
  zmq_more_law : forall s len, zmq_rcvmore s = Some true -> zmq_recv_wait s len <> None
}.

(** ** A concrete socket: incoming messages as lists of frames, in the order
    in which they arrive, and outgoing frames with their more flag.  A receive
    that waits gets the next frame, whenever that arrives, and waits for ever
    behind the last one; sending never fills the queue. *)
Record wire := {
  w_in : list (list (list Z));
  w_more : bool;
  w_out : list (list Z * bool);
  w_up : bool
}.

(** The next frame; [None] if there is none. *)
Definition wire_next (s : wire) (len : Z) : option (Z * list Z * wire) :=
  match w_in s with
  | (f :: fs) :: ms =>
      if Z.of_nat (length f) <? 2 ^ 31 then
      Some (Z.of_nat (length f), take (Z.to_nat len) (u8 <$> f),
       {| w_in := match fs with [] => ms | _ => fs :: ms end;
          w_more := match fs with [] => false | _ => true end;
          w_out := w_out s; w_up := w_up s |})
      else Some (-1, [], s)
  | _ => None
  end.

Definition wire_recv_dontwait (s : wire) (len : Z) : Z * list Z * wire := default (-1, [], s) (wire_next s len).

Definition wire_more (s : wire) : bool := w_more s && match w_in s with (_ :: _) :: _ => true | _ => false end.

Definition wire_send (s : wire) (bs : list Z) (more : bool) : Z * wire :=
  if w_up s then
    (Z.of_nat (length bs),
     {| w_in := w_in s; w_more := w_more s; w_out := w_out s ++ [(bs, more)]; w_up := w_up s |})
  else (-1, s).

#[export] Instance wire_zmq : Zmq wire :=
  { zmq_recv_dontwait := wire_recv_dontwait; zmq_recv_wait := wire_next;
    zmq_rcvmore := fun s => Some (wire_more s); zmq_send := wire_send }.

Lemma wire_next_sound s len r : wire_next s len = Some r -> recv_sound len r.
Proof.
  unfold wire_next. destruct (w_in s) as [|[|f fs] ms]; [done..|]. destr_if; intros [= <-]; unfold recv_sound.
  - bprop. split; [right|].
    + exists (u8 <$> f). by rewrite length_fmap.
    + split; [lia|]. apply Forall_take, Forall_fmap, Forall_true. intros b. apply u8_range.
  - split; [left; lia|]. split; [lia|constructor].
Qed.

#[export] Instance wire_laws : ZmqLaws wire.
Proof.
  constructor; cbn; intros s len.
  - unfold wire_recv_dontwait. destruct (wire_next s len) as [r|] eqn:E; cbn; [by eapply wire_next_sound|].
    split; [left; lia|]. split; [lia|constructor].
  - apply wire_next_sound.
  - unfold wire_more, wire_next. destruct (w_in s) as [|[|f fs] ms]; intros [= E]; rewrite ?andb_false_r in E; try done.
    by destr_if.
Qed.

(** * Round trips *)

Lemma le_bytes_length n z : length (le_bytes n z) = n.
Proof. revert z. induction n as [|n IH]; intros z; cbn; [done|]. by rewrite IH. Qed.

Lemma le_bytes_range n z : Forall in_u8 (le_bytes n z).
Proof.
  revert z. induction n as [|n IH]; intros z; cbn; [done|]. constructor; [|done].
  apply Z.mod_pos_bound. lia.
Qed.

Lemma le_roundtrip n z : 0 <= z < 256 ^ Z.of_nat n -> le_value (le_bytes n z) = z.
Proof.
  revert z. induction n as [|n IH]; intros z H; cbn [le_bytes le_value].
  - cbn in H. lia.
  - rewrite IH; [pose proof (Z.div_mod z 256); lia|].
    rewrite Nat2Z.inj_succ, Z.pow_succ_r in H by lia. split.
    + apply Z.div_pos; lia.
    + apply Z.div_lt_upper_bound; lia.
Qed.

Lemma le_value_range bs : Forall in_u8 bs -> 0 <= le_value bs < 256 ^ Z.of_nat (length bs).
Proof.
  induction 1 as [|b bs Hb _ IH]; cbn [le_value length]; [cbn; lia|].
  rewrite Nat2Z.inj_succ, Z.pow_succ_r by lia. unfold in_u8 in Hb. lia.
Qed.

Lemma le_bytes_value bs : Forall in_u8 bs -> le_bytes (length bs) (le_value bs) = bs.
Proof.
  induction 1 as [|b bs Hb _ IH]; cbn [le_value length le_bytes]; [done|]. unfold in_u8 in Hb.
  assert ((b + 256 * le_value bs) mod 256 = b) as ->
    by (rewrite (Z.mul_comm 256), Z.mod_add, Z.mod_small by lia; done).
  assert ((b + 256 * le_value bs) / 256 = le_value bs) as ->
    by (rewrite (Z.mul_comm 256), Z.div_add, Z.div_small by lia; done).
  by rewrite IH.
Qed.

Lemma encode_length e : length (encode_envelope e) = ENVELOPE_SIZE.
Proof. unfold encode_envelope. by rewrite !length_app, !le_bytes_length. Qed.

Lemma take_le n z r : take n (le_bytes n z ++ r) = le_bytes n z.
Proof. apply take_app_length'. by rewrite le_bytes_length. Qed.
Lemma drop_le n z r : drop n (le_bytes n z ++ r) = r.
Proof. apply drop_app_length'. by rewrite le_bytes_length. Qed.

(** Decoding the front of a buffer that starts with an encoded envelope. *)
Lemma decode_encode e rest : envelope_ok e -> decode_envelope (encode_envelope e ++ rest) = e.
Proof.
  intros (H1 & H2 & H3 & H4 & H5). unfold encode_envelope, decode_envelope. rewrite <- !app_assoc.
  set (B := le_bytes 2 _ ++ _).
  assert (drop 2 B = _) as D2 by apply drop_le.
  assert (drop 4 B = _) as D4 by (change 4%nat with (2 + 2)%nat; rewrite <- drop_drop, D2; apply drop_le).
  assert (drop 8 B = _) as D8 by (change 8%nat with (4 + 4)%nat; rewrite <- drop_drop, D4; apply drop_le).
  assert (drop 16 B = _) as D16 by (change 16%nat with (8 + 8)%nat; rewrite <- drop_drop, D8; apply drop_le).
  rewrite D2, D4, D8, D16. unfold B. rewrite !take_le, !le_roundtrip by done. by destruct e.
Qed.

(** C25: The envelope codec is a bijection between in-range envelopes and
    24-byte buffers: decoding what was encoded, whatever payload follows,
    gives the envelope back, and encoding what was decoded from 24 bytes gives
    the bytes back. *)
Theorem envelope_roundtrip (e : envelope) (payload bs : list Z) :
  envelope_ok e -> length bs = ENVELOPE_SIZE -> Forall in_u8 bs ->
  decode_envelope (encode_envelope e ++ payload) = e /\
  length (encode_envelope e) = ENVELOPE_SIZE /\ Forall in_u8 (encode_envelope e) /\
  envelope_ok (decode_envelope bs) /\ encode_envelope (decode_envelope bs) = bs.
Proof.
  intros He Hl Hb. split; [by apply decode_encode|]. split; [apply encode_length|]. split.
  { unfold encode_envelope. rewrite !Forall_app. split_and!; apply le_bytes_range. }
  unfold ENVELOPE_SIZE in Hl.
  assert (forall n i, (i + n <= 24)%nat ->
    Forall in_u8 (take n (drop i bs)) /\ length (take n (drop i bs)) = n) as Hs.
  { intros n i Hi. split; [by apply Forall_take, Forall_drop|]. rewrite length_take, length_drop. lia. }
  assert (forall n i, (i + n <= 24)%nat -> 0 <= le_value (take n (drop i bs)) < 256 ^ Z.of_nat n) as Hr.
  { intros n i Hi. destruct (Hs n i Hi) as [H1 H2]. pose proof (le_value_range _ H1) as R. by rewrite H2 in R. }
  assert (forall n i, (i + n <= 24)%nat -> le_bytes n (le_value (take n (drop i bs))) = take n (drop i bs)) as Hv.
  { intros n i Hi. destruct (Hs n i Hi) as [H1 H2]. pose proof (le_bytes_value _ H1) as R. by rewrite H2 in R. }
  split.
  - unfold envelope_ok, decode_envelope. cbn [env_protocol_version env_message_code env_payload_length
      env_sequence_id env_timestamp_ms]. rewrite <- (drop_0 bs) at 1.
    split_and!; [apply (Hr 2%nat 0%nat)|apply (Hr 2%nat 2%nat)|apply (Hr 4%nat 4%nat)|apply (Hr 8%nat 8%nat)|apply (Hr 8%nat 16%nat)]; lia.
  - unfold encode_envelope, decode_envelope. cbn [env_protocol_version env_message_code env_payload_length
      env_sequence_id env_timestamp_ms]. rewrite <- (drop_0 bs) at 1. rewrite !Hv by lia.
    rewrite drop_0. rewrite (take_ge (drop 16 bs)) by (rewrite length_drop; lia).
    assert (forall n i k, (i + n = k)%nat -> take n (drop i bs) ++ drop k bs = drop i bs) as Hd
      by (intros n i k <-; rewrite <- drop_drop; apply take_drop).
    rewrite (Hd 8 8 16)%nat, (Hd 4 4 8)%nat, (Hd 2 2 4)%nat by done. apply take_drop.
Qed.

Lemma envelope_roundtrip_witness :
  decode_envelope (encode_envelope
    {| env_protocol_version := 1; env_message_code := 6; env_payload_length := 2;
       env_sequence_id := 300; env_timestamp_ms := 1700000000000 |} ++ [7; 8]) =
    {| env_protocol_version := 1; env_message_code := 6; env_payload_length := 2;
       env_sequence_id := 300; env_timestamp_ms := 1700000000000 |}.
Proof.
  refine (proj1 (envelope_roundtrip _ [7; 8] (replicate 24 0) _ eq_refl _)).
  - unfold envelope_ok, in_u16, in_u32, in_u64. cbn. lia.
  - cbn. unfold in_u8. repeat constructor; lia.
Defined.
