(* ===== verification/Layout.v ===== *)
(** Memory layout of C data: the types the sources declare, with the sizes,
    alignments and offsets a compiler for a 64-bit little-endian system gives
    them, and the bytes of a value.  Every C file of the program declares the
    structures it shares with other files anew, and writes some of them to
    files and sockets as they lie in memory; [Declarations] states those
    declarations and [AbiProps] what follows for the units that share them. *)
From S2P Require Import Prelude Envelope.

(** * Types *)

Inductive scalar :=
| Char | Bool | UInt8 | UInt16 | UInt32 | UInt64 | Int32 | Enum | Float | Double | Pointer.

Definition scalar_size (s : scalar) : nat :=
  match s with
  | Char | Bool | UInt8 => 1
  | UInt16 => 2
  | UInt32 | Int32 | Enum | Float => 4
  | UInt64 | Double | Pointer => 8
  end.

Definition is_signed (s : scalar) : bool := match s with Int32 => true | _ => false end.

(** [Opaque] is a type of a system header of which only size and alignment
    matter ([pthread_mutex_t]). *)
Inductive ctype :=
| Scalar (s : scalar)
| Array (n : nat) (t : ctype)
| Struct (fs : list (string * ctype))
| Union (fs : list (string * ctype))
| Opaque (size align : nat).

(** [char f[n]] *)
Abbreviation char_buf n := (Array n (Scalar Char)).

Definition round_up (n a : nat) : nat := (n + (a - 1)) / a * a.

Fixpoint alignof (t : ctype) : nat :=
  match t with
  | Scalar s => scalar_size s
  | Array _ t => alignof t
  | Struct fs | Union fs => foldr (fun f a => alignof f.2 `max` a) 1 fs
  | Opaque _ a => a
  end%nat.

(** A member begins at the next multiple of its alignment, and the whole is
    filled up to a multiple of its own. *)
Fixpoint sizeof (t : ctype) : nat :=
  match t with
  | Scalar s => scalar_size s
  | Array n t => n * sizeof t
  | Struct fs => round_up (foldl (fun off f => round_up off (alignof f.2) + sizeof f.2) 0 fs) (alignof t)
  | Union fs => round_up (foldr (fun f n => sizeof f.2 `max` n) 0 fs) (alignof t)
  | Opaque n _ => n
  end%nat.

(** The members with their offsets, from [off] on. *)
Fixpoint field_offsets (off : nat) (fs : list (string * ctype)) : list (string * (nat * ctype)) :=
  match fs with
  | [] => []
  | (f, t) :: fs =>
      let o := round_up off (alignof t) in
      (f, (o, t)) :: field_offsets (o + sizeof t) fs
  end.

(** [offsetof (t, f)] *)
Definition offsetof (t : ctype) (f : string) : option nat :=
  match t with
  | Struct fs => (fun x => x.2.1) <$> List.find (fun x => String.eqb x.1 f) (field_offsets 0 fs)
  | Union fs => (fun _ => O) <$> List.find (fun x => String.eqb x.1 f) fs
  | _ => None
  end.

(** ** Leaves *)

Inductive sel := Fld (f : string) | Idx (i : nat).

#[export] Instance scalar_eq_dec : EqDecision scalar.
Proof. solve_decision. Defined.
#[export] Instance sel_eq_dec : EqDecision sel.
Proof. solve_decision. Defined.

Definition leaf : Type := list sel * nat * scalar.

Definition below (x : sel) (o : nat) (l : list leaf) : list leaf :=
  (fun '(p, k, s) => (x :: p, (o + k)%nat, s)) <$> l.

(** The scalars in a type, each with the path that selects it and its offset. *)
Fixpoint leaves (t : ctype) : list leaf :=
  match t with
  | Scalar s => [([], O, s)]
  | Array n t => concat ((fun i => below (Idx i) (i * sizeof t) (leaves t)) <$> seq 0 n)
  | Struct fs =>
      (fix go off fs :=
         match fs with
         | [] => []
         | f :: fs =>
             let o := round_up off (alignof f.2) in
             below (Fld f.1) o (leaves f.2) ++ go (o + sizeof f.2)%nat fs
         end) O fs
  | Union fs => concat ((fun f => below (Fld f.1) 0 (leaves f.2)) <$> fs)
  | Opaque _ _ => []
  end.

(** How a scalar is represented: two members with equal representation at equal
    offsets are the same member to two compilers. *)
Definition repr (s : scalar) : nat * bool := (scalar_size s, is_signed s).

Definition leaf_repr (l : leaf) : list sel * nat * (nat * bool) := (l.1, repr l.2).

(** Two declarations have the same layout: same size and alignment, same members
    by name, at the same offsets and represented alike. *)
Definition same_layout (t1 t2 : ctype) : Prop :=
  sizeof t1 = sizeof t2 /\ alignof t1 = alignof t2 /\ leaf_repr <$> leaves t1 = leaf_repr <$> leaves t2.

(** A check that compares the declarations member by member. *)
Fixpoint agree (t1 t2 : ctype) : bool :=
  match t1, t2 with
  | Scalar s1, Scalar s2 => bool_decide (repr s1 = repr s2)
  | Array n1 t1, Array n2 t2 => (n1 =? n2)%nat && agree t1 t2
  | Struct fs1, Struct fs2 | Union fs1, Union fs2 =>
      (fix go fs1 fs2 :=
         match fs1, fs2 with
         | [], [] => true
         | f1 :: fs1, f2 :: fs2 => String.eqb f1.1 f2.1 && agree f1.2 f2.2 && go fs1 fs2
         | _, _ => false
         end) fs1 fs2
  | Opaque n1 a1, Opaque n2 a2 => (n1 =? n2)%nat && (a1 =? a2)%nat
  | _, _ => false
  end.

(** * Values *)

Inductive cval :=
| VInt (z : Z)
| VSeq (vs : list cval)
| VAlt (i : nat) (v : cval)
| VBytes (bs : list Z).

Definition fill (n : nat) (bs : list Z) : list Z := bs ++ replicate (n - length bs) 0.

(** The bytes of a value, with zero padding (the structures are cleared before
    they are filled). *)
Fixpoint store (t : ctype) (v : cval) : list Z :=
  match t, v with
  | Scalar s, VInt z => le_bytes (scalar_size s) z
  | Array n t, VSeq vs => concat (store t <$> vs)
  | Struct fs, VSeq vs =>
      fill (sizeof t)
        ((fix go off fs vs :=
            match fs, vs with
            | f :: fs, v :: vs =>
                let o := round_up off (alignof f.2) in
                replicate (o - off) 0 ++ store f.2 v ++ go (o + sizeof f.2)%nat fs vs
            | _, _ => []
            end) O fs vs)
  | Union fs, VAlt i v =>
      fill (sizeof t)
        ((fix go fs i :=
            match fs, i with
            | f :: _, O => store f.2 v
            | _ :: fs, S i => go fs i
            | [], _ => []
            end) fs i)
  | Opaque _ _, VBytes bs => bs
  | _, _ => []
  end.

Definition scalar_load (s : scalar) (bs : list Z) : Z :=
  if is_signed s then s32 (le_value bs) else le_value bs.

(** The value in the bytes; a union is left as bytes, since nothing in it tells
    which member is meant. *)
Fixpoint load (t : ctype) (bs : list Z) : cval :=
  match t with
  | Scalar s => VInt (scalar_load s (take (scalar_size s) bs))
  | Array n t => VSeq ((fun i => load t (drop (i * sizeof t) bs)) <$> seq 0 n)
  | Struct fs =>
      VSeq ((fix go off fs :=
               match fs with
               | [] => []
               | f :: fs =>
                   let o := round_up off (alignof f.2) in
                   load f.2 (drop o bs) :: go (o + sizeof f.2)%nat fs
               end) O fs)
  | Union _ => VBytes (take (sizeof t) bs)
  | Opaque n _ => VBytes (take n bs)
  end.

(** What a scalar can hold. *)
Definition scalar_ok (s : scalar) (z : Z) : Prop :=
  if is_signed s then in_s32 z else 0 <= z < 256 ^ Z.of_nat (scalar_size s).

Fixpoint has_type (t : ctype) (v : cval) : Prop :=
  match t, v with
  | Scalar s, VInt z => scalar_ok s z
  | Array n t, VSeq vs => length vs = n /\ Forall (has_type t) vs
  | Struct fs, VSeq vs =>
      (fix go fs vs :=
         match fs, vs with
         | [], [] => True
         | f :: fs, v :: vs => has_type f.2 v /\ go fs vs
         | _, _ => False
         end) fs vs
  | Union fs, VAlt i v =>
      (fix go fs i :=
         match fs, i with
         | f :: _, O => has_type f.2 v
         | _ :: fs, S i => go fs i
         | [], _ => False
         end) fs i
  | Opaque n _, VBytes bs => length bs = n
  | _, _ => False
  end.

(** The scalar a path selects in a value; a member of a union is there only
    while it is the one that was stored. *)
Fixpoint vget (t : ctype) (v : cval) (p : list sel) : option Z :=
  match t, v, p with
  | Scalar _, VInt z, [] => Some z
  | Array _ t, VSeq vs, Idx i :: p => vs !! i ≫= fun v => vget t v p
  | Struct fs, VSeq vs, Fld f :: p =>
      (fix go fs vs :=
         match fs, vs with
         | g :: fs, v :: vs => if String.eqb g.1 f then vget g.2 v p else go fs vs
         | _, _ => None
         end) fs vs
  | Union fs, VAlt i v, Fld f :: p =>
      (fix go fs i :=
         match fs, i with
         | g :: _, O => if String.eqb g.1 f then vget g.2 v p else None
         | _ :: fs, S i => go fs i
         | [], _ => None
         end) fs i
  | _, _, _ => None
  end.

(** Members have different names, and the alignments of system types are powers
    of two that divide their sizes. *)
Fixpoint wf (t : ctype) : bool :=
  match t with
  | Scalar _ => true
  | Array _ t => wf t
  | Struct fs | Union fs => bool_decide (NoDup fs.*1) && forallb (fun f => wf f.2) fs
  | Opaque n a => (n mod a =? 0)%nat && existsb (Nat.eqb a) [1; 2; 4; 8; 16]%nat
  end.

(** * Properties *)

(** ** The loops over members *)

Fixpoint leaves_fields (off : nat) (fs : list (string * ctype)) : list leaf :=
  match fs with
  | [] => []
  | f :: fs =>
      let o := round_up off (alignof f.2) in
      below (Fld f.1) o (leaves f.2) ++ leaves_fields (o + sizeof f.2) fs
  end.

Fixpoint store_fields (off : nat) (fs : list (string * ctype)) (vs : list cval) : list Z :=
  match fs, vs with
  | f :: fs, v :: vs =>
      let o := round_up off (alignof f.2) in
      replicate (o - off) 0 ++ store f.2 v ++ store_fields (o + sizeof f.2) fs vs
  | _, _ => []
  end.

Fixpoint load_fields (off : nat) (fs : list (string * ctype)) (bs : list Z) : list cval :=
  match fs with
  | [] => []
  | f :: fs =>
      let o := round_up off (alignof f.2) in
      load f.2 (drop o bs) :: load_fields (o + sizeof f.2) fs bs
  end.

Fixpoint fields_typed (fs : list (string * ctype)) (vs : list cval) : Prop :=
  match fs, vs with
  | [], [] => True
  | f :: fs, v :: vs => has_type f.2 v /\ fields_typed fs vs
  | _, _ => False
  end.

Fixpoint vget_fields (fs : list (string * ctype)) (vs : list cval) (f : string) (p : list sel) : option Z :=
  match fs, vs with
  | g :: fs, v :: vs => if String.eqb g.1 f then vget g.2 v p else vget_fields fs vs f p
  | _, _ => None
  end.

Definition end_offset (off : nat) (fs : list (string * ctype)) : nat :=
  foldl (fun off f => round_up off (alignof f.2) + sizeof f.2)%nat off fs.

Lemma leaves_struct fs : leaves (Struct fs) = leaves_fields 0 fs.
Proof. reflexivity. Qed.
Lemma store_struct fs vs : store (Struct fs) (VSeq vs) = fill (sizeof (Struct fs)) (store_fields 0 fs vs).
Proof. reflexivity. Qed.
Lemma load_struct fs bs : load (Struct fs) bs = VSeq (load_fields 0 fs bs).
Proof. cbn [load]. f_equal. generalize 0%nat. induction fs as [|f fs IH]; intros n; cbn; [done|]. by rewrite IH. Qed.
Lemma typed_struct fs vs : has_type (Struct fs) (VSeq vs) = fields_typed fs vs.
Proof. reflexivity. Qed.
Lemma vget_struct fs vs f p : vget (Struct fs) (VSeq vs) (Fld f :: p) = vget_fields fs vs f p.
Proof. cbn [vget]. revert vs. induction fs as [|g fs IH]; intros [|v vs]; cbn; try done. by rewrite IH. Qed.
Lemma sizeof_struct fs : sizeof (Struct fs) = round_up (end_offset 0 fs) (alignof (Struct fs)).
Proof. reflexivity. Qed.

(** A union's value by its member. *)
Lemma union_member fs i v : has_type (Union fs) (VAlt i v) -> exists f, fs !! i = Some f /\ has_type f.2 v /\
  store (Union fs) (VAlt i v) = fill (sizeof (Union fs)) (store f.2 v) /\
  forall g p, vget (Union fs) (VAlt i v) (Fld g :: p) = if String.eqb f.1 g then vget f.2 v p else None.
Proof.
  intros H. cbn [store vget] in *. generalize (sizeof (Union fs)). intros n. revert i H.
  induction fs as [|f fs IH]; intros [|i] H; try done; [by eexists|].
  destruct (IH i H) as (g & Hg & Ht & Hs & Hv). by exists g.
Qed.

Lemma ctype_induction (P : ctype -> Prop) :
  (forall s, P (Scalar s)) -> (forall n t, P t -> P (Array n t)) ->
  (forall fs, Forall (fun f => P f.2) fs -> P (Struct fs)) ->
  (forall fs, Forall (fun f => P f.2) fs -> P (Union fs)) ->
  (forall n a, P (Opaque n a)) -> forall t, P t.
Proof.
  intros Hs Ha Hst Hu Ho. fix IH 1. intros [s|n t|fs|fs|n a].
  - apply Hs.
  - apply Ha, IH.
  - apply Hst. induction fs as [|f fs L]; constructor; [apply IH|apply L].
  - apply Hu. induction fs as [|f fs L]; constructor; [apply IH|apply L].
  - apply Ho.
Qed.

Lemma wf_fields (fs : list (string * ctype)) : bool_decide (NoDup fs.*1) && forallb (fun f => wf f.2) fs = true ->
  NoDup fs.*1 /\ Forall (fun f => wf f.2 = true) fs.
Proof.
  intros H. bprop. split; [by eapply bool_decide_eq_true|]. rewrite forallb_forall in *.
  apply Forall_forall. intros f Hf. by apply H0, list_elem_of_In.
Qed.

(** ** Alignment *)

Definition max_align (fs : list (string * ctype)) : nat := foldr (fun f a => alignof f.2 `max` a)%nat 1%nat fs.


Definition pow2 (a : nat) : Prop := exists k, a = (2 ^ k)%nat.

Lemma pow2_pos a : pow2 a -> (0 < a)%nat.
Proof. intros [k ->]. apply Nat.neq_0_lt_0, Nat.pow_nonzero. lia. Qed.

Lemma pow2_divide a b : pow2 a -> pow2 b -> (a <= b)%nat -> Nat.divide a b.
Proof.
  intros [k ->] [l ->] H. apply Nat.pow_le_mono_r_iff in H; [|lia].
  exists (2 ^ (l - k))%nat. rewrite <- Nat.pow_add_r. f_equal. lia.
Qed.

Lemma round_up_spec n a : (0 < a)%nat -> (n <= round_up n a < n + a)%nat /\ Nat.divide a (round_up n a).
Proof.
  intros H. unfold round_up. split; [|by eexists].
  pose proof (Nat.div_mod (n + (a - 1)) a ltac:(lia)). pose proof (Nat.mod_upper_bound (n + (a - 1)) a ltac:(lia)). nia.
Qed.

Lemma alignof_pow2 t : wf t = true -> pow2 (alignof t).
Proof.
  induction t as [s|n t IH|fs IH|fs IH|n a] using ctype_induction; intros W; cbn [alignof wf] in *.
  - destruct s; [exists 0%nat|exists 0%nat|exists 0%nat|exists 1%nat|exists 2%nat|exists 3%nat|exists 2%nat
                |exists 2%nat|exists 2%nat|exists 3%nat|exists 3%nat]; reflexivity.
  - auto.
  - apply wf_fields in W as [_ W]. change (pow2 (max_align fs)). induction IH as [|f fs H _ IHf]; [by exists 0%nat|]. cinv W.
    unfold max_align in *. cbn [foldr]. destruct (Nat.max_spec (alignof f.2) (foldr (fun (f : string * ctype) a => alignof f.2 `max` a) 1 fs))%nat as [[_ ->]|[_ ->]]; auto.
  - apply wf_fields in W as [_ W]. change (pow2 (max_align fs)). induction IH as [|f fs H _ IHf]; [by exists 0%nat|]. cinv W.
    unfold max_align in *. cbn [foldr]. destruct (Nat.max_spec (alignof f.2) (foldr (fun (f : string * ctype) a => alignof f.2 `max` a) 1 fs))%nat as [[_ ->]|[_ ->]]; auto.
  - bprop. cbn [existsb] in *.
    repeat match goal with H : _ || _ = true |- _ => apply orb_true_iff in H as [E%Nat.eqb_eq|H] end; [..|done]; subst;
      [exists 0%nat|exists 1%nat|exists 2%nat|exists 3%nat|exists 4%nat]; reflexivity.
Qed.

Lemma alignof_pos t : wf t = true -> (0 < alignof t)%nat.
Proof. intros W. by apply pow2_pos, alignof_pow2. Qed.

Lemma member_align f fs : f ∈ fs -> (alignof f.2 <= max_align fs)%nat.
Proof. induction 1 as [f fs|f g fs _ IH]; cbn; unfold max_align in *; lia. Qed.

Lemma sizeof_aligned t : wf t = true -> Nat.divide (alignof t) (sizeof t).
Proof.
  induction t as [s|n t IH|fs IH|fs IH|n a] using ctype_induction; intros W.
  - apply Nat.divide_refl.
  - cbn. apply Nat.divide_mul_r. auto.
  - apply round_up_spec. by apply alignof_pos.
  - apply round_up_spec. by apply alignof_pos.
  - pose proof (alignof_pos _ W) as Hp. cbn in *. bprop. apply Nat.eqb_eq in H. apply Nat.Lcm0.mod_divide; lia.
Qed.

Lemma round_up_ge n a : (0 < a)%nat -> (n <= round_up n a)%nat.
Proof. intros H. by apply round_up_spec. Qed.

Lemma end_offset_ge fs : forall off, Forall (fun f => wf f.2 = true) fs -> (off <= end_offset off fs)%nat.
Proof.
  induction fs as [|f fs IH]; intros off W; unfold end_offset in *; cbn; [lia|]. cinv W.
  pose proof (round_up_ge off _ (alignof_pos _ H1)). specialize (IH (round_up off (alignof f.2) + sizeof f.2)%nat H2). lia.
Qed.

(** ** Leaves are aligned and in bounds *)

Lemma elem_of_below x o l q k s :
  (q, k, s) ∈ below x o l <-> exists p j, q = x :: p /\ k = (o + j)%nat /\ (p, j, s) ∈ l.
Proof.
  unfold below. rewrite list_elem_of_fmap. split.
  - intros ([[p j] s'] & E & H). injection E as -> -> ->. by exists p, j.
  - intros (p & j & -> & -> & H). by exists (p, j, s).
Qed.

(** A leaf of a structure: the member it is in. *)
Lemma leaves_fields_elem q k s : forall fs off, (q, k, s) ∈ leaves_fields off fs ->
  exists fs1 f fs2 p j, fs = fs1 ++ f :: fs2 /\ q = Fld f.1 :: p /\ (p, j, s) ∈ leaves f.2 /\
    k = (round_up (end_offset off fs1) (alignof f.2) + j)%nat.
Proof.
  induction fs as [|f fs IH]; intros off H; cbn in H; [by apply elem_of_nil in H|].
  apply elem_of_app in H as [H|H].
  - apply elem_of_below in H as (p & j & -> & -> & H). by exists [], f, fs, p, j.
  - apply IH in H as (fs1 & g & fs2 & p & j & -> & -> & H & ->).
    by exists (f :: fs1), g, fs2, p, j.
Qed.

Lemma elem_of_array n t q k s : (q, k, s) ∈ leaves (Array n t) ->
  exists i p j, (i < n)%nat /\ q = Idx i :: p /\ k = (i * sizeof t + j)%nat /\ (p, j, s) ∈ leaves t.
Proof.
  cbn [leaves]. rewrite list_elem_of_In, in_concat. intros (l & Hl & H).
  apply list_elem_of_In, list_elem_of_fmap in Hl as (i & -> & Hi). apply elem_of_seq in Hi.
  apply list_elem_of_In, elem_of_below in H as (p & j & -> & -> & H). exists i, p, j. split_and!; try done. lia.
Qed.

Lemma elem_of_union fs q k s : (q, k, s) ∈ leaves (Union fs) ->
  exists f p, f ∈ fs /\ q = Fld f.1 :: p /\ (p, k, s) ∈ leaves f.2.
Proof.
  cbn [leaves]. rewrite list_elem_of_In, in_concat. intros (l & Hl & H).
  apply list_elem_of_In, list_elem_of_fmap in Hl as (f & -> & Hf).
  apply list_elem_of_In, elem_of_below in H as (p & j & -> & -> & H). by exists f, p.
Qed.

Lemma leaf_align t : wf t = true -> forall p k s, (p, k, s) ∈ leaves t -> Nat.divide (scalar_size s) (alignof t).
Proof.
  assert (forall f fs s, f ∈ fs -> wf f.2 = true -> pow2 (max_align fs) ->
    Nat.divide (scalar_size s) (alignof f.2) -> Nat.divide (scalar_size s) (max_align fs)) as M.
  { intros f fs s Hf W P H. eapply Nat.divide_trans; [exact H|].
    apply pow2_divide; [by apply alignof_pow2|done|by apply member_align]. }
  induction t as [s|n t IH|fs IH|fs IH|n a] using ctype_induction; intros W p k s' H.
  - cbn in H. apply list_elem_of_singleton in H. injection H as -> -> ->. apply Nat.divide_refl.
  - apply elem_of_array in H as (i & q & j & _ & _ & _ & H). by eapply IH.
  - pose proof (alignof_pow2 _ W) as P. rewrite leaves_struct in H. cbn [wf] in W. apply wf_fields in W as [_ W].
    apply leaves_fields_elem in H as (fs1 & f & fs2 & q & j & -> & -> & H & ->).
    rewrite Forall_forall in *. assert (f ∈ fs1 ++ f :: fs2) as Hf by set_solver.
    apply (M f); auto. by eapply IH; auto.
  - pose proof (alignof_pow2 _ W) as P. cbn [wf] in W. apply wf_fields in W as [_ W].
    apply elem_of_union in H as (f & q & Hf & -> & H). rewrite Forall_forall in *. apply (M f); auto. by eapply IH; auto.
  - by apply elem_of_nil in H.
Qed.

Lemma end_offset_app off fs1 fs2 : end_offset off (fs1 ++ fs2) = end_offset (end_offset off fs1) fs2.
Proof. apply foldl_app. Qed.

Lemma end_offset_cons off f fs : end_offset off (f :: fs) = end_offset (round_up off (alignof f.2) + sizeof f.2) fs.
Proof. reflexivity. Qed.

Lemma max_size f fs : f ∈ fs -> (sizeof f.2 <= foldr (fun (f : string * ctype) n => sizeof f.2 `max` n) 0 fs)%nat.
Proof. induction 1 as [f fs|f g fs _ IH]; cbn; lia. Qed.

Lemma leaf_in_bounds t : wf t = true -> forall p k s, (p, k, s) ∈ leaves t ->
  (k + scalar_size s <= sizeof t)%nat /\ Nat.divide (scalar_size s) k.
Proof.
  induction t as [s|n t IH|fs IH|fs IH|n a] using ctype_induction; intros W p k s' H.
  - cbn in H. apply list_elem_of_singleton in H. injection H as -> -> ->. cbn. split; [lia|apply Nat.divide_0_r].
  - pose proof (leaf_align t W) as A. apply elem_of_array in H as (i & q & j & Hi & _ & -> & H).
    destruct (IH W q j s' H) as [B D]. cbn [sizeof]. split; [nia|]. apply Nat.divide_add_r; [|done].
    apply Nat.divide_mul_r. eapply Nat.divide_trans; [by eapply A|]. by apply sizeof_aligned.
  - pose proof (alignof_pos _ W) as P. rewrite leaves_struct in H. rewrite sizeof_struct. cbn [wf] in W.
    apply wf_fields in W as [_ W].
    apply leaves_fields_elem in H as (fs1 & f & fs2 & q & j & -> & -> & H & ->).
    pose proof (round_up_ge (end_offset 0 (fs1 ++ f :: fs2)) _ P) as R.
    rewrite end_offset_app, end_offset_cons in *. apply Forall_app in W as [_ [Wf W]%Forall_cons].
    pose proof (end_offset_ge fs2 (round_up (end_offset 0 fs1) (alignof f.2) + sizeof f.2) W) as E.
    apply Forall_app in IH as [_ [Hf _]%Forall_cons]. destruct (Hf Wf q j s' H) as [B D]. split; [lia|].
    apply Nat.divide_add_r; [|done]. eapply Nat.divide_trans; [by eapply leaf_align|].
    apply round_up_spec. by apply alignof_pos.
  - pose proof (alignof_pos _ W) as P. cbn [wf] in W. apply wf_fields in W as [_ W].
    apply elem_of_union in H as (f & q & Hf & -> & H). rewrite Forall_forall in *.
    destruct (IH f Hf (W f Hf) q k s' H) as [B D]. split; [|done].
    pose proof (max_size f fs Hf). change (sizeof (Union fs)) with
      (round_up (foldr (fun (f : string * ctype) n => sizeof f.2 `max` n) 0 fs)%nat (alignof (Union fs))).
    pose proof (round_up_ge (foldr (fun (f : string * ctype) n => sizeof f.2 `max` n) 0 fs)%nat _ P). lia.
  - by apply elem_of_nil in H.
Qed.

(** ** The size of a value *)

Lemma fill_length n bs : (length bs <= n)%nat -> length (fill n bs) = n.
Proof. intros H. unfold fill. rewrite length_app, length_replicate. lia. Qed.

Lemma concat_blocks_length {A} (f : A -> list Z) n l : Forall (fun v => length (f v) = n) l ->
  length (concat (f <$> l)) = (length l * n)%nat.
Proof. induction 1 as [|v l H _ IH]; cbn; [done|]. rewrite length_app, H. cbn in IH. by rewrite IH. Qed.

Lemma store_length t : wf t = true -> forall v, has_type t v -> length (store t v) = sizeof t.
Proof.
  induction t as [s|n t IH|fs IH|fs IH|n a] using ctype_induction; intros W v H.
  - destruct v; try done. apply le_bytes_length.
  - destruct v as [|vs| |]; try done. destruct H as [<- H]. cbn [store sizeof]. apply concat_blocks_length.
    eapply Forall_impl; [exact H|]. intros v. by apply IH.
  - destruct v as [|vs| |]; try done. rewrite typed_struct in H. rewrite store_struct.
    pose proof (alignof_pos _ W) as P. cbn [wf] in W. apply wf_fields in W as [_ W].
    assert (forall off vs, fields_typed fs vs -> (off + length (store_fields off fs vs) = end_offset off fs)%nat) as L.
    { clear H vs P. induction fs as [|f fs IHf]; intros off [|v vs] H; try done.
      apply Forall_cons in W as [Wf W], IH as [Hf IH].
      destruct H as [Hv H]. cbn [store_fields]. rewrite end_offset_cons, <- (IHf IH W _ vs H).
      rewrite !length_app, length_replicate, (Hf Wf v Hv).
      pose proof (round_up_ge off _ (alignof_pos _ Wf)). lia. }
    apply fill_length. specialize (L 0%nat vs H). rewrite sizeof_struct.
    pose proof (round_up_ge (end_offset 0 fs) _ P). lia.
  - destruct v as [| |i v|]; try done. apply union_member in H as (f & Hf & H & -> & _).
    pose proof (alignof_pos _ W) as P. cbn [wf] in W. apply wf_fields in W as [_ W].
    apply list_elem_of_lookup_2 in Hf. rewrite Forall_forall in *. apply fill_length.
    rewrite (IH f Hf (W f Hf) v H). pose proof (max_size f fs Hf). cbn [sizeof].
    pose proof (round_up_ge (foldr (fun (f : string * ctype) n => sizeof f.2 `max` n) 0 fs)%nat _ P). lia.
  - by destruct v.
Qed.

(** ** Reading members *)

Definition slice (o n : nat) (bs : list Z) : list Z := take n (drop o bs).

Lemma slice_app_l o n a b : (o + n <= length a)%nat -> slice o n (a ++ b) = slice o n a.
Proof. intros H. unfold slice. rewrite drop_app_le by lia. apply take_app_le. rewrite length_drop. lia. Qed.

Lemma slice_app_r o n a b : slice (length a + o) n (a ++ b) = slice o n b.
Proof. unfold slice. rewrite drop_app_ge by lia. do 2 f_equal. lia. Qed.

Lemma slice_drop o o' n bs : slice o' n (drop o bs) = slice (o + o') n bs.
Proof. unfold slice. by rewrite drop_drop. Qed.

Lemma concat_block {A} (f : A -> list Z) n l i v : Forall (fun v => length (f v) = n) l -> l !! i = Some v ->
  exists rest, drop (i * n) (concat (f <$> l)) = f v ++ rest.
Proof.
  intros H. revert i. induction H as [|w l Hw _ IH]; intros [|i] Hi; try done; cbn in *.
  - injection Hi as ->. eexists. by rewrite drop_0.
  - destruct (IH i Hi) as [rest E]. exists rest. rewrite drop_app_ge by lia. rewrite <- E. f_equal. lia.
Qed.

(** The bytes of a member, and what stands in front of it. *)
Lemma store_member fs1 : forall f fs2 vs off, Forall (fun f => wf f.2 = true) (fs1 ++ f :: fs2) ->
  fields_typed (fs1 ++ f :: fs2) vs -> exists v front rest, vs !! length fs1 = Some v /\ has_type f.2 v /\
    store_fields off (fs1 ++ f :: fs2) vs = front ++ store f.2 v ++ rest /\
    (off + length front = round_up (end_offset off fs1) (alignof f.2))%nat.
Proof.
  induction fs1 as [|g fs1 IH]; intros f fs2 vs off W H; cbn [app] in *;
    apply Forall_cons in W as [Wf W]; (destruct vs as [|v vs]; [done|]); destruct H as [Hv H].
  - exists v, (replicate (round_up off (alignof f.2) - off) 0), (store_fields (round_up off (alignof f.2) + sizeof f.2) fs2 vs).
    split_and!; [done|done|reflexivity|]. rewrite length_replicate. cbn. pose proof (round_up_ge off _ (alignof_pos _ Wf)). lia.
  - destruct (IH f fs2 vs (round_up off (alignof g.2) + sizeof g.2)%nat W H) as (w & front & rest & Hw & Ht & E & L).
    exists w, (replicate (round_up off (alignof g.2) - off) 0 ++ store g.2 v ++ front), rest.
    split_and!; [done|done|cbn [store_fields]; by rewrite E, <- !app_assoc|].
    rewrite !length_app, length_replicate, (store_length _ Wf _ Hv), end_offset_cons, <- L.
    pose proof (round_up_ge off _ (alignof_pos _ Wf)). lia.
Qed.

Lemma vget_member fs1 f fs2 vs v p : NoDup (fs1 ++ f :: fs2).*1 -> vs !! length fs1 = Some v ->
  vget_fields (fs1 ++ f :: fs2) vs f.1 p = vget f.2 v p.
Proof.
  revert vs. induction fs1 as [|g fs1 IH]; intros [|w vs] N H; try done; cbn in *.
  - injection H as ->. by rewrite String.eqb_refl.
  - apply NoDup_cons in N as [Ng N]. rewrite (proj2 (String.eqb_neq g.1 f.1)); [by apply IH|].
    intros E. apply Ng. rewrite E, fmap_app. set_solver.
Qed.

(** Every scalar of a value stands at the offset of its leaf. *)
Lemma store_leaf t : wf t = true -> forall v p k s z, has_type t v -> (p, k, s) ∈ leaves t -> vget t v p = Some z ->
  slice k (scalar_size s) (store t v) = le_bytes (scalar_size s) z /\ scalar_ok s z.
Proof.
  induction t as [s|n t IH|fs IH|fs IH|n a] using ctype_induction; intros W v p k s' z T H G.
  - cbn in H. apply list_elem_of_singleton in H. injection H as -> -> ->. destruct v; try done. injection G as ->.
    split; [|done]. unfold slice. rewrite drop_0. apply take_ge. cbn. by rewrite le_bytes_length.
  - apply elem_of_array in H as (i & q & j & Hi & -> & -> & H). destruct v as [|vs| |]; try done. destruct T as [L T].
    cbn [vget] in G. destruct (vs !! i) as [v|] eqn:E; [|done]. cbn in G.
    assert (Forall (fun v => length (store t v) = sizeof t) vs) as B
      by (eapply Forall_impl; [exact T|]; intros; by apply store_length).
    destruct (concat_block _ _ _ _ _ B E) as [rest Er]. cbn [store].
    rewrite Forall_forall in T. apply list_elem_of_lookup_2 in E. specialize (T v E).
    rewrite <- slice_drop, Er, slice_app_l; [by eapply IH|]. rewrite store_length by done.
    by eapply leaf_in_bounds.
  - destruct v as [|vs| |]; try done. rewrite leaves_struct in H. rewrite typed_struct in T.
    cbn [wf] in W. apply wf_fields in W as [N W].
    apply leaves_fields_elem in H as (fs1 & f & fs2 & q & j & -> & -> & H & ->).
    rewrite vget_struct in G. rewrite store_struct. unfold fill.
    destruct (store_member fs1 f fs2 vs 0 W T) as (v & front & rest & Hv & Tv & -> & L).
    rewrite (vget_member _ _ _ _ _ _ N Hv) in G. apply Forall_app in W as [_ [Wf W]%Forall_cons], IH as [_ [Hf _]%Forall_cons].
    cbn in L. rewrite <- L, <- !app_assoc, slice_app_r, slice_app_l; [by eapply Hf|].
    rewrite store_length by done. by eapply leaf_in_bounds.
  - destruct v as [| |i v|]; try done. cbn [wf] in W. pose proof W as W'. apply wf_fields in W as [N W].
    apply elem_of_union in H as (g & q & Hg & -> & H).
    apply union_member in T as (f & Hf & T & -> & V). rewrite V in G.
    destruct (String.eqb f.1 g.1) eqn:E; [|done]. apply String.eqb_eq in E.
    apply list_elem_of_lookup_2 in Hf.
    assert (f = g) as ->.
    { apply list_elem_of_lookup_1 in Hf as [a Ha], Hg as [b Hb].
      assert (a = b) as ->; [|congruence].
      eapply (NoDup_lookup _ _ _ f.1 N); [by rewrite list_lookup_fmap, Ha|by rewrite list_lookup_fmap, Hb, E]. }
    rewrite Forall_forall in *. unfold fill. rewrite slice_app_l; [by eapply (IH g Hg (W g Hg))|].
    rewrite store_length by auto. by eapply (leaf_in_bounds _ (W g Hg)).
  - by apply elem_of_nil in H.
Qed.

(** ** Round trip *)

Fixpoint union_free (t : ctype) : bool :=
  match t with
  | Scalar _ | Opaque _ _ => true
  | Array _ t => union_free t
  | Struct fs => forallb (fun f => union_free f.2) fs
  | Union _ => false
  end.

Lemma le_value_mod n z : le_value (le_bytes n z) = z mod 256 ^ Z.of_nat n.
Proof.
  revert z. induction n as [|n IH]; intros z; cbn [le_bytes le_value]; [by rewrite Z.mod_1_r|].
  rewrite IH, Nat2Z.inj_succ, Z.pow_succ_r by lia. rewrite Z.rem_mul_r by lia. lia.
Qed.

Lemma scalar_load_store s z : scalar_ok s z -> scalar_load s (le_bytes (scalar_size s) z) = z.
Proof.
  unfold scalar_ok, scalar_load. rewrite le_value_mod. destruct (is_signed s) eqn:E; intros H.
  - destruct s; try done. change (256 ^ Z.of_nat (scalar_size Int32)) with (2 ^ 32). unfold in_s32, s32 in *.
    rewrite Zplus_mod_idemp_l, Z.mod_small; lia.
  - by apply Z.mod_small.
Qed.

Lemma load_store t : wf t = true -> union_free t = true -> forall v rest, has_type t v ->
  load t (store t v ++ rest) = v.
Proof.
  induction t as [s|n t IH|fs IH|fs IH|n a] using ctype_induction; intros W U v rest T; [..|].
  - destruct v; try done. cbn. rewrite take_app_length' by (by rewrite le_bytes_length). by rewrite scalar_load_store.
  - destruct v as [|vs| |]; try done. destruct T as [L T]. cbn [load store wf union_free] in *. f_equal. apply list_eq. intros i.
    rewrite list_lookup_fmap. destruct (vs !! i) as [v|] eqn:E.
    + rewrite lookup_seq_lt by (apply lookup_lt_Some in E; lia). cbn. f_equal.
      assert (Forall (fun v => length (store t v) = sizeof t) vs) as B
        by (eapply Forall_impl; [exact T|]; intros; by apply store_length).
      destruct (concat_block _ _ _ _ _ B E) as [r Er].
      rewrite Forall_forall in T. pose proof (T v (list_elem_of_lookup_2 _ _ _ E)) as Tv.
      rewrite drop_app_le; [rewrite Er, <- app_assoc; by apply IH|].
      rewrite (concat_blocks_length _ _ _ B). apply lookup_lt_Some in E. nia.
    + apply lookup_ge_None in E. rewrite lookup_seq_ge by lia. done.
  - destruct v as [|vs| |]; try done. rewrite typed_struct in T. rewrite load_struct, store_struct. unfold fill. f_equal.
    cbn [wf union_free] in *. apply wf_fields in W as [_ W]. rewrite forallb_forall in U.
    rewrite <- app_assoc. generalize (replicate (sizeof (Struct fs) - length (store_fields 0 fs vs)) 0 ++ rest). clear rest. intros rest.
    assert (forall off front, length front = off -> load_fields off fs (front ++ store_fields off fs vs ++ rest) = vs) as L;
      [|by apply (L 0%nat [])].
    revert vs T. induction fs as [|f fs IHf]; intros [|v vs] T off front Hf; try done.
    apply Forall_cons in W as [Wf W], IH as [IHt IH]. destruct T as [Tv T]. cbn [load_fields store_fields].
    pose proof (round_up_ge off _ (alignof_pos _ Wf)) as R. f_equal.
    + rewrite drop_app_ge by lia. rewrite <- app_assoc, drop_app_ge by (rewrite length_replicate; lia).
      rewrite length_replicate. replace (round_up off (alignof f.2) - length front - (round_up off (alignof f.2) - off))%nat with 0%nat by lia.
      rewrite drop_0, <- app_assoc. apply IHt; try done. apply U. by left.
    + rewrite <- (IHf IH W (fun x Hx => U x (or_intror Hx)) vs T (round_up off (alignof f.2) + sizeof f.2)%nat
        (front ++ replicate (round_up off (alignof f.2) - off) 0 ++ store f.2 v)) at 2; [by rewrite <- !app_assoc|].
      rewrite !length_app, length_replicate, (store_length _ Wf _ Tv). lia.
  - done.
  - destruct v; try done. cbn in *. f_equal. apply take_app_length'. by rewrite T.
Qed.

(** ** Agreement *)

#[export] Instance same_layout_equivalence : Equivalence same_layout.
Proof.
  split.
  - intros t. done.
  - intros t1 t2 (H1 & H2 & H3). done.
  - intros t1 t2 t3 (H1 & H2 & H3) (K1 & K2 & K3). split_and!; congruence.
Qed.

Fixpoint agree_fields (fs1 fs2 : list (string * ctype)) : bool :=
  match fs1, fs2 with
  | [], [] => true
  | f1 :: fs1, f2 :: fs2 => String.eqb f1.1 f2.1 && agree f1.2 f2.2 && agree_fields fs1 fs2
  | _, _ => false
  end.

Definition same_fields (fs1 fs2 : list (string * ctype)) : Prop :=
  Forall2 (fun f1 f2 => f1.1 = f2.1 /\ same_layout f1.2 f2.2) fs1 fs2.

Lemma agree_fields_spec fs1 : Forall (fun f => forall t2, agree f.2 t2 = true -> same_layout f.2 t2) fs1 ->
  forall fs2, agree_fields fs1 fs2 = true -> same_fields fs1 fs2.
Proof.
  induction 1 as [|f1 fs1 H _ IH]; intros [|f2 fs2] A; try done; [constructor|]. cbn in A. bprop.
  constructor; [split; [by apply String.eqb_eq|by apply H]|by apply IH].
Qed.

Lemma leaf_repr_below x o l1 l2 : leaf_repr <$> l1 = leaf_repr <$> l2 ->
  leaf_repr <$> below x o l1 = leaf_repr <$> below x o l2.
Proof.
  revert l2. induction l1 as [|[[p1 k1] s1] l1 IH]; intros [|[[p2 k2] s2] l2] H; try done.
  cbn in *. injection H as -> -> R1 R2 H. f_equal; [by unfold leaf_repr, repr; cbn; rewrite R1, R2|]. by apply IH.
Qed.

Lemma same_max_align fs1 fs2 : same_fields fs1 fs2 -> max_align fs1 = max_align fs2.
Proof. unfold max_align. induction 1 as [|f1 f2 fs1 fs2 [_ (_ & A & _)] _ IH]; cbn; [done|]. by rewrite A, IH. Qed.

Lemma same_fields_leaves fs1 fs2 : same_fields fs1 fs2 -> forall off,
  end_offset off fs1 = end_offset off fs2 /\
  leaf_repr <$> leaves_fields off fs1 = leaf_repr <$> leaves_fields off fs2.
Proof.
  induction 1 as [|f1 f2 fs1 fs2 [N (S & A & L)] _ IH]; intros off; [done|].
  rewrite !end_offset_cons. cbn [leaves_fields]. rewrite N, S, A, !fmap_app.
  destruct (IH (round_up off (alignof f2.2) + sizeof f2.2)%nat) as [-> ->]. split; [done|]. f_equal.
  by apply leaf_repr_below.
Qed.

Lemma agree_same t1 : forall t2, agree t1 t2 = true -> same_layout t1 t2.
Proof.
  induction t1 as [s|n t IH|fs IH|fs IH|n a] using ctype_induction; intros [s2|n2 t2|fs2|fs2|n2 a2] A; try done.
  - apply bool_decide_eq_true in A. injection A as A1 A2. unfold same_layout, leaf_repr, repr. cbn. by rewrite A1, A2.
  - cbn [agree] in A. bprop. apply Nat.eqb_eq in H as ->. destruct (IH t2 H0) as (S & Al & L).
    split_and!; cbn; [by rewrite S|done|]. rewrite S. induction (seq 0 n2) as [|i l IHl]; [done|].
    cbn. rewrite !fmap_app. f_equal; [by apply leaf_repr_below|done].
  - change (agree_fields fs fs2 = true) in A. apply agree_fields_spec in A; [|done].
    pose proof (same_max_align _ _ A) as M. destruct (same_fields_leaves _ _ A 0%nat) as [E L].
    split_and!; [|done|by rewrite !leaves_struct].
    rewrite !sizeof_struct. cbn [alignof]. fold (max_align fs) (max_align fs2). by rewrite E, M.
  - change (agree_fields fs fs2 = true) in A. apply agree_fields_spec in A; [|done].
    pose proof (same_max_align _ _ A) as M. split_and!; [|done|].
    + cbn [sizeof alignof]. fold (max_align fs) (max_align fs2). rewrite M. f_equal.
      clear M IH. induction A as [|f1 f2 fs1 fs2 [_ (S & _)] _ IH]; cbn; [done|]. by rewrite S, IH.
    + cbn [leaves]. clear M IH. induction A as [|f1 f2 fs1 fs2 [N (_ & _ & L)] _ IH]; cbn; [done|].
      rewrite N, !fmap_app, IH. f_equal. by apply leaf_repr_below.
  - cbn in A. bprop. apply Nat.eqb_eq in H as ->, H0 as ->. done.
Qed.

(** A member read by a unit with an agreeing declaration is the one stored. *)
Lemma same_layout_reads t1 t2 v p k s z : wf t1 = true -> has_type t1 v -> same_layout t1 t2 ->
  (p, k, s) ∈ leaves t2 -> vget t1 v p = Some z -> scalar_load s (slice k (scalar_size s) (store t1 v)) = z.
Proof.
  intros W T (_ & _ & E) H G.
  assert (leaf_repr (p, k, s) ∈ leaf_repr <$> leaves t1) as H1 by (rewrite E; by apply list_elem_of_fmap_2).
  apply list_elem_of_fmap in H1 as ([[p' k'] s'] & R & H1). injection R as -> -> R1 R2.
  destruct (store_leaf t1 W v p' k' s' z T H1 G) as [S O]. rewrite R1, S.
  unfold scalar_load. rewrite R2. by apply scalar_load_store.
Qed.
