(* ===== verification/Declarations.v ===== *)
(** The types the C files and the headers declare, member by member, in the
    order of the sources.  No file includes another's header: each declares the
    types it shares once more, so that every unit has its own copy, marked by
    the prefix of its definitions (given in the headings).  [m] is
    [pthread_mutex_t]. *)
From S2P Require Import Prelude Layout.

(** An enumerator without a value is one more than the one before. *)
Fixpoint enum_from (next : Z) (l : list (string * option Z)) : list (string * Z) :=
  match l with
  | [] => []
  | (x, v) :: l => let z := default next v in (x, z) :: enum_from (z + 1) l
  end.
Definition enumerators (l : list (string * option Z)) : list (string * Z) := enum_from 0 l.

(** [pthread_mutex_t] of the C library, and the [SRWLOCK] that
    [common/compat.h] puts in its place. *)
Definition pthread_mutex_posix : ctype := Opaque 40 8.
Definition pthread_mutex_windows : ctype := Opaque 8 8.

(** * The declarations *)

(** ** [master/src/cluster_state.c] *)

Definition csc_UUID_STR_MAX : nat := 64.
Definition csc_CLUSTER_MAX_WORKERS : nat := 32.
Definition csc_CLUSTER_MAX_ACTIVE_LEASES : nat := 128.
Definition csc_SNAPSHOT_RING_SIZE : nat := 4.

Definition csc_WorkerHealth : list (string * Z) := enumerators
  [("WORKER_HEALTH_ONLINE", None); ("WORKER_HEALTH_DRAINING", None); ("WORKER_HEALTH_OFFLINE", None)]%string.
Definition csc_ClusterStatus : list (string * Z) := enumerators
  [("CLUSTER_STATUS_BOOSTRAP", None); ("CLUSTER_STATUS_OPERATIONAL", None);
   ("CLUSTER_STATUS_DEGRADED", None)]%string.
Definition csc_LeaseStatus : list (string * Z) := enumerators
  [("LEASE_STATUS_RUNNING", None); ("LEASE_STATUS_COMPLETED", None); ("LEASE_STATUS_FAILED", None);
   ("LEASE_STATUS_TIMED_OUT", None)]%string.
Definition csc_WorkerResources : ctype := Struct
  [("total_memory_bytes", Scalar UInt64); ("reserved_memory_bytes", Scalar UInt64);
   ("total_cores", Scalar UInt32); ("reserved_cores", Scalar UInt32)]%string.
Definition csc_WorkerMember : ctype := Struct
  [("worker_id", Scalar UInt32); ("health", Scalar Enum); ("last_seen_timestamp_ms", Scalar UInt64);
   ("resources", csc_WorkerResources)]%string.
Definition csc_ChunkLease : ctype := Struct
  [("chunk_id", Scalar UInt64); ("status", Scalar Enum); ("progress_percentage", Scalar Float);
   ("failure_retry_count", Scalar UInt32)]%string.
Definition csc_ClusterMetrics : ctype := Struct
  [("cluster_aggregate_memory_bytes", Scalar UInt64); ("cluster_allocated_memory_bytes", Scalar UInt64);
   ("cluster_aggregate_cores", Scalar UInt32); ("cluster_allocated_cores", Scalar UInt32);
   ("active_worker_count", Scalar UInt32)]%string.
Definition csc_ClusterStateSnapshot : ctype := Struct
  [("cluster_uuid", Array csc_UUID_STR_MAX (Scalar Char)); ("master_epoch", Scalar UInt64);
   ("state_generation_version", Scalar UInt64); ("global_status", Scalar Enum);
   ("active_workers", Array csc_CLUSTER_MAX_WORKERS csc_WorkerMember);
   ("total_registered_workers", Scalar Int32);
   ("active_leases", Array csc_CLUSTER_MAX_ACTIVE_LEASES csc_ChunkLease);
   ("total_active_leases", Scalar Int32); ("metrics", csc_ClusterMetrics)]%string.
Definition csc_ClusterStateContext (m : ctype) : ctype := Struct
  [("context_mutex", m); ("master_state", csc_ClusterStateSnapshot);
   ("snapshot_pool", Array csc_SNAPSHOT_RING_SIZE csc_ClusterStateSnapshot);
   ("pool_tail_idx", Scalar UInt32);
   ("snapshot_ref_counts", Array csc_SNAPSHOT_RING_SIZE (Scalar UInt32))]%string.

(** ** [master/src/main.c] *)

Definition mmain_UUID_STR_MAX : nat := 64.
Definition mmain_CLUSTER_MAX_WORKERS : nat := 32.
Definition mmain_CLUSTER_MAX_ACTIVE_LEASES : nat := 128.
Definition mmain_SNAPSHOT_RING_SIZE : nat := 4.
Definition mmain_LOG_STR_MAX : nat := 128.

Definition mmain_VomLogLevel : list (string * Z) := enumerators
  [("VOM_LOG_LEVEL_TRACE", Some 0); ("VOM_LOG_LEVEL_DEBUG", None); ("VOM_LOG_LEVEL_INFO", None);
   ("VOM_LOG_LEVEL_WARN", None); ("VOM_LOG_LEVEL_ERROR", None); ("VOM_LOG_LEVEL_FATAL", None);
   ("VOM_LOG_LEVEL_NONE", None)]%string.
Definition mmain_WorkerHealth : list (string * Z) := enumerators
  [("WORKER_HEALTH_ONLINE", None); ("WORKER_HEALTH_DRAINING", None); ("WORKER_HEALTH_OFFLINE", None)]%string.
Definition mmain_ClusterStatus : list (string * Z) := enumerators
  [("CLUSTER_STATUS_BOOSTRAP", None); ("CLUSTER_STATUS_OPERATIONAL", None);
   ("CLUSTER_STATUS_DEGRADED", None)]%string.
Definition mmain_LeaseStatus : list (string * Z) := enumerators
  [("LEASE_STATUS_RUNNING", None); ("LEASE_STATUS_COMPLETED", None); ("LEASE_STATUS_FAILED", None);
   ("LEASE_STATUS_TIMED_OUT", None)]%string.
Definition mmain_WorkerResources : ctype := Struct
  [("total_memory_bytes", Scalar UInt64); ("reserved_memory_bytes", Scalar UInt64);
   ("total_cores", Scalar UInt32); ("reserved_cores", Scalar UInt32)]%string.
Definition mmain_WorkerMember : ctype := Struct
  [("worker_id", Scalar UInt32); ("health", Scalar Enum); ("last_seen_timestamp_ms", Scalar UInt64);
   ("resources", mmain_WorkerResources)]%string.
Definition mmain_ChunkLease : ctype := Struct
  [("chunk_id", Scalar UInt64); ("status", Scalar Enum); ("progress_percentage", Scalar Float);
   ("failure_retry_count", Scalar UInt32)]%string.
Definition mmain_ClusterMetrics : ctype := Struct
  [("cluster_aggregate_memory_bytes", Scalar UInt64); ("cluster_allocated_memory_bytes", Scalar UInt64);
   ("cluster_aggregate_cores", Scalar UInt32); ("cluster_allocated_cores", Scalar UInt32);
   ("active_worker_count", Scalar UInt32)]%string.
Definition mmain_ClusterStateSnapshot : ctype := Struct
  [("cluster_uuid", Array mmain_UUID_STR_MAX (Scalar Char)); ("master_epoch", Scalar UInt64);
   ("state_generation_version", Scalar UInt64); ("global_status", Scalar Enum);
   ("active_workers", Array mmain_CLUSTER_MAX_WORKERS mmain_WorkerMember);
   ("total_registered_workers", Scalar Int32);
   ("active_leases", Array mmain_CLUSTER_MAX_ACTIVE_LEASES mmain_ChunkLease);
   ("total_active_leases", Scalar Int32); ("metrics", mmain_ClusterMetrics)]%string.
Definition mmain_ClusterStateContext (m : ctype) : ctype := Struct
  [("context_mutex", m); ("master_state", mmain_ClusterStateSnapshot);
   ("snapshot_pool", Array mmain_SNAPSHOT_RING_SIZE mmain_ClusterStateSnapshot);
   ("pool_tail_idx", Scalar UInt32);
   ("snapshot_ref_counts", Array mmain_SNAPSHOT_RING_SIZE (Scalar UInt32))]%string.
Definition mmain_vom_master_args_t : ctype := Struct
  [("log_level", Array mmain_LOG_STR_MAX (Scalar Char)); ("daemonize", Scalar Bool)]%string.
Definition mmain_VomRouterMsgCode : list (string * Z) := enumerators
  [("ROUTER_MSG_AUTH_REQ", Some 1); ("ROUTER_MSG_AUTH_RESP", Some 2); ("ROUTER_MSG_JOIN_REQ", Some 3);
   ("ROUTER_MSG_JOIN_RESP", Some 4); ("ROUTER_MSG_HEARTBEAT", Some 5);
   ("ROUTER_MSG_CHUNK_ASSIGN", Some 6); ("ROUTER_MSG_CHUNK_ACK", Some 7);
   ("ROUTER_MSG_CHUNK_REPORT", Some 8)]%string.
Definition mmain_vom_router_envelope_t : ctype := Struct
  [("protocol_version", Scalar UInt16); ("message_code", Scalar UInt16);
   ("payload_length", Scalar UInt32); ("sequence_id", Scalar UInt64); ("timestamp_ms", Scalar UInt64)]%string.

(** ** [master/include/master/cluster_state.h] *)

Definition csh_CLUSTER_NAME_MAX_LEN : nat := 64.
Definition csh_CLUSTER_MAX_CAPABILITIES : nat := 16.
Definition csh_CLUSTER_MAX_WORKERS : nat := 64.
Definition csh_CLUSTER_MAX_ACTIVE_LEASES : nat := 1024.

Definition csh_ClusterStatus : list (string * Z) := enumerators
  [("CLUSTER_STATUS_BOOSTRAP", None); ("CLUSTER_STATUS_OPERATIONAL", None);
   ("CLUSTER_STATUS_DEGRADED", None); ("CLUSTER_STATUS_MAINTENANCE", None);
   ("CLUSTER_STATUS_PANIC", None)]%string.
Definition csh_WorkerHealth : list (string * Z) := enumerators
  [("WORKER_HEALTH_OFFLINE", None); ("WORKER_HEALTH_SUSPECT", None); ("WORKER_HEALTH_ONLINE", None);
   ("WORKER_HEALTH_DRAINING", None)]%string.
Definition csh_LeaseStatus : list (string * Z) := enumerators
  [("LEASE_STATUS_IDLE", None); ("LEASE_STATUS_ASSIGNED", None); ("LEASE_STATUS_EXECUTING", None);
   ("LEASE_STATUS_COMMITTED", None); ("LEASE_STATUS_TIMED_OUT", None); ("LEASE_STATUS_FAILED", None)]%string.
Definition csh_ResourceMetrics : ctype := Struct
  [("total_cores", Scalar UInt32); ("reserved_cores", Scalar UInt32);
   ("total_memory_bytes", Scalar UInt64); ("reserved_memory_bytes", Scalar UInt64);
   ("total_storage_bytes", Scalar UInt64); ("reserved_storage_bytes", Scalar UInt64)]%string.
Definition csh_WorkerUiSurface : ctype := Struct
  [("panel_endpoint_url", Array 128 (Scalar Char)); ("telemetry_port", Scalar UInt32);
   ("web_Surface_enabled", Scalar Bool)]%string.
Definition csh_WorkerMember : ctype := Struct
  [("worker_id", Scalar UInt32); ("hostname", Array csh_CLUSTER_NAME_MAX_LEN (Scalar Char));
   ("health", Scalar Enum); ("last_heartbeat_monotonic_ms", Scalar UInt64);
   ("resources", csh_ResourceMetrics);
   ("capabilites", Array csh_CLUSTER_MAX_CAPABILITIES (Array 32 (Scalar Char)));
   ("capability_count", Scalar Int32); ("ui_surface", csh_WorkerUiSurface)]%string.
Definition csh_ChunkLease : ctype := Struct
  [("chunk_id", Scalar UInt64); ("workload_id", Scalar UInt64); ("assigned_worker_id", Scalar UInt32);
   ("status", Scalar Enum); ("lease_expires_timestamp_ms", Scalar UInt64);
   ("progress_percentage", Scalar Float); ("failure_retry_count", Scalar UInt32)]%string.
Definition csh_AggregateCapacity : ctype := Struct
  [("cluster_aggregate_memory_bytes", Scalar UInt64); ("cluster_allocated_memory_bytes", Scalar UInt64);
   ("cluster_aggregate_cores", Scalar UInt32); ("cluster_allocated_cores", Scalar UInt32);
   ("active_worker_count", Scalar UInt32); ("standart_pending_chunks", Scalar UInt32)]%string.
Definition csh_ClusterStateSnapshot : ctype := Struct
  [("cluster_uuid", Array 64 (Scalar Char)); ("master_epoch", Scalar UInt64);
   ("state_generation_version", Scalar UInt64); ("global_status", Scalar Enum);
   ("active_workers", Array csh_CLUSTER_MAX_WORKERS csh_WorkerMember);
   ("total_registered_workers", Scalar Int32);
   ("active_leases", Array csh_CLUSTER_MAX_ACTIVE_LEASES csh_ChunkLease);
   ("total_active_leases", Scalar Int32); ("metrics", csh_AggregateCapacity)]%string.

(** ** [ui/src/model.c] *)

Definition uic_HOSTNAME_STR_MAX : nat := 64.
Definition uic_UUID_STR_MAX : nat := 64.
Definition uic_CLUSTER_MAX_WORKERS : nat := 32.
Definition uic_CLUSTER_MAX_ACTIVE_LEASES_M : nat := 128.
Definition uic_UI_SHORT_STRING_LEN : nat := 32.
Definition uic_UI_MAX_NODES : nat := 64.
Definition uic_UI_MAX_ACTIVE_TASKS : nat := 256.

Definition uic_WorkerHealth : list (string * Z) := enumerators
  [("WORKER_HEALTH_ONLINE", None); ("WORKER_HEALTH_DRAINING", None); ("WORKER_HEALTH_OFFLINE", None);
   ("WORKER_HEALTH_SUSPECT", None)]%string.
Definition uic_ClusterStatus : list (string * Z) := enumerators
  [("CLUSTER_STATUS_BOOSTRAP", None); ("CLUSTER_STATUS_OPERATIONAL", None);
   ("CLUSTER_STATUS_DEGRADED", None); ("CLUSTER_STATUS_MAINTENANCE", None);
   ("CLUSTER_STATUS_PANIC", None)]%string.
Definition uic_LeaseStatus : list (string * Z) := enumerators
  [("LEASE_STATUS_IDLE", None); ("LEASE_STATUS_ASSIGNED", None); ("LEASE_STATUS_EXECUTING", None);
   ("LEASE_STATUS_COMMITTED", None); ("LEASE_STATUS_TIMED_OUT", None); ("LEASE_STATUS_FAILED", None)]%string.
Definition uic_WorkerResources : ctype := Struct
  [("total_memory_bytes", Scalar UInt64); ("reserved_memory_bytes", Scalar UInt64);
   ("total_cores", Scalar UInt32); ("reserved_cores", Scalar UInt32)]%string.
Definition uic_WorkerMember : ctype := Struct
  [("worker_id", Scalar UInt32); ("hostname", Array uic_HOSTNAME_STR_MAX (Scalar Char));
   ("health", Scalar Enum); ("last_heartbeat_monotonic_ms", Scalar UInt64);
   ("resources", uic_WorkerResources)]%string.
Definition uic_ChunkLease : ctype := Struct
  [("chunk_id", Scalar UInt64); ("workload_id", Scalar UInt64); ("assigned_worker_id", Scalar UInt32);
   ("status", Scalar Enum); ("progress_percentage", Scalar Float);
   ("failure_retry_count", Scalar UInt32)]%string.
Definition uic_ClusterMetrics : ctype := Struct
  [("cluster_aggregate_memory_bytes", Scalar UInt64); ("cluster_allocated_memory_bytes", Scalar UInt64);
   ("cluster_aggregate_cores", Scalar UInt32); ("cluster_allocated_cores", Scalar UInt32);
   ("active_worker_count", Scalar UInt32)]%string.
Definition uic_ClusterStateSnapshot : ctype := Struct
  [("cluster_uuid", Array uic_UUID_STR_MAX (Scalar Char)); ("master_epoch", Scalar UInt64);
   ("state_generation_version", Scalar UInt64); ("global_status", Scalar Enum);
   ("active_workers", Array uic_CLUSTER_MAX_WORKERS uic_WorkerMember);
   ("total_registered_workers", Scalar Int32);
   ("active_leases", Array uic_CLUSTER_MAX_ACTIVE_LEASES_M uic_ChunkLease);
   ("total_active_leases", Scalar Int32); ("metrics", uic_ClusterMetrics)]%string.
Definition uic_UiHealthStatus : list (string * Z) := enumerators
  [("UI_HEALTH_UNKNOWN", None); ("UI_HEALTH_OK", None); ("UI_HEALTH_WARN", None);
   ("UI_HEALTH_CRIT", None)]%string.
Definition uic_UiNodeRecord : ctype := Struct
  [("node_id", Scalar UInt32); ("display_name", Array uic_UI_SHORT_STRING_LEN (Scalar Char));
   ("health", Scalar Enum); ("memory_utilization_pct", Scalar Double);
   ("cpu_utilization_pct", Scalar Double); ("is_draining", Scalar Bool);
   ("ms_since_last_heartbeat", Scalar UInt64)]%string.
Definition uic_UiTaskRecord : ctype := Struct
  [("chunk_id", Scalar UInt64); ("workload_id", Scalar UInt64); ("assigned_node_id", Scalar UInt32);
   ("status_text", Array uic_UI_SHORT_STRING_LEN (Scalar Char)); ("progress_normalized", Scalar Float);
   ("requires_attention", Scalar Bool)]%string.
Definition uic_UiLogicalDeviceViewModel : ctype := Struct
  [("device_uuid", Array 64 (Scalar Char)); ("logical_epoch", Scalar UInt64);
   ("last_version_seen", Scalar UInt64); ("summary_health", Scalar Enum);
   ("operational_status_text", Array uic_UI_SHORT_STRING_LEN (Scalar Char));
   ("cluster_total_memory_gb", Scalar Double); ("cluster_used_memory_gb", Scalar Double);
   ("cluster_overall_cpu_pct", Scalar Double); ("nodes", Array uic_UI_MAX_NODES uic_UiNodeRecord);
   ("node_count", Scalar Int32); ("tasks", Array uic_UI_MAX_ACTIVE_TASKS uic_UiTaskRecord);
   ("task_count", Scalar Int32)]%string.

(** ** [ui/include/ui/model.h] *)

Definition uih_UI_FIELD_MAX : nat := 64.
Definition uih_UI_POOL_WORKERS : nat := 32.
Definition uih_UI_POOL_WORKLOADS : nat := 64.
Definition uih_UI_POOL_CHUNKS : nat := 128.
Definition uih_UI_POOL_ALERTS : nat := 16.

Definition uih_VomUiDeviceStatus : list (string * Z) := enumerators
  [("UI_DEV_BOOTSTRAP", Some 0); ("UI_DEV_OPERATIONAL", Some 1); ("UI_DEV_DEGRADED", Some 2);
   ("UI_DEV_PANIC", Some 3)]%string.
Definition uih_VomUiWorkerHealth : list (string * Z) := enumerators
  [("UI_HEALTH_ONLINE", Some 0); ("UI_HEALTH_DRAINING", Some 1); ("UI_HEALTH_OFFLINE", Some 2)]%string.
Definition uih_VomUiJobState : list (string * Z) := enumerators
  [("UI_JOB_PENDING", Some 0); ("UI_JOB_RUNNING", Some 1); ("UI_JOB_COMPLETED", Some 2);
   ("UI_JOB_FAILED", Some 3); ("UI_JOB_CANCELLED", Some 4)]%string.
Definition uih_VomUiAlertSeverity : list (string * Z) := enumerators
  [("UI_ALERT_INFO", Some 0); ("UI_ALERT_WARNING", Some 1); ("UI_ALERT_CRITICAL", Some 2)]%string.
Definition uih_vom_ui_hardware_resource_t : ctype := Struct
  [("total_memory_bytes", Scalar UInt64); ("allocated_memory_bytes", Scalar UInt64);
   ("total_cpu_cores", Scalar UInt32); ("allocated_cpu_cores", Scalar UInt32)]%string.
Definition uih_vom_ui_worker_summary_t : ctype := Struct
  [("worker_id", Array uih_UI_FIELD_MAX (Scalar Char)); ("health_status", Scalar Enum);
   ("resources", uih_vom_ui_hardware_resource_t); ("last_heartbeat_ms", Scalar UInt64);
   ("local_display_attached", Scalar Bool)]%string.
Definition uih_vom_ui_chunk_progress_t : ctype := Struct
  [("chunk_id", Array uih_UI_FIELD_MAX (Scalar Char)); ("execution_state", Scalar Enum);
   ("progress_percentage", Scalar Float); ("assigned_worker_id", Array uih_UI_FIELD_MAX (Scalar Char))]%string.
Definition uih_vom_ui_workload_progress_t : ctype := Struct
  [("workload_id", Array uih_UI_FIELD_MAX (Scalar Char)); ("global_state", Scalar Enum);
   ("cumulative_progress", Scalar Float); ("active_chunks", Scalar UInt32);
   ("redacted_workload_name", Array uih_UI_FIELD_MAX (Scalar Char))]%string.
Definition uih_vom_ui_actionable_alert_t : ctype := Struct
  [("alert_id", Scalar UInt32); ("severity", Scalar Enum);
   ("actionable_component_id", Array uih_UI_FIELD_MAX (Scalar Char));
   ("explanation_token", Array uih_UI_FIELD_MAX (Scalar Char)); ("raised_timestamp_ms", Scalar UInt64)]%string.
Definition uih_vom_ui_immutable_snapshot_t : ctype := Struct
  [("logical_device_uuid", Array uih_UI_FIELD_MAX (Scalar Char)); ("snapshot_epoch_ms", Scalar UInt64);
   ("generation_version", Scalar UInt64); ("global_status", Scalar Enum);
   ("cluster_aggregate_capacity", uih_vom_ui_hardware_resource_t);
   ("workers", Array uih_UI_POOL_WORKERS uih_vom_ui_worker_summary_t); ("worker_count", Scalar UInt32);
   ("workloads", Array uih_UI_POOL_WORKLOADS uih_vom_ui_workload_progress_t);
   ("workload_count", Scalar UInt32); ("chunks", Array uih_UI_POOL_CHUNKS uih_vom_ui_chunk_progress_t);
   ("chunk_count", Scalar UInt32); ("alerts", Array uih_UI_POOL_ALERTS uih_vom_ui_actionable_alert_t);
   ("alert_count", Scalar UInt32)]%string.

(** ** [master/src/router.c] *)

Definition rtc_VomRouterEvent : list (string * Z) := enumerators
  [("ROUTER_EVENT_WORKER_JOINED", None); ("ROUTER_EVENT_WORKER_HEARTBEAT", None);
   ("ROUTER_EVENT_CHUNK_PROGRESS", None); ("ROUTER_EVENT_CHUNK_RESULT", None);
   ("ROUTER_EVENT_WORKER_FAILURE", None); ("ROUTER_EVENT_CLI_CONTROL_REQ", None);
   ("ROUTER_EVENT_TRANSPORT_FAULT", None)]%string.
Definition rtc_VomRouterMsgCode : list (string * Z) := enumerators
  [("ROUTER_MSG_AUTH_REQ", Some 1); ("ROUTER_MSG_AUTH_RESP", Some 2); ("ROUTER_MSG_JOIN_REQ", Some 3);
   ("ROUTER_MSG_JOIN_RESP", Some 4); ("ROUTER_MSG_HEARTBEAT", Some 5);
   ("ROUTER_MSG_CHUNK_ASSIGN", Some 6); ("ROUTER_MSG_CHUNK_ACK", Some 7);
   ("ROUTER_MSG_CHUNK_REPORT", Some 8)]%string.
Definition rtc_VomRouterStatus : list (string * Z) := enumerators
  [("ROUTER_STATUS_SUCCESS", Some 0); ("ROUTER_STATUS_ERR_VERSION", Some 1);
   ("ROUTER_STATUS_ERR_SIZE", Some 2); ("ROUTER_STATUS_ERR_SOCKET", Some 3);
   ("ROUTER_STATUS_ERR_TIMEOUT", Some 4)]%string.
Definition rtc_vom_router_envelope_t : ctype := Struct
  [("protocol_version", Scalar UInt16); ("message_code", Scalar UInt16);
   ("payload_length", Scalar UInt32); ("sequence_id", Scalar UInt64); ("timestamp_ms", Scalar UInt64)]%string.

(** ** [master/include/master/router.h] *)

Definition rth_VomRouterEvent : list (string * Z) := enumerators
  [("ROUTER_EVENT_WORKER_JOINED", None); ("ROUTER_EVENT_WORKER_HEARTBEAT", None);
   ("ROUTER_EVENT_CHUNK_PROGRESS", None); ("ROUTER_EVENT_CHUNK_RESULT", None);
   ("ROUTER_EVENT_WORKER_FAILURE", None); ("ROUTER_EVENT_CLI_CONTROL_REQ", None);
   ("ROUTER_EVENT_TRANSPORT_FAULT", None)]%string.
Definition rth_VomRouterMsgCode : list (string * Z) := enumerators
  [("ROUTER_MSG_AUTH_REQ", Some 1); ("ROUTER_MSG_AUTH_RESP", Some 2); ("ROUTER_MSG_JOIN_REQ", Some 3);
   ("ROUTER_MSG_JOIN_RESP", Some 4); ("ROUTER_MSG_HEARTBEAT", Some 5);
   ("ROUTER_MSG_CHUNK_ASSIGN", Some 6); ("ROUTER_MSG_CHUNK_ACK", Some 7);
   ("ROUTER_MSG_CHUNK_REPORT", Some 8)]%string.
Definition rth_VomRouterStatus : list (string * Z) := enumerators
  [("ROUTER_STATUS_SUCCESS", Some 0); ("ROUTER_STATUS_ERR_VERSION", Some 1);
   ("ROUTER_STATUS_ERR_SIZE", Some 2); ("ROUTER_STATUS_ERR_SOCKET", Some 3);
   ("ROUTER_STATUS_ERR_TIMEOUT", Some 4)]%string.
Definition rth_vom_router_envelope_t : ctype := Struct
  [("protocol_version", Scalar UInt16); ("message_code", Scalar UInt16);
   ("payload_length", Scalar UInt32); ("sequence_id", Scalar UInt64); ("timestamp_ms", Scalar UInt64)]%string.

(** ** [worker/src/transport.c] *)

Definition trc_TRANSPORT_ID_MAX_LEN : nat := 64.
Definition trc_TRANSPORT_KEY_MAX_LEN : nat := 40.

Definition trc_VomTransportEvent : list (string * Z) := enumerators
  [("TRANS_EVENT_CONNECTED", None); ("TRANS_EVENT_AUTHENTICATED", None); ("TRANS_EVENT_JOINED", None);
   ("TRANS_EVENT_HEARTBEAT_SENT", None); ("TRANS_EVENT_HEARTBEAT_ACKED", None);
   ("TRANS_EVENT_DISCONNECTED", None); ("TRANS_EVENT_RECONNECTING", None); ("TRANS_EVENT_ERROR", None)]%string.
Definition trc_VomMsgCode : list (string * Z) := enumerators
  [("MSG_CODE_AUTH_REQ", Some 1); ("MSG_CODE_AUTH_RESP", Some 2); ("MSG_CODE_JOIN_REQ", Some 3);
   ("MSG_CODE_JOIN_RESP", Some 4); ("MSG_CODE_HEARTBEAT", Some 5); ("MSG_CODE_CHUNK_ASSIGN", Some 6);
   ("MSG_CODE_CHUNK_ACK", Some 7); ("MSG_CODE_CHUNK_REPORT", Some 8)]%string.
Definition trc_VomTransportStatus : list (string * Z) := enumerators
  [("TRANS_STATUS_SUCCESS", Some 0); ("TRANS_STATUS_ERR_VERSION", Some 1);
   ("TRANS_STATUS_ERR_AUTH", Some 2); ("TRANS_STATUS_ERR_SIZE", Some 3);
   ("TRANS_STATUS_ERR_TIMEOUT", Some 4); ("TRANS_STATUS_ERR_DISCONNECT", Some 5)]%string.
Definition trc_vom_transport_envelope_t : ctype := Struct
  [("protocol_version", Scalar UInt16); ("message_code", Scalar UInt16);
   ("payload_length", Scalar UInt32); ("sequence_id", Scalar UInt64); ("timestamp_ms", Scalar UInt64)]%string.
Definition trc_vom_transport_config_t : ctype := Struct
  [("worker_id", Array trc_TRANSPORT_ID_MAX_LEN (Scalar Char));
   ("server_public_key", Array trc_TRANSPORT_KEY_MAX_LEN (Scalar Char));
   ("client_public_key", Array trc_TRANSPORT_KEY_MAX_LEN (Scalar Char));
   ("client_secret_key", Array trc_TRANSPORT_KEY_MAX_LEN (Scalar Char))]%string.

(** ** [worker/include/worker/transport.h] *)

Definition trh_TRANSPORT_ID_MAX_LEN : nat := 64.
Definition trh_TRANSPORT_KEY_MAX_LEN : nat := 40.

Definition trh_VomTransportEvent : list (string * Z) := enumerators
  [("TRANS_EVENT_CONNECTED", None); ("TRANS_EVENT_AUTHENTICATED", None); ("TRANS_EVENT_JOINED", None);
   ("TRANS_EVENT_HEARTBEAT_SENT", None); ("TRANS_EVENT_HEARTBEAT_ACKED", None);
   ("TRANS_EVENT_DISCONNECTED", None); ("TRANS_EVENT_RECONNECTING", None); ("TRANS_EVENT_ERROR", None)]%string.
Definition trh_VomMsgCode : list (string * Z) := enumerators
  [("MSG_CODE_AUTH_REQ", Some 1); ("MSG_CODE_AUTH_RESP", Some 2); ("MSG_CODE_JOIN_REQ", Some 3);
   ("MSG_CODE_JOIN_RESP", Some 4); ("MSG_CODE_HEARTBEAT", Some 5); ("MSG_CODE_CHUNK_ASSIGN", Some 6);
   ("MSG_CODE_CHUNK_ACK", Some 7); ("MSG_CODE_CHUNK_REPORT", Some 8)]%string.
Definition trh_VomTransportStatus : list (string * Z) := enumerators
  [("TRANS_STATUS_SUCCESS", Some 0); ("TRANS_STATUS_ERR_VERSION", Some 1);
   ("TRANS_STATUS_ERR_AUTH", Some 2); ("TRANS_STATUS_ERR_SIZE", Some 3);
   ("TRANS_STATUS_ERR_TIMEOUT", Some 4); ("TRANS_STATUS_ERR_DISCONNECT", Some 5)]%string.
Definition trh_vom_transport_envelope_t : ctype := Struct
  [("protocol_version", Scalar UInt16); ("message_code", Scalar UInt16);
   ("payload_length", Scalar UInt32); ("sequence_id", Scalar UInt64); ("timestamp_ms", Scalar UInt64)]%string.
Definition trh_vom_transport_config_t : ctype := Struct
  [("worker_id", Array trh_TRANSPORT_ID_MAX_LEN (Scalar Char));
   ("server_public_key", Array trh_TRANSPORT_KEY_MAX_LEN (Scalar Char));
   ("client_public_key", Array trh_TRANSPORT_KEY_MAX_LEN (Scalar Char));
   ("client_secret_key", Array trh_TRANSPORT_KEY_MAX_LEN (Scalar Char))]%string.

(** ** [worker/src/main.c] *)

Definition wmain_VomRouterMsgCode : list (string * Z) := enumerators
  [("ROUTER_MSG_AUTH_REQ", Some 1); ("ROUTER_MSG_AUTH_RESP", Some 2); ("ROUTER_MSG_JOIN_REQ", Some 3);
   ("ROUTER_MSG_JOIN_RESP", Some 4); ("ROUTER_MSG_HEARTBEAT", Some 5);
   ("ROUTER_MSG_CHUNK_ASSIGN", Some 6); ("ROUTER_MSG_CHUNK_ACK", Some 7);
   ("ROUTER_MSG_CHUNK_REPORT", Some 8)]%string.
Definition wmain_vom_router_envelope_t : ctype := Struct
  [("protocol_version", Scalar UInt16); ("message_code", Scalar UInt16);
   ("payload_length", Scalar UInt32); ("sequence_id", Scalar UInt64); ("timestamp_ms", Scalar UInt64)]%string.

(** ** [worker/src/capabilities.c] *)

Definition cpc_CAP_STRING_MAX : nat := 64.

Definition cpc_VomCapArchitecture : list (string * Z) := enumerators
  [("CAP_ARCH_X86_64", None); ("CAP_ARCH_AARCH64", None); ("CAP_ARCH_ARMV7", None);
   ("CAP_ARCH_RISCV64", None)]%string.
Definition cpc_VomCapAbi : list (string * Z) := enumerators
  [("CAP_ABI_SYSV", None); ("CAP_ABI_EABI", None); ("CAP_ABI_MUSL", None); ("CAP_ABI_WIN64", None)]%string.
Definition cpc_VomCapRuntime : list (string * Z) := enumerators
  [("CAP_RUN_NATIVE", Some 1); ("CAP_RUN_WASM", Some 2); ("CAP_RUN_CONTAINER", Some 4)]%string.
Definition cpc_VomCapAccelerator : list (string * Z) := enumerators
  [("CAP_ACCEL_NONE", None); ("CAP_ACCEL_CUDA", None); ("CAP_ACCEL_OPENCL", None);
   ("CAP_ACCEL_METAL", None); ("CAP_ACCEL_NPU", None)]%string.
Definition cpc_VomCapThermal : list (string * Z) := enumerators
  [("CAP_THERMAL_NOMINAL", None); ("CAP_THERMAL_THROTTLED", None); ("CAP_THERMAL_CRITICAL", None)]%string.
Definition cpc_vom_cpu_features_t : ctype := Struct
  [("instruction_set_extensions_bitmask", Scalar UInt32); ("has_hardware_virtualization", Scalar Bool);
   ("has_secure_sandbox_support", Scalar Bool)]%string.
Definition cpc_vom_peripheral_spec_t : ctype := Struct
  [("resolution_width", Scalar UInt32); ("resolution_height", Scalar UInt32);
   ("refresh_rate_hz", Scalar UInt32); ("touch_input_supported", Scalar Bool);
   ("keyboard_attached", Scalar Bool); ("pointer_attached", Scalar Bool)]%string.
Definition cpc_vom_worker_static_capabilities_t : ctype := Struct
  [("capability_protocol_version", Scalar UInt16); ("architecture", Scalar Enum); ("abi", Scalar Enum);
   ("supported_runtimes_bitmask", Scalar UInt32); ("cpu_extensions", cpc_vom_cpu_features_t);
   ("physical_cores_total", Scalar UInt32); ("physical_ram_bytes_total", Scalar UInt64);
   ("storage_capacity_bytes_total", Scalar UInt64); ("accelerator_type", Scalar Enum);
   ("accelerator_memory_bytes_total", Scalar UInt64); ("display_count", Scalar UInt32);
   ("primary_display", cpc_vom_peripheral_spec_t);
   ("hardware_model_fingerprint", Array cpc_CAP_STRING_MAX (Scalar Char))]%string.
Definition cpc_vom_worker_dynamic_resources_t : ctype := Struct
  [("timestamp_ms", Scalar UInt64); ("physical_cores_currently_online", Scalar UInt32);
   ("physical_ram_bytes_currently_free", Scalar UInt64);
   ("storage_bytes_currently_free", Scalar UInt64);
   ("accelerator_memory_bytes_currently_free", Scalar UInt64);
   ("current_network_link_bandwidth_bps", Scalar UInt64); ("current_network_latency_us", Scalar UInt32);
   ("battery_charge_percentage", Scalar Float); ("is_charging", Scalar Bool);
   ("is_docked", Scalar Bool); ("thermal_state", Scalar Enum);
   ("active_local_reservations_count", Scalar UInt32)]%string.

(** ** [worker/include/worker/capabilities.h] *)

Definition cph_CAP_STRING_MAX : nat := 64.

Definition cph_VomCapArchitecture : list (string * Z) := enumerators
  [("CAP_ARCH_X86_64", None); ("CAP_ARCH_AARCH64", None); ("CAP_ARCH_ARMV7", None);
   ("CAP_ARCH_RISCV64", None)]%string.
Definition cph_VomCapAbi : list (string * Z) := enumerators
  [("CAP_ABI_SYSV", None); ("CAP_ABI_EABI", None); ("CAP_ABI_MUSL", None); ("CAP_ABI_WIN64", None)]%string.
Definition cph_VomCapRuntime : list (string * Z) := enumerators
  [("CAP_RUN_NATIVE", None); ("CAP_RUN_WASM", None); ("CAP_RUN_CONTAINER", None)]%string.
Definition cph_VomCapAccelerator : list (string * Z) := enumerators
  [("CAP_ACCEL_NONE", None); ("CAP_ACCEL_CUDA", None); ("CAP_ACCEL_OPENCL", None);
   ("CAP_ACCEL_METAL", None); ("CAP_ACCEL_NPU", None)]%string.
Definition cph_VomCapThermal : list (string * Z) := enumerators
  [("CAP_THERMAL_NOMINAL", None); ("CAP_THERMAL_THROTTLED", None); ("CAP_THERMAL_CRITICAL", None)]%string.
Definition cph_vom_cpu_features_t : ctype := Struct
  [("instruction_set_extensions_bitmask", Scalar UInt32); ("has_hardware_virtualization", Scalar Bool);
   ("has_secure_sandbox_support", Scalar Bool)]%string.
Definition cph_vom_peripheral_spec_t : ctype := Struct
  [("resolution_width", Scalar UInt32); ("resolution_height", Scalar UInt32);
   ("refresh_rate_hz", Scalar UInt32); ("touch_input_supported", Scalar Bool);
   ("keyboard_attached", Scalar Bool); ("pointer_attached", Scalar Bool)]%string.
Definition cph_vom_worker_static_capabilities_t : ctype := Struct
  [("capability_protocol_version", Scalar UInt16); ("architecture", Scalar Enum); ("abi", Scalar Enum);
   ("supported_runtimes_bitmask", Scalar Enum); ("cpu_extensions", cph_vom_cpu_features_t);
   ("physical_cores_total", Scalar UInt32); ("physical_ram_bytes_total", Scalar UInt64);
   ("storage_capacity_bytes_total", Scalar UInt64); ("accelerator_type", Scalar Enum);
   ("accelerator_memory_bytes_total", Scalar UInt64); ("display_count", Scalar UInt32);
   ("primary_display", cph_vom_peripheral_spec_t);
   ("hardware_model_fingerprint", Array cph_CAP_STRING_MAX (Scalar Char))]%string.
Definition cph_vom_worker_dynamic_resources_t : ctype := Struct
  [("timestamp_ms", Scalar UInt64); ("physical_cores_currently_online", Scalar UInt32);
   ("physical_ram_bytes_currently_free", Scalar UInt64);
   ("storage_bytes_currently_free", Scalar UInt64);
   ("accelerator_memory_bytes_currently_free", Scalar UInt64);
   ("current_network_link_bandwidth_bps", Scalar UInt64); ("current_network_latency_us", Scalar UInt32);
   ("battery_charge_percentage", Scalar Float); ("is_charging", Scalar Bool);
   ("is_docked", Scalar Bool); ("thermal_state", Scalar Enum);
   ("active_local_reservations_count", Scalar UInt32)]%string.
Definition cph_vom_worker_capabilities_snapshot_t : ctype := Struct
  [("static_profile", cph_vom_worker_static_capabilities_t);
   ("dynamic_telemetry", cph_vom_worker_dynamic_resources_t)]%string.

(** ** [common/src/sys_info.c] *)

Definition sic_VomCpuArch : list (string * Z) := enumerators
  [("VOM_ARCH_X86_64", None); ("VOM_ARCH_AARCH64", None); ("VOM_ARCH_ARMV7", None);
   ("VOM_ARCH_UNKNOWN", None)]%string.
Definition sic_VomLinkType : list (string * Z) := enumerators
  [("VOM_LINK_ETH", None); ("VOM_LINK_WIFI", None); ("VOM_LINK_CELLULAR", None);
   ("VOM_LINK_UNKNOWN", None)]%string.
Definition sic_vom_worker_capabilities : ctype := Struct
  [("arch", Scalar Enum); ("cores_online", Scalar UInt32); ("cores_total", Scalar UInt32);
   ("feature_bitmap", Scalar UInt32); ("ram_total_mb", Scalar UInt64); ("ram_free_mb", Scalar UInt64);
   ("battery_percent", Scalar Int32); ("is_charging", Scalar Bool); ("is_ac_online", Scalar Bool);
   ("display_attached", Scalar Bool); ("display_width", Scalar UInt32);
   ("display_height", Scalar UInt32); ("touch_supported", Scalar Bool);
   ("network_link_type", Scalar Enum); ("network_bandwidth_kbps", Scalar UInt64)]%string.

(** ** [common/include/common/sys_info.h] *)

Definition sih_VomCpuArch : list (string * Z) := enumerators
  [("VOM_ARCH_X86_64", None); ("VOM_ARCH_AARCH64", None); ("VOM_ARCH_ARMV7", None);
   ("VOM_ARCH_UNKNOWN", None)]%string.
Definition sih_VomLinkType : list (string * Z) := enumerators
  [("VOM_LINK_ETH", None); ("VOM_LINK_WIFI", None); ("VOM_LINK_CELLULAR", None);
   ("VOM_LINK_UNKNOWN", None)]%string.
Definition sih_vom_worker_capabilities : ctype := Struct
  [("arch", Scalar Enum); ("cores_online", Scalar UInt32); ("cores_total", Scalar UInt32);
   ("feature_bitmap", Scalar UInt32); ("ram_total_mb", Scalar UInt64); ("ram_free_mb", Scalar UInt64);
   ("battery_percent", Scalar Int32); ("is_charging", Scalar Bool); ("is_ac_online", Scalar Bool);
   ("display_attached", Scalar Bool); ("display_width", Scalar UInt32);
   ("display_height", Scalar UInt32); ("touch_supported", Scalar Bool);
   ("network_link_type", Scalar Enum); ("network_bandwidth_kbps", Scalar UInt64)]%string.

(** ** [agent/src/heartbeat.c] *)

Definition agh_VomCpuArch : list (string * Z) := enumerators
  [("VOM_ARCH_X86_64", None); ("VOM_ARCH_AARCH64", None); ("VOM_ARCH_ARMV7", None);
   ("VOM_ARCH_UNKNOWN", None)]%string.
Definition agh_VomLinkType : list (string * Z) := enumerators
  [("VOM_LINK_ETH", None); ("VOM_LINK_WIFI", None); ("VOM_LINK_CELLULAR", None);
   ("VOM_LINK_UNKNOWN", None)]%string.
Definition agh_vom_worker_capabilities : ctype := Struct
  [("arch", Scalar Enum); ("cores_online", Scalar UInt32); ("cores_total", Scalar UInt32);
   ("feature_bitmap", Scalar UInt32); ("ram_total_mb", Scalar UInt64); ("ram_free_mb", Scalar UInt64);
   ("battery_percent", Scalar Int32); ("is_charging", Scalar Bool); ("is_ac_online", Scalar Bool);
   ("display_attached", Scalar Bool); ("display_width", Scalar UInt32);
   ("display_height", Scalar UInt32); ("touch_supported", Scalar Bool);
   ("network_link_type", Scalar Enum); ("network_bandwidth_kbps", Scalar UInt64)]%string.

(** ** [agent/src/capabilities.c] *)

Definition agc_VomCpuArch : list (string * Z) := enumerators
  [("VOM_ARCH_X86_64", None); ("VOM_ARCH_AARCH64", None); ("VOM_ARCH_ARMV7", None);
   ("VOM_ARCH_UNKNOWN", None)]%string.
Definition agc_VomLinkType : list (string * Z) := enumerators
  [("VOM_LINK_ETH", None); ("VOM_LINK_WIFI", None); ("VOM_LINK_CELLULAR", None);
   ("VOM_LINK_UNKNOWN", None)]%string.
Definition agc_vom_worker_capabilities : ctype := Struct
  [("arch", Scalar Enum); ("cores_online", Scalar UInt32); ("cores_total", Scalar UInt32);
   ("feature_bitmap", Scalar UInt32); ("ram_total_mb", Scalar UInt64); ("ram_free_mb", Scalar UInt64);
   ("battery_percent", Scalar Int32); ("is_charging", Scalar Bool); ("is_ac_online", Scalar Bool);
   ("display_attached", Scalar Bool); ("display_width", Scalar UInt32);
   ("display_height", Scalar UInt32); ("touch_supported", Scalar Bool);
   ("network_link_type", Scalar Enum); ("network_bandwidth_kbps", Scalar UInt64)]%string.

(** ** [worker/src/executor.c] *)

Definition exc_VomCpuArch : list (string * Z) := enumerators
  [("VOM_ARCH_X86_64", None); ("VOM_ARCH_AARCH64", None); ("VOM_ARCH_ARMV7", None);
   ("VOM_ARCH_UNKNOWN", None)]%string.
Definition exc_VomLinkType : list (string * Z) := enumerators
  [("VOM_LINK_ETH", None); ("VOM_LINK_WIFI", None); ("VOM_LINK_CELLULAR", None);
   ("VOM_LINK_UNKNOWN", None)]%string.
Definition exc_vom_worker_capabilities : ctype := Struct
  [("arch", Scalar Enum); ("cores_online", Scalar UInt32); ("cores_total", Scalar UInt32);
   ("feature_bitmap", Scalar UInt32); ("ram_total_mb", Scalar UInt64); ("ram_free_mb", Scalar UInt64);
   ("battery_percent", Scalar Int32); ("is_charging", Scalar Bool); ("is_ac_online", Scalar Bool);
   ("display_attached", Scalar Bool); ("display_width", Scalar UInt32);
   ("display_height", Scalar UInt32); ("touch_supported", Scalar Bool);
   ("network_link_type", Scalar Enum); ("network_bandwidth_kbps", Scalar UInt64)]%string.

(** ** [cli/src/main.c] *)

Definition clc_CLI_MAX_PATH_LEN : nat := 256.
Definition clc_CLI_MAX_ARGS_LEN : nat := 128.

Definition clc_CliCommandType : list (string * Z) := enumerators
  [("CMD_TYPE_CLUSTER_STATUS", None); ("CMD_TYPE_WORKLOAD_SUBMIT", None);
   ("CMD_TYPE_WORKLOAD_INSPECT", None); ("CMD_TYPE_WORKLOAD_CANCEL", None);
   ("CMD_TYPE_WORKER_DRAIN", None); ("CMD_TYPE_WORKER_RESUME", None); ("CMD_TYPE_WORKER_APPROVE", None);
   ("CMD_TYPE_UI_MODE_SET", None); ("CMD_TYPE_UNKNOWN", None)]%string.
Definition clc_CliOutputFormat : list (string * Z) := enumerators
  [("CLI_OUTPUT_HUMAN_READABLE", None); ("CLI_OUTPUT_JSON_STRUCTURABLE", None);
   ("CLI_OUTPUT_PLAIN_SCRIPT_TABLE", None)]%string.
Definition clc_CliExitCode : list (string * Z) := enumerators
  [("CLI_EXIT_SUCCESS", Some 0); ("CLI_EXIT_ERR_BAD_SYNTAX", Some 1);
   ("CLI_EXIT_ERR_UNKNOWN_CMD", Some 2); ("CLI_EXIT_ERR_MISSING_ARG", Some 3);
   ("CLI_EXIT_ERR_INVALID_VAL", Some 4); ("CLI_EXIT_ERR_NETWORK_FAULT", Some 5);
   ("CLI_EXIT_ERR_INTERNAL", Some 6)]%string.
Definition clc_CmdSubmitOpts : ctype := Struct
  [("workload_path", Array clc_CLI_MAX_PATH_LEN (Scalar Char));
   ("simulated_priority_level", Scalar UInt32)]%string.
Definition clc_CmdTargetIdOpts : ctype := Struct
  [("target_id", Scalar UInt64)]%string.
Definition clc_CmdWorkerOpts : ctype := Struct
  [("target_worker_id", Array clc_CLI_MAX_ARGS_LEN (Scalar Char))]%string.
Definition clc_CmdUiOpts : ctype := Struct
  [("mode_name", Array clc_CLI_MAX_ARGS_LEN (Scalar Char))]%string.
Definition clc_CliParsedCommand : ctype := Struct
  [("type", Scalar Enum); ("format_strategy", Scalar Enum);
   ("options", Union [("submit", clc_CmdSubmitOpts); ("inspect", clc_CmdTargetIdOpts);
   ("cancel", clc_CmdTargetIdOpts); ("worker_drain", clc_CmdWorkerOpts);
   ("worker_resume", clc_CmdWorkerOpts); ("worker_approve", clc_CmdWorkerOpts);
   ("ui_mode", clc_CmdUiOpts)])]%string.

(** ** [cli/include/cli/commands.h] *)

Definition clh_CLI_MAX_PATH_LEN : nat := 256.
Definition clh_CLI_MAX_ARGS_LEN : nat := 128.

Definition clh_CliCommandType : list (string * Z) := enumerators
  [("CMD_TYPE_CLUSTER_STATUS", None); ("CMD_TYPE_WORKLOAD_SUBMIT", None);
   ("CMD_TYPE_WORKLOAD_INSPECT", None); ("CMD_TYPE_WORKLOAD_CANCEL", None);
   ("CMD_TYPE_WORKER_DRAIN", None); ("CMD_TYPE_WORKER_RESUME", None); ("CMD_TYPE_WORKER_APPROVE", None);
   ("CMD_TYPE_UI_MODE_SET", None); ("CMD_TYPE_UNKNOWN", None)]%string.
Definition clh_CliOutputFormat : list (string * Z) := enumerators
  [("CLI_OUTPUT_HUMAN_READABLE", None); ("CLI_OUTPUT_JSON_STRUCTURABLE", None);
   ("CLI_OUTPUT_PLAIN_SCRIPT_TABLE", None)]%string.
Definition clh_CliExitCode : list (string * Z) := enumerators
  [("CLI_EXIT_SUCCESS", Some 0); ("CLI_EXIT_ERR_BAD_SYNTAX", Some 1);
   ("CLI_EXIT_ERR_UNKNOWN_CMD", Some 2); ("CLI_EXIT_ERR_MISSING_ARG", Some 3);
   ("CLI_EXIT_ERR_INVALID_VAL", Some 4); ("CLI_EXIT_ERR_NETWORK_FAULT", Some 5);
   ("CLI_EXIT_ERR_INTERNAL", Some 6)]%string.
Definition clh_CmdSubmitOpts : ctype := Struct
  [("workload_path", Array clh_CLI_MAX_PATH_LEN (Scalar Char));
   ("simulated_priority_level", Scalar UInt32)]%string.
Definition clh_CmdTargetIdOpts : ctype := Struct
  [("target_id", Scalar UInt64)]%string.
Definition clh_CmdWorkerOpts : ctype := Struct
  [("target_worker_id", Array clh_CLI_MAX_ARGS_LEN (Scalar Char))]%string.
Definition clh_CmdUiOpts : ctype := Struct
  [("mode_name", Array clh_CLI_MAX_ARGS_LEN (Scalar Char))]%string.
Definition clh_CliParsedCommand : ctype := Struct
  [("type", Scalar Enum); ("format_strategy", Scalar Enum);
   ("options", Union [("submit", clh_CmdSubmitOpts); ("inspect", clh_CmdTargetIdOpts);
   ("cancel", clh_CmdTargetIdOpts); ("worker_drain", clh_CmdWorkerOpts);
   ("worker_resume", clh_CmdWorkerOpts); ("worker_approve", clh_CmdWorkerOpts);
   ("ui_mode", clh_CmdUiOpts)])]%string.

(** ** [master/src/cli.c] *)

Definition mcc_vom_master_args_t : ctype := Struct
  [("help", Scalar Bool); ("version", Scalar Bool); ("config_file", Scalar Pointer);
   ("log_level", Scalar Pointer); ("bind_endpoint", Scalar Pointer); ("daemonize", Scalar Bool);
   ("print_uuid", Scalar Bool); ("simulate_workers_count", Scalar Int32)]%string.

(** ** [master/include/master/cli.h] *)

Definition mch_vom_master_args_t : ctype := Struct
  [("help", Scalar Bool); ("version", Scalar Bool); ("config_file", Scalar Pointer);
   ("log_level", Scalar Pointer); ("bind_endpoint", Scalar Pointer); ("daemonize", Scalar Bool);
   ("print_uuid", Scalar Bool); ("simulate_workers_count", Scalar Int32)]%string.

(** ** [worker/src/cli.c] *)

Definition wcc_CLI_STR_MAX : nat := 128.

Definition wcc_vom_worker_args_t : ctype := Struct
  [("master_endpoint", Array wcc_CLI_STR_MAX (Scalar Char));
   ("worker_id", Array wcc_CLI_STR_MAX (Scalar Char));
   ("config_path", Array wcc_CLI_STR_MAX (Scalar Char)); ("heartbeat_interval_ms", Scalar UInt32);
   ("disable_discovery", Scalar Bool); ("execute_self_test", Scalar Bool)]%string.

(** ** [worker/include/worker/cli.h] *)

Definition wch_CLI_STR_MAX : nat := 128.

Definition wch_vom_worker_args_t : ctype := Struct
  [("master_endpoint", Array wch_CLI_STR_MAX (Scalar Char));
   ("worker_id", Array wch_CLI_STR_MAX (Scalar Char));
   ("config_path", Array wch_CLI_STR_MAX (Scalar Char)); ("heartbeat_interval_ms", Scalar UInt32);
   ("disable_discovery", Scalar Bool); ("execute_self_test", Scalar Bool)]%string.

(** ** [common/src/config.c] *)

Definition cfc_CONFIG_STR_MAX : nat := 128.

Definition cfc_vom_config_t : ctype := Struct
  [("cluster_name", Array cfc_CONFIG_STR_MAX (Scalar Char));
   ("master_endpoint", Array cfc_CONFIG_STR_MAX (Scalar Char));
   ("worker_id", Array cfc_CONFIG_STR_MAX (Scalar Char)); ("heartbeat_interval_sec", Scalar UInt32);
   ("advertised_capabilities", Array cfc_CONFIG_STR_MAX (Scalar Char));
   ("log_level", Array cfc_CONFIG_STR_MAX (Scalar Char))]%string.

(** ** [common/include/common/config.h] *)

Definition cfh_CONFIG_STR_MAX : nat := 128.

Definition cfh_vom_config_t : ctype := Struct
  [("cluster_name", Array cfh_CONFIG_STR_MAX (Scalar Char));
   ("master_endpoint", Array cfh_CONFIG_STR_MAX (Scalar Char));
   ("worker_id", Array cfh_CONFIG_STR_MAX (Scalar Char)); ("heartbeat_interval_sec", Scalar UInt32);
   ("advertised_capabilities", Array cfh_CONFIG_STR_MAX (Scalar Char));
   ("log_level", Array cfh_CONFIG_STR_MAX (Scalar Char))]%string.

(** ** [worker/src/display_bridge.c] *)

Definition dbc_BRIDGE_STRING_MAX : nat := 64.

Definition dbc_VomUiMode : list (string * Z) := enumerators
  [("UI_MODE_DISABLED", None); ("UI_MODE_LOCAL_STATUS", None); ("UI_MODE_MASTER_DIRECTED", None);
   ("UI_MODE_INTERACTIVE_SURFACE", None)]%string.
Definition dbc_VomPeripheralEventKind : list (string * Z) := enumerators
  [("DEVICE_ATTACHED", None); ("DEVICE_DETACHED", None); ("DEVICE_CONFIGURATION_CHANGED", None)]%string.
Definition dbc_VomInputKind : list (string * Z) := enumerators
  [("INPUT_KEY_PRESS", None); ("INPUT_POINTER_MOVE", None); ("INPUT_TOUCH_DOWN", None);
   ("INPUT_TOUCH_UP", None)]%string.
Definition dbc_vom_input_data_t : ctype := Struct
  [("key_code", Scalar UInt32); ("pointer_x", Scalar UInt32); ("pointer_y", Scalar UInt32);
   ("touch_id", Scalar UInt32); ("event_timestamp_ms", Scalar UInt64)]%string.
Definition dbc_vom_ui_input_event_t : ctype := Struct
  [("kind", Scalar Enum); ("data", dbc_vom_input_data_t)]%string.
Definition dbc_vom_display_descriptor_t : ctype := Struct
  [("display_index", Scalar UInt32); ("width_pixels", Scalar UInt32); ("height_pixels", Scalar UInt32);
   ("color_depth_bits", Scalar UInt32); ("is_interactive", Scalar Bool);
   ("driver_identifier", Array dbc_BRIDGE_STRING_MAX (Scalar Char))]%string.

(** ** [worker/include/worker/display_bridge.h] *)

Definition dbh_BRIDGE_STRING_MAX : nat := 64.

Definition dbh_VomUiMode : list (string * Z) := enumerators
  [("UI_MODE_DISABLED", None); ("UI_MODE_LOCAL_STATUS", None); ("UI_MODE_MASTER_DIRECTED", None);
   ("UI_MODE_INTERACTIVE_SURFACE", None)]%string.
Definition dbh_VomPeripheralEventKind : list (string * Z) := enumerators
  [("DEVICE_ATTACHED", None); ("DEVICE_DETACHED", None); ("DEVICE_CONFIGURATION_CHANGED", None)]%string.
Definition dbh_VomInputKind : list (string * Z) := enumerators
  [("INPUT_KEY_PRESS", None); ("INPUT_POINTER_MOVE", None); ("INPUT_TOUCH_DOWN", None);
   ("INPUT_TOUCH_UP", None)]%string.
Definition dbh_vom_input_data_t : ctype := Struct
  [("key_code", Scalar UInt32); ("pointer_x", Scalar UInt32); ("pointer_y", Scalar UInt32);
   ("touch_id", Scalar UInt32); ("event_timestamp_ms", Scalar UInt64)]%string.
Definition dbh_vom_ui_input_event_t : ctype := Struct
  [("kind", Scalar Enum); ("data", dbh_vom_input_data_t)]%string.
Definition dbh_vom_display_descriptor_t : ctype := Struct
  [("display_index", Scalar UInt32); ("width_pixels", Scalar UInt32); ("height_pixels", Scalar UInt32);
   ("color_depth_bits", Scalar UInt32); ("is_interactive", Scalar Bool);
   ("driver_identifier", Array dbh_BRIDGE_STRING_MAX (Scalar Char))]%string.

(** ** [worker/src/discovery.c] *)

Definition dsc_VomDiscoveryStatus : list (string * Z) := enumerators
  [("DISCOVERY_STATUS_IDLE", None); ("DISCOVERY_STATUS_SEARCHING", None);
   ("DISCOVERY_STATUS_FOUND", None); ("DISCOVERY_STATUS_FALLBACK", None);
   ("DISCOVERY_STATUS_LOST", None)]%string.

(** ** [worker/include/worker/discovery.h] *)

Definition dsh_VomDiscoveryStatus : list (string * Z) := enumerators
  [("DISCOVERY_STATUS_IDLE", None); ("DISCOVERY_STATUS_SEARCHING", None);
   ("DISCOVERY_STATUS_FOUND", None); ("DISCOVERY_STATUS_FALLBACK", None);
   ("DISCOVERY_STATUS_LOST", None)]%string.

(** ** [common/src/log.c] *)

Definition lgc_VomLogLevel : list (string * Z) := enumerators
  [("VOM_LOG_LEVEL_TRACE", Some 0); ("VOM_LOG_LEVEL_DEBUG", None); ("VOM_LOG_LEVEL_INFO", None);
   ("VOM_LOG_LEVEL_WARN", None); ("VOM_LOG_LEVEL_ERROR", None); ("VOM_LOG_LEVEL_FATAL", None);
   ("VOM_LOG_LEVEL_NONE", None)]%string.

(** ** [common/include/common/log.h] *)

Definition lgh_VomLogLevel : list (string * Z) := enumerators
  [("VOM_LOG_LEVEL_TRACE", None); ("VOM_LOG_LEVEL_DEBUG", None); ("VOM_LOG_LEVEL_INFO", None);
   ("VOM_LOG_LEVEL_WARN", None); ("VOM_LOG_LEVEL_ERROR", None); ("VOM_LOG_LEVEL_FATAL", None);
   ("VOM_LOG_LEVEL_NONE", None)]%string.

(** ** [master/src/scheduler.c] *)

Definition scc_vom_worker_view : ctype := Struct
  [("worker_id", Array 64 (Scalar Char)); ("platform", Scalar Int32); ("runtime", Scalar Int32);
   ("cpu_units", Scalar UInt8); ("reserv_cpu", Scalar UInt8); ("free_memory_mb", Scalar UInt64);
   ("reserv_mem_mb", Scalar UInt64); ("battery_pct", Scalar Float); ("active_chunks", Scalar Int32);
   ("has_touch_input", Scalar Int32); ("draining", Scalar Int32); ("healthy", Scalar Int32);
   ("reliability_score", Scalar Double)]%string.
Definition scc_vom_chunk_plan : ctype := Struct
  [("chunk_id", Scalar UInt64); ("workload_id", Scalar UInt64); ("required_platform", Scalar Int32);
   ("required_runtime", Scalar Int32); ("required_cpu", Scalar UInt8);
   ("required_memory_mb", Scalar UInt64); ("requires_touch", Scalar Int32); ("is_blocked", Scalar Bool);
   ("preferred_node", Scalar UInt32)]%string.
Definition scc_vom_assignment_lease : ctype := Struct
  [("chunk_id", Scalar UInt64); ("assigned_worker_id", Array 64 (Scalar Char));
   ("lease_expires_ms", Scalar UInt64); ("is_active", Scalar Bool)]%string.

(** ** [master/include/master/scheduler.h] *)

Definition sch_vom_worker_view : ctype := Struct
  [("worker_id", Array 64 (Scalar Char)); ("platform", Scalar Int32); ("runtime", Scalar Int32);
   ("cpu_units", Scalar UInt8); ("reserv_cpu", Scalar UInt8); ("free_memory_mb", Scalar UInt64);
   ("reserv_mem_mb", Scalar UInt64); ("battery_pct", Scalar Float); ("active_chunks", Scalar Int32);
   ("has_touch_input", Scalar Int32); ("draining", Scalar Int32); ("healthy", Scalar Int32);
   ("reliability_score", Scalar Double)]%string.
Definition sch_vom_chunk_plan : ctype := Struct
  [("chunk_id", Scalar UInt64); ("workload_id", Scalar UInt64); ("required_platform", Scalar Int32);
   ("required_runtime", Scalar Int32); ("required_cpu", Scalar UInt8);
   ("required_memory_mb", Scalar UInt64); ("requires_touch", Scalar Int32); ("is_blocked", Scalar Bool);
   ("preferred_node", Scalar UInt32)]%string.
Definition sch_vom_assignment_lease : ctype := Struct
  [("chunk_id", Scalar UInt64); ("assigned_worker_id", Array 64 (Scalar Char));
   ("lease_expires_ms", Scalar UInt64); ("is_active", Scalar Bool)]%string.

(** ** [tests/test_scheduler_logic.c] *)

Definition tsl_vom_worker_view : ctype := Struct
  [("worker_id", Array 64 (Scalar Char)); ("platform", Scalar Int32); ("runtime", Scalar Int32);
   ("cpu_units", Scalar UInt8); ("reserv_cpu", Scalar UInt8); ("free_memory_mb", Scalar UInt64);
   ("reserv_mem_mb", Scalar UInt64); ("battery_pct", Scalar Float); ("active_chunks", Scalar Int32);
   ("has_touch_input", Scalar Int32); ("draining", Scalar Int32); ("healthy", Scalar Int32);
   ("reliability_score", Scalar Double)]%string.
Definition tsl_vom_chunk_plan : ctype := Struct
  [("chunk_id", Scalar UInt64); ("workload_id", Scalar UInt64); ("required_platform", Scalar Int32);
   ("required_runtime", Scalar Int32); ("required_cpu", Scalar UInt8);
   ("required_memory_mb", Scalar UInt64); ("requires_touch", Scalar Int32); ("is_blocked", Scalar Bool);
   ("preferred_node", Scalar UInt32)]%string.
Definition tsl_vom_assignment_lease : ctype := Struct
  [("chunk_id", Scalar UInt64); ("assigned_worker_id", Array 64 (Scalar Char));
   ("lease_expires_ms", Scalar UInt64); ("is_active", Scalar Bool)]%string.

(** ** [master/src/ui_coordinator.c] *)

Definition ucc_UI_STR_MAX : nat := 64.
Definition ucc_UI_MAX_WORKERS : nat := 32.
Definition ucc_UI_MAX_LEASES : nat := 128.

Definition ucc_UIClusterHealth : list (string * Z) := enumerators
  [("UI_STATE_OK", None); ("UI_STATE_DEGRADED", None); ("UI_STATE_RECOVERING", None)]%string.
Definition ucc_UIWorkerState : list (string * Z) := enumerators
  [("UI_WORKER_ONLINE", None); ("UI_WORKER_DRAINING", None); ("UI_WORKER_OFFLINE", None)]%string.
Definition ucc_UILeaseState : list (string * Z) := enumerators
  [("UI_LEASE_RUNNING", None); ("UI_LEASE_COMPLETED", None); ("UI_LEASE_FAILED", None)]%string.
Definition ucc_ui_worker_record_t : ctype := Struct
  [("id", Scalar UInt32); ("state", Scalar Enum); ("memory_bytes", Scalar UInt64);
   ("core_count", Scalar UInt32); ("peripheral_capabilities", Array ucc_UI_STR_MAX (Scalar Char))]%string.
Definition ucc_ui_chunk_record_t : ctype := Struct
  [("chunk_id", Scalar UInt64); ("lease_id", Scalar UInt64); ("state", Scalar Enum);
   ("progress", Scalar Float); ("worker_id", Scalar UInt32)]%string.
Definition ucc_vom_cluster_view_model_t : ctype := Struct
  [("cluster_uuid", Array ucc_UI_STR_MAX (Scalar Char)); ("master_epoch", Scalar UInt64);
   ("state_version", Scalar UInt64); ("health", Scalar Enum); ("total_memory", Scalar UInt64);
   ("used_memory", Scalar UInt64); ("total_cores", Scalar UInt32); ("used_cores", Scalar UInt32);
   ("workers", Array ucc_UI_MAX_WORKERS ucc_ui_worker_record_t); ("worker_count", Scalar Int32);
   ("chunks", Array ucc_UI_MAX_LEASES ucc_ui_chunk_record_t); ("chunk_count", Scalar Int32)]%string.
Definition ucc_vom_ui_user_intent_t : ctype := Struct
  [("command_type", Scalar UInt32); ("target_id", Scalar UInt64);
   ("text_arg", Array ucc_UI_STR_MAX (Scalar Char))]%string.

(** ** [master/include/master/ui_coordinator.h] *)

Definition uch_UI_NAME_MAX : nat := 64.
Definition uch_UI_LIMIT_WRK : nat := 32.
Definition uch_UI_LIMIT_CHK : nat := 128.

Definition uch_VomUiAlertTier : list (string * Z) := enumerators
  [("UI_ALERT_NONE", None); ("UI_ALERT_DEGRADED", None); ("UI_ALERT_RECOVERING", None);
   ("UI_ALERT_FAULT", None)]%string.
Definition uch_VomUiWrkState : list (string * Z) := enumerators
  [("UI_WRK_OFFLINE", None); ("UI_WRK_ONLINE", None); ("UI_WRK_DRAINING", None)]%string.
Definition uch_VomUiChkState : list (string * Z) := enumerators
  [("UI_CHK_PENDING", None); ("UI_CHK_RUNNING", None); ("UI_CHK_COMPLETED", None);
   ("UI_CHK_FAILED", None)]%string.
Definition uch_VomUiIntentType : list (string * Z) := enumerators
  [("UI_INTENT_SUBMIT", None); ("UI_INTENT_CANCEL", None); ("UI_INTENT_DRAIN", None);
   ("UI_INTENT_RESUME", None); ("UI_INTENT_MODE_SET", None)]%string.
Definition uch_vom_ui_worker_snapshot_t : ctype := Struct
  [("id", Scalar UInt32); ("state", Scalar Enum); ("capacity_memory_bytes", Scalar UInt64);
   ("allocated_memory_bytes", Scalar UInt64); ("capacity_cores", Scalar UInt32);
   ("allocated_cores", Scalar UInt32); ("capabilities", Array uch_UI_NAME_MAX (Scalar Char))]%string.
Definition uch_vom_ui_chunk_snapshot_t : ctype := Struct
  [("chunk_id", Scalar UInt64); ("workload_id", Scalar UInt64); ("state", Scalar Enum);
   ("progress_pct", Scalar Float); ("assigned_worker_id", Scalar UInt32)]%string.
Definition uch_vom_ui_view_model_t : ctype := Struct
  [("logical_device_uuid", Array uch_UI_NAME_MAX (Scalar Char)); ("master_epoch", Scalar UInt64);
   ("state_generation_version", Scalar UInt64); ("recovery_alert", Scalar Enum);
   ("aggregate_memory_bytes", Scalar UInt64); ("allocated_memory_bytes", Scalar UInt64);
   ("aggregate_cpu_cores", Scalar UInt32); ("allocated_cpu_cores", Scalar UInt32);
   ("workers", Array uch_UI_LIMIT_WRK uch_vom_ui_worker_snapshot_t);
   ("active_worker_count", Scalar Int32);
   ("chunks", Array uch_UI_LIMIT_CHK uch_vom_ui_chunk_snapshot_t); ("active_chunk_count", Scalar Int32)]%string.
Definition uch_vom_ui_user_intent_t : ctype := Struct
  [("type", Scalar Enum); ("target_id", Scalar UInt64);
   ("arguments", Array uch_UI_NAME_MAX (Scalar Char))]%string.

(** ** [worker/include/worker/worker_state.h] *)

Definition wsh_VomWorkerLifecycleState : list (string * Z) := enumerators
  [("LIFECYCLE_INITIALIZING", None); ("LIFECYCLE_DISCOVERING", None); ("LIFECYCLE_CONNECTING", None);
   ("LIFECYCLE_PENDING_APPROVAL", None); ("LIFECYCLE_OPERATIONAL", None); ("LIFECYCLE_DRAINING", None);
   ("LIFECYCLE_SHUTTING_DOWN", None)]%string.
Definition wsh_VomLocalChunkState : list (string * Z) := enumerators
  [("CHUNK_EXEC_IDLE", None); ("CHUNK_EXEC_RESERVED", None); ("CHUNK_EXEC_RUNNING", None);
   ("CHUNK_EXEC_SUSPENDED", None); ("CHUNK_EXEC_CANCELLING", None); ("CHUNK_EXEC_COMPLETED", None);
   ("CHUNK_EXEC_FAILED", None)]%string.
Definition wsh_vom_local_chunk_record_t : ctype := Struct
  [("chunk_id", Scalar UInt64); ("lease_id", Scalar UInt64); ("exec_state", Scalar Enum);
   ("state_transition_timestamp_ms", Scalar UInt64); ("current_progress", Scalar Float)]%string.

(** ** [worker/include/worker/heartbeat.h] *)

Definition hbh_VomHeartbeatMode : list (string * Z) := enumerators
  [("HEARTBEAT_MODE_NORMAL", None); ("HEARTBEAT_MODE_THROTTLED", None);
   ("HEARTBEAT_MODE_CONSERVATIVE", None)]%string.

(** ** [master/src/recovery.c] *)

Definition rcc_VomErrorCategory : list (string * Z) := enumerators
  [("VOM_CAT_SUCCESS", Some 0); ("VOM_CAT_TRANSPORT", None); ("VOM_CAT_WORKER_EXECUTION", None);
   ("VOM_CAT_TIMEOUT", None)]%string.
Definition rcc_VomRetryAction : list (string * Z) := enumerators
  [("VOM_RETRY_NONE", Some 0); ("VOM_RETRY_IMMEDIATE", None); ("VOM_RETRY_BACKOFF", None);
   ("VOM_RETRY_REPLAN", None)]%string.

(** ** [common/include/common/result.h] *)

Definition rlh_VOM_RESULT_DETAIL_MAX : nat := 128.

Definition rlh_VomErrorCategory : list (string * Z) := enumerators
  [("VOM_CAT_SUCCESS", Some 0); ("VOM_CAT_INVALID_INPUT", None); ("VOM_CAT_TRANSPORT", None);
   ("VOM_CAT_PROTOCOL", None); ("VOM_CAT_SCHEDULER_REJECT", None); ("VOM_CAT_WORKER_EXECUTION", None);
   ("VOM_CAT_TIMEOUT", None); ("VOM_CAT_CANCELLATION", None); ("VOM_CAT_AUTHENTICATION", None);
   ("VOM_CAT_INTERNAL", None)]%string.
Definition rlh_VomRetryAction : list (string * Z) := enumerators
  [("VOM_RETRY_NONE", Some 0); ("VOM_RETRY_IMMEDIATE", None); ("VOM_RETRY_BACKOFF", None);
   ("VOM_RETRY_REPLAN", None)]%string.
Definition rlh_vom_result_t : ctype := Struct
  [("category", Scalar Enum); ("stable_code", Scalar UInt32); ("retry_policy", Scalar Enum);
   ("human_detail", Array rlh_VOM_RESULT_DETAIL_MAX (Scalar Char))]%string.

(** ** [common/include/common/ids.h] *)

Definition idh_VOM_ID_MAX_LEN : nat := 64.

Definition idh_vom_id_t : ctype := Struct
  [("text", Array idh_VOM_ID_MAX_LEN (Scalar Char))]%string.
Definition idh_vom_logical_device_id_t : ctype := idh_vom_id_t.
Definition idh_vom_master_id_t : ctype := idh_vom_id_t.
Definition idh_vom_worker_id_t : ctype := idh_vom_id_t.
Definition idh_vom_workload_id_t : ctype := idh_vom_id_t.
Definition idh_vom_chunk_id_t : ctype := idh_vom_id_t.
Definition idh_vom_session_id_t : ctype := idh_vom_id_t.
Definition idh_vom_message_id_t : ctype := idh_vom_id_t.
Definition idh_vom_lease_id_t : ctype := idh_vom_id_t.

(** ** [common/include/common/resources.h] *)

Definition rsh_vom_cpu_npu_t : ctype := Scalar UInt32.
Definition rsh_VomAcceleratorType : list (string * Z) := enumerators
  [("VOM_ACCEL_NONE", Some 0); ("VOM_ACCEL_CUDA", None); ("VOM_ACCEL_OPENCL", None);
   ("VOM_ACCEL_METAL", None); ("VOM_ACCEL_NPU_DSP", None)]%string.
Definition rsh_vom_accelerator_spec : ctype := Struct
  [("type", Scalar Enum); ("execution_units", Scalar UInt32); ("total_memory_bytes", Scalar UInt64)]%string.
Definition rsh_vom_storage_spec : ctype := Struct
  [("capacity_bytes", Scalar UInt64); ("estimated_read_mbps", Scalar UInt32);
   ("estimated_write_mbps", Scalar UInt32)]%string.
Definition rsh_vom_network_spec : ctype := Struct
  [("link_bandwidth_kbps", Scalar UInt64); ("measured_latency_us", Scalar UInt32)]%string.
Definition rsh_VomThermalState : list (string * Z) := enumerators
  [("VOM_THERMAL_NOMINAL", Some 0); ("VOM_THERMAL_THROTTLED", None); ("VOM_THERMAL_CRITICAL", None)]%string.
Definition rsh_vom_environmental_policy : ctype := Struct
  [("battery_percentage", Scalar Float); ("is_charging", Scalar Bool); ("thermal_policy", Scalar Enum)]%string.
Definition rsh_vom_advertised_capacity : ctype := Struct
  [("aggregate_cpu_npu", rsh_vom_cpu_npu_t); ("aggregate_memory_bytes", Scalar UInt64);
   ("accelerator", rsh_vom_accelerator_spec); ("primary_storage", rsh_vom_storage_spec);
   ("baseline_network", rsh_vom_network_spec)]%string.
Definition rsh_vom_current_availability : ctype := Struct
  [("available_cpu_npu", rsh_vom_cpu_npu_t); ("available_memory_bytes", Scalar UInt64);
   ("available_accel_memory_bytes", Scalar UInt64); ("free_storage_bytes", Scalar UInt64);
   ("current_network", rsh_vom_network_spec); ("power_thermal", rsh_vom_environmental_policy)]%string.
Definition rsh_vom_chunk_resource_demand : ctype := Struct
  [("required_cpu_npu", rsh_vom_cpu_npu_t); ("required_memory_bytes", Scalar UInt64);
   ("required_accel_memory_bytes", Scalar UInt64); ("required_storage_bytes", Scalar UInt64);
   ("max_acceptable_latency_us", Scalar UInt32)]%string.
Definition rsh_vom_resource_reservation : ctype := Struct
  [("reservation_id", Scalar UInt64); ("chunk_id", Scalar UInt64);
   ("locked_cpu_npu", rsh_vom_cpu_npu_t); ("locked_memory_bytes", Scalar UInt64);
   ("hold_expires_ms", Scalar UInt64); ("is_committed", Scalar Bool)]%string.
Definition rsh_vom_assignment_resource_lease : ctype := Struct
  [("lease_id", Scalar UInt64); ("chunk_id", Scalar UInt64); ("workload_id", Scalar UInt64);
   ("lease_expires_timestamp_ms", Scalar UInt64); ("is_revoked", Scalar Bool)]%string.

(** ** [common/include/common/domain.h] *)

Definition dmh_DOMAIN_NAME_MAX : nat := 64.
Definition dmh_DOMAIN_CHECKSUM_LEN : nat := 65.
Definition dmh_DOMAIN_UUID_LEN : nat := 40.

Definition dmh_VomStatus : list (string * Z) := enumerators
  [("VOM_STATUS_SUCCESS", Some 0); ("VOM_STAT_ERR_SYNTAX", Some 1);
   ("VOM_STAT_ERR_UNKNOWN_VERB", Some 2); ("VOM_STAT_ERR_MISSING_ARG", Some 3);
   ("VOM_STAT_ERR_INVALID_VAL", Some 4); ("VOM_STAT_ERR_NETWORK_FAULT", Some 5);
   ("VOM_STATUS_ERR_VALIDATION", Some 6); ("VOM_STATUS_ERR_UNSUPPORTED", Some 7);
   ("VOM_STATUS_ERR_CAPACITY", Some 8); ("VOM_STATUS_ERR_TIMEOUT", Some 9);
   ("VOM_STATUS_ERR_REJECTED", Some 10); ("VOM_STATUS_ERR_INTERNAL", Some 11)]%string.
Definition dmh_VomWorkloadState : list (string * Z) := enumerators
  [("VOM_WORKLOAD_STATE_SUBMITTED", Some 0); ("VOM_WORKLOAD_STATE_PLANNING", Some 1);
   ("VOM_WORKLOAD_STATE_EXECUTING", Some 2); ("VOM_WORKLOAD_STATE_COMPLETED", Some 3);
   ("VOM_WORKLOAD_STATE_CANCELLED", Some 4)]%string.
Definition dmh_vom_workload_state : ctype := Struct
  [("workload_id", Scalar UInt64); ("name", Array dmh_DOMAIN_NAME_MAX (Scalar Char));
   ("state", Scalar Enum); ("total_size_bytes", Scalar UInt64); ("deadline_seconds", Scalar UInt32);
   ("start_time_ms", Scalar UInt64);
   ("final_aggregated_hash", Array dmh_DOMAIN_CHECKSUM_LEN (Scalar Char))]%string.
Definition dmh_VomChunkState : list (string * Z) := enumerators
  [("VOM_CHUNK_PENDING", None); ("VOM_CHUNK_READY", None); ("VOM_CHUNK_RUNNING", None);
   ("VOM_CHUNK_COMPLETED", None); ("VOM_CHUNK_FAILED", None)]%string.
Definition dmh_vom_chunk_plan : ctype := Struct
  [("chunk_id", Scalar UInt64); ("workload_id", Scalar UInt64); ("state", Scalar Enum);
   ("platform_required", Scalar Int32); ("runtime_required", Scalar Int32);
   ("required_cpu_units", Scalar UInt32); ("required_memory_mb", Scalar UInt64);
   ("requires_touch_input", Scalar Bool); ("preffered_data_node", Scalar UInt32)]%string.
Definition dmh_VomWorkerStatus : list (string * Z) := enumerators
  [("VOM_WORKER_OFFLINE", None); ("VOM_WORKER_APPROVED", None); ("VOM_WORKER_HEALTHY", None);
   ("VOM_WORKER_DRAINING", None); ("VOM_WORKER_DISCONNECTED", None)]%string.
Definition dmh_vom_ui_surface : ctype := Struct
  [("display_attached", Scalar Bool); ("display_width", Scalar UInt32);
   ("display_height", Scalar UInt32); ("touch_supported", Scalar Bool);
   ("ui_mode_token", Scalar UInt32)]%string.
Definition dmh_vom_worker_observation : ctype := Struct
  [("last_seen_ms", Scalar UInt64); ("cores_online", Scalar UInt32); ("ram_free_mb", Scalar UInt64);
   ("battery_pct", Scalar Float); ("is_charging", Scalar Bool); ("is_ac_online", Scalar Bool);
   ("network_bandwidth_kbps", Scalar UInt64); ("peripheral_ui", dmh_vom_ui_surface)]%string.
Definition dmh_vom_chunk_lease : ctype := Struct
  [("chunk_id", Scalar UInt64); ("assigned_worker_id", Array dmh_DOMAIN_NAME_MAX (Scalar Char));
   ("lease_expires_ms", Scalar UInt64); ("is_active", Scalar Bool)]%string.
Definition dmh_vom_logical_device_state : ctype := Struct
  [("cluster_uuid", Array dmh_DOMAIN_UUID_LEN (Scalar Char)); ("master_epoch", Scalar UInt64);
   ("snapshot_version", Scalar UInt64); ("global_status", Scalar Enum);
   ("aggregate_memory_bytes", Scalar UInt64); ("allocated_memory_bytes", Scalar UInt64);
   ("aggregate_cpu_units", Scalar UInt32); ("allocate_cpu_units", Scalar UInt32);
   ("active_workers_count", Scalar UInt32)]%string.
