(* ===== verification/AbiProps.v ===== *)
(** What the copies of the declarations mean for the units that share data: the
    structures passed by pointer between separately compiled files, and the
    envelopes written by one program and read by another, have one layout; and
    where a public header describes something else than its source. *)
From S2P Require Import Prelude Envelope Layout Declarations.

(** * Pairs of declarations *)

(** A structure that the first unit fills and the second one reads: the master's
    daemon and the cluster state it calls, the senders and receivers of
    envelopes, the probes and their users. *)
Definition shared_structs (m : ctype) : list (ctype * ctype) :=
  [(csc_ClusterStateContext m, mmain_ClusterStateContext m);
   (csc_ClusterStateSnapshot, mmain_ClusterStateSnapshot); (mmain_WorkerMember, csc_WorkerMember);
   (rtc_vom_router_envelope_t, trc_vom_transport_envelope_t); (trc_vom_transport_envelope_t, rtc_vom_router_envelope_t);
   (wmain_vom_router_envelope_t, mmain_vom_router_envelope_t); (mmain_vom_router_envelope_t, wmain_vom_router_envelope_t);
   (sic_vom_worker_capabilities, agh_vom_worker_capabilities); (sic_vom_worker_capabilities, agc_vom_worker_capabilities);
   (sic_vom_worker_capabilities, exc_vom_worker_capabilities);
   (tsl_vom_worker_view, scc_vom_worker_view); (tsl_vom_chunk_plan, scc_vom_chunk_plan);
   (scc_vom_assignment_lease, tsl_vom_assignment_lease)].

(** A structure of a source and its declaration in the public header. *)
Definition header_structs : list (string * ctype * ctype) :=
  [("ClusterStateSnapshot", csc_ClusterStateSnapshot, csh_ClusterStateSnapshot);
   ("WorkerMember", csc_WorkerMember, csh_WorkerMember); ("ChunkLease", csc_ChunkLease, csh_ChunkLease);
   ("vom_router_envelope_t", rtc_vom_router_envelope_t, rth_vom_router_envelope_t);
   ("vom_transport_envelope_t", trc_vom_transport_envelope_t, trh_vom_transport_envelope_t);
   ("vom_transport_config_t", trc_vom_transport_config_t, trh_vom_transport_config_t);
   ("vom_cpu_features_t", cpc_vom_cpu_features_t, cph_vom_cpu_features_t);
   ("vom_peripheral_spec_t", cpc_vom_peripheral_spec_t, cph_vom_peripheral_spec_t);
   ("vom_worker_static_capabilities_t", cpc_vom_worker_static_capabilities_t, cph_vom_worker_static_capabilities_t);
   ("vom_worker_dynamic_resources_t", cpc_vom_worker_dynamic_resources_t, cph_vom_worker_dynamic_resources_t);
   ("vom_worker_capabilities", sic_vom_worker_capabilities, sih_vom_worker_capabilities);
   ("CliParsedCommand", clc_CliParsedCommand, clh_CliParsedCommand);
   ("vom_master_args_t", mcc_vom_master_args_t, mch_vom_master_args_t);
   ("vom_master_args_t of main.c", mmain_vom_master_args_t, mch_vom_master_args_t);
   ("vom_worker_args_t", wcc_vom_worker_args_t, wch_vom_worker_args_t);
   ("vom_config_t", cfc_vom_config_t, cfh_vom_config_t);
   ("vom_ui_input_event_t", dbc_vom_ui_input_event_t, dbh_vom_ui_input_event_t);
   ("vom_display_descriptor_t", dbc_vom_display_descriptor_t, dbh_vom_display_descriptor_t);
   ("vom_worker_view", scc_vom_worker_view, sch_vom_worker_view); ("vom_chunk_plan", scc_vom_chunk_plan, sch_vom_chunk_plan);
   ("vom_chunk_plan of domain.h", scc_vom_chunk_plan, dmh_vom_chunk_plan);
   ("vom_assignment_lease", scc_vom_assignment_lease, sch_vom_assignment_lease);
   ("vom_ui_user_intent_t", ucc_vom_ui_user_intent_t, uch_vom_ui_user_intent_t);
   ("view model", ucc_vom_cluster_view_model_t, uch_vom_ui_view_model_t);
   ("ClusterStateSnapshot of the UI", csc_ClusterStateSnapshot, uic_ClusterStateSnapshot)]%string.

(** Enumerations declared in two places. *)
Definition enum_pairs : list (string * list (string * Z) * list (string * Z)) :=
  [("WorkerHealth", csc_WorkerHealth, mmain_WorkerHealth); ("ClusterStatus", csc_ClusterStatus, mmain_ClusterStatus);
   ("LeaseStatus", csc_LeaseStatus, mmain_LeaseStatus); ("VomLogLevel", lgc_VomLogLevel, mmain_VomLogLevel);
   ("VomLogLevel of log.h", lgc_VomLogLevel, lgh_VomLogLevel);
   ("VomRouterMsgCode", rtc_VomRouterMsgCode, mmain_VomRouterMsgCode);
   ("VomRouterMsgCode of the worker", mmain_VomRouterMsgCode, wmain_VomRouterMsgCode);
   ("VomRouterMsgCode of router.h", rtc_VomRouterMsgCode, rth_VomRouterMsgCode);
   ("VomRouterEvent", rtc_VomRouterEvent, rth_VomRouterEvent); ("VomRouterStatus", rtc_VomRouterStatus, rth_VomRouterStatus);
   ("VomMsgCode", trc_VomMsgCode, trh_VomMsgCode); ("VomTransportEvent", trc_VomTransportEvent, trh_VomTransportEvent);
   ("VomTransportStatus", trc_VomTransportStatus, trh_VomTransportStatus);
   ("VomCapArchitecture", cpc_VomCapArchitecture, cph_VomCapArchitecture); ("VomCapAbi", cpc_VomCapAbi, cph_VomCapAbi);
   ("VomCapRuntime", cpc_VomCapRuntime, cph_VomCapRuntime); ("VomCapAccelerator", cpc_VomCapAccelerator, cph_VomCapAccelerator);
   ("VomCapThermal", cpc_VomCapThermal, cph_VomCapThermal); ("VomCpuArch", sic_VomCpuArch, sih_VomCpuArch);
   ("VomCpuArch of the agent", sic_VomCpuArch, agh_VomCpuArch); ("VomCpuArch of the agent's cache", sic_VomCpuArch, agc_VomCpuArch);
   ("VomCpuArch of the executor", sic_VomCpuArch, exc_VomCpuArch); ("VomLinkType", sic_VomLinkType, sih_VomLinkType);
   ("VomLinkType of the agent", sic_VomLinkType, agh_VomLinkType); ("VomLinkType of the agent's cache", sic_VomLinkType, agc_VomLinkType);
   ("VomLinkType of the executor", sic_VomLinkType, exc_VomLinkType); ("CliCommandType", clc_CliCommandType, clh_CliCommandType);
   ("CliOutputFormat", clc_CliOutputFormat, clh_CliOutputFormat); ("CliExitCode", clc_CliExitCode, clh_CliExitCode);
   ("VomUiMode", dbc_VomUiMode, dbh_VomUiMode); ("VomPeripheralEventKind", dbc_VomPeripheralEventKind, dbh_VomPeripheralEventKind);
   ("VomInputKind", dbc_VomInputKind, dbh_VomInputKind); ("VomDiscoveryStatus", dsc_VomDiscoveryStatus, dsh_VomDiscoveryStatus);
   ("WorkerHealth of cluster_state.h", csc_WorkerHealth, csh_WorkerHealth);
   ("ClusterStatus of cluster_state.h", csc_ClusterStatus, csh_ClusterStatus);
   ("LeaseStatus of cluster_state.h", csc_LeaseStatus, csh_LeaseStatus); ("WorkerHealth of the UI", csc_WorkerHealth, uic_WorkerHealth);
   ("ClusterStatus of the UI", csc_ClusterStatus, uic_ClusterStatus); ("LeaseStatus of the UI", csc_LeaseStatus, uic_LeaseStatus);
   ("VomErrorCategory", rcc_VomErrorCategory, rlh_VomErrorCategory); ("VomRetryAction", rcc_VomRetryAction, rlh_VomRetryAction);
   ("UIWorkerState", ucc_UIWorkerState, uch_VomUiWrkState)]%string.

(** An enumerator of the first list has the same value in the second. *)
Definition enum_extends (a b : list (string * Z)) : bool :=
  forallb (fun x => existsb (fun y => String.eqb x.1 y.1 && (x.2 =? y.2)) b) a.

(** * All declarations *)

Definition declared (m : ctype) : list ctype :=
  (shared_structs m).*1 ++ (shared_structs m).*2 ++ header_structs.*1.*2 ++ header_structs.*2 ++
  [uic_UiLogicalDeviceViewModel; uih_vom_ui_immutable_snapshot_t; cph_vom_worker_capabilities_snapshot_t;
   wsh_vom_local_chunk_record_t; rlh_vom_result_t; idh_vom_id_t; rsh_vom_advertised_capacity; rsh_vom_current_availability;
   rsh_vom_chunk_resource_demand; rsh_vom_resource_reservation; rsh_vom_assignment_resource_lease;
   dmh_vom_workload_state; dmh_vom_worker_observation; dmh_vom_chunk_lease; dmh_vom_logical_device_state].

(** The two platforms. *)
Definition mutex_types : list ctype := [pthread_mutex_posix; pthread_mutex_windows].

Lemma declared_wf m : m ∈ mutex_types -> Forall (fun t => wf t = true) (declared m).
Proof.
  intros H. assert (forallb wf (declared m) = true) as F.
  { unfold mutex_types in H. apply elem_of_cons in H as [->|H]; [vm_compute; reflexivity|].
    apply list_elem_of_singleton in H as ->. vm_compute. reflexivity. }
  rewrite forallb_forall in F. apply Forall_forall. intros t Ht. by apply F, list_elem_of_In.
Qed.

Lemma shared_agree m : m ∈ mutex_types -> Forall (fun x => same_layout x.1 x.2) (shared_structs m).
Proof.
  intros H. assert (forallb (fun x => agree x.1 x.2) (shared_structs m) = true) as F.
  { unfold mutex_types in H. apply elem_of_cons in H as [->|H]; [vm_compute; reflexivity|].
    apply list_elem_of_singleton in H as ->. vm_compute. reflexivity. }
  rewrite forallb_forall in F. apply Forall_forall. intros x Hx. by apply agree_same, F, list_elem_of_In.
Qed.

(** * Properties *)

(** C26: Units that share a structure agree on it: on both platforms, whatever
    value one of them stores under its own declaration of the cluster state, a
    worker, an envelope, a capability record or the scheduler's records, every scalar member that the
    other one reads through its declaration, at the offset its compiler gives
    the member, is the one stored, and lies aligned inside the structure. *)
Theorem abi_units_agree (m t1 t2 : ctype) (v : cval) (p : list sel) (k : nat) (s : scalar) (z : Z) :
  m ∈ mutex_types -> (t1, t2) ∈ shared_structs m -> has_type t1 v -> (p, k, s) ∈ leaves t2 -> vget t1 v p = Some z ->
  length (store t1 v) = sizeof t2 /\ scalar_load s (slice k (scalar_size s) (store t1 v)) = z /\
  (k + scalar_size s <= sizeof t2)%nat /\ Nat.divide (scalar_size s) k.
Proof.
  intros Hm H T L G. pose proof (declared_wf m Hm) as W. pose proof (shared_agree m Hm) as A.
  rewrite Forall_forall in W. rewrite Forall_forall in A. specialize (A _ H). cbn [fst snd] in A.
  assert (wf t1 = true) as W1.
  { apply W. unfold declared. apply elem_of_app. left. by apply (list_elem_of_fmap_2' fst _ (t1, t2)). }
  assert (wf t2 = true) as W2.
  { apply W. unfold declared. apply elem_of_app. right. apply elem_of_app. left. by apply (list_elem_of_fmap_2' snd _ (t1, t2)). }
  split; [rewrite (store_length t1 W1 v T); apply A|]. split; [by eapply same_layout_reads|].
  by apply (leaf_in_bounds t2 W2 p).
Qed.

(** A worker that the master's daemon passes to the cluster state: 4 GiB at byte
    16, read as such. *)
Definition demo_member : cval := VSeq [VInt 7; VInt 0; VInt 1700000000000; VSeq [VInt (2 ^ 32); VInt 0; VInt 4; VInt 0]].

Lemma abi_units_agree_witness :
  has_type mmain_WorkerMember demo_member /\
  offsetof csc_WorkerMember "resources" = Some 16%nat /\
  scalar_load UInt64 (slice 16 8 (store mmain_WorkerMember demo_member)) = 2 ^ 32.
Proof.
  assert (has_type mmain_WorkerMember demo_member) as T
    by (cbn; unfold scalar_ok; cbn; repeat split; lia).
  split; [exact T|]. split; [reflexivity|].
  destruct (abi_units_agree pthread_mutex_posix mmain_WorkerMember csc_WorkerMember demo_member
              [Fld "resources"; Fld "total_memory_bytes"] 16 UInt64 (2 ^ 32)) as (_ & R & _).
  - unfold mutex_types. apply list_elem_of_here.
  - unfold shared_structs. do 2 apply list_elem_of_further. apply list_elem_of_here.
  - exact T.
  - cbn. do 3 apply list_elem_of_further. apply list_elem_of_here.
  - reflexivity.
  - exact R.
Defined.

(** What each public header gets wrong about its source: the structures and the
    enumerations that a program built from it would misread. *)
Theorem headers_differ :
  (List.filter (fun x => negb (agree x.1.2 x.2)) header_structs).*1.*1 =
    ["ClusterStateSnapshot"; "WorkerMember"; "ChunkLease"; "vom_master_args_t of main.c"; "vom_chunk_plan of domain.h";
     "vom_ui_user_intent_t"; "view model"; "ClusterStateSnapshot of the UI"]%string /\
  (List.filter (fun x => negb (enum_extends x.1.2 x.2)) enum_pairs).*1.*1 =
    ["VomCapRuntime"; "WorkerHealth of cluster_state.h"; "LeaseStatus of cluster_state.h"; "LeaseStatus of the UI";
     "VomErrorCategory"; "UIWorkerState"]%string.
Proof. split; vm_compute; reflexivity. Qed.

(** The header calls a healthy worker of the master offline. *)
Example header_health_misread :
  List.find (fun x => String.eqb x.1 "WORKER_HEALTH_ONLINE") csc_WorkerHealth = Some ("WORKER_HEALTH_ONLINE"%string, 0) /\
  List.find (fun x => x.2 =? 0) csh_WorkerHealth = Some ("WORKER_HEALTH_OFFLINE"%string, 0).
Proof. split; reflexivity. Qed.

(** The runtimes of the header are no bits: a mask of the first two is the third. *)
Example header_runtimes_are_no_bits :
  (fun x => x.2) <$> cph_VomCapRuntime = [0; 1; 2] /\ (fun x => x.2) <$> cpc_VomCapRuntime = [1; 2; 4].
Proof. split; reflexivity. Qed.

(** * The envelope *)

Definition envelope_val (e : envelope) : cval :=
  VSeq [VInt (env_protocol_version e); VInt (env_message_code e); VInt (env_payload_length e);
        VInt (env_sequence_id e); VInt (env_timestamp_ms e)].

(** The codec of the wire is the image of the declared structure. *)
Theorem envelope_is_image (e : envelope) :
  encode_envelope e = store rtc_vom_router_envelope_t (envelope_val e) /\
  sizeof rtc_vom_router_envelope_t = ENVELOPE_SIZE /\
  (envelope_ok e -> has_type rtc_vom_router_envelope_t (envelope_val e)).
Proof.
  split; [|split; [reflexivity|]].
  - unfold rtc_vom_router_envelope_t, envelope_val. rewrite store_struct. reflexivity.
  - intros (H1 & H2 & H3 & H4 & H5). cbn. unfold scalar_ok. cbn. unfold in_u16, in_u32, in_u64 in *. split_and!; lia.
Qed.
