(* ===== verification/Threads.v ===== *)
(** Threads that share a structure under one mutex.  Every component of the
    program guards its context with a [pthread_mutex_t] (on Windows the shim of
    [common/include/common/compat.h]) and each of its operations locks it at the
    start and unlocks it on every return.  Here an operation is a program of
    single memory accesses, threads interleave at each of them, and the file
    shows what the other files rely on when they model an operation as one step:
    whatever the scheduler does, the calls return what they would return one
    after the other, and they all return. *)
From S2P Require Import Prelude.

(** * The mutex *)

(** [SRWLOCK] held exclusively by a thread. *)
Abbreviation pthread_mutex_t := (option nat).

Definition PTHREAD_MUTEX_INITIALIZER : pthread_mutex_t := None.

Definition pthread_mutex_init : Z * pthread_mutex_t := (0, PTHREAD_MUTEX_INITIALIZER).

Definition pthread_mutex_destroy (mutex : pthread_mutex_t) : Z * pthread_mutex_t := (0, mutex).

(** [None]: the caller waits. *)
Definition pthread_mutex_lock (self : nat) (mutex : pthread_mutex_t) : option (Z * pthread_mutex_t) :=
  match mutex with
  | None => Some (0, Some self)
  | Some _ => None
  end.

Definition pthread_mutex_unlock (mutex : pthread_mutex_t) : Z * pthread_mutex_t := (0, None).

(** * Programs *)

(** [Do f k]: one access that changes the structure by [f]; the rest of the
    program depends on what the structure held. *)
Inductive prog (S A : Type) : Type :=
| Ret (a : A)
| Do (f : S -> S) (k : S -> prog S A).
Arguments Ret {S A} a.
Arguments Do {S A} f k.

Fixpoint prog_bind_def {S A B} (k : A -> prog S B) (p : prog S A) : prog S B :=
  match p with
  | Ret a => k a
  | Do f k' => Do f (fun s => prog_bind_def k (k' s))
  end.

#[export] Instance prog_ret S : MRet (prog S) := fun A a => Ret a.
#[export] Instance prog_bind S : MBind (prog S) := fun A B => prog_bind_def.

Definition read {S A} (g : S -> A) : prog S A := Do id (fun s => Ret (g s)).
Definition write {S} (f : S -> S) : prog S unit := Do f (fun _ => Ret tt).

(** The program on its own. *)
Fixpoint run {S A} (p : prog S A) (s : S) : A * S :=
  match p with
  | Ret a => (a, s)
  | Do f k => run (k s) (f s)
  end.

Lemma run_bind {S A B} (p : prog S A) (k : A -> prog S B) s :
  run (p ≫= k) s = let '(a, s) := run p s in run (k a) s.
Proof. revert s. induction p as [a|f k' IH]; intros s; [done|]. cbn. apply IH. Qed.

Lemma run_ret {S A} (a : A) (s : S) : run (mret a) s = (a, s).
Proof. done. Qed.
Lemma run_read {S A} (g : S -> A) s : run (read g) s = (g s, s).
Proof. done. Qed.
Lemma run_write {S} (f : S -> S) s : run (write f) s = (tt, f s).
Proof. done. Qed.

Lemma run_when {S} (b : bool) (f : S -> S) s : run (if b then write f else mret tt) s = (tt, if b then f s else s).
Proof. by destruct b. Qed.

Create HintDb prog.
#[export] Hint Rewrite @run_bind @run_read @run_write @run_ret @run_when : prog.

(** Executes a straight-line program. *)
Ltac run_prog := repeat (autorewrite with prog; cbn [fst snd]).

(** * Threads *)

Section Machine.
Context {S C R : Type}.

(** What a call does: it returns at once (an argument is [NULL]), or it takes
    the lock, runs, and gives the lock back. *)
Variable enter : C -> R + prog S R.

Record thread := {
  todo : list C;
  busy : option (C * prog S R)
}.

(** [returned] records the calls in the order in which they return. *)
Record machine := {
  shared : S;
  mutex : pthread_mutex_t;
  threads : list thread;
  returned : list (nat * C * R)
}.

Inductive thread_step (m : machine) : machine -> Prop :=
| step_early t c cs r :
    threads m !! t = Some {| todo := c :: cs; busy := None |} -> enter c = inl r ->
    thread_step m {| shared := shared m; mutex := mutex m;
                     threads := <[t := {| todo := cs; busy := None |}]> (threads m);
                     returned := returned m ++ [(t, c, r)] |}
| step_lock t c cs p rc mx :
    threads m !! t = Some {| todo := c :: cs; busy := None |} -> enter c = inr p ->
    pthread_mutex_lock t (mutex m) = Some (rc, mx) ->
    thread_step m {| shared := shared m; mutex := mx;
                     threads := <[t := {| todo := cs; busy := Some (c, p) |}]> (threads m);
                     returned := returned m |}
| step_access t c cs f k :
    threads m !! t = Some {| todo := cs; busy := Some (c, Do f k) |} ->
    thread_step m {| shared := f (shared m); mutex := mutex m;
                     threads := <[t := {| todo := cs; busy := Some (c, k (shared m)) |}]> (threads m);
                     returned := returned m |}
| step_unlock t c cs r :
    threads m !! t = Some {| todo := cs; busy := Some (c, Ret r) |} ->
    thread_step m {| shared := shared m; mutex := (pthread_mutex_unlock (mutex m)).2;
                     threads := <[t := {| todo := cs; busy := None |}]> (threads m);
                     returned := returned m ++ [(t, c, r)] |}.

(** The step of thread [t], if it is not waiting or at its end. *)
Definition thread_exec (t : nat) (m : machine) : option machine :=
  th ← threads m !! t;
  match busy th, todo th with
  | Some (c, Do f k), cs =>
      Some {| shared := f (shared m); mutex := mutex m;
              threads := <[t := {| todo := cs; busy := Some (c, k (shared m)) |}]> (threads m);
              returned := returned m |}
  | Some (c, Ret r), cs =>
      Some {| shared := shared m; mutex := (pthread_mutex_unlock (mutex m)).2;
              threads := <[t := {| todo := cs; busy := None |}]> (threads m);
              returned := returned m ++ [(t, c, r)] |}
  | None, [] => None
  | None, c :: cs =>
      match enter c with
      | inl r =>
          Some {| shared := shared m; mutex := mutex m;
                  threads := <[t := {| todo := cs; busy := None |}]> (threads m);
                  returned := returned m ++ [(t, c, r)] |}
      | inr p =>
          '(_, mx) ← pthread_mutex_lock t (mutex m);
          Some {| shared := shared m; mutex := mx;
                  threads := <[t := {| todo := cs; busy := Some (c, p) |}]> (threads m);
                  returned := returned m |}
      end
  end.

(** A schedule names the thread whose turn it is. *)
Definition schedule (ts : list nat) (m : machine) : machine := foldl (fun m t => default m (thread_exec t m)) m ts.

Lemma thread_exec_step m m' : thread_step m m' <-> exists t, thread_exec t m = Some m'.
Proof.
  split.
  - intros [t c cs r Ht En|t c cs p rc mx Ht En Lk|t c cs f k Ht|t c cs r Ht]; exists t; unfold thread_exec; rewrite Ht; cbn.
    + by rewrite En.
    + rewrite En, Lk. done.
    + done.
    + done.
  - intros [t H]. unfold thread_exec in H. destruct (threads m !! t) as [[cs b]|] eqn:Ht; [|done]. cbn in H.
    destruct b as [[c [r|f k]]|]; [simplify_eq; by eapply step_unlock|simplify_eq; by eapply step_access|].
    destruct cs as [|c cs]; [done|]. destruct (enter c) as [r|p] eqn:En; [simplify_eq; by eapply step_early|].
    destruct (pthread_mutex_lock t (mutex m)) as [[rc mx]|] eqn:Lk; [|done]. cbn in H. simplify_eq. by eapply step_lock.
Qed.

Definition spawn (s : S) (programs : list (list C)) : machine :=
  {| shared := s; mutex := PTHREAD_MUTEX_INITIALIZER;
     threads := (fun cs => {| todo := cs; busy := None |}) <$> programs; returned := [] |}.

Inductive threads_reach (s0 : S) (programs : list (list C)) : machine -> Prop :=
| reach_spawn : threads_reach s0 programs (spawn s0 programs)
| reach_step m m' : threads_reach s0 programs m -> thread_step m m' -> threads_reach s0 programs m'.

Lemma schedule_reach s0 programs ts : forall m, threads_reach s0 programs m -> threads_reach s0 programs (schedule ts m).
Proof.
  induction ts as [|t ts IH]; intros m Rm; [done|]. cbn. apply IH. destruct (thread_exec t m) as [m'|] eqn:E; cbn; [|done].
  eapply reach_step; [done|]. apply thread_exec_step. by exists t.
Qed.

(** ** The calls one after the other *)

Definition exec (c : C) (s : S) : R * S :=
  match enter c with
  | inl r => (r, s)
  | inr p => run p s
  end.

Inductive sequential (s : S) : list (nat * C * R) -> S -> Prop :=
| seq_nil : sequential s [] s
| seq_snoc h t c r s1 s2 : sequential s h s1 -> exec c s1 = (r, s2) -> sequential s (h ++ [(t, c, r)]) s2.

Definition calls_of (t : nat) (h : list (nat * C * R)) : list C :=
  (fun e => e.1.2) <$> filter (fun e => e.1.1 = t) h.

Definition in_progress (th : thread) : list C := match busy th with Some (c, _) => [c] | None => [] end.

Definition finished (m : machine) : Prop := Forall (fun th => todo th = [] /\ busy th = None) (threads m).

(** ** The invariant *)

(** While a thread holds the lock, its remaining program leads where its call
    would have led from the state before the lock was taken. *)
Record threads_inv (s0 : S) (programs : list (list C)) (m : machine) (s : S) : Prop := {
  ti_seq : sequential s0 (returned m) s;
  ti_progs : forall t th, threads m !! t = Some th ->
    programs !! t = Some (calls_of t (returned m) ++ in_progress th ++ todo th);
  ti_length : length (threads m) = length programs;
  ti_busy : forall t cs c p, threads m !! t = Some {| todo := cs; busy := Some (c, p) |} -> mutex m = Some t;
  ti_lock : match mutex m with
            | None => shared m = s
            | Some t => exists cs c p, threads m !! t = Some {| todo := cs; busy := Some (c, p) |} /\
                          run p (shared m) = exec c s
            end
}.

Lemma calls_of_snoc t h u c r : calls_of t (h ++ [(u, c, r)]) = calls_of t h ++ (if decide (u = t) then [c] else []).
Proof.
  unfold calls_of. rewrite filter_app, fmap_app. f_equal. rewrite filter_cons, filter_nil. cbn. by destruct (decide (u = t)).
Qed.

Lemma spawn_inv s0 programs : threads_inv s0 programs (spawn s0 programs) s0.
Proof.
  constructor; cbn.
  - constructor.
  - intros t th. rewrite list_lookup_fmap. destruct (programs !! t); [|done]. by intros [= <-].
  - apply length_fmap.
  - intros t cs c p. rewrite list_lookup_fmap. by destruct (programs !! t).
  - done.
Qed.

(** A thread moves: the others are where they were. *)
Lemma moved m t th th' u x : threads m !! t = Some th -> <[t := th']> (threads m) !! u = Some x ->
  (u = t /\ x = th') \/ (u <> t /\ threads m !! u = Some x).
Proof.
  intros H. destruct (decide (u = t)) as [->|N].
  - rewrite list_lookup_insert_eq by (by eapply lookup_lt_Some). intros [= <-]. by left.
  - rewrite list_lookup_insert_ne by done. by right.
Qed.

Lemma moved_self m t th (th' : thread) : threads m !! t = Some th -> <[t := th']> (threads m) !! t = Some th'.
Proof. intros H. apply list_lookup_insert_eq. by eapply lookup_lt_Some. Qed.

Lemma thread_step_inv s0 programs m m' s : threads_inv s0 programs m s -> thread_step m m' ->
  exists s', threads_inv s0 programs m' s'.
Proof.
  intros [I1 I2 I3 I4 I5] H. destruct H as [t c cs r Ht En|t c cs p rc mx Ht En Lk|t c cs f k Ht|t c cs r Ht].
  - exists s. constructor; cbn [shared mutex threads returned]; try (by rewrite ?length_insert).
    + eapply seq_snoc; [done|]. unfold exec. by rewrite En.
    + intros u x Hu. rewrite calls_of_snoc. destruct (moved _ _ _ _ _ _ Ht Hu) as [[-> ->]|[N Hx]].
      * rewrite decide_True by done. rewrite (I2 _ _ Ht). cbn. by rewrite <- app_assoc.
      * rewrite decide_False by done. rewrite app_nil_r. by apply I2.
    + intros u ds d q Hu. destruct (moved _ _ _ _ _ _ Ht Hu) as [[-> ?]|[N Hx]]; [done|by eapply I4].
    + destruct (mutex m) as [h|]; [|done]. destruct I5 as (ds & d & q & Hh & Eq). exists ds, d, q. split; [|done].
      rewrite list_lookup_insert_ne; [done|]. intros ->. by rewrite Hh in Ht.
  - destruct (mutex m) eqn:M; [done|]. injection Lk as <- <-. exists s. constructor; cbn [shared mutex threads returned]; try (by rewrite ?length_insert).
    + intros u x Hu. destruct (moved _ _ _ _ _ _ Ht Hu) as [[-> ->]|[N Hx]]; [by rewrite (I2 _ _ Ht)|by apply I2].
    + intros u ds d q Hu. destruct (moved _ _ _ _ _ _ Ht Hu) as [[-> ?]|[N Hx]]; [done|]. by apply I4 in Hx.
    + exists cs, c, p. split; [by eapply moved_self|]. unfold exec. by rewrite En, I5.
  - pose proof (I4 _ _ _ _ Ht) as M. rewrite M in I5. destruct I5 as (ds & d & q & Hh & Eq). rewrite Hh in Ht.
    injection Ht as -> -> ->. exists s. constructor; cbn [shared mutex threads returned]; try (by rewrite ?length_insert).
    + intros u x Hu. destruct (moved _ _ _ _ _ _ Hh Hu) as [[-> ->]|[N Hx]]; [by rewrite (I2 _ _ Hh)|by apply I2].
    + intros u ds e q Hu. destruct (moved _ _ _ _ _ _ Hh Hu) as [[-> ?]|[N Hx]]; [done|]. by eapply I4.
    + rewrite M. exists cs, c, (k (shared m)). split; [by eapply moved_self|done].
  - pose proof (I4 _ _ _ _ Ht) as M. rewrite M in I5. destruct I5 as (ds & d & q & Hh & Eq). rewrite Hh in Ht.
    injection Ht as -> -> ->. exists (shared m). constructor; cbn [shared mutex threads returned]; try (by rewrite ?length_insert).
    + eapply seq_snoc; [done|]. by rewrite <- Eq.
    + intros u x Hu. rewrite calls_of_snoc. destruct (moved _ _ _ _ _ _ Hh Hu) as [[-> ->]|[N Hx]].
      * rewrite decide_True by done. rewrite (I2 _ _ Hh). cbn. by rewrite <- app_assoc.
      * rewrite decide_False by done. rewrite app_nil_r. by apply I2.
    + intros u ds e q Hu. destruct (moved _ _ _ _ _ _ Hh Hu) as [[-> ?]|[N Hx]]; [done|].
      apply I4 in Hx. congruence.
Qed.

Lemma threads_reach_inv s0 programs m : threads_reach s0 programs m -> exists s, threads_inv s0 programs m s.
Proof.
  induction 1 as [|m m' _ [s I] H]; [eexists; apply spawn_inv|]. by eapply thread_step_inv.
Qed.

(** ** Progress and termination *)

Lemma threads_progress s0 programs m s : threads_inv s0 programs m s -> finished m \/ exists m', thread_step m m'.
Proof.
  intros [_ _ _ I4 I5]. destruct (mutex m) as [h|] eqn:M.
  - right. destruct I5 as (cs & c & [r|f k] & Hh & _); eexists; [by eapply step_unlock|by eapply step_access].
  - destruct (decide (Exists (fun th => todo th <> []) (threads m))) as [E|E].
    + right. apply Exists_exists in E as (th & Hth & N). apply list_elem_of_lookup_1 in Hth as [t Ht].
      destruct th as [[|c cs] [[d q]|]]; try done; [apply I4 in Ht; congruence|].
      destruct (enter c) as [r|p] eqn:En; eexists; [by eapply step_early|eapply step_lock; [done|done|]].
      by rewrite M.
    + left. apply not_Exists_Forall in E; [|solve_decision]. apply Forall_forall. intros th Hth.
      rewrite Forall_forall in E. specialize (E th Hth). apply list_elem_of_lookup_1 in Hth as [t Ht].
      destruct th as [cs [[c p]|]]; [apply I4 in Ht; congruence|]. cbn in *. split; [|done]. destruct cs; [done|]. exfalso. by apply E.
Qed.

Definition pending (m : machine) : nat := sum_list ((fun th => length (todo th)) <$> threads m).

Lemma pending_insert (l : list thread) t th th' : l !! t = Some th ->
  (sum_list ((fun th => length (todo th)) <$> <[t := th']> l) + length (todo th) =
   sum_list ((fun th => length (todo th)) <$> l) + length (todo th'))%nat.
Proof.
  revert t. induction l as [|x l IH]; intros [|t] H; try done.
  - injection H as ->. cbn. lia.
  - change (<[Datatypes.S t := th']> (x :: l)) with (x :: <[t := th']> l). rewrite !fmap_cons. cbn [sum_list].
    specialize (IH t H). lia.
Qed.

Abbreviation terminates := (Acc (fun x y => thread_step y x)).

Lemma step_pending m m' : thread_step m m' -> (pending m' < pending m)%nat \/
  pending m' = pending m /\ exists t cs c p, threads m !! t = Some {| todo := cs; busy := Some (c, p) |}.
Proof.
  unfold pending. intros [t c cs r Ht _|t c cs p rc mx Ht _ _|t c cs f k Ht|t c cs r Ht]; cbn [threads].
  - left. pose proof (pending_insert _ _ _ {| todo := cs; busy := None |} Ht). cbn in *. lia.
  - left. pose proof (pending_insert _ _ _ {| todo := cs; busy := Some (c, p) |} Ht). cbn in *. lia.
  - right. split; [|by repeat eexists]. pose proof (pending_insert _ _ _ {| todo := cs; busy := Some (c, k (shared m)) |} Ht). cbn in *. lia.
  - right. split; [|by repeat eexists]. pose proof (pending_insert _ _ _ {| todo := cs; busy := None |} Ht). cbn in *. lia.
Qed.

(** Every run is finite: a call is taken from a program, or the program of the
    thread that holds the lock gets shorter. *)
Section Terminate.
Variables (s0 : S) (programs : list (list C)) (n : nat).
Hypothesis lower : forall m s, threads_inv s0 programs m s -> (pending m < n)%nat -> terminates m.

Lemma terminate_free m s : threads_inv s0 programs m s -> pending m = n -> mutex m = None -> terminates m.
Proof.
  intros I P M. constructor. intros m' H. destruct (thread_step_inv _ _ _ _ _ I H) as [s' I'].
  destruct (step_pending _ _ H) as [L|(_ & t & cs & c & p & Ht)]; [eapply lower; [done|lia]|].
  apply (ti_busy _ _ _ _ I) in Ht. congruence.
Qed.

Lemma terminate_held p : forall m s t cs c, threads_inv s0 programs m s -> pending m = n ->
  threads m !! t = Some {| todo := cs; busy := Some (c, p) |} -> terminates m.
Proof.
  induction p as [r|f k IH]; intros m s t cs c I P Ht; constructor; intros m' H;
    destruct (thread_step_inv _ _ _ _ _ I H) as [s' I'];
    (destruct (step_pending _ _ H) as [L|(E & _)]; [eapply lower; [done|lia]|]); pose proof (ti_busy _ _ _ _ I) as B;
    pose proof (B _ _ _ _ Ht) as M.
  - destruct H as [u d ds r' Hu _|u d ds p rc mx Hu _ Lk|u d ds f k Hu|u d ds r' Hu].
    + exfalso. pose proof (pending_insert _ _ _ {| todo := ds; busy := None |} Hu). unfold pending in E. cbn in *. lia.
    + by rewrite M in Lk.
    + pose proof (B _ _ _ _ Hu). simplify_eq.
    + by eapply terminate_free; [..|exact eq_refl]; [|lia].
  - destruct H as [u d ds r' Hu _|u d ds p rc mx Hu _ Lk|u d ds f' k' Hu|u d ds r' Hu].
    + exfalso. pose proof (pending_insert _ _ _ {| todo := ds; busy := None |} Hu). unfold pending in E. cbn in *. lia.
    + by rewrite M in Lk.
    + pose proof (B _ _ _ _ Hu). simplify_eq. eapply (IH (shared m) _ s' t cs c I'); [lia|]. cbn. by eapply moved_self.
    + pose proof (B _ _ _ _ Hu). simplify_eq.
Qed.
End Terminate.

Lemma threads_terminate s0 programs m s : threads_inv s0 programs m s -> terminates m.
Proof.
  remember (pending m) as n eqn:N. revert m s N. induction (lt_wf n) as [n _ IH]. intros m s N I.
  assert (forall m s, threads_inv s0 programs m s -> (pending m < n)%nat -> terminates m) as L
    by (intros m1 s1 I1 L1; by eapply IH).
  destruct (mutex m) as [h|] eqn:M; [|by eapply terminate_free].
  pose proof (ti_lock _ _ _ _ I) as H. rewrite M in H. destruct H as (cs & c & p & Hh & _). by eapply terminate_held.
Qed.
End Machine.

(** * A component behind its lock *)

(** What a component with a mutex promises to its callers: [apply] is the model
    in which a call is one step, [lk_abs] reads the model's state off the
    structure, and a call that runs alone does what the model does. *)
Class Locked {S C R T : Type} (enter : C -> R + prog S R) (apply : C -> T -> R * T) := {
  lk_ok : S -> Prop;
  lk_abs : S -> T;
  lk_exec : forall c s, lk_ok s ->
    lk_ok (exec enter c s).2 /\ apply c (lk_abs s) = ((exec enter c s).1, lk_abs (exec enter c s).2)
}.

(** The model run on a list of calls: the results must be the recorded ones. *)
Fixpoint replay {C R T} `{EqDecision R} (apply : C -> T -> R * T) (x : T) (h : list (nat * C * R)) : option T :=
  match h with
  | [] => Some x
  | (_, c, r) :: h => let '(r', x') := apply c x in if decide (r' = r) then replay apply x' h else None
  end.

(** The machine [m] looks to its threads like the model started in [x0], which
    stays within [reach]: the calls returned what the model returns for them in
    this order, each thread took its own calls in order, the structure is the
    model's state whenever the mutex is free, and every schedule ends with all
    calls returned. *)
Record linearized {S C R T} `{EqDecision R} (enter : C -> R + prog S R) (apply : C -> T -> R * T) (abs : S -> T)
    (reach : T -> Prop) (x0 : T) (programs : list (list C)) (m : machine) : Prop := {
  lz_replay : exists x, replay apply x0 (returned m) = Some x /\ reach x /\ (mutex m = None -> abs (shared m) = x);
  lz_order : forall t th, threads m !! t = Some th ->
    programs !! t = Some (calls_of t (returned m) ++ in_progress th ++ todo th);
  lz_progress : finished m \/ exists m', thread_step enter m m';
  lz_ends : Acc (fun m2 m1 => thread_step enter m1 m2) m
}.

Lemma replay_app {C R T} `{EqDecision R} (apply : C -> T -> R * T) x h1 h2 :
  replay apply x (h1 ++ h2) = y ← replay apply x h1; replay apply y h2.
Proof.
  revert x. induction h1 as [|[[t c] r] h1 IH]; intros x; [done|]. cbn. destruct (apply c x) as [r' x']. by case_decide.
Qed.

Section Linearize.
Context {S C R T : Type} `{EqDecision R} (enter : C -> R + prog S R) (apply : C -> T -> R * T) `{!Locked enter apply}.

Lemma replay_snoc x h t c r : replay apply x (h ++ [(t, c, r)]) =
  y ← replay apply x h; let '(r', y') := apply c y in if decide (r' = r) then Some y' else None.
Proof.
  revert x. induction h as [|[[u d] q] h IH]; intros x; cbn; [by destruct (apply c x)|].
  destruct (apply d x) as [r' x']. by destruct (decide (r' = q)).
Qed.

Lemma replay_snoc_Some x h t c r z : replay apply x (h ++ [(t, c, r)]) = Some z <->
  exists y, replay apply x h = Some y /\ apply c y = (r, z).
Proof.
  rewrite replay_snoc. split.
  - destruct (replay apply x h) as [y|]; [|done]. cbn. destruct (apply c y) as [r' z'] eqn:A. case_decide; [|done].
    intros [= <-]. subst r'. by exists y.
  - intros (y & -> & A). cbn. rewrite A. by case_decide.
Qed.

Lemma sequential_replay s h s' : lk_ok s -> sequential enter s h s' ->
  lk_ok s' /\ replay apply (lk_abs s) h = Some (lk_abs s').
Proof.
  intros W. induction 1 as [|h t c r s1 s2 _ [O IH] E]; [done|]. destruct (lk_exec c s1 O) as [O2 A].
  rewrite E in O2, A. split; [exact O2|]. rewrite replay_snoc, IH. cbn. rewrite A. cbn. by rewrite decide_True.
Qed.

Lemma replay_reach (valid : C -> Prop) (reach : T -> Prop) x h y : (forall c x, valid c -> reach x -> reach (apply c x).2) ->
  Forall (fun e => valid e.1.2) h -> reach x -> replay apply x h = Some y -> reach y.
Proof.
  intros Step V. revert x. induction V as [|[[u d] q] h Vd V IH]; intros x Rx; cbn; [by intros [= <-]|].
  pose proof (Step d x Vd Rx) as S1. destruct (apply d x) as [r' x']. case_decide; [|done]. by apply IH.
Qed.

(** Calls outside [valid] are never made when no thread has one to make. *)
Definition all_valid (valid : C -> Prop) (m : @machine S C R) : Prop :=
  Forall (fun th => Forall valid (in_progress th ++ todo th)) (threads m) /\
  Forall (fun e => valid e.1.2) (returned m).

Lemma all_valid_step valid m m' : all_valid valid m -> thread_step enter m m' -> all_valid valid m'.
Proof.
  intros [V1 V2] St.
  assert (forall t th th', threads m !! t = Some th -> (Forall valid (in_progress th ++ todo th) -> Forall valid (in_progress th' ++ todo th')) ->
    Forall (fun th => Forall valid (in_progress th ++ todo th)) (<[t := th']> (threads m))) as K.
  { intros t th th' Ht I. apply Forall_insert; [done|]. apply I. by eapply Forall_lookup_1 in V1. }
  assert (forall t th, threads m !! t = Some th -> Forall valid (in_progress th ++ todo th)) as K1
    by (intros t th Ht; by eapply Forall_lookup_1 in V1).
  destruct St as [t c cs r Ht _|t c cs p rc mx Ht _ _|t c cs f k Ht|t c cs r Ht]; split; cbn [threads returned]; try done;
    try (eapply K; [exact Ht|]; cbn; rewrite ?Forall_cons; tauto);
    (apply Forall_app; split; [done|]; apply Forall_singleton; specialize (K1 _ _ Ht); cbn in K1; rewrite Forall_cons in K1; tauto).
Qed.

Lemma all_valid_reach valid s0 programs m : Forall (Forall valid) programs -> threads_reach enter s0 programs m ->
  all_valid valid m.
Proof.
  intros V. induction 1 as [|m m' _ IH St]; [|by eapply all_valid_step]. split; cbn; [|constructor].
  apply Forall_fmap. by eapply Forall_impl.
Qed.

(** The client's theorem, from what the component promises. *)
Lemma locked_linearized (valid : C -> Prop) (reach : T -> Prop) s0 programs m : lk_ok s0 -> reach (lk_abs s0) ->
  (forall c x, valid c -> reach x -> reach (apply c x).2) -> Forall (Forall valid) programs ->
  threads_reach enter s0 programs m -> linearized enter apply lk_abs reach (lk_abs s0) programs m.
Proof.
  intros O R0 Step V R1. destruct (threads_reach_inv _ _ _ _ R1) as [s I].
  destruct (sequential_replay _ _ _ O (ti_seq _ _ _ _ _ I)) as [_ Rp]. constructor.
  - exists (lk_abs s). split_and!; [exact Rp| |].
    + eapply replay_reach; [exact Step| |exact R0|exact Rp]. by eapply all_valid_reach.
    + intros M. pose proof (ti_lock _ _ _ _ _ I) as L. rewrite M in L. by rewrite L.
  - apply (ti_progs _ _ _ _ _ I).
  - by eapply threads_progress.
  - by eapply threads_terminate.
Qed.

(** Whenever the mutex is free the structure is intact. *)
Lemma locked_intact s0 programs m : lk_ok s0 -> threads_reach enter s0 programs m -> mutex m = None -> lk_ok (shared m).
Proof.
  intros O R1 M. destruct (threads_reach_inv _ _ _ _ R1) as [s I]. pose proof (ti_lock _ _ _ _ _ I) as L. rewrite M in L.
  rewrite L. eapply sequential_replay; [exact O|]. by eapply ti_seq.
Qed.
End Linearize.
