(* ===== verification/Tables.v ===== *)
(** Tables as the C code keeps them: an array of fixed length with a count of
    the entries in use, accessed one member at a time by the programs of
    [Threads].  The models of the components hold the list of the entries in use;
    this file relates the two once, for searches, member updates, appending and
    removal with [memmove].  An access outside the array leaves a mark, so that
    the relation also says that there is none. *)
From S2P Require Import Prelude Threads.

(** * Lists *)

Lemma find_idx_fmap {A B} (f : A -> B) (p : B -> bool) l : find_idx p (f <$> l) = find_idx (fun x => p (f x)) l.
Proof. induction l as [|x l IH]; cbn; [done|]. rewrite <- IH. done. Qed.

Lemma nth_seq_take {A} (d : A) l n : (n <= length l)%nat -> (fun i => nth i l d) <$> seq 0 n = take n l.
Proof.
  revert n. induction l as [|x l IH]; intros [|n] H; cbn in *; try done; [lia|]. f_equal.
  rewrite <- (IH n) by lia. rewrite <- fmap_S_seq, <- list_fmap_compose. done.
Qed.

Lemma alter_const {A} (f : A -> A) i (l : list A) x : (forall y, f y = x) -> alter f i l = <[i := x]> l.
Proof. intros H. revert i. induction l as [|y l IH]; intros [|i]; cbn; [done..|by rewrite H|]. f_equal. apply IH. Qed.

Lemma alter_alter {A} (f g : A -> A) i (l : list A) : alter f i (alter g i l) = alter (fun x => f (g x)) i l.
Proof. revert i. induction l as [|y l IH]; intros [|i]; cbn; [done..|]. f_equal. apply IH. Qed.

Lemma take_put {A} n (x : A) (l : list A) : (n < length l)%nat -> take (n + 1) (<[n := x]> l) = take n l ++ [x].
Proof.
  revert n. induction l as [|y l IH]; intros [|n] H; cbn in *; try lia; [by rewrite take_0|].
  f_equal. apply IH. lia.
Qed.

Lemma take_lookup_S {A} (l : list A) i x : l !! i = Some x -> take (i + 1) l = take i l ++ [x].
Proof. intros H. rewrite Nat.add_1_r. by apply take_S_r. Qed.

(** Entry [j] becomes [l'], entries from [j + 1] on are still to be visited. *)
Lemma visit_take {A} (ls : list A) j l' : (j < length ls)%nat -> take (j + 1) (<[j := l']> ls) = take j ls ++ [l'].
Proof. apply take_put. Qed.
Lemma visit_drop {A} (ls : list A) j l' : drop (j + 1) (<[j := l']> ls) = drop (j + 1) ls.
Proof. apply drop_insert_lt. lia. Qed.

Lemma take_alter_lt {A} (f : A -> A) n i (l : list A) : (i < n)%nat -> take n (alter f i l) = alter f i (take n l).
Proof.
  revert n i. induction l as [|y l IH]; intros [|n] [|i] H; cbn; try done; try lia. f_equal. apply IH. lia.
Qed.

Lemma alter_snoc {A} (f : A -> A) (l : list A) x : alter f (length l) (l ++ [x]) = l ++ [f x].
Proof. induction l as [|y l IH]; cbn; [done|]. f_equal. apply IH. Qed.

Lemma alter_nth {A} (f : A -> A) i (l : list A) d : alter f i l = <[i := f (nth i l d)]> l.
Proof. revert i. induction l as [|y l IH]; intros [|i]; cbn; try done. f_equal. apply IH. Qed.

Lemma alter_entry {A} (f : A -> A) i (l : list A) x : l !! i = Some x -> alter f i l = <[i := f x]> l.
Proof. intros H. by rewrite (alter_nth _ _ _ x), (nth_lookup_Some _ _ _ _ H). Qed.

(** * The structure *)

(** [stray]: some access was outside the array. *)
Record table A := { cells : list A; count : nat; stray : bool }.
Arguments cells {A}. Arguments count {A}. Arguments stray {A}.

Definition live {A} (t : table A) : list A := take (count t) (cells t).

Record tab_ok {A} (cap : nat) (t : table A) : Prop := {
  tab_cells : length (cells t) = cap;
  tab_count : (count t <= cap)%nat;
  tab_stray : stray t = false
}.

(** The entries in use and the others. *)
Definition tab_all {A} (P Q : A -> Prop) (t : table A) : Prop := Forall P (live t) /\ Forall Q (drop (count t) (cells t)).

(** [memset] to zero. *)
Definition blank {A} (zero : A) (cap : nat) : table A := {| cells := replicate cap zero; count := 0; stray := false |}.

Definition touch {A} (i : nat) (t : table A) : table A :=
  {| cells := cells t; count := count t; stray := stray t || (length (cells t) <=? i)%nat |}.
Definition poke {A} (i : nat) (f : A -> A) (t : table A) : table A :=
  {| cells := alter f i (cells t); count := count t; stray := stray t || (length (cells t) <=? i)%nat |}.
Definition with_count {A} (n : nat) (t : table A) : table A := {| cells := cells t; count := n; stray := stray t |}.

Lemma blank_ok {A} (zero : A) cap : tab_ok cap (blank zero cap).
Proof. constructor; cbn; [apply length_replicate|lia|done]. Qed.

Lemma live_length {A} cap (t : table A) : tab_ok cap t -> length (live t) = count t.
Proof. intros []. unfold live. rewrite length_take. lia. Qed.

Lemma touch_id {A} cap i (t : table A) : tab_ok cap t -> (i < cap)%nat -> touch i t = t.
Proof.
  intros [H1 H2 H3] L. destruct t as [c n s]. unfold touch. cbn in *. subst s.
  by rewrite (proj2 (Nat.leb_gt _ _)) by lia.
Qed.

Lemma poke_ok {A} cap i f (t : table A) : tab_ok cap t -> (i < cap)%nat -> tab_ok cap (poke i f t).
Proof.
  intros [H1 H2 H3] L. constructor; cbn; [by rewrite length_alter|done|]. rewrite H3. apply Nat.leb_gt. lia.
Qed.

Lemma poke_live {A} i f (t : table A) : (i < count t)%nat -> live (poke i f t) = alter f i (live t).
Proof. intros L. unfold live. cbn. by apply take_alter_lt. Qed.

Lemma poke_poke {A} i f g (t : table A) : poke i f (poke i g t) = poke i (fun x => f (g x)) t.
Proof.
  unfold poke. cbn. rewrite alter_alter, length_alter. f_equal. rewrite <- orb_assoc. by rewrite orb_diag.
Qed.

(** * Where a table is *)

Record lens S A := { lget : S -> A; lset : A -> S -> S }.
Arguments lget {S A}. Arguments lset {S A}.

Definition over {S A} (L : lens S A) (f : A -> A) (s : S) : S := lset L (f (lget L s)) s.

Section Access.
Context {S A : Type} (L : lens S (table A)) `{Inhabited A}.

Definition rd_count : prog S nat := read (fun s => count (lget L s)).
Definition wr_count (n : nat) : prog S unit := write (over L (with_count n)).

(** [table[i].member], where [f] selects the member. *)
Definition fetch {B} (i : nat) (f : A -> B) : prog S B :=
  Do (over L (touch i)) (fun s => Ret (f (cells (lget L s) !!! i))).
(** [table[i].member = ...] *)
Definition put (i : nat) (f : A -> A) : prog S unit := write (over L (poke i f)).

(** Code that is given [&table[i]]. *)
Fixpoint within {B} (i : nat) (p : prog A B) : prog S B :=
  match p with
  | Ret r => Ret r
  | Do f k => Do (over L (poke i f)) (fun s => within i (k (cells (lget L s) !!! i)))
  end.

(** Several members of one entry, one after the other. *)
Fixpoint puts (i : nat) (fs : list (A -> A)) : prog S unit :=
  match fs with
  | [] => mret tt
  | f :: fs => put i f ;; puts i fs
  end.

(** [table[i] = *src], member by member. *)
Definition assign (i : nat) (src : A) (members : list (A -> A -> A)) : prog S unit := puts i ((fun m => m src) <$> members).

(** [entry = &table[count++]; entry->... = ...;]: the index of the entry. *)
Definition entry (fs : list (A -> A)) : prog S nat :=
  index ← rd_count;
  wr_count (index + 1) ;;
  puts index fs ;;
  mret index.

Definition append (fs : list (A -> A)) : prog S unit := entry fs ;; mret tt.

(** [table[count++] = *src]. *)
Definition push (src : A) (members : list (A -> A -> A)) : prog S unit := append ((fun m => m src) <$> members).

(** [memmove (&table[i], &table[i + 1], n * sizeof *table)]: the cells move down
    one after the other. *)
Fixpoint move_down (n i : nat) : prog S unit :=
  match n with
  | O => mret tt
  | Datatypes.S n => x ← fetch (i + 1) id; put i (fun _ => x) ;; move_down n (i + 1)
  end.

(** [if (i < count - 1) memmove (...); count--;] *)
Definition remove_at (i : nat) : prog S unit :=
  n ← rd_count;
  (if (i <? n - 1)%nat then move_down (n - i - 1) i else mret tt) ;;
  n ← rd_count;
  wr_count (n - 1).

(** [memset (table, 0, sizeof table)]. *)
Fixpoint fill (zero : A) (n i : nat) : prog S unit :=
  match n with
  | O => mret tt
  | Datatypes.S n => put i (fun _ => zero) ;; fill zero n (i + 1)
  end.
End Access.

(** [for (i = start; i < count; i++) if (test i) break;]: the count is read
    again in every iteration, [fuel] bounds their number. *)
Fixpoint search {S} (bound : prog S nat) (test : nat -> prog S bool) (fuel i : nat) : prog S (option nat) :=
  match fuel with
  | O => mret None
  | Datatypes.S fuel =>
      n ← bound;
      if (i <? n)%nat then
        b ← test i;
        if (b : bool) then mret (Some i) else search bound test fuel (i + 1)
      else mret None
  end.

Lemma run_search {S} (bound : prog S nat) (test : nat -> prog S bool) s n b fuel i :
  run bound s = (n, s) -> (forall j, (j < n)%nat -> run (test j) s = (b j, s)) -> (n - i < fuel)%nat ->
  run (search bound test fuel i) s = ((fun j => (i + j)%nat) <$> find_idx b (seq i (n - i)), s).
Proof.
  intros Hn Hb. revert i. induction fuel as [|fuel IH]; intros i H; [lia|]. cbn [search]. run_prog. rewrite Hn.
  destruct (Nat.ltb_spec i n) as [L|L]; run_prog.
  - rewrite Hb by done. replace (n - i)%nat with (Datatypes.S (n - (i + 1)))%nat by lia. cbn [seq find_idx].
    destruct (b i); run_prog; [cbn; by rewrite Nat.add_0_r|].
    rewrite IH by lia. f_equal. replace (i + 1)%nat with (Datatypes.S i) by lia.
    destruct (find_idx _ (seq (Datatypes.S i) _)); cbn; [|done]. f_equal. lia.
  - by replace (n - i)%nat with 0%nat by lia.
Qed.

(** * A table and the list of the model *)

(** The laws hold within [dom]. *)
Record lens_ok {S A} (dom : S -> Prop) (L : lens S A) : Prop := {
  get_set : forall a s, dom s -> lget L (lset L a s) = a;
  set_set : forall a b s, dom s -> lset L a (lset L b s) = lset L a s;
  set_get : forall s, dom s -> lset L (lget L s) s = s;
  dom_set : forall a s, dom s -> dom (lset L a s)
}.

(** [L] is a table of the structure, [M] the list of the model it stands for:
    [g] reads an entry of the model off an entry of the array, [P] is what the
    entries in use satisfy and [Q] the others. *)
Class MirrorsBy {S T A B} (ok : S -> Prop) (abs : S -> T) (L : lens S (table A)) (cap : nat)
    (P Q : A -> Prop) (g : A -> B) (M : lens T (list B)) := {
  mr_dom : S -> Prop;
  mr_lens : lens_ok mr_dom L;
  mr_in : forall s, ok s -> mr_dom s;
  mr_model : T -> Prop;
  mr_list : lens_ok mr_model M;
  mr_model_in : forall s, ok s -> mr_model (abs s);
  mr_ok : forall s, ok s -> tab_ok cap (lget L s);
  mr_all : forall s, ok s -> tab_all P Q (lget L s);
  mr_set_ok : forall t s, ok s -> tab_ok cap t -> tab_all P Q t -> ok (lset L t s);
  mr_abs : forall s, ok s -> lget M (abs s) = g <$> live (lget L s);
  mr_set_abs : forall t s, ok s -> abs (lset L t s) = lset M (g <$> live t) (abs s)
}.

Section Mirror.
Context {S T A B : Type} {ok : S -> Prop} {abs : S -> T} {L : lens S (table A)} {cap : nat}.
Context {P Q : A -> Prop} {g : A -> B} {M : lens T (list B)}.
Context `{Inhabited A} `{!MirrorsBy ok abs L cap P Q g M}.

(** What a piece of code leaves: an intact structure that stands for [x]. *)
Definition leaves {D} (p : prog S D) (s : S) (r : D) (x : T) : Prop :=
  exists s', run p s = (r, s') /\ ok s' /\ abs s' = x.

Lemma mirror_length s : ok s -> length (lget M (abs s)) = count (lget L s).
Proof. intros O. rewrite mr_abs, length_fmap by done. eapply live_length. by apply mr_ok. Qed.

Lemma mirror_bound s i : ok s -> (i < length (lget M (abs s)))%nat -> (i < cap)%nat.
Proof. intros O. rewrite mirror_length by done. pose proof (mr_ok s O) as []. lia. Qed.

(** The cell behind an entry of the model. *)
Lemma mirror_cell s i b : ok s -> lget M (abs s) !! i = Some b ->
  exists a, live (lget L s) !! i = Some a /\ cells (lget L s) !!! i = a /\ P a /\ g a = b /\ (i < cap)%nat.
Proof.
  intros O E. pose proof (mirror_bound s i O (lookup_lt_Some _ _ _ E)) as Hi. rewrite mr_abs in E by done.
  apply list_lookup_fmap_Some in E as (a & -> & Ha). exists a. split; [done|]. unfold live in Ha.
  split_and!; [|exact (Forall_lookup_1 _ _ _ _ (proj1 (mr_all s O)) Ha)|done|done].
  apply lookup_take_Some in Ha as [Ha _]. by apply list_lookup_total_correct.
Qed.

Lemma run_rd_count s : ok s -> run (rd_count L) s = (length (lget M (abs s)), s).
Proof. intros O. unfold rd_count. run_prog. by rewrite mirror_length. Qed.

Lemma over_id f s : ok s -> f (lget L s) = lget L s -> over L f s = s.
Proof. unfold over. intros O ->. apply mr_lens. by apply mr_in. Qed.

Lemma run_fetch {D} s i b (f : A -> D) r : ok s -> lget M (abs s) !! i = Some b -> (forall a, P a -> g a = b -> f a = r) ->
  run (fetch L i f) s = (r, s).
Proof.
  intros O E F. destruct (mirror_cell s i b O E) as (a & _ & Ha & Pa & Ga & Hi). cbn.
  rewrite over_id by (try apply (touch_id cap); try apply mr_ok; done). by rewrite Ha, (F a).
Qed.

Lemma over_leaves s f l : ok s -> tab_ok cap (f (lget L s)) -> tab_all P Q (f (lget L s)) -> g <$> live (f (lget L s)) = l ->
  ok (over L f s) /\ abs (over L f s) = lset M l (abs s).
Proof. intros O K F <-. unfold over. split; [by apply mr_set_ok|by apply mr_set_abs]. Qed.

Lemma over_over f h s : mr_dom s -> over L f (over L h s) = over L (fun t => f (h t)) s.
Proof. intros D. unfold over. by rewrite (get_set _ _ mr_lens), (set_set _ _ mr_lens). Qed.

Definition all_of (fs : list (A -> A)) (a : A) : A := foldl (fun a f => f a) a fs.

Lemma run_puts i fs : forall s, mr_dom s -> fs <> [] -> run (puts L i fs) s = (tt, over L (poke i (all_of fs)) s).
Proof.
  induction fs as [|f fs IH]; intros s D N; [done|]. cbn [puts]. unfold put at 1. run_prog.
  destruct fs as [|f2 fs]; [done|]. rewrite IH; [|by apply mr_lens|done]. rewrite over_over by done. f_equal.
  unfold over. by rewrite poke_poke.
Qed.

Lemma run_put s i f : run (put L i f) s = (tt, over L (poke i f) s).
Proof. done. Qed.

Lemma over_poke_leaves s i f b b' : ok s -> lget M (abs s) !! i = Some b ->
  (forall a, P a -> g a = b -> P (f a) /\ g (f a) = b') ->
  ok (over L (poke i f) s) /\ abs (over L (poke i f) s) = lset M (<[i := b']> (lget M (abs s))) (abs s).
Proof.
  intros O E F. destruct (mirror_cell s i b O E) as (a & Hl & Ha & Pa & Ga & Hi). destruct (F a Pa Ga) as [Pf Gf].
  pose proof (lookup_lt_Some _ _ _ E) as Lt. rewrite mirror_length in Lt by done.
  apply over_leaves; [done|apply poke_ok; [by apply mr_ok|done]| |].
  - destruct (mr_all s O) as [Al Au]. split; [|unfold poke; cbn; by rewrite drop_alter_lt by lia].
    rewrite poke_live by done. apply Forall_alter; [done|]. intros y Hy _. by simplify_eq.
  - rewrite poke_live by done. rewrite (alter_nth _ _ _ a), (nth_lookup_Some _ _ _ _ Hl), list_fmap_insert, Gf.
    by rewrite mr_abs.
Qed.

(** ** One entry *)

Lemma alter_total (f : A -> A) i (l : list A) : alter f i l !!! i = f (l !!! i) \/ (length l <= i)%nat.
Proof.
  destruct (l !! i) as [a|] eqn:Ha; [left|right; by apply lookup_ge_None].
  rewrite (list_lookup_total_correct l i a) by done. apply list_lookup_total_correct. by rewrite list_lookup_alter_eq, Ha.
Qed.

Lemma run_within {D} i (p : prog A D) : forall s, mr_dom s -> (i < length (cells (lget L s)))%nat -> stray (lget L s) = false ->
  run (within L i p) s =
    ((run p (cells (lget L s) !!! i)).1, over L (poke i (fun _ => (run p (cells (lget L s) !!! i)).2)) s).
Proof.
  induction p as [r|f k IH]; intros s D0 Hi Hs; cbn [within run fst snd].
  - f_equal. unfold over. replace (poke _ _ _) with (lget L s); [symmetry; by apply mr_lens|].
    destruct (lookup_lt_is_Some_2 _ _ Hi) as [a Ha]. unfold poke. rewrite (list_lookup_total_correct _ _ _ Ha), alter_const with (x := a) by done.
    rewrite list_insert_id, (proj2 (Nat.leb_gt _ _)), orb_false_r by done. by destruct (lget L s).
  - assert (lget L (over L (poke i f) s) = poke i f (lget L s)) as E by (unfold over; by rewrite (get_set _ _ mr_lens)).
    destruct (alter_total f i (cells (lget L s))) as [Ha|]; [|lia].
    rewrite IH; [|by apply mr_lens|rewrite E; cbn; by rewrite length_alter|rewrite E; cbn; rewrite Hs; by apply Nat.leb_gt].
    rewrite E. cbn [cells poke]. rewrite Ha. f_equal. rewrite over_over by done. unfold over. by rewrite poke_poke.
Qed.

Lemma within_leaves {D} s i b (p : prog A D) r b' : ok s -> lget M (abs s) !! i = Some b ->
  (forall a, P a -> g a = b -> exists a', run p a = (r, a') /\ P a' /\ g a' = b') ->
  leaves (within L i p) s r (lset M (<[i := b']> (lget M (abs s))) (abs s)).
Proof.
  intros O E F. destruct (mirror_cell s i b O E) as (a & _ & Ha & Pa & Ga & Hi). pose proof (mr_ok s O) as [K1 _ K3].
  destruct (F a Pa Ga) as (a' & R & Pa' & Ga'). eexists. rewrite run_within by (try apply mr_in; try lia; done).
  rewrite Ha, R. split; [done|]. by eapply over_poke_leaves.
Qed.

Lemma run_within_same {D} s i b (p : prog A D) r : ok s -> lget M (abs s) !! i = Some b ->
  (forall a, P a -> g a = b -> run p a = (r, a)) -> run (within L i p) s = (r, s).
Proof.
  intros O E F. destruct (mirror_cell s i b O E) as (a & Hl & Ha & Pa & Ga & Hi). pose proof (mr_ok s O) as [K1 _ K3].
  rewrite run_within by (try apply mr_in; try lia; done). rewrite Ha, (F a) by done. cbn. f_equal. apply over_id; [done|].
  unfold poke. rewrite (alter_const _ _ _ a) by done. unfold live in Hl. apply lookup_take_Some in Hl as [Hl _].
  rewrite list_insert_id, K1, (proj2 (Nat.leb_gt _ _)), orb_false_r by done. by destruct (lget L s).
Qed.

Lemma entry_leaves s fs b : fs <> [] -> (forall a, Q a -> P (all_of fs a) /\ g (all_of fs a) = b) -> ok s ->
  (length (lget M (abs s)) < cap)%nat -> leaves (entry L fs) s (length (lget M (abs s))) (lset M (lget M (abs s) ++ [b]) (abs s)).
Proof.
  intros N F O Hi. unfold leaves, entry. run_prog. rewrite run_rd_count by done. unfold wr_count. run_prog.
  rewrite run_puts, over_over by (try apply mr_lens; try apply mr_in; done). run_prog. eexists. split; [done|].
  pose proof (mr_ok s O) as [K1 K2 K3]. destruct (mr_all s O) as [Al Au]. rewrite mirror_length in * by done.
  destruct (lookup_lt_is_Some_2 (cells (lget L s)) (count (lget L s))) as [a Ha]; [lia|].
  rewrite (drop_S _ _ _ Ha) in Au. apply Forall_cons in Au as [Qa Au]. destruct (F a Qa) as [Pf Gf]. apply over_leaves; [done| | |].
  - constructor; cbn; [by rewrite length_alter|lia|]. rewrite K3. apply Nat.leb_gt. lia.
  - unfold tab_all, live. cbn. rewrite (alter_nth _ _ _ a), (nth_lookup_Some _ _ _ _ Ha), take_put, drop_insert_lt by lia.
    rewrite Forall_app, Forall_singleton. split; [done|]. by rewrite Nat.add_1_r.
  - unfold live. cbn. rewrite (alter_nth _ _ _ a), (nth_lookup_Some _ _ _ _ Ha), take_put by lia.
    rewrite fmap_app. cbn. by rewrite Gf, mr_abs.
Qed.

(** ** Removal *)

Lemma shift_cells (l : list A) i n x : l !! (i + 1)%nat = Some x -> (i + Datatypes.S n < length l)%nat ->
  take (i + 1) (<[i := x]> l) ++ take n (drop (i + 1 + 1) (<[i := x]> l)) ++ drop (i + 1 + n) (<[i := x]> l) =
  take i l ++ take (Datatypes.S n) (drop (i + 1) l) ++ drop (i + Datatypes.S n) l.
Proof.
  intros Hx Ll. rewrite take_put by lia. rewrite !drop_insert_lt by lia. rewrite <- app_assoc. f_equal.
  rewrite (drop_S l x (i + 1)) by done. cbn. do 2 f_equal; [do 2 f_equal; lia|f_equal; lia].
Qed.

(** Cell [i] and the [n] after it, moved down by one. *)
Definition shifted (c : list A) (n i : nat) (t : table A) : table A :=
  {| cells := take i c ++ take n (drop (i + 1) c) ++ drop (i + n) c; count := count t; stray := false |}.

Lemma moved_cells n : forall i (c : list A) s, mr_dom s -> (i + n < length c)%nat ->
  lget L s = {| cells := c; count := count (lget L s); stray := false |} ->
  run (move_down L n i) s = (tt, over L (shifted c n i) s).
Proof.
  induction n as [|n IH]; intros i c s D Hi E; cbn [move_down].
  - run_prog. f_equal. unfold over, shifted. rewrite take_0, Nat.add_0_r. cbn. rewrite take_drop, <- E. symmetry. by apply mr_lens.
  - run_prog. destruct (lookup_lt_is_Some_2 c (i + 1)) as [x Hx]; [lia|]. cbn [run fetch].
    assert (over L (touch (i + 1)) s = s) as ->.
    { unfold over. replace (touch (i + 1) (lget L s)) with (lget L s); [by apply mr_lens|].
      rewrite E. unfold touch. cbn. by rewrite (proj2 (Nat.leb_gt _ _)) by lia. }
    unfold put. run_prog. rewrite (IH (i + 1)%nat (<[i := x]> c)); [|by apply mr_lens|rewrite length_insert; lia|].
    2: { unfold over. rewrite (get_set _ _ mr_lens) by done. rewrite E. unfold poke. cbn.
         rewrite (alter_const _ _ _ x), (proj2 (Nat.leb_gt _ _)); [done|lia|].
         intros y. unfold id. by apply list_lookup_total_correct. }
    f_equal. rewrite over_over by done. unfold over. f_equal. rewrite E. unfold shifted. cbn [cells count stray poke]. f_equal.
    by apply shift_cells.
Qed.

Lemma delete_app_take (l : list A) i n : (i < n <= length l)%nat ->
  take (n - 1) (take i l ++ take (n - i - 1) (drop (i + 1) l) ++ drop (i + (n - i - 1)) l) = delete i (take n l).
Proof.
  intros Hi. rewrite delete_take_drop, take_take, Nat.min_l by lia. rewrite app_assoc, take_app_le.
  - rewrite take_ge by (rewrite length_app, !length_take, length_drop; lia). f_equal.
    rewrite take_drop_commute. f_equal; [lia|]. f_equal. lia.
  - rewrite length_app, !length_take, length_drop. lia.
Qed.

Lemma remove_leaves s i : (forall a, P a -> Q a) -> ok s -> (i < length (lget M (abs s)))%nat ->
  leaves (remove_at L i) s tt (lset M (delete i (lget M (abs s))) (abs s)).
Proof.
  intros PQ O Hi. pose proof (mr_ok s O) as [K1 K2 K3]. destruct (mr_all s O) as [Al Au]. pose proof (mr_in s O) as D.
  pose proof (mirror_length s O) as Ln. rewrite Ln in Hi.
  set (n := count (lget L s)) in *. set (c := cells (lget L s)) in *.
  assert (lget L s = {| cells := c; count := n; stray := false |}) as Es by (unfold c, n; rewrite <- K3; by destruct (lget L s)).
  assert (run (if (i <? n - 1)%nat then move_down L (n - i - 1) i else mret tt) s = (tt, over L (shifted c (n - i - 1) i) s)) as E.
  { destruct (Nat.ltb_spec i (n - 1)); [by apply moved_cells; [..|lia|]|].
    run_prog. f_equal. replace (n - i - 1)%nat with 0%nat by lia. unfold shifted. rewrite take_0, Nat.add_0_r. cbn.
    rewrite take_drop. symmetry. by apply over_id. }
  unfold leaves, remove_at. run_prog. rewrite run_rd_count, Ln by done. run_prog. rewrite E. run_prog.
  unfold rd_count, wr_count. run_prog. rewrite over_over by done. eexists. split; [done|].
  assert (count (lget L (over L (shifted c (n - i - 1) i) s)) = n) as -> by (unfold over; by rewrite (get_set _ _ mr_lens)).
  apply over_leaves; [done| | |].
  - constructor; cbn; [|lia|done]. rewrite !length_app, !length_take, !length_drop. lia.
  - unfold tab_all, live. cbn. rewrite delete_app_take by lia. split; [by apply Forall_delete|].
    assert (Forall Q c) as Ac by (rewrite <- (take_drop n c); apply Forall_app; split; [by eapply Forall_impl|done]).
    apply Forall_drop. rewrite !Forall_app. split_and!; by repeat first [apply Forall_take|apply Forall_drop].
  - unfold live at 1. cbn. rewrite delete_app_take by lia. by rewrite mr_abs, list_fmap_delete.
Qed.

(** ** Searches *)

Lemma search_table s (test : nat -> prog S bool) (p : B -> bool) fuel : ok s -> (cap < fuel)%nat ->
  (forall j b, lget M (abs s) !! j = Some b -> run (test j) s = (p b, s)) ->
  run (search (rd_count L) test fuel 0) s = (find_idx p (lget M (abs s)), s).
Proof.
  intros O F Ht. pose proof (mr_ok s O) as [_ K _]. pose proof (mirror_length s O) as Ln.
  assert (Inhabited B) as IB by exact (populate (g inhabitant)).
  rewrite (run_search _ _ s (length (lget M (abs s))) (fun j => p (nth j (lget M (abs s)) inhabitant)));
    [|by apply run_rd_count| |lia].
  - f_equal. rewrite Nat.sub_0_r. rewrite <- (find_idx_fmap (fun j => nth j (lget M (abs s)) inhabitant) p).
    rewrite nth_seq_take, take_ge by done. by destruct (find_idx _ _).
  - intros j Hj. destruct (lookup_lt_is_Some_2 _ _ Hj) as [x Hx]. rewrite (Ht j x Hx).
    by rewrite (nth_lookup_Some _ _ inhabitant _ Hx).
Qed.

(** ** Clearing *)

Lemma wr_count_leaves s n : (forall a, P a -> Q a) -> ok s -> (n <= length (lget M (abs s)))%nat ->
  leaves (wr_count L n) s tt (lset M (take n (lget M (abs s))) (abs s)).
Proof.
  intros PQ O Hn. pose proof (mr_ok s O) as [K1 K2 K3]. destruct (mr_all s O) as [Al Au]. rewrite mirror_length in Hn by done.
  eexists. split; [done|]. apply over_leaves; [done|constructor; cbn; [done|lia|done]| |].
  { assert (take n (cells (lget L s)) = take n (live (lget L s))) as E by (unfold live; by rewrite take_take, Nat.min_l).
    split; [unfold live; cbn; rewrite E; by apply Forall_take|]. cbn. apply Forall_drop.
    rewrite <- (take_drop (count (lget L s)) (cells (lget L s))). apply Forall_app. split; [by eapply Forall_impl|done]. }
  unfold live at 1. cbn. rewrite mr_abs, <- fmap_take by done. unfold live. rewrite take_take. do 2 f_equal. lia.
Qed.

Lemma fill_leaves zero n : Q zero -> forall i s, ok s -> lget M (abs s) = [] -> (i + n <= cap)%nat -> leaves (fill L zero n i) s tt (abs s).
Proof.
  intros Pz. induction n as [|n IH]; intros i s O E Hi; cbn [fill]; unfold leaves; run_prog; [by exists s|].
  unfold put. run_prog. set (s1 := over L (poke i (fun _ => zero)) s).
  assert (count (lget L s) = 0%nat) as C by (rewrite <- mirror_length, E by done; done).
  destruct (over_leaves s (poke i (fun _ => zero)) [] O) as [O1 A1].
  { apply poke_ok; [by apply mr_ok|lia]. }
  { destruct (mr_all s O) as [Al Au]. unfold tab_all, live, poke. cbn. rewrite C in *. rewrite take_0, drop_0 in *.
    split; [done|]. rewrite (alter_const _ _ _ zero) by done. by apply Forall_insert. }
  { unfold live. cbn. by rewrite C, take_0. }
  fold s1 in O1, A1.
  assert (abs s1 = abs s) as Ae by (rewrite A1, <- E; apply mr_list; by apply mr_model_in).
  destruct (IH (i + 1)%nat s1) as (s2 & E2 & O2 & A2); [done|by rewrite Ae|lia|].
  exists s2. split_and!; [done|done|by rewrite A2].
Qed.
End Mirror.

Arguments leaves {S T} ok abs {D} p s r x.

(** The setters, one after the other, leave the source's value. *)
Definition complete {A} (members : list (A -> A -> A)) : Prop :=
  forall x y, all_of ((fun m => m x) <$> members) y = x.

(** A table whose entries the model has as they are. *)
Abbreviation Mirrors ok abs L cap M := (MirrorsBy ok abs L cap (fun _ => True) (fun _ => True) id M).

Lemma mirrors_intro {S T A} (ok : S -> Prop) (abs : S -> T) (L : lens S (table A)) cap (M : lens T (list A)) :
  lens_ok (fun _ => True) L -> lens_ok (fun _ => True) M -> (forall s, ok s -> tab_ok cap (lget L s)) ->
  (forall t s, ok s -> tab_ok cap t -> ok (lset L t s)) -> (forall s, lget M (abs s) = live (lget L s)) ->
  (forall t s, abs (lset L t s) = lset M (live t) (abs s)) -> Mirrors ok abs L cap M.
Proof.
  intros H1 H2 H3 H4 H5 H6. refine {| mr_dom := fun _ => True; mr_model := fun _ => True; mr_lens := H1; mr_list := H2 |}; try done.
  - intros s _. split; by apply Forall_true.
  - intros t s O K _. by apply H4.
  - intros s _. by rewrite H5, list_fmap_id.
  - intros t s _. by rewrite H6, list_fmap_id.
Qed.

(** * Programs on the model's state *)

(** In any structure that stands for [x], the program returns [r] and leaves one
    that stands for [y]; [observes]: it also changes nothing. *)
Definition does {S T B} (ok : S -> Prop) (abs : S -> T) (p : prog S B) (x : T) (r : B) (y : T) : Prop :=
  forall s, ok s -> abs s = x -> leaves ok abs p s r y.
Definition observes {S T B} (ok : S -> Prop) (abs : S -> T) (p : prog S B) (x : T) (r : B) : Prop :=
  forall s, ok s -> abs s = x -> run p s = (r, s).

Section Rules.
Context {S T : Type} {ok : S -> Prop} {abs : S -> T}.
Implicit Types x y z : T.

Lemma does_ret {B} (r : B) x : does ok abs (mret r) x r x.
Proof. intros s O A. by exists s. Qed.

Lemma observes_does {B} (p : prog S B) x r : observes ok abs p x r -> does ok abs p x r x.
Proof. intros H s O A. exists s. by rewrite H. Qed.

Lemma does_bind {B D} (p : prog S B) (k : B -> prog S D) x r y q z :
  does ok abs p x r y -> does ok abs (k r) y q z -> does ok abs (p ≫= k) x q z.
Proof.
  intros H1 H2 s O A. destruct (H1 s O A) as (s1 & E1 & O1 & A1). destruct (H2 s1 O1 A1) as (s2 & E2 & O2 & A2).
  exists s2. run_prog. by rewrite E1.
Qed.

Lemma does_observe {B D} (p : prog S B) (k : B -> prog S D) x r q z :
  observes ok abs p x r -> does ok abs (k r) x q z -> does ok abs (p ≫= k) x q z.
Proof. intros H. apply does_bind. by apply observes_does. Qed.

Lemma observes_ret {B} (r : B) x : observes ok abs (mret r) x r.
Proof. done. Qed.

Lemma observes_bind {B D} (p : prog S B) (k : B -> prog S D) x r q :
  observes ok abs p x r -> observes ok abs (k r) x q -> observes ok abs (p ≫= k) x q.
Proof. intros H1 H2 s O A. run_prog. rewrite H1 by done. by apply H2. Qed.

(** Members beside the tables. *)
Lemma read_observes {B} (g : S -> B) (h : T -> B) x : (forall s, g s = h (abs s)) -> observes ok abs (read g) x (h x).
Proof. intros E s O <-. by rewrite <- E. Qed.

Lemma write_does (f : S -> S) (h : T -> T) x : (forall s, ok s -> ok (f s)) -> (forall s, abs (f s) = h (abs s)) ->
  does ok abs (write f) x tt (h x).
Proof. intros O1 E s O <-. exists (f s). split_and!; [done|by apply O1|done]. Qed.

(** A result is wrapped after the lock is given back. *)
Lemma wrap_does {B D} (p : prog S B) (f : B -> D) x r y : does ok abs p x r y -> does ok abs (a ← p; mret (f a)) x (f r) y.
Proof. intros H. eapply does_bind; [exact H|apply does_ret]. Qed.

(** What a call does is what the model says. *)
Lemma does_run {B} (p : prog S B) s r y : ok s -> does ok abs p (abs s) r y ->
  ok (run p s).2 /\ (r, y) = ((run p s).1, abs (run p s).2).
Proof. intros O H. destruct (H s O eq_refl) as (s' & E & O' & A'). rewrite E. cbn. by rewrite A'. Qed.

Section Tab.
Context {A B : Type} {L : lens S (table A)} {cap : nat} {P Q : A -> Prop} {g : A -> B} {M : lens T (list B)}.
Context `{Inhabited A} `{!MirrorsBy ok abs L cap P Q g M}.

(** A state that some structure stands for fits the array. *)
Lemma does_cap {D} (p : prog S D) x r y : ((length (lget M x) <= cap)%nat -> does ok abs p x r y) -> does ok abs p x r y.
Proof. intros H1 s O E. apply H1; [|done|done]. rewrite <- E, mirror_length by done. by apply mr_ok. Qed.

Lemma fetch_by {D} (f : A -> D) x i b r : lget M x !! i = Some b -> (forall a, P a -> g a = b -> f a = r) ->
  observes ok abs (fetch L i f) x r.
Proof. intros E F s O <-. by eapply run_fetch. Qed.

(** A member the model has. *)
Lemma fetch_via {D} (f : A -> D) (h : B -> D) x i b : lget M x !! i = Some b -> (forall a, f a = h (g a)) ->
  observes ok abs (fetch L i f) x (h b).
Proof. intros E F. eapply fetch_by; [exact E|]. by intros a _ <-. Qed.

Lemma count_observes x : observes ok abs (rd_count L) x (length (lget M x)).
Proof. intros s O <-. by apply run_rd_count. Qed.

Lemma search_observes (test : nat -> prog S bool) (p : B -> bool) fuel x : (cap < fuel)%nat ->
  (forall j b, lget M x !! j = Some b -> observes ok abs (test j) x (p b)) ->
  observes ok abs (search (rd_count L) test fuel 0) x (find_idx p (lget M x)).
Proof. intros F H1 s O <-. apply search_table; [done|done|]. intros j b Hj. by apply H1. Qed.

Lemma put_by f x i b b' : lget M x !! i = Some b -> (forall a, P a -> g a = b -> P (f a) /\ g (f a) = b') ->
  does ok abs (put L i f) x tt (lset M (<[i := b']> (lget M x)) x).
Proof. intros E F s O <-. exists (over L (poke i f) s). split; [done|]. by eapply over_poke_leaves. Qed.

Lemma puts_by fs x i b b' : fs <> [] -> lget M x !! i = Some b -> (forall a, P a -> g a = b -> P (all_of fs a) /\ g (all_of fs a) = b') ->
  does ok abs (puts L i fs) x tt (lset M (<[i := b']> (lget M x)) x).
Proof.
  intros N E F s O <-. exists (over L (poke i (all_of fs)) s). rewrite run_puts by (try apply mr_in; done). split; [done|].
  by eapply over_poke_leaves.
Qed.

(** Code on an entry does to the model's entry what it does to the cell. *)
Lemma within_does {D} (p : prog A D) x i b r b' : lget M x !! i = Some b -> does P g p b r b' ->
  does ok abs (within L i p) x r (lset M (<[i := b']> (lget M x)) x).
Proof. intros E F s O <-. by apply (within_leaves _ _ b). Qed.

Lemma within_observes {D} (p : prog A D) x i b r : lget M x !! i = Some b -> observes P g p b r ->
  observes ok abs (within L i p) x r.
Proof. intros E F s O <-. by apply (run_within_same _ _ b). Qed.

Lemma entry_by fs x b : fs <> [] -> (forall a, Q a -> P (all_of fs a) /\ g (all_of fs a) = b) -> (length (lget M x) < cap)%nat ->
  does ok abs (entry L fs) x (length (lget M x)) (lset M (lget M x ++ [b]) x).
Proof. intros N F Hi s O <-. by apply entry_leaves. Qed.

Lemma append_by fs x b : fs <> [] -> (forall a, Q a -> P (all_of fs a) /\ g (all_of fs a) = b) -> (length (lget M x) < cap)%nat ->
  does ok abs (append L fs) x tt (lset M (lget M x ++ [b]) x).
Proof. intros N F Hi. apply (wrap_does _ (fun _ => tt) _ _ _ (entry_by fs x b N F Hi)). Qed.

Lemma remove_does x i : (forall a, P a -> Q a) -> (i < length (lget M x))%nat -> does ok abs (remove_at L i) x tt (lset M (delete i (lget M x)) x).
Proof. intros PQ Hi s O <-. by apply remove_leaves. Qed.

Lemma wr_count_does x n : (forall a, P a -> Q a) -> (n <= length (lget M x))%nat -> does ok abs (wr_count L n) x tt (lset M (take n (lget M x)) x).
Proof. intros PQ Hn s O <-. by apply wr_count_leaves. Qed.

Lemma fill_does zero n x i : Q zero -> lget M x = [] -> (i + n <= cap)%nat -> does ok abs (fill L zero n i) x tt x.
Proof. intros Pz E Hi s O <-. by apply fill_leaves. Qed.
End Tab.

(** Entries the model has as they are. *)
Section Same.
Context {A : Type} {L : lens S (table A)} {cap : nat} {M : lens T (list A)}.
Context `{Inhabited A} `{!Mirrors ok abs L cap M}.

Lemma fetch_observes {B} (f : A -> B) x i a : lget M x !! i = Some a -> observes ok abs (fetch L i f) x (f a).
Proof. intros E. eapply fetch_by; [done|]. by intros a' _ <-. Qed.

Lemma put_does f x i a : lget M x !! i = Some a -> does ok abs (put L i f) x tt (lset M (<[i := f a]> (lget M x)) x).
Proof. intros E. eapply put_by; [done|]. by intros a' _ <-. Qed.

Lemma put_if_does (b : bool) f x i a : lget M x !! i = Some a ->
  does ok abs (if b then put L i f else mret tt) x tt (lset M (<[i := if b then f a else a]> (lget M x)) x).
Proof.
  intros E. destruct b; [by apply put_does|]. rewrite list_insert_id by done. intros s O A1. exists s. split_and!; [done..|].
  rewrite A1. symmetry. apply mr_list. rewrite <- A1. by apply mr_model_in.
Qed.

Lemma assign_does x i a ms : complete ms -> ms <> [] -> (i < length (lget M x))%nat ->
  does ok abs (assign L i a ms) x tt (lset M (<[i := a]> (lget M x)) x).
Proof.
  intros C N Hi. destruct (lookup_lt_is_Some_2 _ _ Hi) as [y Hy]. eapply puts_by; [by destruct ms|exact Hy|].
  intros a' _ _. split; [done|]. apply C.
Qed.

Lemma push_does x a ms : complete ms -> ms <> [] -> (length (lget M x) < cap)%nat ->
  does ok abs (push L a ms) x tt (lset M (lget M x ++ [a]) x).
Proof. intros C N Hi. apply append_by; [by destruct ms| |done]. intros a' _. split; [done|]. apply C. Qed.
End Same.
End Rules.

(** Runs a program whose accesses are decided by lookups in the context. *)
Ltac observe := first [eapply does_observe | eapply observes_bind];
  [first [eapply fetch_observes; eassumption | eapply count_observes]|].
