(* ===== verification/ClusterThreads.v ===== *)
(** The operations of [master/src/cluster_state.c] at the level of single memory
    accesses, with the arrays and counters of the structure as they are
    declared.  Each is shown to do what its one-step model in [ClusterState]
    does, and [Threads] then gives the meaning of many threads calling them. *)
From stdpp Require Import gmap.
From S2P Require Import Prelude CFloat SnapshotRing ClusterState ClusterStateProps Threads Tables.

(** * The structure *)

(** In [r_body] the lists are the whole arrays; the counters stand beside them. *)
Record RawSnapshot := {
  r_body : ClusterStateSnapshot;
  total_registered_workers : nat;
  total_active_leases : nat
}.

Record RawContext := {
  r_state : RawSnapshot;
  r_pool : list RawSnapshot;
  r_tail : nat;
  r_refs : list Z
}.

Abbreviation raw_files := (gmap string (option RawSnapshot)).

(** The context, and the files its operations write and read. *)
Abbreviation raw_world := (RawContext * raw_files)%type.

Definition zero_worker : WorkerMember :=
  {| wm_worker_id := 0; wm_health := WORKER_HEALTH_ONLINE; wm_last_seen_timestamp_ms := 0;
     wm_resources := {| wr_total_memory_bytes := 0; wr_reserved_memory_bytes := 0;
                        wr_total_cores := 0; wr_reserved_cores := 0 |} |}.

(** What [calloc] leaves. *)
Definition raw_zero : RawSnapshot :=
  {| r_body := cs_set_leases (replicate CLUSTER_MAX_ACTIVE_LEASES (zero_lease 0))
                 (cs_set_workers (replicate CLUSTER_MAX_WORKERS zero_worker) zero_snapshot);
     total_registered_workers := 0; total_active_leases := 0 |}.

(** ** What it stands for *)

Definition snap_abs (r : RawSnapshot) : ClusterStateSnapshot :=
  cs_set_leases (take (total_active_leases r) (active_leases (r_body r)))
    (cs_set_workers (take (total_registered_workers r) (active_workers (r_body r))) (r_body r)).

Definition ctx_abs (c : RawContext) : ClusterStateContext :=
  {| master_state := snap_abs (r_state c); snapshot_pool := snap_abs <$> r_pool c;
     pool_tail_idx := r_tail c; snapshot_ref_counts := r_refs c |}.

Definition files_abs (fs : raw_files) : wal_files := option_map snap_abs <$> fs.

Definition world_abs (w : raw_world) : ClusterStateContext * wal_files := (ctx_abs w.1, files_abs w.2).

Record raw_ok (r : RawSnapshot) : Prop := {
  raw_workers_len : length (active_workers (r_body r)) = CLUSTER_MAX_WORKERS;
  raw_workers_cnt : (total_registered_workers r <= CLUSTER_MAX_WORKERS)%nat;
  raw_leases_len : length (active_leases (r_body r)) = CLUSTER_MAX_ACTIVE_LEASES;
  raw_leases_cnt : (total_active_leases r <= CLUSTER_MAX_ACTIVE_LEASES)%nat
}.

Record world_ok (w : raw_world) : Prop := {
  wo_state : raw_ok (r_state w.1);
  wo_refs : Forall in_u32 (r_refs w.1);
  wo_files : forall p r, w.2 !! p = Some (Some r) -> raw_ok r
}.

(** ** Accesses *)

Definition on_state (f : RawSnapshot -> RawSnapshot) (w : raw_world) : raw_world :=
  ({| r_state := f (r_state w.1); r_pool := r_pool w.1; r_tail := r_tail w.1; r_refs := r_refs w.1 |}, w.2).
Definition on_body (f : ClusterStateSnapshot -> ClusterStateSnapshot) (r : RawSnapshot) : RawSnapshot :=
  {| r_body := f (r_body r); total_registered_workers := total_registered_workers r;
     total_active_leases := total_active_leases r |}.
Definition on_workers (f : list WorkerMember -> list WorkerMember) : raw_world -> raw_world :=
  on_state (on_body (fun s => cs_set_workers (f (active_workers s)) s)).
Definition on_leases (f : list ChunkLease -> list ChunkLease) : raw_world -> raw_world :=
  on_state (on_body (fun s => cs_set_leases (f (active_leases s)) s)).
Definition on_metrics (f : ClusterMetrics -> ClusterMetrics) : raw_world -> raw_world :=
  on_state (on_body (fun s => cs_set_metrics (f (metrics s)) s)).
Definition set_worker_count (n : nat) (r : RawSnapshot) : RawSnapshot :=
  {| r_body := r_body r; total_registered_workers := n; total_active_leases := total_active_leases r |}.
Definition set_lease_count (n : nat) (r : RawSnapshot) : RawSnapshot :=
  {| r_body := r_body r; total_registered_workers := total_registered_workers r; total_active_leases := n |}.
Definition on_pool (f : list RawSnapshot -> list RawSnapshot) (w : raw_world) : raw_world :=
  ({| r_state := r_state w.1; r_pool := f (r_pool w.1); r_tail := r_tail w.1; r_refs := r_refs w.1 |}, w.2).
Definition on_refs (f : list Z -> list Z) (w : raw_world) : raw_world :=
  ({| r_state := r_state w.1; r_pool := r_pool w.1; r_tail := r_tail w.1; r_refs := f (r_refs w.1) |}, w.2).
Definition set_tail (n : nat) (w : raw_world) : raw_world :=
  ({| r_state := r_state w.1; r_pool := r_pool w.1; r_tail := n; r_refs := r_refs w.1 |}, w.2).

Definition nworkers (w : raw_world) : nat := total_registered_workers (r_state w.1).
Definition nleases (w : raw_world) : nat := total_active_leases (r_state w.1).
Definition worker_at (i : nat) (w : raw_world) : WorkerMember := nth i (active_workers (r_body (r_state w.1))) zero_worker.
Definition lease_at (i : nat) (w : raw_world) : ChunkLease := nth i (active_leases (r_body (r_state w.1))) (zero_lease 0).
Definition status_now (w : raw_world) : ClusterStatus := global_status (r_body (r_state w.1)).

Definition put_id (i : Z) (m : WorkerMember) : WorkerMember :=
  {| wm_worker_id := i; wm_health := wm_health m; wm_last_seen_timestamp_ms := wm_last_seen_timestamp_ms m;
     wm_resources := wm_resources m |}.
Definition put_health (h : WorkerHealth) (m : WorkerMember) : WorkerMember :=
  {| wm_worker_id := wm_worker_id m; wm_health := h; wm_last_seen_timestamp_ms := wm_last_seen_timestamp_ms m;
     wm_resources := wm_resources m |}.
Definition put_seen (t : Z) (m : WorkerMember) : WorkerMember :=
  {| wm_worker_id := wm_worker_id m; wm_health := wm_health m; wm_last_seen_timestamp_ms := t;
     wm_resources := wm_resources m |}.
Definition put_resources (r : WorkerResources) (m : WorkerMember) : WorkerMember :=
  {| wm_worker_id := wm_worker_id m; wm_health := wm_health m;
     wm_last_seen_timestamp_ms := wm_last_seen_timestamp_ms m; wm_resources := r |}.

Definition put_chunk (i : Z) (l : ChunkLease) : ChunkLease :=
  {| cl_chunk_id := i; cl_status := cl_status l; cl_progress_percentage := cl_progress_percentage l;
     cl_failure_retry_count := cl_failure_retry_count l |}.
Definition put_status (st : LeaseStatus) (l : ChunkLease) : ChunkLease :=
  {| cl_chunk_id := cl_chunk_id l; cl_status := st; cl_progress_percentage := cl_progress_percentage l;
     cl_failure_retry_count := cl_failure_retry_count l |}.
Definition put_progress (p : cfloat) (l : ChunkLease) : ChunkLease :=
  {| cl_chunk_id := cl_chunk_id l; cl_status := cl_status l; cl_progress_percentage := p;
     cl_failure_retry_count := cl_failure_retry_count l |}.
Definition put_retries (n : Z) (l : ChunkLease) : ChunkLease :=
  {| cl_chunk_id := cl_chunk_id l; cl_status := cl_status l; cl_progress_percentage := cl_progress_percentage l;
     cl_failure_retry_count := n |}.

Definition put_memory (z : Z) (m : ClusterMetrics) : ClusterMetrics :=
  {| m_aggregate_memory_bytes := z; m_allocated_memory_bytes := m_allocated_memory_bytes m;
     m_aggregate_cores := m_aggregate_cores m; m_allocated_cores := m_allocated_cores m;
     m_active_worker_count := m_active_worker_count m |}.
Definition put_allocated (z : Z) (m : ClusterMetrics) : ClusterMetrics :=
  {| m_aggregate_memory_bytes := m_aggregate_memory_bytes m; m_allocated_memory_bytes := z;
     m_aggregate_cores := m_aggregate_cores m; m_allocated_cores := m_allocated_cores m;
     m_active_worker_count := m_active_worker_count m |}.
Definition put_cores (z : Z) (m : ClusterMetrics) : ClusterMetrics :=
  {| m_aggregate_memory_bytes := m_aggregate_memory_bytes m; m_allocated_memory_bytes := m_allocated_memory_bytes m;
     m_aggregate_cores := z; m_allocated_cores := m_allocated_cores m;
     m_active_worker_count := m_active_worker_count m |}.
Definition put_allocated_cores (z : Z) (m : ClusterMetrics) : ClusterMetrics :=
  {| m_aggregate_memory_bytes := m_aggregate_memory_bytes m; m_allocated_memory_bytes := m_allocated_memory_bytes m;
     m_aggregate_cores := m_aggregate_cores m; m_allocated_cores := z;
     m_active_worker_count := m_active_worker_count m |}.
Definition put_count (z : Z) (m : ClusterMetrics) : ClusterMetrics :=
  {| m_aggregate_memory_bytes := m_aggregate_memory_bytes m; m_allocated_memory_bytes := m_allocated_memory_bytes m;
     m_aggregate_cores := m_aggregate_cores m; m_allocated_cores := m_allocated_cores m;
     m_active_worker_count := z |}.

(** * The operations *)

Abbreviation code A := (prog raw_world A).

(** [for (i = 0; i < count; i++) if (key[i] == id) break;]: the count is read
    again in every iteration, [fuel] bounds their number. *)
Fixpoint find_loop (count : raw_world -> nat) (key : nat -> raw_world -> Z) (id : Z) (fuel i : nat) : code (option nat) :=
  match fuel with
  | O => mret None
  | S fuel =>
      n ← read count;
      if (i <? n)%nat then
        k ← read (key i);
        if k =? id then mret (Some i) else find_loop count key id fuel (i + 1)
      else mret None
  end.

Definition find_worker (id : Z) : code (option nat) :=
  find_loop nworkers (fun i w => wm_worker_id (worker_at i w)) id (S CLUSTER_MAX_WORKERS) 0.
Definition find_lease (id : Z) : code (option nat) :=
  find_loop nleases (fun i w => cl_chunk_id (lease_at i w)) id (S CLUSTER_MAX_ACTIVE_LEASES) 0.

(** The five additions for one worker. *)
Definition add_code (i : nat) : code unit :=
  r ← read (fun w => wm_resources (worker_at i w));
  write (on_metrics (fun m => put_memory (u64 (m_aggregate_memory_bytes m + wr_total_memory_bytes r)) m)) ;;
  write (on_metrics (fun m => put_allocated (u64 (m_allocated_memory_bytes m + wr_reserved_memory_bytes r)) m)) ;;
  write (on_metrics (fun m => put_cores (u32 (m_aggregate_cores m + wr_total_cores r)) m)) ;;
  write (on_metrics (fun m => put_allocated_cores (u32 (m_allocated_cores m + wr_reserved_cores r)) m)) ;;
  write (on_metrics (fun m => put_count (u32 (m_active_worker_count m + 1)) m)).

Fixpoint recalc_loop (fuel i : nat) : code unit :=
  match fuel with
  | O => mret tt
  | S fuel =>
      n ← read nworkers;
      if (i <? n)%nat then
        live ← read (fun w => counted (worker_at i w));
        (if (live : bool) then add_code i else mret tt) ;;
        recalc_loop fuel (i + 1)
      else mret tt
  end.

Definition recalc_code : code unit :=
  write (on_metrics (put_memory 0)) ;;
  write (on_metrics (put_allocated 0)) ;;
  write (on_metrics (put_cores 0)) ;;
  write (on_metrics (put_allocated_cores 0)) ;;
  write (on_metrics (put_count 0)) ;;
  recalc_loop (S CLUSTER_MAX_WORKERS) 0.

Definition bump_code : code unit := write (on_state (on_body bump_version)).

Definition register_code (worker : WorkerMember) : code bool :=
  n ← read nworkers;
  if (CLUSTER_MAX_WORKERS <=? n)%nat then mret false
  else
    dup ← find_worker (wm_worker_id worker);
    match dup with
    | Some _ => mret false
    | None =>
        index ← read nworkers;
        write (on_state (set_worker_count (index + 1))) ;;
        write (on_workers (alter (put_id (wm_worker_id worker)) index)) ;;
        write (on_workers (alter (put_health (wm_health worker)) index)) ;;
        write (on_workers (alter (put_seen (wm_last_seen_timestamp_ms worker)) index)) ;;
        write (on_workers (alter (put_resources (wm_resources worker)) index)) ;;
        bump_code ;;
        st ← read status_now;
        n ← read nworkers;
        (if bool_decide (st = CLUSTER_STATUS_BOOSTRAP) && (1 <=? n)%nat
         then write (on_state (on_body (cs_set_status CLUSTER_STATUS_OPERATIONAL))) else mret tt) ;;
        recalc_code ;;
        mret true
    end.

(** From [ChunkLease* lease = ...] on. *)
Definition lease_code (lease_idx : nat) (new_status : LeaseStatus) (progress : cfloat) : code bool :=
  write (on_leases (alter (put_status new_status) lease_idx)) ;;
  write (on_leases (alter (put_progress progress) lease_idx)) ;;
  (if is_failure new_status
   then write (on_leases (alter (fun l => put_retries (u32 (cl_failure_retry_count l + 1)) l) lease_idx)) else mret tt) ;;
  bump_code ;;
  mret true.

Definition update_code (chunk_id : Z) (new_status : LeaseStatus) (progress : cfloat) : code bool :=
  found ← find_lease chunk_id;
  match found with
  | Some lease_idx => lease_code lease_idx new_status progress
  | None =>
      n ← read nleases;
      if (CLUSTER_MAX_ACTIVE_LEASES <=? n)%nat then mret false
      else
        lease_idx ← read nleases;
        write (on_state (set_lease_count (lease_idx + 1))) ;;
        write (on_leases (<[lease_idx := zero_lease 0]>)) ;;
        write (on_leases (alter (put_chunk chunk_id) lease_idx)) ;;
        lease_code lease_idx new_status progress
  end.

Definition heartbeat_code (worker_id timestamp_ms : Z) : code bool :=
  found ← find_worker worker_id;
  match found with
  | Some i =>
      write (on_workers (alter (put_seen timestamp_ms) i)) ;;
      h ← read (fun w => wm_health (worker_at i w));
      (if bool_decide (h = WORKER_HEALTH_OFFLINE)
       then write (on_workers (alter (put_health WORKER_HEALTH_ONLINE) i)) else mret tt) ;;
      bump_code ;;
      recalc_code ;;
      mret true
  | None => mret false
  end.

(** The members of the structure, each taken from [r]. *)
Definition copy_members : list (RawSnapshot -> RawSnapshot -> RawSnapshot) :=
  [fun r => on_body (fun s => {| cluster_uuid := cluster_uuid (r_body r); master_epoch := master_epoch s;
     state_generation_version := state_generation_version s; global_status := global_status s;
     active_workers := active_workers s; active_leases := active_leases s; metrics := metrics s |});
   fun r => on_body (fun s => {| cluster_uuid := cluster_uuid s; master_epoch := master_epoch (r_body r);
     state_generation_version := state_generation_version s; global_status := global_status s;
     active_workers := active_workers s; active_leases := active_leases s; metrics := metrics s |});
   fun r => on_body (fun s => {| cluster_uuid := cluster_uuid s; master_epoch := master_epoch s;
     state_generation_version := state_generation_version (r_body r); global_status := global_status s;
     active_workers := active_workers s; active_leases := active_leases s; metrics := metrics s |});
   fun r => on_body (cs_set_status (global_status (r_body r)));
   fun r => on_body (cs_set_workers (active_workers (r_body r)));
   fun r => set_worker_count (total_registered_workers r);
   fun r => on_body (cs_set_leases (active_leases (r_body r)));
   fun r => set_lease_count (total_active_leases r);
   fun r => on_body (cs_set_metrics (metrics (r_body r)))].

(** [memcpy] of a snapshot, member by member, to where [put] writes. *)
Fixpoint copy_loop (put : (RawSnapshot -> RawSnapshot) -> raw_world -> raw_world) (src : raw_world -> RawSnapshot)
    (ms : list (RawSnapshot -> RawSnapshot -> RawSnapshot)) : code unit :=
  match ms with
  | [] => mret tt
  | m :: ms => write (fun w => put (m (src w)) w) ;; copy_loop put src ms
  end.
Definition copy_code put src : code unit := copy_loop put src copy_members.

(** The search of [cluster_state_acquire_snapshot]. *)
Fixpoint slot_loop (fuel slot n : nat) : code nat :=
  match fuel with
  | O => mret slot
  | S fuel =>
      k ← read (fun w => ref_at (r_refs w.1) slot);
      if k >? 0 then
        if (SNAPSHOT_RING_SIZE <=? n + 1)%nat then mret (next_slot slot) else slot_loop fuel (next_slot slot) (n + 1)
      else mret slot
  end.

Definition acquire_code : code nat :=
  tail ← read (fun w => r_tail w.1);
  target_slot ← slot_loop 4 tail 0;
  copy_code (fun f => on_pool (alter f target_slot)) (fun w => r_state w.1) ;;
  write (on_refs (alter (fun n => u32 (n + 1)) target_slot)) ;;
  write (set_tail (next_slot target_slot)) ;;
  mret target_slot.

Fixpoint release_loop (fuel i p : nat) : code unit :=
  match fuel with
  | O => mret tt
  | S fuel =>
      if (i =? p)%nat then
        k ← read (fun w => ref_at (r_refs w.1) i);
        if k >? 0 then write (on_refs (alter (fun n => u32 (n - 1)) i)) else mret tt
      else release_loop fuel (i + 1) p
  end.

Definition persist_code (wb_ok fwrite_ok : bool) (path : string) : code bool :=
  if wb_ok then
    write (fun w => (w.1, <[path := None]> w.2)) ;;
    (if fwrite_ok then write (fun w => (w.1, <[path := Some (r_state w.1)]> w.2)) else mret tt) ;;
    mret fwrite_ok
  else mret false.

Definition recover_code (rb_ok : bool) (path : string) : code bool :=
  file ← read (fun w => w.2 !! path);
  match file with
  | Some (Some temp_state) =>
      if rb_ok then copy_code on_state (fun _ => temp_state) ;; bump_code ;; mret true else mret false
  | _ => mret false
  end.

(** * Each program does what the model of its operation does *)

(** ** Loops *)

Lemma run_find count key id fuel i w : (count w - i < fuel)%nat ->
  run (find_loop count key id fuel i) w =
    ((fun j => (i + j)%nat) <$> find_idx (fun j => key j w =? id) (seq i (count w - i)), w).
Proof.
  revert i. induction fuel as [|fuel IH]; intros i H; [lia|]. cbn [find_loop]. run_prog.
  destruct (Nat.ltb_spec i (count w)) as [L|L]; run_prog.
  - replace (count w - i)%nat with (S (count w - (i + 1)))%nat by lia. cbn [seq find_idx].
    destruct (key i w =? id) eqn:E; run_prog; [cbn; by rewrite Nat.add_0_r|].
    rewrite IH by lia. f_equal. replace (i + 1)%nat with (S i) by lia.
    destruct (find_idx _ (seq (S i) _)); cbn; [|done]. f_equal. lia.
  - replace (count w - i)%nat with 0%nat by lia. done.
Qed.

Lemma run_find_worker id w : raw_ok (r_state w.1) ->
  run (find_worker id) w = (find_idx (fun x => wm_worker_id x =? id) (active_workers (snap_abs (r_state w.1))), w).
Proof.
  intros [H1 H2 _ _]. unfold find_worker. rewrite run_find by (unfold nworkers; lia). f_equal. rewrite Nat.sub_0_r.
  cbn. rewrite <- (nth_seq_take zero_worker) by lia. rewrite find_idx_fmap. unfold worker_at, nworkers.
  by destruct (find_idx _ _).
Qed.

Lemma run_find_lease id w : raw_ok (r_state w.1) ->
  run (find_lease id) w = (find_idx (fun x => cl_chunk_id x =? id) (active_leases (snap_abs (r_state w.1))), w).
Proof.
  intros [_ _ H1 H2]. unfold find_lease. rewrite run_find by (unfold nleases; lia). f_equal. rewrite Nat.sub_0_r.
  cbn. rewrite <- (nth_seq_take (zero_lease 0)) by lia. rewrite find_idx_fmap. unfold lease_at, nleases.
  by destruct (find_idx _ _).
Qed.

(** Two changes of the metrics in a row. *)
Lemma on_metrics_comp f g w : on_metrics f (on_metrics g w) = on_metrics (fun m => f (g m)) w.
Proof. done. Qed.

Lemma run_add i w : run (if counted (worker_at i w) then add_code i else mret tt) w =
  (tt, on_metrics (fun m => add_worker m (worker_at i w)) w).
Proof.
  unfold add_code, add_worker. destruct (counted (worker_at i w)); run_prog.
  - rewrite !on_metrics_comp. done.
  - by destruct w as [[[[] ? ?] ? ? ?] ?].
Qed.

Lemma run_recalc_loop fuel i w : (nworkers w - i < fuel)%nat ->
  run (recalc_loop fuel i) w =
    (tt, on_metrics (fun m => foldl add_worker m ((fun j => worker_at j w) <$> seq i (nworkers w - i))) w).
Proof.
  revert i w. induction fuel as [|fuel IH]; intros i w H; [lia|]. cbn [recalc_loop]. run_prog.
  destruct (Nat.ltb_spec i (nworkers w)) as [L|L]; run_prog.
  - rewrite run_add. assert (nworkers (on_metrics (fun m => add_worker m (worker_at i w)) w) = nworkers w) as E by done. rewrite IH by lia. rewrite E. rewrite on_metrics_comp. do 2 f_equal.
    replace (nworkers w - i)%nat with (S (nworkers w - (i + 1)))%nat by lia.
    cbn [seq]. rewrite fmap_cons. replace (S i) with (i + 1)%nat by lia. done.
  - replace (nworkers w - i)%nat with 0%nat by lia. by destruct w as [[[[] ? ?] ? ? ?] ?].
Qed.

Lemma run_recalc w : raw_ok (r_state w.1) ->
  run recalc_code w = (tt, on_metrics (fun _ => foldl add_worker zero_metrics (active_workers (snap_abs (r_state w.1)))) w).
Proof.
  intros [H1 H2 _ _]. unfold recalc_code. run_prog. rewrite run_recalc_loop by (unfold nworkers; cbn; lia).
  rewrite !on_metrics_comp. do 2 f_equal. rewrite Nat.sub_0_r. cbn. rewrite <- (nth_seq_take zero_worker) by lia. done.
Qed.

(** ** Operations *)

Definition simulates {A} (p : code A) (op : ClusterStateContext * wal_files -> A * (ClusterStateContext * wal_files)) : Prop :=
  forall w, world_ok w -> world_ok (run p w).2 /\ op (world_abs w) = ((run p w).1, world_abs (run p w).2).

(** The live state alone changes, from [r] to [r']. *)
Lemma state_changes {A} (p : code A) w r' a s' : world_ok w -> raw_ok r' -> run p w = (a, on_state (fun _ => r') w) ->
  snap_abs r' = s' ->
  world_ok (run p w).2 /\ (a, (ctx_set_state s' (ctx_abs w.1), files_abs w.2)) = ((run p w).1, world_abs (run p w).2).
Proof. intros [] R -> <-. split; [by constructor|done]. Qed.

(** The entry behind the last one is filled and counted. *)
Definition raw_push (m : WorkerMember) (r : RawSnapshot) : RawSnapshot :=
  {| r_body := cs_set_workers (<[total_registered_workers r := m]> (active_workers (r_body r))) (r_body r);
     total_registered_workers := total_registered_workers r + 1; total_active_leases := total_active_leases r |}.

Lemma raw_push_ok m r : raw_ok r -> (total_registered_workers r < CLUSTER_MAX_WORKERS)%nat -> raw_ok (raw_push m r).
Proof. intros [] L. constructor; cbn; try done; [by rewrite length_insert|lia]. Qed.

Lemma raw_push_abs m r : raw_ok r -> (total_registered_workers r < CLUSTER_MAX_WORKERS)%nat ->
  snap_abs (raw_push m r) = cs_set_workers (active_workers (snap_abs r) ++ [m]) (snap_abs r).
Proof. intros [] L. unfold snap_abs. cbn. by rewrite take_put by lia. Qed.

(** [memcpy] of the worker into the entry that was just counted. *)
Lemma push_writes m w :
  on_workers (alter (put_resources (wm_resources m)) (nworkers w))
    (on_workers (alter (put_seen (wm_last_seen_timestamp_ms m)) (nworkers w))
      (on_workers (alter (put_health (wm_health m)) (nworkers w))
        (on_workers (alter (put_id (wm_worker_id m)) (nworkers w)) (on_state (set_worker_count (nworkers w + 1)) w)))) =
  on_state (raw_push m) w.
Proof.
  unfold on_workers, on_state, on_body, raw_push, set_worker_count, cs_set_workers, nworkers. cbn. do 4 f_equal.
  rewrite !alter_alter. apply alter_const. by destruct m.
Qed.

Lemma register_simulates m :
  simulates (register_code m) (fun x => let '(b, c) := cluster_state_register_worker (Some m) x.1 in (b, (c, x.2))).
Proof.
  intros w W. pose proof (wo_state _ W) as O. unfold cluster_state_register_worker.
  cbn [world_abs ctx_abs master_state fst snd].
  assert (length (active_workers (snap_abs (r_state w.1))) = nworkers w) as Ln.
  { cbn. rewrite length_take. destruct O. unfold nworkers. lia. }
  rewrite Ln. destruct (Nat.leb_spec CLUSTER_MAX_WORKERS (nworkers w)) as [L|L].
  { unfold register_code. run_prog. rewrite (proj2 (Nat.leb_le _ _) L). run_prog. done. }
  destruct (find_idx _ _) as [i|] eqn:F.
  { unfold register_code. run_prog. rewrite (proj2 (Nat.leb_gt _ _) L). run_prog.
    rewrite run_find_worker by done. rewrite F. run_prog. done. }
  set (r1 := on_body bump_version (raw_push m (r_state w.1))).
  assert (raw_ok r1) as O1 by (destruct (raw_push_ok m (r_state w.1) O L); by constructor).
  set (r2 := if bool_decide (global_status (r_body r1) = CLUSTER_STATUS_BOOSTRAP) && (1 <=? total_registered_workers r1)%nat
             then on_body (cs_set_status CLUSTER_STATUS_OPERATIONAL) r1 else r1).
  assert (raw_ok r2) as O2 by (unfold r2; destr_if; [destruct O1; by constructor|done]).
  eapply (state_changes _ _ (on_body (fun s => cs_set_metrics (foldl add_worker zero_metrics (active_workers (snap_abs r2))) s) r2));
    [done|destruct O2; by constructor|..].
  - unfold register_code. run_prog. rewrite (proj2 (Nat.leb_gt _ _) L). run_prog.
    rewrite run_find_worker by done. rewrite F. unfold bump_code. run_prog.
    rewrite push_writes. change (on_state (on_body bump_version) (on_state (raw_push m) w)) with (on_state (fun _ => r1) w).
        match goal with |- context [run recalc_code ?x] =>
      replace x with (on_state (fun _ => r2) w) by (unfold r2; by destruct (bool_decide _ && _)) end.
    by rewrite run_recalc.
  - change (internal_recalculate_aggregates (snap_abs r2) = internal_recalculate_aggregates
      (let state := bump_version (cs_set_workers (active_workers (snap_abs (r_state w.1)) ++ [m]) (snap_abs (r_state w.1))) in
       if bool_decide (global_status state = CLUSTER_STATUS_BOOSTRAP) && (1 <=? length (active_workers state))%nat
       then cs_set_status CLUSTER_STATUS_OPERATIONAL state else state)).
    assert (snap_abs r1 = bump_version (cs_set_workers (active_workers (snap_abs (r_state w.1)) ++ [m]) (snap_abs (r_state w.1)))) as E1
      by (rewrite <- raw_push_abs by done; done).
    cbv zeta. rewrite <- E1.
    replace (length (active_workers (snap_abs r1))) with (total_registered_workers r1)
      by (rewrite E1; cbn [active_workers bump_version cs_set_workers]; rewrite length_app, Ln; done).
    f_equal. unfold r2. by destruct (bool_decide _ && _).
Qed.

(** Updating one entry below the count. *)
Lemma workers_alter_abs f i r : (i < total_registered_workers r)%nat ->
  snap_abs (on_body (fun s => cs_set_workers (alter f i (active_workers s)) s) r) =
  cs_set_workers (alter f i (active_workers (snap_abs r))) (snap_abs r).
Proof. intros L. unfold snap_abs. cbn. by rewrite take_alter_lt by done. Qed.

Lemma leases_alter_abs f i r : (i < total_active_leases r)%nat ->
  snap_abs (on_body (fun s => cs_set_leases (alter f i (active_leases s)) s) r) =
  cs_set_leases (alter f i (active_leases (snap_abs r))) (snap_abs r).
Proof. intros L. unfold snap_abs. cbn. by rewrite take_alter_lt by done. Qed.

Lemma heartbeat_writes i t w : (i < length (active_workers (r_body (r_state w.1))))%nat ->
  (if bool_decide (wm_health (worker_at i (on_workers (alter (put_seen t) i) w)) = WORKER_HEALTH_OFFLINE)
   then on_workers (alter (put_health WORKER_HEALTH_ONLINE) i) (on_workers (alter (put_seen t) i) w)
   else on_workers (alter (put_seen t) i) w) =
  on_workers (alter (heartbeat_update t) i) w.
Proof.
  intros L. destruct (lookup_lt_is_Some_2 _ _ L) as [x Hx].
  assert (worker_at i (on_workers (alter (put_seen t) i) w) = put_seen t x) as ->.
  { unfold worker_at. cbn. apply nth_lookup_Some. by rewrite list_lookup_alter_eq, Hx. }
  unfold on_workers, on_state, on_body, cs_set_workers. cbn [r_state r_body fst snd active_workers].
  assert (nth i (active_workers (r_body (r_state w.1))) zero_worker = x) as N by (by apply nth_lookup_Some).
  destruct (bool_decide_reflect (wm_health (put_seen t x) = WORKER_HEALTH_OFFLINE)) as [E|E]; cbn in *; do 4 f_equal;
    rewrite ?alter_alter, !(alter_nth _ i _ zero_worker), N; f_equal; unfold heartbeat_update, put_seen; cbn.
  - by rewrite E.
  - by destruct (wm_health x).
Qed.

Lemma heartbeat_simulates id t :
  simulates (heartbeat_code id t) (fun x => let '(b, c) := cluster_state_process_heartbeat id t x.1 in (b, (c, x.2))).
Proof.
  intros w W. pose proof (wo_state _ W) as O. unfold cluster_state_process_heartbeat.
  cbn [world_abs ctx_abs master_state fst snd].
  destruct (find_idx _ _) as [i|] eqn:F.
  2: { unfold heartbeat_code. run_prog. rewrite run_find_worker by done. rewrite F. run_prog. done. }
  pose proof (find_idx_lt _ _ _ F) as Hi. cbn in Hi. rewrite length_take in Hi.
  set (r1 := on_body (fun s => cs_set_workers (alter (heartbeat_update t) i (active_workers s)) s) (r_state w.1)).
  assert (raw_ok r1) as O1 by (destruct O; constructor; cbn; try done; by rewrite length_alter).
  set (r2 := on_body bump_version r1).
  assert (raw_ok r2) as O2 by (destruct O1; by constructor).
  eapply (state_changes _ _ (on_body (fun s => cs_set_metrics (foldl add_worker zero_metrics (active_workers (snap_abs r2))) s) r2));
    [done|destruct O2; by constructor|..].
  - unfold heartbeat_code. run_prog. rewrite run_find_worker by done. rewrite F. unfold bump_code. run_prog.
    match goal with |- context [run recalc_code ?x] => replace x with (on_state (fun _ => r2) w) end.
    { by rewrite run_recalc. }
    rewrite heartbeat_writes by (destruct O; lia). done.
  - change (internal_recalculate_aggregates (bump_version (snap_abs r1)) = internal_recalculate_aggregates
      (bump_version (cs_set_workers (alter (heartbeat_update t) i (active_workers (snap_abs (r_state w.1)))) (snap_abs (r_state w.1))))).
    unfold r1. rewrite workers_alter_abs by lia. done.
Qed.

Lemma lease_writes i st p w : run (lease_code i st p) w =
  (true, on_state (on_body bump_version) (on_leases (alter (lease_update st p) i) w)).
Proof.
  unfold lease_code, bump_code. run_prog. do 2 f_equal. unfold lease_update.
  destruct (is_failure st); unfold on_leases, on_state, on_body, cs_set_leases; cbn; rewrite !alter_alter; reflexivity.
Qed.

Lemma update_simulates id st p :
  simulates (update_code id st p) (fun x => let '(b, c) := cluster_state_update_lease id st p x.1 in (b, (c, x.2))).
Proof.
  intros w W. pose proof (wo_state _ W) as O. unfold cluster_state_update_lease.
  cbn [world_abs ctx_abs master_state fst snd].
  assert (length (active_leases (snap_abs (r_state w.1))) = nleases w) as Ln.
  { cbn. rewrite length_take. destruct O. unfold nleases. lia. }
  destruct (find_idx _ _) as [i|] eqn:F.
  - pose proof (find_idx_lt _ _ _ F) as Hi. rewrite Ln in Hi. unfold nleases in Hi.
    eapply (state_changes _ _ (on_body bump_version (on_body (fun s => cs_set_leases (alter (lease_update st p) i (active_leases s)) s) (r_state w.1))));
      [done|destruct O; constructor; cbn; try done; by rewrite length_alter|..].
    + unfold update_code. run_prog. rewrite run_find_lease by done. rewrite F. apply lease_writes.
    + rewrite <- leases_alter_abs by done. done.
  - rewrite Ln. destruct (Nat.leb_spec CLUSTER_MAX_ACTIVE_LEASES (nleases w)) as [L|L].
    { unfold update_code. run_prog. rewrite run_find_lease by done. rewrite F. run_prog.
      rewrite (proj2 (Nat.leb_le _ _) L). run_prog. done. }
    rewrite <- Ln, alter_snoc.
    eapply (state_changes _ _ (on_body bump_version
      {| r_body := cs_set_leases (<[nleases w := lease_update st p (zero_lease id)]> (active_leases (r_body (r_state w.1)))) (r_body (r_state w.1));
         total_registered_workers := total_registered_workers (r_state w.1); total_active_leases := nleases w + 1 |}));
      [done|destruct O; constructor; cbn; try done; [by rewrite length_insert|lia]|..].
    + unfold update_code. run_prog. rewrite run_find_lease by done. rewrite F. run_prog.
      rewrite (proj2 (Nat.leb_gt _ _) L). run_prog. rewrite lease_writes. f_equal.
      unfold on_leases, on_state, on_body, set_lease_count, cs_set_leases, bump_version. cbn. do 4 f_equal.
      rewrite <- (alter_const (fun _ => zero_lease 0)) by done. rewrite !alter_alter. apply alter_const. intros _.
      unfold lease_update, put_chunk. cbn. by destr_if.
    + unfold snap_abs at 1. cbn. unfold nleases in *. rewrite take_put by (destruct O; lia). done.
Qed.

(** ** Copies *)

Lemma fold_members r s : foldl (fun s m => m r s) s copy_members = r.
Proof. by destruct r as [[] ? ?], s as [[] ? ?]. Qed.

(** A copy reads what it does not write. *)
Lemma run_copy put src ms w : (forall f g x, put f (put g x) = put (fun s => f (g s)) x) -> (forall x, put id x = x) ->
  (forall f x, src (put f x) = src x) ->
  run (copy_loop put src ms) w = (tt, put (fun s => foldl (fun s m => m (src w) s) s ms) w).
Proof.
  intros Hc Hi Hs. revert w. induction ms as [|m ms IH]; intros w; cbn [copy_loop]; run_prog; [by rewrite <- (Hi w) at 1|].
  rewrite IH, Hc, Hs. done.
Qed.

Lemma on_state_id w : on_state id w = w.
Proof. by destruct w as [[] ?]. Qed.

Lemma on_pool_id i w : on_pool (alter id i) w = w.
Proof. destruct w as [[st pool tail refs] fs]. unfold on_pool. cbn. by rewrite list_alter_id. Qed.

Lemma run_copy_pool slot w :
  run (copy_code (fun f => on_pool (alter f slot)) (fun w => r_state w.1)) w =
    (tt, on_pool (<[slot := r_state w.1]>) w).
Proof.
  unfold copy_code. rewrite run_copy; [| |apply on_pool_id|done].
  - unfold on_pool. do 3 f_equal. apply alter_const. intros y. apply fold_members.
  - intros f g x. unfold on_pool. cbn. by rewrite alter_alter.
Qed.

Lemma run_copy_state r w : run (copy_code on_state (fun _ => r)) w = (tt, on_state (fun _ => r) w).
Proof.
  unfold copy_code. rewrite run_copy; [|done|apply on_state_id|done].
  unfold on_state. do 3 f_equal. apply fold_members.
Qed.

(** ** Snapshots *)

Lemma run_slot fuel slot n w : run (slot_loop fuel slot n) w = (search_while fuel (r_refs w.1) slot n, w).
Proof.
  revert slot n. induction fuel as [|fuel IH]; intros slot n; cbn [slot_loop search_while]; run_prog; [done|].
  destr_if; [|done]. destr_if; [done|]. apply IH.
Qed.

Lemma acquire_simulates :
  simulates acquire_code (fun x => let '(p, c) := cluster_state_acquire_snapshot x.1 in (p, (c, x.2))).
Proof.
  intros w W. unfold acquire_code. run_prog. rewrite run_slot. run_prog. rewrite run_copy_pool. run_prog.
  destruct W as [W1 W2 W3]. split; [constructor; cbn; [done| |done]|].
  - apply Forall_alter; [done|]. intros. apply u32_range.
  - unfold world_abs, cluster_state_acquire_snapshot, ctx_abs. cbn. by rewrite list_fmap_insert.
Qed.

Lemma run_release fuel i p w : Forall in_u32 (r_refs w.1) ->
  run (release_loop fuel i p) w =
    (tt, if decide (i <= p < i + fuel)%nat
         then on_refs (alter (fun n => if n >? 0 then u32 (n - 1) else n) p) w else w).
Proof.
  intros H. revert i. induction fuel as [|fuel IH]; intros i; cbn [release_loop]; run_prog.
  - by rewrite decide_False by lia.
  - destruct (Nat.eqb_spec i p) as [->|N]; run_prog; [|rewrite IH; repeat case_decide; done || lia].
    rewrite decide_True by lia. f_equal. unfold on_refs. destruct w as [[st pool tail refs] fs]. cbn in *.
    unfold ref_at. destruct (refs !! p) as [n|] eqn:E; cbn.
    + rewrite !(alter_nth _ p _ 0), (nth_lookup_Some _ _ _ _ E). destruct (n >? 0) eqn:G; [done|].
      by rewrite list_insert_id.
    + rewrite (alter_nth _ p _ 0), list_insert_ge; [done|]. by apply lookup_ge_None.
Qed.

Lemma release_simulates p :
  simulates (release_loop SNAPSHOT_RING_SIZE 0 p) (fun x => (tt, (cluster_state_release_snapshot (Some p) x.1, x.2))).
Proof.
  intros w W. rewrite run_release by apply W. cbn [fst snd]. unfold cluster_state_release_snapshot. rewrite find_slot.
  repeat case_decide; try lia; [|done]. destruct W as [W1 W2 W3]. split; [|done]. constructor; cbn; [done| |done].
  apply Forall_alter; [done|]. intros n Hn E. destr_if; [apply u32_range|done].
Qed.

(** ** The write-ahead file *)

Lemma persist_simulates_raw o f p :
  simulates (persist_code o f p) (fun x => let '(b, fs) := cluster_state_persist_to_wal o f (Some p) x.1 x.2 in (b, (x.1, fs))).
Proof.
  intros w W. unfold persist_code, cluster_state_persist_to_wal. destruct o; run_prog; [|done].
  destruct W as [W1 W2 W3]. split; [constructor; destruct f; cbn; try done|].
  - intros q r. rewrite insert_insert_eq, lookup_insert. case_decide; [by intros [= <-]|apply W3].
  - intros q r. rewrite lookup_insert. case_decide; [done|apply W3].
  - unfold world_abs, files_abs. cbn. destruct f; cbn; by rewrite ?insert_insert_eq, fmap_insert.
Qed.

Lemma recover_simulates_raw o p :
  simulates (recover_code o p) (fun x => let '(b, c) := cluster_state_recover_from_wal o (Some p) x.2 x.1 in (b, (c, x.2))).
Proof.
  intros w W. unfold recover_code, cluster_state_recover_from_wal. run_prog. cbn [world_abs fst snd]. unfold files_abs.
  rewrite lookup_fmap. destruct (w.2 !! p) as [[r|]|] eqn:E; cbn [fmap option_fmap option_map]; run_prog; [|by destruct o|done].
  destruct o; run_prog; [|done]. rewrite run_copy_state. unfold bump_code. run_prog.
  destruct W as [W1 W2 W3]. split; [|done]. destruct (W3 _ _ E). by constructor.
Qed.

(** * Many threads *)

Inductive cs_call :=
| Register (w : ptr WorkerMember)
| UpdateLease (chunk_id : Z) (st : LeaseStatus) (progress : cfloat)
| Heartbeat (worker_id timestamp_ms : Z)
| Acquire
| Release (snapshot : ptr nat)
| Persist (wb_ok fwrite_ok : bool) (path : ptr string)
| Recover (rb_ok : bool) (path : ptr string).

Inductive cs_result := RBool (b : bool) | RSlot (p : nat) | RVoid.

#[export] Instance cs_result_eq_dec : EqDecision cs_result.
Proof. solve_decision. Defined.

(** Guards on arguments come before the lock. *)
Definition cs_enter (c : cs_call) : cs_result + prog raw_world cs_result :=
  match c with
  | Register NULL | Persist _ _ NULL | Recover _ NULL => inl (RBool false)
  | Release NULL => inl RVoid
  | Register (Some w) => inr (b ← register_code w; mret (RBool b))
  | UpdateLease id st p => inr (b ← update_code id st p; mret (RBool b))
  | Heartbeat id t => inr (b ← heartbeat_code id t; mret (RBool b))
  | Acquire => inr (p ← acquire_code; mret (RSlot p))
  | Release (Some p) => inr (release_loop SNAPSHOT_RING_SIZE 0 p ;; mret RVoid)
  | Persist o f (Some p) => inr (b ← persist_code o f p; mret (RBool b))
  | Recover o (Some p) => inr (b ← recover_code o p; mret (RBool b))
  end.

(** The call as one step of the model. *)
Definition cs_apply (c : cs_call) (x : ClusterStateContext * wal_files) : cs_result * (ClusterStateContext * wal_files) :=
  match c with
  | Register w => let '(b, c) := cluster_state_register_worker w x.1 in (RBool b, (c, x.2))
  | UpdateLease id st p => let '(b, c) := cluster_state_update_lease id st p x.1 in (RBool b, (c, x.2))
  | Heartbeat id t => let '(b, c) := cluster_state_process_heartbeat id t x.1 in (RBool b, (c, x.2))
  | Acquire => let '(p, c) := cluster_state_acquire_snapshot x.1 in (RSlot p, (c, x.2))
  | Release p => (RVoid, (cluster_state_release_snapshot p x.1, x.2))
  | Persist o f p => let '(b, fs) := cluster_state_persist_to_wal o f p x.1 x.2 in (RBool b, (x.1, fs))
  | Recover o p => let '(b, c) := cluster_state_recover_from_wal o p x.2 x.1 in (RBool b, (c, x.2))
  end.

(** [cluster_state_create] on zeroed memory. *)
Definition raw_create (uuid : string) (initial_epoch : Z) : RawContext :=
  {| r_state := on_body (fun s => {| cluster_uuid := strncpy 63 uuid; master_epoch := initial_epoch;
       state_generation_version := 1; global_status := CLUSTER_STATUS_BOOSTRAP;
       active_workers := active_workers s; active_leases := active_leases s; metrics := metrics s |}) raw_zero;
     r_pool := replicate SNAPSHOT_RING_SIZE raw_zero; r_tail := 0; r_refs := replicate SNAPSHOT_RING_SIZE 0 |}.

Lemma raw_create_ok uuid epoch : world_ok (raw_create uuid epoch, ∅).
Proof.
  constructor; cbn [fst snd].
  - constructor; cbn; [done|lia|done|lia].
  - apply Forall_replicate. unfold in_u32. lia.
  - intros p r. by rewrite lookup_empty.
Qed.

Lemma raw_create_abs uuid epoch : cluster_state_create true (Some uuid) epoch = Some (ctx_abs (raw_create uuid epoch)).
Proof. done. Qed.

(** A result is wrapped after the lock is given back. *)
Lemma simulates_wrap {A} (p : code A) op (f : A -> cs_result) w : simulates p op -> world_ok w ->
  world_ok (run (a ← p; mret (f a)) w).2 /\
  (f (op (world_abs w)).1, (op (world_abs w)).2) = ((run (a ← p; mret (f a)) w).1, world_abs (run (a ← p; mret (f a)) w).2).
Proof. intros H W. destruct (H w W) as [O E]. rewrite run_bind. rewrite E. by destruct (run p w). Qed.

Lemma exec_simulates c w : world_ok w -> world_ok (exec cs_enter c w).2 /\
  cs_apply c (world_abs w) = ((exec cs_enter c w).1, world_abs (exec cs_enter c w).2).
Proof.
  intros W. unfold exec. destruct c as [[m|]|id st p|id t| |[p|]|o f [p|]|o [p|]]; cbn [cs_enter cs_apply]; try done.
  - destruct (simulates_wrap _ _ RBool w (register_simulates m) W) as [O E]. split; [exact O|]. rewrite <- E.
    by destruct (cluster_state_register_worker _ _).
  - destruct (simulates_wrap _ _ RBool w (update_simulates id st p) W) as [O E]. split; [exact O|]. rewrite <- E.
    by destruct (cluster_state_update_lease _ _ _ _).
  - destruct (simulates_wrap _ _ RBool w (heartbeat_simulates id t) W) as [O E]. split; [exact O|]. rewrite <- E.
    by destruct (cluster_state_process_heartbeat _ _ _).
  - destruct (simulates_wrap _ _ RSlot w acquire_simulates W) as [O E]. split; [exact O|]. rewrite <- E.
    by destruct (cluster_state_acquire_snapshot _).
  - destruct (simulates_wrap _ _ (fun _ => RVoid) w (release_simulates p) W) as [O E]. split; [exact O|]. by rewrite <- E.
  - destruct (simulates_wrap _ _ RBool w (persist_simulates_raw o f p) W) as [O E]. split; [exact O|]. rewrite <- E.
    by destruct (cluster_state_persist_to_wal _ _ _ _ _).
  - destruct (simulates_wrap _ _ RBool w (recover_simulates_raw o p) W) as [O E]. split; [exact O|]. rewrite <- E.
    by destruct (cluster_state_recover_from_wal _ _ _ _).
Qed.

#[export] Instance cluster_locked : Locked cs_enter cs_apply :=
  {| lk_ok := world_ok; lk_abs := world_abs; lk_exec := exec_simulates |}.

Lemma cs_apply_step c x : cs_step x (cs_apply c x).2 \/ (cs_apply c x).2 = x.
Proof.
  destruct x as [c0 fs]. destruct c as [[m|]|id st p|id t| |p|o f p|o p]; cbn [cs_apply fst snd];
    [left; pose proof (cs_register c0 fs m)|by right|left; pose proof (cs_update c0 fs id st p)|left; pose proof (cs_heartbeat c0 fs id t)
    |left; pose proof (cs_acquire c0 fs)|left; apply cs_release|left; pose proof (cs_persist c0 fs o f p)|left; pose proof (cs_recover c0 fs o p)].
  - by destruct (cluster_state_register_worker _ _).
  - by destruct (cluster_state_update_lease _ _ _ _).
  - by destruct (cluster_state_process_heartbeat _ _ _).
  - by destruct (cluster_state_acquire_snapshot _).
  - by destruct (cluster_state_persist_to_wal _ _ _ _ _).
  - by destruct (cluster_state_recover_from_wal _ _ _ _).
Qed.

Lemma cs_apply_reachable c x : cs_reachable x -> cs_reachable (cs_apply c x).2.
Proof. intros R. destruct (cs_apply_step c x) as [S| ->]; [by eapply cs_more|done]. Qed.

(** C10: Threads that call the cluster state concurrently, interleaved at every
    single memory access inside the operations, see the model in which each
    operation is one step: the calls, in the order in which they return, return
    what the model returns when they are made one after the other, from a state
    the model reaches; each thread's calls are taken in its own order; whenever
    the mutex is free the structure is the model's state; and no schedule blocks
    or runs for ever, so every call returns. *)
Theorem cluster_threads_linearizable (uuid : string) (epoch : Z) (programs : list (list cs_call)) m :
  threads_reach cs_enter (raw_create uuid epoch, ∅) programs m ->
  linearized cs_enter cs_apply world_abs cs_reachable (ctx_abs (raw_create uuid epoch), ∅) programs m.
Proof.
  intros R.
  assert (world_abs (raw_create uuid epoch, ∅) = (ctx_abs (raw_create uuid epoch), ∅)) as E
    by (unfold world_abs, files_abs; cbn [fst snd]; by rewrite fmap_empty).
  rewrite <- E. refine (locked_linearized cs_enter cs_apply (fun _ => True) cs_reachable (raw_create uuid epoch, ∅) programs m _ _ _ _ R).
  - apply raw_create_ok.
  - cbn [lk_abs cluster_locked]. rewrite E. by eapply cs_start.
  - intros c x _. apply cs_apply_reachable.
  - apply Forall_true. intros. by apply Forall_true.
Qed.

(** Two threads take turns at every access: one registers a worker and takes a
    snapshot, the other reports a lease, registers the same worker and sends
    its heartbeat. *)
Definition demo_programs : list (list cs_call) :=
  [[Register (Some (demo_member 42 8192 4)); Acquire];
   [UpdateLease 7 LEASE_STATUS_FAILED (S754_zero false); Register (Some (demo_member 42 1 1)); Register NULL; Heartbeat 42 5000]].
Definition demo_machine : machine :=
  schedule cs_enter (concat (replicate 150 [0; 1]%nat)) (spawn (raw_create "cluster-dev-uuid-001" 100, ∅) demo_programs).

Lemma cluster_threads_linearizable_witness :
  (fun e => (e.1.1, e.2)) <$> returned demo_machine =
    [(0%nat, RBool true); (1%nat, RBool true); (0%nat, RSlot 0); (1%nat, RBool false); (1%nat, RBool false); (1%nat, RBool true)] /\
  linearized cs_enter cs_apply world_abs cs_reachable (ctx_abs (raw_create "cluster-dev-uuid-001" 100), ∅) demo_programs demo_machine.
Proof.
  split; [vm_compute; reflexivity|].
  apply (cluster_threads_linearizable "cluster-dev-uuid-001" 100 demo_programs demo_machine).
  apply schedule_reach, reach_spawn.
Defined.
