(* ===== verification/SchedulerThreads.v ===== *)
(** The scheduler ([master/src/scheduler.c]) as several threads run it: every
    operation is a program of single accesses to the arrays [g_workers],
    [g_chunks], [g_leases] and their counts, under [g_sched_mutex].  [Scheduler]
    has the operations as functions on lists; this file shows that each program
    does what its function does, never leaves the arrays, and hence that threads
    interleaved in any way see the scheduler of the model. *)
From S2P Require Import Prelude CFloat Scheduler SchedulerInv SchedulerExact SchedulerProps Threads Tables.

(** * The file-scope variables *)

Record raw_sched := {
  raw_workers : table vom_worker_view;
  raw_chunks : table vom_chunk_plan;
  raw_leases : table vom_assignment_lease
}.

Definition zero_view : vom_worker_view :=
  {| wv_worker_id := ""; wv_platform := 0; wv_runtime := 0; wv_cpu_units := 0; wv_reserv_cpu := 0; wv_free_memory_mb := 0;
     wv_reserv_mem_mb := 0; wv_battery_pct := S754_zero false; wv_active_chunks := 0; wv_has_touch_input := 0;
     wv_draining := 0; wv_healthy := 0; wv_reliability_score := S754_zero false |}.
Definition zero_plan : vom_chunk_plan :=
  {| cp_chunk_id := 0; cp_workload_id := 0; cp_required_platform := 0; cp_required_runtime := 0; cp_required_cpu := 0;
     cp_required_memory_mb := 0; cp_requires_touch := 0; cp_is_blocked := false; cp_preferred_node := 0 |}.
Definition zero_assignment : vom_assignment_lease :=
  {| al_chunk_id := 0; al_assigned_worker_id := ""; al_lease_expires_ms := 0; al_is_active := false |}.

#[export] Instance view_inhabited : Inhabited vom_worker_view := populate zero_view.
#[export] Instance plan_inhabited : Inhabited vom_chunk_plan := populate zero_plan.
#[export] Instance assignment_inhabited : Inhabited vom_assignment_lease := populate zero_assignment.

Definition raw_start : raw_sched :=
  {| raw_workers := blank zero_view MAX_SWORKERS; raw_chunks := blank zero_plan MAX_SCHUNKS;
     raw_leases := blank zero_assignment MAX_SCHUNKS |}.

Definition W : lens raw_sched (table vom_worker_view) :=
  {| lget := raw_workers; lset t s := {| raw_workers := t; raw_chunks := raw_chunks s; raw_leases := raw_leases s |} |}.
Definition K : lens raw_sched (table vom_chunk_plan) :=
  {| lget := raw_chunks; lset t s := {| raw_workers := raw_workers s; raw_chunks := t; raw_leases := raw_leases s |} |}.
Definition L : lens raw_sched (table vom_assignment_lease) :=
  {| lget := raw_leases; lset t s := {| raw_workers := raw_workers s; raw_chunks := raw_chunks s; raw_leases := t |} |}.

Definition workers_of : lens sched (list vom_worker_view) := {| lget := g_workers; lset := sc_set_workers |}.
Definition chunks_of : lens sched (list vom_chunk_plan) := {| lget := g_chunks; lset := sc_set_chunks |}.
Definition leases_of : lens sched (list vom_assignment_lease) := {| lget := g_leases; lset := sc_set_leases |}.

Record sched_ok (s : raw_sched) : Prop := {
  so_workers : tab_ok MAX_SWORKERS (raw_workers s);
  so_chunks : tab_ok MAX_SCHUNKS (raw_chunks s);
  so_leases : tab_ok MAX_SCHUNKS (raw_leases s)
}.

Definition sched_abs (s : raw_sched) : sched :=
  {| g_workers := live (raw_workers s); g_chunks := live (raw_chunks s); g_leases := live (raw_leases s) |}.

(** The members, in their order. *)
Definition worker_members : list (vom_worker_view -> vom_worker_view -> vom_worker_view) :=
  let mk id pl rt cu rc fm rm bp ac ti dr he rs :=
    {| wv_worker_id := id; wv_platform := pl; wv_runtime := rt; wv_cpu_units := cu; wv_reserv_cpu := rc; wv_free_memory_mb := fm;
       wv_reserv_mem_mb := rm; wv_battery_pct := bp; wv_active_chunks := ac; wv_has_touch_input := ti; wv_draining := dr;
       wv_healthy := he; wv_reliability_score := rs |} in
  let upto (n : nat) (x y : vom_worker_view) :=
    let pick {A} (k : nat) (f : vom_worker_view -> A) := f (if (k =? n)%nat then x else y) in
    mk (pick 0%nat wv_worker_id) (pick 1%nat wv_platform) (pick 2%nat wv_runtime) (pick 3%nat wv_cpu_units)
       (pick 4%nat wv_reserv_cpu) (pick 5%nat wv_free_memory_mb) (pick 6%nat wv_reserv_mem_mb) (pick 7%nat wv_battery_pct)
       (pick 8%nat wv_active_chunks) (pick 9%nat wv_has_touch_input) (pick 10%nat wv_draining) (pick 11%nat wv_healthy)
       (pick 12%nat wv_reliability_score) in
  upto <$> seq 0 13.

Definition plan_members : list (vom_chunk_plan -> vom_chunk_plan -> vom_chunk_plan) :=
  let member (n : nat) (x y : vom_chunk_plan) :=
    let pick {A} (k : nat) (f : vom_chunk_plan -> A) := f (if (k =? n)%nat then x else y) in
    {| cp_chunk_id := pick 0%nat cp_chunk_id; cp_workload_id := pick 1%nat cp_workload_id;
       cp_required_platform := pick 2%nat cp_required_platform; cp_required_runtime := pick 3%nat cp_required_runtime;
       cp_required_cpu := pick 4%nat cp_required_cpu; cp_required_memory_mb := pick 5%nat cp_required_memory_mb;
       cp_requires_touch := pick 6%nat cp_requires_touch; cp_is_blocked := pick 7%nat cp_is_blocked;
       cp_preferred_node := pick 8%nat cp_preferred_node |} in
  member <$> seq 0 9.

Definition assignment_members : list (vom_assignment_lease -> vom_assignment_lease -> vom_assignment_lease) :=
  let member (n : nat) (x y : vom_assignment_lease) :=
    let pick {A} (k : nat) (f : vom_assignment_lease -> A) := f (if (k =? n)%nat then x else y) in
    {| al_chunk_id := pick 0%nat al_chunk_id; al_assigned_worker_id := pick 1%nat al_assigned_worker_id;
       al_lease_expires_ms := pick 2%nat al_lease_expires_ms; al_is_active := pick 3%nat al_is_active |} in
  member <$> seq 0 4.

Definition set_cpu (n : Z) (w : vom_worker_view) : vom_worker_view := wv_set_reserved w n (wv_reserv_mem_mb w) (wv_active_chunks w).
Definition set_mem (n : Z) (w : vom_worker_view) : vom_worker_view := wv_set_reserved w (wv_reserv_cpu w) n (wv_active_chunks w).
Definition set_active (n : Z) (w : vom_worker_view) : vom_worker_view := wv_set_reserved w (wv_reserv_cpu w) (wv_reserv_mem_mb w) n.

(** * The operations *)

Abbreviation code A := (prog raw_sched A).

(** Iterations are bounded by one more than the length of the array. *)
Definition each_worker (test : nat -> code bool) : code (option nat) := search (rd_count W) test (S MAX_SWORKERS) 0.
Definition each_chunk (test : nat -> code bool) : code (option nat) := search (rd_count K) test (S MAX_SCHUNKS) 0.
Definition each_lease (test : nat -> code bool) : code (option nat) := search (rd_count L) test (S MAX_SCHUNKS) 0.

Definition init_code : code unit :=
  wr_count W 0 ;; wr_count K 0 ;; wr_count L 0 ;;
  fill W zero_view MAX_SWORKERS 0 ;; fill K zero_plan MAX_SCHUNKS 0 ;; fill L zero_assignment MAX_SCHUNKS 0.

Definition register_worker_code (worker : vom_worker_view) : code Z :=
  found ← each_worker (fun i => fetch W i (fun w => strcmp_eq (wv_worker_id w) (wv_worker_id worker)));
  match found with
  | Some i => assign W i worker worker_members ;; mret 0
  | None =>
      n ← rd_count W;
      if (MAX_SWORKERS <=? n)%nat then mret (-1) else push W worker worker_members ;; mret 0
  end.

Definition submit_code (chunk : vom_chunk_plan) : code Z :=
  found ← each_chunk (fun i => fetch K i (fun c => cp_chunk_id c =? cp_chunk_id chunk));
  match found with
  | Some i => assign K i chunk plan_members ;; mret 0
  | None =>
      n ← rd_count K;
      if (MAX_SCHUNKS <=? n)%nat then mret (-1) else push K chunk plan_members ;; mret 0
  end.

(** [chunk] is [&g_chunks[c]], [worker] is [&g_workers[w]]. *)
Definition filters_code (c w : nat) : code bool :=
  healthy ← fetch W w wv_healthy;
  if healthy =? 0 then mret false else
  draining ← fetch W w wv_draining;
  if negb (draining =? 0) then mret false else
  platform ← fetch W w wv_platform; required_platform ← fetch K c cp_required_platform;
  if negb (platform =? required_platform) then mret false else
  runtime ← fetch W w wv_runtime; required_runtime ← fetch K c cp_required_runtime;
  if negb (runtime =? required_runtime) then mret false else
  requires_touch ← fetch K c cp_requires_touch; has_touch ← fetch W w wv_has_touch_input;
  if negb (requires_touch =? 0) && (has_touch =? 0) then mret false else
  cpu ← fetch W w wv_cpu_units; reserv ← fetch W w wv_reserv_cpu; required ← fetch K c cp_required_cpu;
  if (if cpu >? reserv then cpu - reserv else 0) <? required then mret false else
  mem ← fetch W w wv_free_memory_mb; reserv_mem ← fetch W w wv_reserv_mem_mb; required_mem ← fetch K c cp_required_memory_mb;
  if (if mem >? reserv_mem then u64 (mem - reserv_mem) else 0) <? required_mem then mret false else mret true.

Definition score_code (c w : nat) : code cdouble :=
  cpu ← fetch W w wv_cpu_units; reserv ← fetch W w wv_reserv_cpu;
  let free_cpu_ratio := ddiv (double_of_Z (cpu - reserv)) (double_of_Z cpu) in
  let score := dadd (double_of_Z 0) (dmul free_cpu_ratio (double_of_Z 40)) in
  reliability ← fetch W w wv_reliability_score;
  let score := dadd score (dmul reliability (double_of_Z 30)) in
  id ← fetch W w wv_worker_id; preferred ← fetch K c cp_preferred_node;
  let score := if u32 (atoi (str_skip 7 id)) =? preferred then dadd score (double_of_Z 20) else score in
  battery ← fetch W w wv_battery_pct;
  mret (if fgeb battery (float_of_Z 0)
        then dadd score (dmul (ddiv (double_of_float battery) (double_of_Z 100)) (double_of_Z 10))
        else dadd score (double_of_Z 10)).

(** What worker [w] gets back for chunk [c]. *)
Definition give_back_code (c w : nat) : code unit :=
  reserv ← fetch W w wv_reserv_cpu; required ← fetch K c cp_required_cpu;
  (if reserv >=? required then put W w (set_cpu (u8 (reserv - required))) else mret tt) ;;
  reserv_mem ← fetch W w wv_reserv_mem_mb; required_mem ← fetch K c cp_required_memory_mb;
  (if reserv_mem >=? required_mem then put W w (set_mem (u64 (reserv_mem - required_mem))) else mret tt) ;;
  active ← fetch W w wv_active_chunks;
  put W w (set_active (s32 (active - 1))).

(** The worker that holds lease [l]. *)
Definition holder_code (l : nat) : code (option nat) :=
  each_worker (fun w => id ← fetch L l al_assigned_worker_id; fetch W w (fun x => strcmp_eq (wv_worker_id x) id)).

Definition return_code (c l : nat) : code unit :=
  holder ← holder_code l;
  match holder with
  | Some w => give_back_code c w
  | None => mret tt
  end.

(** From [bool already_leased = false;] on. *)
Definition check_code (now : Z) (c : nat) : code bool :=
  found ← each_lease (fun l =>
    id ← fetch L l al_chunk_id; chunk_id ← fetch K c cp_chunk_id;
    if id =? chunk_id then fetch L l al_is_active else mret false);
  match found with
  | None => mret false
  | Some l =>
      expires ← fetch L l al_lease_expires_ms;
      if now >? expires then put L l al_deactivate ;; return_code c l ;; mret false else mret true
  end.

Fixpoint scan_code (c fuel w : nat) (best : option nat) (hi : cdouble) : code (option nat) :=
  match fuel with
  | O => mret best
  | S fuel =>
      n ← rd_count W;
      if (w <? n)%nat then
        fits ← filters_code c w;
        if (fits : bool) then
          score ← score_code c w;
          if dgtb score hi then scan_code c fuel (w + 1) (Some w) score else scan_code c fuel (w + 1) best hi
        else scan_code c fuel (w + 1) best hi
      else mret best
  end.

Definition reserve_code (c b : nat) : code unit :=
  reserv ← fetch W b wv_reserv_cpu; required ← fetch K c cp_required_cpu;
  put W b (set_cpu (u8 (reserv + required))) ;;
  reserv_mem ← fetch W b wv_reserv_mem_mb; required_mem ← fetch K c cp_required_memory_mb;
  put W b (set_mem (u64 (reserv_mem + required_mem))) ;;
  active ← fetch W b wv_active_chunks;
  put W b (set_active (s32 (active + 1))).

(** From [int best_worker_idx = -1;] on; [out] is [out_leases] up to
    [dispatched_count], which no other thread sees. *)
Definition place_code (now : Z) (c : nat) (out : list vom_assignment_lease) : code (list vom_assignment_lease) :=
  best ← scan_code c (S MAX_SWORKERS) 0 None (double_of_Z (-1));
  match best with
  | None => mret out
  | Some b =>
      reserve_code c b ;;
      chunk_id ← fetch K c cp_chunk_id; worker_id ← fetch W b wv_worker_id;
      let new_lease := {| al_chunk_id := chunk_id; al_assigned_worker_id := strncpy 63 worker_id;
                          al_lease_expires_ms := u64 (now + 30000); al_is_active := true |} in
      slot ← each_lease (fun i => fetch L i (fun l => negb (al_is_active l)));
      match slot with
      | Some i => assign L i new_lease assignment_members ;; mret (out ++ [new_lease])
      | None =>
          n ← rd_count L;
          if (n <? MAX_SCHUNKS)%nat then push L new_lease assignment_members ;; mret (out ++ [new_lease]) else mret out
      end
  end.

Fixpoint tick_code (now max_leases : Z) (fuel c : nat) (out : list vom_assignment_lease) : code (list vom_assignment_lease) :=
  match fuel with
  | O => mret out
  | S fuel =>
      n ← rd_count K;
      if (c <? n)%nat then
        if Z.of_nat (length out) >=? max_leases then mret out else
        blocked ← fetch K c cp_is_blocked;
        if (blocked : bool) then tick_code now max_leases fuel (c + 1) out else
        already_leased ← check_code now c;
        if (already_leased : bool) then tick_code now max_leases fuel (c + 1) out else
        out ← place_code now c out;
        tick_code now max_leases fuel (c + 1) out
      else mret out
  end.

Definition release_lease_code (chunk_id : Z) : code unit :=
  found ← each_lease (fun l => id ← fetch L l al_chunk_id; if id =? chunk_id then fetch L l al_is_active else mret false);
  match found with
  | None => mret tt
  | Some l =>
      put L l al_deactivate ;;
      queued ← each_chunk (fun c => fetch K c (fun x => cp_chunk_id x =? chunk_id));
      match queued with
      | None => mret tt
      | Some c => return_code c l ;; remove_at K c
      end
  end.

(** * Each program does what its function does *)

#[export] Instance workers_mirror : Mirrors sched_ok sched_abs W MAX_SWORKERS workers_of.
Proof. apply mirrors_intro; try done; [by constructor; intros; destruct s..|by intros s []|by intros t s []; constructor]. Qed.
#[export] Instance chunks_mirror : Mirrors sched_ok sched_abs K MAX_SCHUNKS chunks_of.
Proof. apply mirrors_intro; try done; [by constructor; intros; destruct s..|by intros s []|by intros t s []; constructor]. Qed.
#[export] Instance leases_mirror : Mirrors sched_ok sched_abs L MAX_SCHUNKS leases_of.
Proof. apply mirrors_intro; try done; [by constructor; intros; destruct s..|by intros s []|by intros t s []; constructor]. Qed.

Lemma worker_members_complete : complete worker_members.
Proof. intros [] []. reflexivity. Qed.
Lemma plan_members_complete : complete plan_members.
Proof. intros [] []. reflexivity. Qed.
Lemma assignment_members_complete : complete assignment_members.
Proof. intros [] []. reflexivity. Qed.

#[local] Hint Resolve worker_members_complete plan_members_complete assignment_members_complete : core.

Abbreviation sdoes := (does sched_ok sched_abs).
Abbreviation sobserves := (observes sched_ok sched_abs).

Lemma register_does worker x : sdoes (register_worker_code worker) x
  (vom_scheduler_register_worker (Some worker) x).1 (vom_scheduler_register_worker (Some worker) x).2.
Proof.
  unfold register_worker_code, vom_scheduler_register_worker.
  eapply does_observe; [apply (search_observes _ (fun w => strcmp_eq (wv_worker_id w) (wv_worker_id worker))); [cbn; lia|]|].
  { intros j w Hw. by eapply (fetch_observes (fun w => strcmp_eq (wv_worker_id w) (wv_worker_id worker))). }
  cbn [lget workers_of].
  destruct (find_idx _ _) as [i|] eqn:F; [|destruct (Nat.leb_spec MAX_SWORKERS (length (g_workers x))) as [Hn|Hn]].
  - eapply does_bind; [apply assign_does; [done|done|by eapply find_idx_lt]|]. apply does_ret.
  - observe. rewrite (proj2 (Nat.leb_le _ _)) by done. apply does_ret.
  - observe. rewrite (proj2 (Nat.leb_gt _ _)) by done. eapply does_bind; [by apply push_does|]. apply does_ret.
Qed.

Lemma submit_does chunk x : sdoes (submit_code chunk) x
  (vom_scheduler_submit_ready_chunk (Some chunk) x).1 (vom_scheduler_submit_ready_chunk (Some chunk) x).2.
Proof.
  unfold submit_code, vom_scheduler_submit_ready_chunk.
  eapply does_observe; [apply (search_observes _ (fun c => cp_chunk_id c =? cp_chunk_id chunk)); [cbn; lia|]|].
  { intros j c Hc. by eapply (fetch_observes (fun c => cp_chunk_id c =? cp_chunk_id chunk)). }
  cbn [lget chunks_of].
  destruct (find_idx _ _) as [i|] eqn:F; [|destruct (Nat.leb_spec MAX_SCHUNKS (length (g_chunks x))) as [Hn|Hn]].
  - eapply does_bind; [apply assign_does; [done|done|by eapply find_idx_lt]|]. apply does_ret.
  - observe. rewrite (proj2 (Nat.leb_le _ _)) by done. apply does_ret.
  - observe. rewrite (proj2 (Nat.leb_gt _ _)) by done. eapply does_bind; [by apply push_does|]. apply does_ret.
Qed.

Section Entries.
Context (x : sched) (c w : nat) (chunk : vom_chunk_plan) (worker : vom_worker_view).
Hypothesis (Hc : g_chunks x !! c = Some chunk) (Hw : g_workers x !! w = Some worker).

Lemma filters_observes : sobserves (filters_code c w) x (evaluate_hard_filters chunk worker).
Proof.
  unfold filters_code, evaluate_hard_filters.
  observe. destruct (wv_healthy worker =? 0); [apply observes_ret|cbn [orb]].
  observe. destr_if; [apply observes_ret|].
  do 2 observe. destr_if; [apply observes_ret|].
  do 2 observe. destr_if; [apply observes_ret|].
  do 2 observe. destr_if; [apply observes_ret|].
  do 3 observe. cbv zeta. destr_if; [apply observes_ret|].
  do 3 observe. destr_if; apply observes_ret.
Qed.

Lemma score_observes : sobserves (score_code c w) x (calculate_worker_score chunk worker).
Proof.
  unfold score_code. do 2 observe. cbv zeta. do 4 observe. unfold calculate_worker_score. cbv zeta.
  match goal with |- observes _ _ (mret ?r) _ ?q => replace r with q; [apply observes_ret|] end.
  repeat destr_if; reflexivity.
Qed.

Definition with_worker (y : vom_worker_view) : sched := sc_set_workers (<[w := y]> (g_workers x)) x.

Lemma with_worker_id : with_worker worker = x.
Proof. unfold with_worker. rewrite list_insert_id by done. by destruct x. Qed.

Lemma edit_fetch {B} (f : vom_worker_view -> B) y : sobserves (fetch W w f) (with_worker y) (f y).
Proof. apply fetch_observes. cbn. apply list_lookup_insert_eq. by eapply lookup_lt_Some. Qed.

Lemma edit_chunk {B} (f : vom_chunk_plan -> B) y : sobserves (fetch K c f) (with_worker y) (f chunk).
Proof. by apply fetch_observes. Qed.

Lemma edit_if (b : bool) f y : sdoes (if b then put W w f else mret tt) (with_worker y) tt (with_worker (if b then f y else y)).
Proof.
  assert (g_workers (with_worker y) !! w = Some y) as E by (cbn; apply list_lookup_insert_eq; by eapply lookup_lt_Some).
  replace (with_worker (if b then f y else y)) with
    (lset workers_of (<[w := if b then f y else y]> (lget workers_of (with_worker y))) (with_worker y)); [by apply put_if_does|].
  unfold with_worker. cbn. unfold sc_set_workers. cbn. by rewrite list_insert_insert_eq.
Qed.

Lemma edit_put f y : sdoes (put W w f) (with_worker y) tt (with_worker (f y)).
Proof. apply (edit_if true). Qed.

Ltac edit := repeat (eapply does_observe; [first [apply edit_fetch | apply edit_chunk]|]).

Lemma give_back_does : sdoes (give_back_code c w) x tt (with_worker (give_back chunk worker)).
Proof.
  rewrite <- with_worker_id at 1. unfold give_back_code. edit. eapply does_bind; [apply edit_if|].
  edit. eapply does_bind; [apply edit_if|]. edit.
  match goal with |- does _ _ _ _ _ (with_worker ?r) => replace r with
    (set_active (s32 (wv_active_chunks worker - 1))
      (let y := if wv_reserv_cpu worker >=? cp_required_cpu chunk then set_cpu (u8 (wv_reserv_cpu worker - cp_required_cpu chunk)) worker else worker in
       if wv_reserv_mem_mb worker >=? cp_required_memory_mb chunk
       then set_mem (u64 (wv_reserv_mem_mb worker - cp_required_memory_mb chunk)) y else y)) end.
  - destruct (wv_reserv_cpu worker >=? _), (wv_reserv_mem_mb worker >=? _) eqn:E; cbn; rewrite ?E; apply edit_put.
  - unfold give_back. cbv zeta. destruct (wv_reserv_cpu worker >=? _), (wv_reserv_mem_mb worker >=? _); reflexivity.
Qed.

Lemma reserve_does : sdoes (reserve_code c w) x tt (with_worker (reserve chunk worker)).
Proof.
  rewrite <- with_worker_id at 1. unfold reserve_code. edit. eapply does_bind; [apply edit_put|].
  edit. eapply does_bind; [apply edit_put|]. edit.
  change (reserve chunk worker) with (set_active (s32 (wv_active_chunks worker + 1))
    (set_mem (u64 (wv_reserv_mem_mb worker + cp_required_memory_mb chunk))
      (set_cpu (u8 (wv_reserv_cpu worker + cp_required_cpu chunk)) worker))).
  apply edit_put.
Qed.
End Entries.

(** The placement scan. *)
Lemma scan_observes x c chunk : g_chunks x !! c = Some chunk -> forall fuel w best hi,
  (length (g_workers x) - w < fuel)%nat ->
  sobserves (scan_code c fuel w best hi) x (scan_workers chunk w (drop w (g_workers x)) best hi).1.
Proof.
  intros Hc. induction fuel as [|fuel IH]; intros w best hi H; [lia|]. cbn [scan_code].
  observe. cbn [lget workers_of]. destruct (Nat.ltb_spec w (length (g_workers x))) as [Hn|Hn].
  2: { rewrite drop_ge by done. apply observes_ret. }
  destruct (lookup_lt_is_Some_2 _ _ Hn) as [worker Hw]. rewrite (drop_S _ worker w Hw). cbn [scan_workers].
  replace (S w) with (w + 1)%nat by lia.
  eapply observes_bind; [by apply filters_observes|]. destr_if; [|apply IH; lia].
  eapply observes_bind; [by apply score_observes|]. destr_if; apply IH; lia.
Qed.

(** The worker that holds a lease gets the chunk's resources back. *)
Lemma return_does x c l chunk lease : g_chunks x !! c = Some chunk -> g_leases x !! l = Some lease ->
  sdoes (return_code c l) x tt (sc_set_workers (return_resources chunk (al_assigned_worker_id lease) (g_workers x)) x).
Proof.
  intros Hc Hl. unfold return_code, holder_code, return_resources.
  eapply does_observe; [apply (search_observes _ (fun w => strcmp_eq (wv_worker_id w) (al_assigned_worker_id lease))); [cbn; lia|]|].
  { intros j w Hw. observe. by eapply (fetch_observes (fun y => strcmp_eq (wv_worker_id y) (al_assigned_worker_id lease))). }
  cbn [lget workers_of]. destruct (find_idx _ _) as [w|] eqn:F.
  - destruct (find_idx_Some _ _ _ F) as (worker & Hw & _). rewrite (alter_nth _ _ _ worker), (nth_lookup_Some _ _ _ _ Hw).
    by apply give_back_does.
  - replace (sc_set_workers (g_workers x) x) with x by (by destruct x). apply does_ret.
Qed.

Lemma check_does now x c chunk : g_chunks x !! c = Some chunk ->
  sdoes (check_code now c) x (check_lease now chunk x).1 (check_lease now chunk x).2.
Proof.
  intros Hc. unfold check_code, check_lease.
  eapply does_observe; [apply (search_observes _ (fun l => (al_chunk_id l =? cp_chunk_id chunk) && al_is_active l)); [cbn; lia|]|].
  { intros j l Hl. do 2 observe. destruct (_ =? _); [by eapply (fetch_observes al_is_active)|apply observes_ret]. }
  cbn [lget leases_of]. destruct (find_idx _ _) as [l|] eqn:F; [|apply does_ret].
  destruct (find_idx_Some _ _ _ F) as (lease & Hl & _). rewrite Hl. observe. destr_if; [|apply does_ret].
  eapply does_bind; [by eapply put_does|]. cbn [lset lget leases_of].
  rewrite (alter_nth _ _ _ lease), (nth_lookup_Some _ _ _ _ Hl).
  eapply does_bind; [|apply does_ret].
  apply (return_does (sc_set_leases (<[l := al_deactivate lease]> (g_leases x)) x) c l chunk (al_deactivate lease)); [done|]. cbn. apply list_lookup_insert_eq. by eapply lookup_lt_Some.
Qed.

(** The slot a new lease takes. *)
Lemma place_does now x c chunk out : g_chunks x !! c = Some chunk ->
  sdoes (place_code now c out) x (place_chunk now chunk x out).2 (place_chunk now chunk x out).1.
Proof.
  intros Hc. apply (does_cap (M := workers_of)). intros Cap. unfold place_code, place_chunk.
  eapply does_observe.
  { pose proof (scan_observes x c chunk Hc (S MAX_SWORKERS) 0 None (double_of_Z (-1))) as Sc. rewrite drop_0 in Sc.
    fold (best_worker chunk (g_workers x)) in Sc. apply Sc. cbn in Cap. lia. }
  destruct (best_worker chunk (g_workers x)) as [b|] eqn:B; [|apply does_ret].
  destruct (best_worker_eligible _ _ _ B) as (worker & Hw & _). rewrite Hw.
  eapply does_bind; [by apply reserve_does|]. rewrite (alter_nth _ _ _ worker), (nth_lookup_Some _ _ _ _ Hw).
  fold (with_worker x b (reserve chunk worker)). set (x1 := with_worker x b (reserve chunk worker)).
  assert (g_chunks x1 !! c = Some chunk) as Hc1 by done.
  assert (g_workers x1 !! b = Some (reserve chunk worker)) as Hw1 by (apply list_lookup_insert_eq; by eapply lookup_lt_Some).
  do 2 observe. cbv zeta. fold (new_lease now chunk worker).
  change (strncpy 63 (wv_worker_id (reserve chunk worker))) with (strncpy 63 (wv_worker_id worker)).
  fold (new_lease now chunk worker).
  eapply does_observe; [apply (search_observes _ (fun l => negb (al_is_active l))); [cbn; lia|]|].
  { intros j l Hl. by eapply (fetch_observes (fun l => negb (al_is_active l))). }
  cbn [lget leases_of]. change (g_leases x1) with (g_leases x). destruct (find_idx _ _) as [i|] eqn:F.
  - eapply does_bind; [apply assign_does; [done|done|by eapply find_idx_lt]|]. apply does_ret.
  - observe. cbn [lget leases_of]. change (g_leases x1) with (g_leases x).
    destruct (Nat.ltb_spec (length (g_leases x)) MAX_SCHUNKS); [|apply does_ret].
    eapply does_bind; [by apply push_does|]. apply does_ret.
Qed.

Lemma check_lease_chunks now chunk x : g_chunks (check_lease now chunk x).2 = g_chunks x.
Proof. unfold check_lease. destruct (find_idx _ _); [|done]. destruct (_ !! _); [|done]. by destr_if. Qed.
Lemma place_chunk_chunks now chunk x out : g_chunks (place_chunk now chunk x out).1 = g_chunks x.
Proof.
  unfold place_chunk. destruct (best_worker _ _); [|done]. destruct (g_workers x !! _); [|done].
  destruct (find_idx _ _); [done|]. by destr_if.
Qed.

Lemma tick_does now max : forall fuel c x out, (length (g_chunks x) - c < fuel)%nat ->
  sdoes (tick_code now max fuel c out) x
    (tick_loop now max (drop c (g_chunks x)) x out).2 (tick_loop now max (drop c (g_chunks x)) x out).1.
Proof.
  induction fuel as [|fuel IH]; intros c x out H; [lia|]. cbn [tick_code]. observe. cbn [lget chunks_of].
  destruct (Nat.ltb_spec c (length (g_chunks x))) as [Hn|Hn].
  2: { rewrite drop_ge by done. apply does_ret. }
  destruct (lookup_lt_is_Some_2 _ _ Hn) as [chunk Hc]. rewrite (drop_S _ chunk c Hc). cbn [tick_loop].
  destruct (Z.of_nat (length out) >=? max); [apply does_ret|].
  replace (S c) with (c + 1)%nat by lia. observe. unfold tick_chunk. destruct (cp_is_blocked chunk); [apply IH; lia|].
  eapply does_bind; [by apply check_does|]. pose proof (check_lease_chunks now chunk x) as E1.
  destruct (check_lease now chunk x) as [[] x1]; cbn [fst snd] in *.
  - rewrite <- E1. apply IH. rewrite E1. lia.
  - eapply does_bind; [apply place_does; by rewrite E1|]. pose proof (place_chunk_chunks now chunk x1 out) as E2.
    destruct (place_chunk now chunk x1 out) as [x2 out2]; cbn [fst snd] in *. rewrite <- E1, <- E2. apply IH. rewrite E2, E1. lia.
Qed.

Lemma release_does id x : sdoes (release_lease_code id) x tt (vom_scheduler_release_lease id x).
Proof.
  unfold release_lease_code, vom_scheduler_release_lease.
  eapply does_observe; [apply (search_observes _ (fun l => (al_chunk_id l =? id) && al_is_active l)); [cbn; lia|]|].
  { intros j l Hl. observe. destruct (_ =? _); [by eapply (fetch_observes al_is_active)|apply observes_ret]. }
  cbn [lget leases_of]. destruct (find_idx _ _) as [l|] eqn:F; [|apply does_ret].
  destruct (find_idx_Some _ _ _ F) as (lease & Hl & _). rewrite Hl. eapply does_bind; [by eapply put_does|].
  cbn [lset lget leases_of]. rewrite (alter_nth _ _ _ lease), (nth_lookup_Some _ _ _ _ Hl).
  set (x1 := sc_set_leases (<[l := al_deactivate lease]> (g_leases x)) x).
  eapply does_observe; [apply (search_observes _ (fun c => cp_chunk_id c =? id)); [cbn; lia|]|].
  { intros j c Hc. by eapply (fetch_observes (fun c => cp_chunk_id c =? id)). }
  cbn [lget chunks_of]. change (g_chunks x1) with (g_chunks x). destruct (find_idx _ (g_chunks x)) as [c|] eqn:G; [|apply does_ret].
  destruct (find_idx_Some _ _ _ G) as (chunk & Hc & _). rewrite Hc. eapply does_bind.
  - apply (return_does x1 c l chunk (al_deactivate lease)); [done|]. cbn. apply list_lookup_insert_eq. by eapply lookup_lt_Some.
  - cbn [al_assigned_worker_id al_deactivate]. change (g_workers x1) with (g_workers x).
    apply (remove_does (M := chunks_of) (sc_set_workers (return_resources chunk (al_assigned_worker_id lease) (g_workers x)) x1) c); [done|].
    cbn. by eapply lookup_lt_Some.
Qed.

Lemma init_does x : sdoes init_code x tt vom_scheduler_init.
Proof.
  unfold init_code. eapply does_bind; [apply wr_count_does; [done|lia]|]. rewrite take_0.
  eapply does_bind; [apply wr_count_does; [done|cbn; lia]|]. rewrite take_0.
  eapply does_bind; [apply wr_count_does; [done|cbn; lia]|]. rewrite take_0. cbn [lset workers_of chunks_of leases_of].
  eapply does_bind; [apply fill_does; [done|done|cbn; lia]|]. eapply does_bind; [apply fill_does; [done|done|cbn; lia]|].
  apply fill_does; [done|done|cbn; lia].
Qed.

(** * Many threads *)

Inductive sched_call :=
| SchedInit
| SchedRegister (worker : ptr vom_worker_view)
| SchedSubmit (chunk : ptr vom_chunk_plan)
| SchedTick (current_time_ms max_leases : Z)
| SchedRelease (chunk_id : Z).

(** What a call returns and writes to [out_leases]. *)
Inductive sched_result := SchedVoid | SchedInt (rc : Z) (out : list vom_assignment_lease).

#[export] Instance lease_eq_dec : EqDecision vom_assignment_lease.
Proof. solve_decision. Defined.
#[export] Instance sched_result_eq_dec : EqDecision sched_result.
Proof. solve_decision. Defined.

Definition sched_enter (c : sched_call) : sched_result + prog raw_sched sched_result :=
  match c with
  | SchedInit => inr (init_code ;; mret SchedVoid)
  | SchedRegister NULL | SchedSubmit NULL => inl (SchedInt (-1) [])
  | SchedRegister (Some worker) => inr (rc ← register_worker_code worker; mret (SchedInt rc []))
  | SchedSubmit (Some chunk) => inr (rc ← submit_code chunk; mret (SchedInt rc []))
  | SchedTick now max => inr (out ← tick_code now max (S MAX_SCHUNKS) 0 []; mret (SchedInt (Z.of_nat (length out)) out))
  | SchedRelease id => inr (release_lease_code id ;; mret SchedVoid)
  end.

(** The call as one step of the model. *)
Definition sched_apply (c : sched_call) (x : sched) : sched_result * sched :=
  match c with
  | SchedInit => (SchedVoid, vom_scheduler_init)
  | SchedRegister w => let '(rc, y) := vom_scheduler_register_worker w x in (SchedInt rc [], y)
  | SchedSubmit c => let '(rc, y) := vom_scheduler_submit_ready_chunk c x in (SchedInt rc [], y)
  | SchedTick now max => let '(rc, out, y) := vom_scheduler_tick now max x in (SchedInt rc out, y)
  | SchedRelease id => (SchedVoid, vom_scheduler_release_lease id x)
  end.

Lemma sched_exec c s : sched_ok s -> sched_ok (exec sched_enter c s).2 /\
  sched_apply c (sched_abs s) = ((exec sched_enter c s).1, sched_abs (exec sched_enter c s).2).
Proof.
  intros O. unfold exec. destruct c as [|[w|]|[c|]|now max|id]; cbn [sched_enter sched_apply]; try done.
  - apply does_run; [done|]. apply (wrap_does _ (fun _ => SchedVoid) _ tt), init_does.
  - pose proof (register_does w (sched_abs s)) as D. destruct (vom_scheduler_register_worker _ _) as [rc y].
    apply does_run; [done|]. by apply (wrap_does _ (fun rc => SchedInt rc [])).
  - pose proof (submit_does c (sched_abs s)) as D. destruct (vom_scheduler_submit_ready_chunk _ _) as [rc y].
    apply does_run; [done|]. by apply (wrap_does _ (fun rc => SchedInt rc [])).
  - unfold vom_scheduler_tick. pose proof (tick_does now max (S MAX_SCHUNKS) 0 (sched_abs s) []) as D. rewrite drop_0 in D.
    destruct (tick_loop _ _ _ _ _) as [y out]. apply does_run; [done|].
    apply (wrap_does _ (fun out => SchedInt (Z.of_nat (length out)) out)), D.
    pose proof (tab_count _ _ (so_chunks _ O)) as Hc. cbn. erewrite live_length by apply O. lia.
  - apply does_run; [done|]. apply (wrap_does _ (fun _ => SchedVoid) _ tt), release_does.
Qed.

#[export] Instance scheduler_locked : Locked sched_enter sched_apply :=
  {| lk_ok := sched_ok; lk_abs := sched_abs; lk_exec := sched_exec |}.

Lemma raw_start_ok : sched_ok raw_start.
Proof. constructor; apply blank_ok. Qed.

(** What the callers owe: descriptions within the types of their members. *)
Definition sched_valid (c : sched_call) : Prop :=
  match c with
  | SchedRegister (Some w) => worker_ok w
  | SchedSubmit (Some c) => chunk_ok c
  | _ => True
  end.

Lemma sched_apply_reachable c x : sched_valid c -> sched_reachable x -> sched_reachable (sched_apply c x).2.
Proof.
  intros V R. destruct c as [|[w|]|[c|]|now max|id]; cbn [sched_valid sched_apply] in *; try done.
  - constructor.
  - pose proof (step_register x w V) as St. revert St. destruct (vom_scheduler_register_worker _ _). by eapply SchedulerInv.reach_step.
  - pose proof (step_submit x c V) as St. revert St. destruct (vom_scheduler_submit_ready_chunk _ _). by eapply SchedulerInv.reach_step.
  - pose proof (step_tick x now max) as St. revert St. destruct (vom_scheduler_tick _ _ _) as [[rc out] y]. by eapply SchedulerInv.reach_step.
  - eapply SchedulerInv.reach_step; [done|]. apply step_release.
Qed.

(** C6: Threads that call the scheduler concurrently, interleaved at every
    access to its tables, see the scheduler of the model: the calls return, in
    the order of their returns, what the model returns, every state between two
    calls is a reachable one (so that reservations stay within capacity and no
    chunk is leased twice), no operation has left an array (such an access would
    have marked it), and no schedule blocks or runs for ever. *)
Theorem scheduler_threads_linearizable (programs : list (list sched_call)) m :
  Forall (Forall sched_valid) programs -> threads_reach sched_enter raw_start programs m ->
  linearized sched_enter sched_apply sched_abs (fun x => sched_reachable x /\ sched_inv x) vom_scheduler_init programs m /\
  (mutex m = None -> sched_ok (shared m)).
Proof.
  intros V R. split; [|exact (locked_intact sched_enter sched_apply raw_start programs m raw_start_ok R)].
  refine (locked_linearized sched_enter sched_apply sched_valid _ raw_start programs m raw_start_ok _ _ V R).
  - split; [constructor|apply reachable_inv; constructor].
  - intros c x Vc [Rx _]. pose proof (sched_apply_reachable c x Vc Rx). split; [done|]. by apply reachable_inv.
Qed.

(** Two threads take turns at every access: one registers a worker, submits a
    chunk and releases it, the other ticks twice and submits another chunk. *)
Definition sched_demo_programs : list (list sched_call) :=
  [[SchedRegister (Some (demo_worker "worker-01" 8 16384)); SchedSubmit (Some (test_chunk 2001 2 512)); SchedRelease 2001];
   [SchedSubmit (Some (test_chunk 2002 6 2048)); SchedTick 1000 4; SchedSubmit NULL; SchedTick 40000 4]].
Definition sched_demo_machine : machine :=
  schedule sched_enter (concat (replicate 400 [0; 1]%nat)) (spawn raw_start sched_demo_programs).

Lemma scheduler_threads_linearizable_witness :
  (let leased id t := {| al_chunk_id := id; al_assigned_worker_id := "worker-01"; al_lease_expires_ms := t; al_is_active := true |} in
   (fun e => (e.1.1, e.2)) <$> returned sched_demo_machine =
   [(0%nat, SchedInt 0 []); (1%nat, SchedInt 0 []); (0%nat, SchedInt 0 []); (1%nat, SchedInt 2 [leased 2002 31000; leased 2001 31000]);
    (1%nat, SchedInt (-1) []); (0%nat, SchedVoid); (1%nat, SchedInt 1 [leased 2002 70000])]) /\
  linearized sched_enter sched_apply sched_abs (fun x => sched_reachable x /\ sched_inv x) vom_scheduler_init
    sched_demo_programs sched_demo_machine.
Proof.
  split; [vm_compute; reflexivity|].
  apply (scheduler_threads_linearizable sched_demo_programs sched_demo_machine).
  - repeat constructor; cbn; lia.
  - apply schedule_reach, reach_spawn.
Defined.
