(* ===== verification/RegistryThreads.v ===== *)
(** The worker registry ([master/src/registry.c]) as several threads run it:
    every operation is a program of single accesses to the records, the chunk
    ids inside a record and the snapshot ring, under the context's mutex.
    [Registry] has the operations as functions on lists; this file shows that
    each program does what its function does, never leaves an array, and hence
    that threads interleaved in any way see the registry of the model. *)
From S2P Require Import Prelude SnapshotRing Registry RegistryProps Threads Tables.

(** * The structure *)

(** [active_chunk_ids] and [active_chunk_count] are [rr_chunks]. *)
Record raw_record := {
  rr_worker_id : string;
  rr_transport_endpoint : string;
  rr_status : WorkerRegStatus;
  rr_last_seen_ms : Z;
  rr_capabilities : vom_worker_capabilities;
  rr_chunks : table Z
}.

(** [records] and [worker_count] are [rs_records]. *)
Record raw_registry_snapshot := { rs_records : table raw_record; rs_version : Z }.

Record raw_registry := {
  rg_state : raw_registry_snapshot;
  rg_pool : list raw_registry_snapshot;
  rg_tail : nat;
  rg_refs : list Z
}.

Definition zero_caps : vom_worker_capabilities :=
  {| cap_arch := VOM_ARCH_X86_64; cap_cores_online := 0; cap_cores_total := 0; cap_feature_bitmap := 0; cap_ram_total_mb := 0;
     cap_ram_free_mb := 0; cap_battery_percent := 0; cap_is_charging := false; cap_is_ac_online := false;
     cap_display_attached := false; cap_display_width := 0; cap_display_height := 0; cap_touch_supported := false;
     cap_network_link_type := VOM_LINK_ETH; cap_network_bandwidth_kbps := 0 |}.
Definition zero_raw_record : raw_record :=
  {| rr_worker_id := ""; rr_transport_endpoint := ""; rr_status := REG_STATUS_APPROVED; rr_last_seen_ms := 0;
     rr_capabilities := zero_caps; rr_chunks := blank 0 REG_MAX_CHUNKS |}.

#[export] Instance raw_record_inhabited : Inhabited raw_record := populate zero_raw_record.

Definition raw_registry_zero : raw_registry_snapshot := {| rs_records := blank zero_raw_record REG_MAX_WORKERS; rs_version := 0 |}.

(** [calloc] and [snapshot_version = 1]. *)
Definition raw_registry_create : raw_registry :=
  {| rg_state := {| rs_records := rs_records raw_registry_zero; rs_version := 1 |};
     rg_pool := replicate SNAPSHOT_RING_SIZE raw_registry_zero; rg_tail := 0; rg_refs := replicate SNAPSHOT_RING_SIZE 0 |}.

(** ** What it stands for *)

Definition record_abs (r : raw_record) : WorkerRecord :=
  {| wrec_worker_id := rr_worker_id r; wrec_transport_endpoint := rr_transport_endpoint r; wrec_status := rr_status r;
     wrec_last_seen_ms := rr_last_seen_ms r; wrec_capabilities := rr_capabilities r;
     wrec_active_chunk_ids := live (rr_chunks r) |}.
Definition reg_snap_abs (s : raw_registry_snapshot) : RegistrySnapshot :=
  {| reg_records := record_abs <$> live (rs_records s); reg_snapshot_version := rs_version s |}.
Definition registry_abs (s : raw_registry) : vom_registry_context :=
  {| reg_state := reg_snap_abs (rg_state s); reg_pool := reg_snap_abs <$> rg_pool s; reg_pool_tail := rg_tail s;
     reg_ref_counts := rg_refs s |}.

Definition raw_record_ok (r : raw_record) : Prop := tab_ok REG_MAX_CHUNKS (rr_chunks r).

Record registry_ok (s : raw_registry) : Prop := {
  go_records : tab_ok REG_MAX_WORKERS (rs_records (rg_state s));
  go_chunks : tab_all raw_record_ok raw_record_ok (rs_records (rg_state s))
}.

(** ** Accesses *)

Definition on_reg_state (f : raw_registry_snapshot -> raw_registry_snapshot) (s : raw_registry) : raw_registry :=
  {| rg_state := f (rg_state s); rg_pool := rg_pool s; rg_tail := rg_tail s; rg_refs := rg_refs s |}.
Definition on_reg_pool (f : list raw_registry_snapshot -> list raw_registry_snapshot) (s : raw_registry) : raw_registry :=
  {| rg_state := rg_state s; rg_pool := f (rg_pool s); rg_tail := rg_tail s; rg_refs := rg_refs s |}.
Definition on_reg_refs (f : list Z -> list Z) (s : raw_registry) : raw_registry :=
  {| rg_state := rg_state s; rg_pool := rg_pool s; rg_tail := rg_tail s; rg_refs := f (rg_refs s) |}.
Definition set_reg_tail (n : nat) (s : raw_registry) : raw_registry :=
  {| rg_state := rg_state s; rg_pool := rg_pool s; rg_tail := n; rg_refs := rg_refs s |}.
Definition snap_set_records (t : table raw_record) (s : raw_registry_snapshot) : raw_registry_snapshot :=
  {| rs_records := t; rs_version := rs_version s |}.
Definition snap_set_version (n : Z) (s : raw_registry_snapshot) : raw_registry_snapshot :=
  {| rs_records := rs_records s; rs_version := n |}.

(** The records of the live state, and the chunk ids of one record. *)
Definition GR : lens raw_registry (table raw_record) :=
  {| lget s := rs_records (rg_state s); lset t := on_reg_state (snap_set_records t) |}.
Definition GC : lens raw_record (table Z) :=
  {| lget := rr_chunks;
     lset t r := {| rr_worker_id := rr_worker_id r; rr_transport_endpoint := rr_transport_endpoint r; rr_status := rr_status r;
                    rr_last_seen_ms := rr_last_seen_ms r; rr_capabilities := rr_capabilities r; rr_chunks := t |} |}.

Definition recs_of : lens vom_registry_context (list WorkerRecord) :=
  {| lget := reg_recs; lset l c := reg_set_records l (reg_ver c) c |}.
Definition ids_of : lens WorkerRecord (list Z) := {| lget := wrec_active_chunk_ids; lset := rec_set_chunks |}.

Definition put_rec_id (x : string) (r : raw_record) : raw_record :=
  {| rr_worker_id := x; rr_transport_endpoint := rr_transport_endpoint r; rr_status := rr_status r;
     rr_last_seen_ms := rr_last_seen_ms r; rr_capabilities := rr_capabilities r; rr_chunks := rr_chunks r |}.
Definition put_rec_endpoint (x : string) (r : raw_record) : raw_record :=
  {| rr_worker_id := rr_worker_id r; rr_transport_endpoint := x; rr_status := rr_status r;
     rr_last_seen_ms := rr_last_seen_ms r; rr_capabilities := rr_capabilities r; rr_chunks := rr_chunks r |}.
Definition put_rec_status (x : WorkerRegStatus) (r : raw_record) : raw_record :=
  {| rr_worker_id := rr_worker_id r; rr_transport_endpoint := rr_transport_endpoint r; rr_status := x;
     rr_last_seen_ms := rr_last_seen_ms r; rr_capabilities := rr_capabilities r; rr_chunks := rr_chunks r |}.
Definition put_rec_seen (x : Z) (r : raw_record) : raw_record :=
  {| rr_worker_id := rr_worker_id r; rr_transport_endpoint := rr_transport_endpoint r; rr_status := rr_status r;
     rr_last_seen_ms := x; rr_capabilities := rr_capabilities r; rr_chunks := rr_chunks r |}.
Definition put_rec_caps (f : vom_worker_capabilities -> vom_worker_capabilities) (r : raw_record) : raw_record :=
  {| rr_worker_id := rr_worker_id r; rr_transport_endpoint := rr_transport_endpoint r; rr_status := rr_status r;
     rr_last_seen_ms := rr_last_seen_ms r; rr_capabilities := f (rr_capabilities r); rr_chunks := rr_chunks r |}.

(** Member [n] of the capabilities, taken from [x]. *)
Definition cap_member (n : nat) (x y : vom_worker_capabilities) : vom_worker_capabilities :=
  let pick {A} (k : nat) (f : vom_worker_capabilities -> A) := f (if (k =? n)%nat then x else y) in
  {| cap_arch := pick 0%nat cap_arch; cap_cores_online := pick 1%nat cap_cores_online;
     cap_cores_total := pick 2%nat cap_cores_total; cap_feature_bitmap := pick 3%nat cap_feature_bitmap;
     cap_ram_total_mb := pick 4%nat cap_ram_total_mb; cap_ram_free_mb := pick 5%nat cap_ram_free_mb;
     cap_battery_percent := pick 6%nat cap_battery_percent; cap_is_charging := pick 7%nat cap_is_charging;
     cap_is_ac_online := pick 8%nat cap_is_ac_online; cap_display_attached := pick 9%nat cap_display_attached;
     cap_display_width := pick 10%nat cap_display_width; cap_display_height := pick 11%nat cap_display_height;
     cap_touch_supported := pick 12%nat cap_touch_supported; cap_network_link_type := pick 13%nat cap_network_link_type;
     cap_network_bandwidth_kbps := pick 14%nat cap_network_bandwidth_kbps |}.

(** [r->capabilities = *caps]. *)
Definition copy_caps (caps : vom_worker_capabilities) : list (raw_record -> raw_record) :=
  (fun n => put_rec_caps (cap_member n caps)) <$> seq 0 15.

(** * The operations *)

Abbreviation gcode A := (prog raw_registry A).

(** [for (...) if (strcmp (records[i].worker_id, worker_id) == 0)]; the fuel is
    one more than the length of the array. *)
Definition find_record_code (worker_id : string) : gcode (option nat) :=
  search (rd_count GR) (fun i => fetch GR i (fun r => strcmp_eq (rr_worker_id r) worker_id)) (S REG_MAX_WORKERS) 0.

(** [ctx->state.snapshot_version++] *)
Definition bump_snapshot_code : gcode unit :=
  v ← read (fun s => rs_version (rg_state s));
  write (on_reg_state (snap_set_version (u64 (v + 1)))).

Definition join_code (worker_id transport : string) (caps : vom_worker_capabilities) (now_ms : Z) : gcode bool :=
  found ← find_record_code worker_id;
  match found with
  | Some i =>
      puts GR i (put_rec_status REG_STATUS_APPROVED :: put_rec_seen now_ms :: copy_caps caps) ;;
      bump_snapshot_code ;;
      mret true
  | None =>
      n ← rd_count GR;
      if (REG_MAX_WORKERS <=? n)%nat then mret false
      else
        append GR ([put_rec_id (strncpy (REG_NAME_MAX - 1) worker_id);
                    put_rec_endpoint (strncpy (REG_NAME_MAX - 1) transport);
                    put_rec_status REG_STATUS_APPROVED; put_rec_seen now_ms] ++ copy_caps caps ++ [over GC (with_count 0)]) ;;
        bump_snapshot_code ;;
        mret true
  end.

Definition reg_heartbeat_code (worker_id : string) (d : vom_worker_capabilities) (now_ms : Z) : gcode bool :=
  found ← find_record_code worker_id;
  match found with
  | Some i =>
      puts GR i (put_rec_seen now_ms :: ((fun n => put_rec_caps (cap_member n d)) <$> [5; 1; 6; 7; 8]%nat)) ;;
      gone ← fetch GR i (fun r => bool_decide (rr_status r = REG_STATUS_DISCONNECTED));
      (if (gone : bool) then put GR i (put_rec_status REG_STATUS_HEALTHY) else mret tt) ;;
      bump_snapshot_code ;;
      mret true
  | None => mret false
  end.

Definition leave_code (worker_id : string) : gcode bool :=
  found ← find_record_code worker_id;
  match found with
  | Some i => put GR i (put_rec_status REG_STATUS_DISCONNECTED) ;; bump_snapshot_code ;; mret true
  | None => mret false
  end.

Definition track_code (worker_id : string) (chunk_id : Z) : gcode bool :=
  found ← find_record_code worker_id;
  match found with
  | Some i =>
      n ← within GR i (rd_count GC);
      if (REG_MAX_CHUNKS <=? n)%nat then mret false
      else
        within GR i (append GC [fun _ => chunk_id]) ;;
        bump_snapshot_code ;;
        mret true
  | None => mret false
  end.

(** The loop over [j] in record [r], with the removal. *)
Definition untrack_record_code (chunk_id : Z) : prog raw_record bool :=
  found ← search (rd_count GC) (fun j => fetch GC j (fun x => x =? chunk_id)) (S REG_MAX_CHUNKS) 0;
  match found with
  | Some j => remove_at GC j ;; mret true
  | None => mret false
  end.

Fixpoint untrack_code (worker_id : string) (chunk_id : Z) (fuel i : nat) : gcode bool :=
  match fuel with
  | O => mret false
  | S fuel =>
      n ← rd_count GR;
      if (i <? n)%nat then
        here ← fetch GR i (fun r => strcmp_eq (rr_worker_id r) worker_id);
        removed ← (if (here : bool) then within GR i (untrack_record_code chunk_id) else mret false);
        if (removed : bool) then bump_snapshot_code ;; mret true else untrack_code worker_id chunk_id fuel (i + 1)
      else mret false
  end.

(** [out] is [out_dead_workers] up to [dead_count], which no other thread sees. *)
Fixpoint sweep_stale_code (now_ms timeout_ms max_out : Z) (fuel i : nat) (out : list string) : gcode (list string) :=
  match fuel with
  | O => mret out
  | S fuel =>
      n ← rd_count GR;
      if (i <? n)%nat then
        gone ← fetch GR i (fun r => bool_decide (rr_status r = REG_STATUS_DISCONNECTED));
        stale ← (if (gone : bool) then mret false else fetch GR i (fun r => u64 (now_ms - rr_last_seen_ms r) >? timeout_ms));
        if (stale : bool) then
          put GR i (put_rec_status REG_STATUS_DISCONNECTED) ;;
          out ← (if Z.of_nat (length out) <? max_out
                 then id ← fetch GR i rr_worker_id; mret (out ++ [strncpy (REG_NAME_MAX - 1) id]) else mret out);
          bump_snapshot_code ;;
          sweep_stale_code now_ms timeout_ms max_out fuel (i + 1) out
        else sweep_stale_code now_ms timeout_ms max_out fuel (i + 1) out
      else mret out
  end.

Fixpoint free_slot_code (fuel slot : nat) : gcode nat :=
  match fuel with
  | O => mret slot
  | S fuel =>
      k ← read (fun s => ref_at (rg_refs s) slot);
      if k =? 0 then mret slot else free_slot_code fuel (next_slot slot)
  end.

(** [memcpy (&ctx->pool[slot], &ctx->state, ...)], member by member. *)
Definition copy_snapshot_code (slot : nat) : gcode unit :=
  let copy (f : raw_registry_snapshot -> raw_registry_snapshot -> raw_registry_snapshot) : gcode unit :=
    write (fun s => on_reg_pool (alter (f (rg_state s)) slot) s) in
  copy (fun st t => snap_set_records {| cells := cells (rs_records st); count := count (rs_records t); stray := stray (rs_records t) |} t) ;;
  copy (fun st t => snap_set_records (with_count (count (rs_records st)) (rs_records t)) t) ;;
  copy (fun st => snap_set_version (rs_version st)).

Definition acquire_snapshot_code : gcode nat :=
  tail ← read rg_tail;
  slot ← free_slot_code SNAPSHOT_RING_SIZE tail;
  copy_snapshot_code slot ;;
  write (on_reg_refs (alter (fun n => u32 (n + 1)) slot)) ;;
  write (set_reg_tail (next_slot slot)) ;;
  mret slot.

(** [snapshot] is the index of the slot it points to. *)
Fixpoint release_snapshot_code (fuel i snapshot : nat) : gcode unit :=
  match fuel with
  | O => mret tt
  | S fuel =>
      if (i =? snapshot)%nat then
        k ← read (fun s => ref_at (rg_refs s) i);
        if k >? 0 then write (on_reg_refs (alter (fun n => u32 (n - 1)) i)) else mret tt
      else release_snapshot_code fuel (i + 1) snapshot
  end.

(** * Each program does what its function does *)

Lemma GR_lens : lens_ok (fun _ => True) GR.
Proof. by constructor; intros; destruct s as [[] ? ? ?]. Qed.
Lemma recs_of_lens : lens_ok (fun _ => True) recs_of.
Proof. by constructor; intros; destruct s as [[] ? ? ?]. Qed.

Lemma recs_same x : lset recs_of (reg_recs x) x = x.
Proof. by apply (set_get _ _ recs_of_lens). Qed.

#[export] Instance records_by : MirrorsBy registry_ok registry_abs GR REG_MAX_WORKERS raw_record_ok raw_record_ok record_abs recs_of.
Proof.
  refine {| mr_lens := GR_lens; mr_list := recs_of_lens |}; try done; by intros s [].
Qed.

#[export] Instance ids_mirror : Mirrors raw_record_ok record_abs GC REG_MAX_CHUNKS ids_of.
Proof. apply mirrors_intro; try done; by constructor; intros; destruct s. Qed.

Abbreviation gdoes := (does registry_ok registry_abs).
Abbreviation gobserves := (observes registry_ok registry_abs).

Lemma find_record_observes id x : gobserves (find_record_code id) x (find_idx (rec_is id) (reg_recs x)).
Proof.
  apply (search_observes (M := recs_of)); [lia|]. intros j r Hr.
  by apply (fetch_via (M := recs_of) _ (rec_is id)).
Qed.

(** The records and the version change, the rest stays. *)
Lemma bump_does x : gdoes bump_snapshot_code x tt (reg_set_records (reg_recs x) (u64 (reg_ver x + 1)) x).
Proof.
  unfold bump_snapshot_code. eapply does_observe; [by apply (read_observes _ reg_ver)|].
  apply (write_does _ (fun c => reg_set_records (reg_recs c) (u64 (reg_ver x + 1)) c)); [|done]. intros s []. by constructor.
Qed.

(** An operation that changes record [i] and counts a version. *)
Lemma bump_after (p : gcode unit) x l : gdoes p x tt (lset recs_of l x) ->
  gdoes (p ;; bump_snapshot_code ;; mret true) x true (reg_set_records l (u64 (reg_ver x + 1)) x).
Proof.
  intros H. eapply does_bind; [exact H|]. eapply does_bind; [apply bump_does|]. apply does_ret.
Qed.

(** The test on a record, the model's function on it. *)
Ltac found F r Hr := destruct (find_idx_Some _ _ _ F) as (r & Hr & _).

Lemma join_does id tr caps now x :
  let '(b, y) := vom_registry_on_worker_join (Some id) (Some tr) (Some caps) now x in gdoes (join_code id tr caps now) x b y.
Proof.
  unfold vom_registry_on_worker_join, join_code. destruct (find_idx _ _) as [i|] eqn:F.
  - found F r Hr. eapply does_observe; [apply find_record_observes|]. rewrite F, (alter_entry _ _ _ _ Hr).
    apply bump_after. eapply (puts_by (M := recs_of)); [done|exact Hr|]. intros a Pa <-. split; [exact Pa|by destruct caps].
  - assert (gobserves (find_record_code id) x None) as O by (rewrite <- F; apply find_record_observes).
    destruct (Nat.leb_spec REG_MAX_WORKERS (length (reg_recs x))) as [C|C].
    + eapply does_observe; [exact O|]. eapply does_observe; [apply (count_observes (M := recs_of))|]. cbn [lget recs_of].
      rewrite (proj2 (Nat.leb_le _ _)) by done. apply does_ret.
    + eapply does_observe; [exact O|]. eapply does_observe; [apply (count_observes (M := recs_of))|]. cbn [lget recs_of].
      rewrite (proj2 (Nat.leb_gt _ _)) by done. apply bump_after.
      apply (append_by (M := recs_of)); [done| |exact C]. intros a Pa. split.
      * destruct Pa as [K1 K2 K3]. by constructor; cbn; [|lia|].
      * unfold new_record. destruct caps. done.
Qed.

Lemma reg_heartbeat_does id d now x :
  let '(b, y) := vom_registry_on_worker_heartbeat (Some id) (Some d) now x in gdoes (reg_heartbeat_code id d now) x b y.
Proof.
  unfold vom_registry_on_worker_heartbeat, reg_heartbeat_code.
  destruct (find_idx _ _) as [i|] eqn:F; (eapply does_observe; [apply find_record_observes|]); rewrite F; [|apply does_ret].
  found F r Hr. rewrite (alter_entry _ _ _ _ Hr).
  set (r1 := rec_touch (wrec_status r) now (refresh_caps d (wrec_capabilities r)) r).
  eapply does_bind.
  { eapply (puts_by (M := recs_of) _ _ _ _ r1); [done|exact Hr|]. intros a Pa <-. split; [exact Pa|done]. }
  set (x1 := lset recs_of _ x).
  assert (reg_recs x1 !! i = Some r1) as Hr1 by (apply list_lookup_insert_eq; by eapply lookup_lt_Some).
  eapply does_observe.
  { by apply (fetch_via (M := recs_of) _ (fun r => bool_decide (wrec_status r = REG_STATUS_DISCONNECTED)) _ _ r1). }
  set (r2 := if bool_decide (wrec_status r1 = REG_STATUS_DISCONNECTED) then rec_set_status REG_STATUS_HEALTHY r1 else r1).
  assert (reg_set_records (<[i := rec_heartbeat d now r]> (reg_recs x)) (u64 (reg_ver x + 1)) x =
    reg_set_records (<[i := r2]> (reg_recs x1)) (u64 (reg_ver x1 + 1)) x1) as ->.
  { cbn. rewrite list_insert_insert_eq. unfold reg_set_records. do 4 f_equal. unfold r2, rec_heartbeat. cbn.
    by destruct (wrec_status r) eqn:St; cbn; rewrite ?St. }
  apply bump_after. unfold r2. destruct (bool_decide _).
  - eapply (put_by (M := recs_of)); [exact Hr1|]. by intros a Pa <-.
  - rewrite list_insert_id by done. rewrite recs_same. apply does_ret.
Qed.

Lemma leave_does id x : let '(b, y) := vom_registry_on_worker_leave (Some id) x in gdoes (leave_code id) x b y.
Proof.
  unfold vom_registry_on_worker_leave, leave_code.
  destruct (find_idx _ _) as [i|] eqn:F; (eapply does_observe; [apply find_record_observes|]); rewrite F; [|apply does_ret].
  found F r Hr. rewrite (alter_entry _ _ _ _ Hr). apply bump_after.
  eapply (put_by (M := recs_of)); [exact Hr|]. by intros a Pa <-.
Qed.

Lemma track_does id k x : let '(b, y) := vom_registry_track_chunk (Some id) k x in gdoes (track_code id k) x b y.
Proof.
  unfold vom_registry_track_chunk, track_code.
  destruct (find_idx _ _) as [i|] eqn:F.
  2: { eapply does_observe; [apply find_record_observes|]. rewrite F. apply does_ret. }
  found F r Hr. rewrite Hr. destruct (Nat.leb_spec REG_MAX_CHUNKS (length (wrec_active_chunk_ids r))) as [C|C];
    (eapply does_observe; [apply find_record_observes|]); rewrite F;
    (eapply does_observe; [eapply (within_observes (M := recs_of)); [exact Hr|apply (count_observes (M := ids_of))]|]); cbn [lget ids_of].
  - rewrite (proj2 (Nat.leb_le _ _)) by done. apply does_ret.
  - rewrite (proj2 (Nat.leb_gt _ _)) by done. apply bump_after.
    eapply (within_does (M := recs_of)); [exact Hr|].
    by apply (append_by (M := ids_of) [fun _ => k]).
Qed.

Lemma untrack_record_does k r :
  does raw_record_ok record_abs (untrack_record_code k) r
    (match find_idx (fun x => x =? k) (wrec_active_chunk_ids r) with Some _ => true | None => false end)
    (match find_idx (fun x => x =? k) (wrec_active_chunk_ids r) with
     | Some j => rec_set_chunks (delete j (wrec_active_chunk_ids r)) r
     | None => r
     end).
Proof.
  unfold untrack_record_code. eapply does_observe.
  { apply (search_observes (M := ids_of) _ (fun x => x =? k)); [lia|]. intros j z Hz. by apply (fetch_observes (M := ids_of) (fun x => x =? k)). }
  cbn [lget ids_of]. destruct (find_idx _ _) as [j|] eqn:F; [|apply does_ret].
  eapply does_bind; [|apply does_ret]. apply (remove_does (M := ids_of)); [done|]. by eapply find_idx_lt.
Qed.

(** The loop from record [i] on. *)
Lemma untrack_from id k x : forall fuel i, (length (reg_recs x) - i < fuel)%nat ->
  let '(b, y) := match untrack_loop id k (drop i (reg_recs x)) with
                 | Some rs => (true, reg_set_records (take i (reg_recs x) ++ rs) (u64 (reg_ver x + 1)) x)
                 | None => (false, x)
                 end in
  gdoes (untrack_code id k fuel i) x b y.
Proof.
  induction fuel as [|fuel IH]; intros i H; [lia|].
  destruct (decide (i < length (reg_recs x))%nat) as [Hi|Hi].
  2: { rewrite drop_ge by lia. cbn [untrack_loop untrack_code]. eapply does_observe; [apply (count_observes (M := recs_of))|].
       cbn [lget recs_of]. rewrite (proj2 (Nat.ltb_ge _ _)) by lia. apply does_ret. }
  destruct (lookup_lt_is_Some_2 _ _ Hi) as [r Hr]. pose proof (IH (i + 1)%nat ltac:(lia)) as D.
  rewrite (drop_S _ r i Hr), <- (Nat.add_1_r i). cbn [untrack_loop].
  assert (forall b z y, gdoes (removed ← (if rec_is id r then within GR i (untrack_record_code k) else mret false);
      if (removed : bool) then bump_snapshot_code ;; mret true else untrack_code id k fuel (i + 1)) x b y -> z = y ->
      gdoes (untrack_code id k (S fuel) i) x b z) as Start.
  { intros b z y H1 ->. cbn [untrack_code]. eapply does_observe; [apply (count_observes (M := recs_of))|]. cbn [lget recs_of].
    rewrite (proj2 (Nat.ltb_lt _ _)) by done.
    eapply does_observe; [by apply (fetch_via (M := recs_of) _ (rec_is id) _ _ r)|]. exact H1. }
  assert (gdoes (if rec_is id r then within GR i (untrack_record_code k) else mret false) x
    (match (if rec_is id r then find_idx (fun x => x =? k) (wrec_active_chunk_ids r) else None) with Some _ => true | None => false end)
    (lset recs_of (<[i := match (if rec_is id r then find_idx (fun x => x =? k) (wrec_active_chunk_ids r) else None) with
                          | Some j => rec_set_chunks (delete j (wrec_active_chunk_ids r)) r | None => r end]> (reg_recs x)) x)) as One.
  { destruct (rec_is id r).
    - apply (within_does (M := recs_of)) with (b := r); [exact Hr|]. apply untrack_record_does.
    - rewrite list_insert_id by done. rewrite recs_same. apply does_ret. }
  destruct (if rec_is id r then _ else None) as [j|] eqn:F.
  - eapply Start; [eapply does_bind; [exact One|]; eapply does_bind; [apply bump_does|apply does_ret]|].
    cbn. unfold reg_set_records. do 2 f_equal. by rewrite insert_take_drop, Nat.add_1_r by done.
  - rewrite list_insert_id in One by done. rewrite recs_same in One.
    rewrite (take_lookup_S _ i r) in D by done.
    destruct (untrack_loop id k (drop (i + 1) (reg_recs x))) as [rs|]; cbn;
      (eapply Start; [eapply does_bind; [exact One|exact D]|]); [|done]. by rewrite <- app_assoc.
Qed.

Lemma untrack_does id k x :
  let '(b, y) := vom_registry_untrack_chunk (Some id) k x in gdoes (untrack_code id k (S REG_MAX_WORKERS) 0) x b y.
Proof.
  unfold vom_registry_untrack_chunk. destruct (untrack_loop id k (reg_recs x)) eqn:U.
  - apply (does_cap (M := recs_of)). intros C. pose proof (untrack_from id k x (S REG_MAX_WORKERS) 0) as D.
    rewrite drop_0, U in D. apply D. cbn [lget recs_of] in C. lia.
  - apply (does_cap (M := recs_of)). intros C. pose proof (untrack_from id k x (S REG_MAX_WORKERS) 0) as D.
    rewrite drop_0, U in D. apply D. cbn [lget recs_of] in C. lia.
Qed.

(** ** The sweep *)

Lemma sweep_from now t max : forall fuel i out x, (length (reg_recs x) - i < fuel)%nat ->
  let '(rs, out', ver) := sweep_loop now t max (drop i (reg_recs x)) out (reg_ver x) in
  gdoes (sweep_stale_code now t max fuel i out) x out' (reg_set_records (take i (reg_recs x) ++ rs) ver x).
Proof.
  induction fuel as [|fuel IH]; intros i out x H; [lia|].
  destruct (decide (i < length (reg_recs x))%nat) as [Hi|Hi].
  2: { rewrite drop_ge, take_ge by lia. cbn [sweep_loop sweep_stale_code]. rewrite app_nil_r.
       eapply does_observe; [apply (count_observes (M := recs_of))|]. cbn [lget recs_of]. rewrite (proj2 (Nat.ltb_ge _ _)) by lia.
       rewrite (recs_same x : reg_set_records (reg_recs x) (reg_ver x) x = x). apply does_ret. }
  destruct (lookup_lt_is_Some_2 _ _ Hi) as [r Hr]. rewrite (drop_S _ r i Hr), <- (Nat.add_1_r i). cbn [sweep_loop].
  set (out1 := if Z.of_nat (length out) <? max then out ++ [strncpy (REG_NAME_MAX - 1) (wrec_worker_id r)] else out).
  assert (forall o y, gdoes (if is_stale now t r then
      put GR i (put_rec_status REG_STATUS_DISCONNECTED) ;;
      out ← (if Z.of_nat (length out) <? max
             then id ← fetch GR i rr_worker_id; mret (out ++ [strncpy (REG_NAME_MAX - 1) id]) else mret out);
      bump_snapshot_code ;; sweep_stale_code now t max fuel (i + 1) out
    else sweep_stale_code now t max fuel (i + 1) out) x o y -> gdoes (sweep_stale_code now t max (S fuel) i out) x o y) as Start.
  { intros o y H1. cbn [sweep_stale_code]. eapply does_observe; [apply (count_observes (M := recs_of))|]. cbn [lget recs_of].
    rewrite (proj2 (Nat.ltb_lt _ _)) by done.
    eapply does_observe; [by apply (fetch_via (M := recs_of) _ (fun r => bool_decide (wrec_status r = REG_STATUS_DISCONNECTED)) _ _ r)|].
    eapply (does_observe _ _ _ (is_stale now t r)); [|exact H1]. unfold is_stale.
    destruct (bool_decide _); [apply observes_ret|]. by apply (fetch_via (M := recs_of) _ (fun r => u64 (now - wrec_last_seen_ms r) >? t) _ _ r). }
  destruct (is_stale now t r) eqn:St.
  - set (r1 := rec_set_status REG_STATUS_DISCONNECTED r). set (x1 := lset recs_of (<[i := r1]> (reg_recs x)) x).
    assert (reg_recs x1 !! i = Some r1) as Hr1 by (by apply list_lookup_insert_eq).
    set (x2 := reg_set_records (reg_recs x1) (u64 (reg_ver x1 + 1)) x1).
    pose proof (IH (i + 1)%nat out1 x2 ltac:(cbn; rewrite length_insert; lia)) as D.
    cbn [x2 x1 lset recs_of reg_set_records reg_recs reg_state reg_records reg_ver reg_snapshot_version] in D.
    rewrite visit_take, visit_drop in D by lia.
    destruct (sweep_loop _ _ _ _ _ _) as [[rs out'] ver]. rewrite <- app_assoc in D. apply Start.
    eapply does_bind; [eapply (put_by (M := recs_of) _ _ _ _ r1); [exact Hr|by intros a Pa <-]|].
    eapply (does_observe _ _ _ out1).
    { unfold out1. destruct (Z.of_nat (length out) <? max); [|apply observes_ret].
      eapply observes_bind; [|apply observes_ret]. by apply (fetch_via (M := recs_of) _ wrec_worker_id _ _ r1). }
    eapply does_bind; [apply bump_does|]. exact D.
  - pose proof (IH (i + 1)%nat out x ltac:(lia)) as D. rewrite (take_lookup_S _ i r) in D by done.
    destruct (sweep_loop _ _ _ _ _ _) as [[rs out'] ver]. rewrite <- app_assoc in D. by apply Start.
Qed.

Lemma sweep_stale_does now t max x :
  let '(rs, out, ver) := sweep_loop now t max (reg_recs x) [] (reg_ver x) in
  gdoes (sweep_stale_code now t max (S REG_MAX_WORKERS) 0 []) x out (reg_set_records rs ver x).
Proof.
  destruct (sweep_loop now t max (reg_recs x) [] (reg_ver x)) as [[rs out] ver] eqn:E.
  apply (does_cap (M := recs_of)). intros C. cbn [lget recs_of] in C.
  pose proof (sweep_from now t max (S REG_MAX_WORKERS) 0 [] x ltac:(lia)) as D. by rewrite drop_0, E in D.
Qed.

(** ** Snapshots *)

Lemma free_slot_observes x : forall fuel slot, gobserves (free_slot_code fuel slot) x (search_for fuel (reg_ref_counts x) slot).
Proof.
  induction fuel as [|fuel IH]; intros slot; cbn [free_slot_code search_for]; [apply observes_ret|].
  eapply observes_bind; [by apply (read_observes _ (fun c => ref_at (reg_ref_counts c) slot))|].
  destr_if; [apply observes_ret|apply IH].
Qed.

(** Half a copy is no snapshot of the model: the three writes are taken
    together. *)
Lemma copy_snapshot_does slot x : gdoes (copy_snapshot_code slot) x tt
  {| reg_state := reg_state x; reg_pool := <[slot := reg_state x]> (reg_pool x); reg_pool_tail := reg_pool_tail x;
     reg_ref_counts := reg_ref_counts x |}.
Proof.
  intros s O <-. unfold leaves, copy_snapshot_code. run_prog. eexists. split; [done|]. split; [by destruct O|].
  unfold registry_abs. cbn [rg_state rg_pool rg_tail rg_refs on_reg_pool reg_state reg_pool reg_pool_tail reg_ref_counts]. f_equal.
  rewrite !alter_alter, (list_fmap_alter _ _ (fun _ => reg_snap_abs (rg_state s))) by (by apply Forall_true).
  by apply alter_const.
Qed.

Lemma acquire_does x :
  let '(p, y) := vom_registry_acquire_snapshot x in gdoes acquire_snapshot_code x p y.
Proof.
  unfold vom_registry_acquire_snapshot, acquire_snapshot_code.
  eapply does_observe; [by apply (read_observes _ reg_pool_tail)|]. eapply does_observe; [apply free_slot_observes|].
  eapply does_bind; [apply copy_snapshot_does|].
  set (slot := search_for _ _ _). eapply does_bind; [|eapply does_bind; [|apply does_ret]].
  - apply (write_does _ (fun c => {| reg_state := reg_state c; reg_pool := reg_pool c; reg_pool_tail := reg_pool_tail c;
      reg_ref_counts := alter (fun n => u32 (n + 1)) slot (reg_ref_counts c) |})); [|done]. by intros s [].
  - apply (write_does _ (fun c => {| reg_state := reg_state c; reg_pool := reg_pool c; reg_pool_tail := next_slot slot;
      reg_ref_counts := reg_ref_counts c |})); [|done]. by intros s [].
Qed.

Lemma release_loop_does p x : forall fuel i,
  gdoes (release_snapshot_code fuel i p) x tt
    (if decide (i <= p < i + fuel)%nat then
       {| reg_state := reg_state x; reg_pool := reg_pool x; reg_pool_tail := reg_pool_tail x;
          reg_ref_counts := alter (fun n => if n >? 0 then u32 (n - 1) else n) p (reg_ref_counts x) |}
     else x).
Proof.
  induction fuel as [|fuel IH]; intros i; cbn [release_snapshot_code]; [rewrite decide_False by lia; apply does_ret|].
  destruct (Nat.eqb_spec i p) as [->|N].
  2: { specialize (IH (i + 1)%nat). repeat case_decide; first [exact IH|lia]. }
  rewrite decide_True by lia. eapply does_observe; [by apply (read_observes _ (fun c => ref_at (reg_ref_counts c) p))|].
  destruct (reg_ref_counts x !! p) as [n|] eqn:E.
  - rewrite (alter_entry _ _ _ _ E). unfold ref_at. rewrite E. cbn [default]. unfold id. destruct (n >? 0).
    + rewrite <- (alter_entry (fun n => u32 (n - 1)) _ _ _ E).
      apply (write_does _ (fun c => {| reg_state := reg_state c; reg_pool := reg_pool c; reg_pool_tail := reg_pool_tail c;
        reg_ref_counts := alter (fun n => u32 (n - 1)) p (reg_ref_counts c) |})); [|done]. by intros s [].
    + rewrite list_insert_id by done. destruct x. apply does_ret.
  - unfold ref_at. rewrite E. cbn. rewrite (alter_nth _ _ _ 0), list_insert_ge by (by apply lookup_ge_None). destruct x. apply does_ret.
Qed.

Lemma release_snapshot_does p x :
  gdoes (release_snapshot_code SNAPSHOT_RING_SIZE 0 p) x tt (vom_registry_release_snapshot (Some p) x).
Proof.
  pose proof (release_loop_does p x SNAPSHOT_RING_SIZE 0) as D. unfold vom_registry_release_snapshot.
  rewrite find_slot. repeat case_decide; first [exact D|lia].
Qed.

(** * Many threads *)

(** [out_null]: the caller passes no output array. *)
Inductive reg_call :=
| RegJoin (worker_id transport : ptr string) (caps : ptr vom_worker_capabilities) (now_ms : Z)
| RegHeartbeat (worker_id : ptr string) (dynamic_caps : ptr vom_worker_capabilities) (now_ms : Z)
| RegLeave (worker_id : ptr string)
| RegTrack (worker_id : ptr string) (chunk_id : Z)
| RegUntrack (worker_id : ptr string) (chunk_id : Z)
| RegSweep (now_ms timeout_ms : Z) (out_null : bool) (max_out : Z)
| RegAcquire
| RegRelease (snapshot : ptr nat).

Inductive reg_result := RegBool (b : bool) | RegDead (n : Z) (out : list string) | RegSlot (p : nat) | RegVoid.

#[export] Instance reg_result_eq_dec : EqDecision reg_result.
Proof. solve_decision. Defined.

(** Guards on arguments come before the lock. *)
Definition reg_enter (c : reg_call) : reg_result + prog raw_registry reg_result :=
  match c with
  | RegJoin (Some id) (Some tr) (Some caps) now => inr (b ← join_code id tr caps now; mret (RegBool b))
  | RegHeartbeat (Some id) (Some d) now => inr (b ← reg_heartbeat_code id d now; mret (RegBool b))
  | RegLeave (Some id) => inr (b ← leave_code id; mret (RegBool b))
  | RegTrack (Some id) k => inr (b ← track_code id k; mret (RegBool b))
  | RegUntrack (Some id) k => inr (b ← untrack_code id k (S REG_MAX_WORKERS) 0; mret (RegBool b))
  | RegJoin _ _ _ _ | RegHeartbeat _ _ _ | RegLeave NULL | RegTrack NULL _ | RegUntrack NULL _ => inl (RegBool false)
  | RegSweep now t out_null max =>
      if out_null || (max <=? 0) then inl (RegDead 0 [])
      else inr (out ← sweep_stale_code now t max (S REG_MAX_WORKERS) 0 []; mret (RegDead (Z.of_nat (length out)) out))
  | RegAcquire => inr (p ← acquire_snapshot_code; mret (RegSlot p))
  | RegRelease (Some p) => inr (release_snapshot_code SNAPSHOT_RING_SIZE 0 p ;; mret RegVoid)
  | RegRelease NULL => inl RegVoid
  end.

(** The call as one step of the model. *)
Definition reg_apply (c : reg_call) (x : vom_registry_context) : reg_result * vom_registry_context :=
  match c with
  | RegJoin id tr caps now => let '(b, y) := vom_registry_on_worker_join id tr caps now x in (RegBool b, y)
  | RegHeartbeat id d now => let '(b, y) := vom_registry_on_worker_heartbeat id d now x in (RegBool b, y)
  | RegLeave id => let '(b, y) := vom_registry_on_worker_leave id x in (RegBool b, y)
  | RegTrack id k => let '(b, y) := vom_registry_track_chunk id k x in (RegBool b, y)
  | RegUntrack id k => let '(b, y) := vom_registry_untrack_chunk id k x in (RegBool b, y)
  | RegSweep now t o max => let '(n, out, y) := vom_registry_sweep_stale now t o max x in (RegDead n out, y)
  | RegAcquire => let '(p, y) := vom_registry_acquire_snapshot x in (RegSlot p, y)
  | RegRelease p => (RegVoid, vom_registry_release_snapshot p x)
  end.

(** A program of the registry, its result wrapped after the lock is given back. *)
Lemma reg_wrap {A} (p : gcode A) (f : A -> reg_result) s r y : registry_ok s -> gdoes p (registry_abs s) r y ->
  registry_ok (run (a ← p; mret (f a)) s).2 /\
  (f r, y) = ((run (a ← p; mret (f a)) s).1, registry_abs (run (a ← p; mret (f a)) s).2).
Proof. intros O D. apply does_run; [done|]. by apply wrap_does. Qed.

Lemma reg_exec c s : registry_ok s -> registry_ok (exec reg_enter c s).2 /\
  reg_apply c (registry_abs s) = ((exec reg_enter c s).1, registry_abs (exec reg_enter c s).2).
Proof.
  intros O. unfold exec. destruct c as [[id|] [tr|] [caps|] now|[id|] [d|] now|[id|]|[id|] k|[id|] k|now t o max| |[p|]];
    cbn [reg_enter reg_apply]; try done.
  - pose proof (join_does id tr caps now (registry_abs s)) as D. destruct (vom_registry_on_worker_join _ _ _ _ _). by apply reg_wrap.
  - pose proof (reg_heartbeat_does id d now (registry_abs s)) as D. destruct (vom_registry_on_worker_heartbeat _ _ _ _). by apply reg_wrap.
  - pose proof (leave_does id (registry_abs s)) as D. destruct (vom_registry_on_worker_leave _ _). by apply reg_wrap.
  - pose proof (track_does id k (registry_abs s)) as D. destruct (vom_registry_track_chunk _ _ _). by apply reg_wrap.
  - pose proof (untrack_does id k (registry_abs s)) as D. destruct (vom_registry_untrack_chunk _ _ _). by apply reg_wrap.
  - unfold vom_registry_sweep_stale. destruct (o || (max <=? 0)); [done|].
    pose proof (sweep_stale_does now t max (registry_abs s)) as D. destruct (sweep_loop _ _ _ _ _ _) as [[rs out] ver].
    by apply (reg_wrap _ (fun out => RegDead (Z.of_nat (length out)) out) _ out).
  - pose proof (acquire_does (registry_abs s)) as D. destruct (vom_registry_acquire_snapshot _). by apply reg_wrap.
  - apply (reg_wrap _ (fun _ => RegVoid) _ tt); [done|]. apply release_snapshot_does.
Qed.

#[export] Instance registry_locked : Locked reg_enter reg_apply :=
  {| lk_ok := registry_ok; lk_abs := registry_abs; lk_exec := reg_exec |}.

Lemma raw_registry_create_ok : registry_ok raw_registry_create.
Proof. constructor; [apply blank_ok|]. split; [done|]. apply Forall_replicate, blank_ok. Qed.

Lemma raw_registry_create_abs : vom_registry_create true = Some (registry_abs raw_registry_create).
Proof. done. Qed.

(** What the callers owe: ids that fit their field, and clocks of 64 bits. *)
Definition reg_valid (c : reg_call) : Prop :=
  match c with
  | RegJoin (Some id) _ _ now => (String.length id < REG_NAME_MAX)%nat /\ in_u64 now
  | RegHeartbeat _ _ now => in_u64 now
  | _ => True
  end.

Lemma reg_apply_reachable c x : reg_valid c -> reg_reachable x -> reg_reachable (reg_apply c x).2.
Proof.
  intros V R. destruct c as [[id|] tr caps now|id d now|id|id k|id k|now t o max| |p]; cbn [reg_valid reg_apply] in *; [|done|..].
  - pose proof (rs_join x id tr caps now (proj1 V) (proj2 V)) as St. destruct (vom_registry_on_worker_join _ _ _ _ _). by eapply rr_step.
  - pose proof (rs_heartbeat x id d now V) as St. destruct (vom_registry_on_worker_heartbeat _ _ _ _). by eapply rr_step.
  - pose proof (rs_leave x id) as St. destruct (vom_registry_on_worker_leave _ _). by eapply rr_step.
  - pose proof (rs_track x id k) as St. destruct (vom_registry_track_chunk _ _ _). by eapply rr_step.
  - pose proof (rs_untrack x id k) as St. destruct (vom_registry_untrack_chunk _ _ _). by eapply rr_step.
  - pose proof (rs_sweep x now t o max) as St. destruct (vom_registry_sweep_stale _ _ _ _ _) as [[n out] y]. by eapply rr_step.
  - pose proof (rs_acquire x) as St. destruct (vom_registry_acquire_snapshot _). by eapply rr_step.
  - eapply rr_step; [done|]. apply rs_release.
Qed.

(** C18: Threads that call the registry concurrently, interleaved at every access to
    its records and its snapshot ring, see the registry of the model: the calls
    return, in the order of their returns, what the model returns, every state
    between two calls is a reachable one and keeps the registry's invariant, no
    operation has left the records or the chunk ids of a record (such an access
    would have marked the array), and no schedule blocks or runs for ever. *)
Theorem registry_threads_linearizable (programs : list (list reg_call)) m :
  Forall (Forall reg_valid) programs -> threads_reach reg_enter raw_registry_create programs m ->
  linearized reg_enter reg_apply registry_abs (fun x => reg_reachable x /\ reg_ok x) (registry_abs raw_registry_create) programs m /\
  (mutex m = None -> registry_ok (shared m)).
Proof.
  intros V R. split; [|exact (locked_intact reg_enter reg_apply raw_registry_create programs m raw_registry_create_ok R)].
  assert (reg_reachable (registry_abs raw_registry_create)) as R0 by (by apply rr_create).
  refine (locked_linearized reg_enter reg_apply reg_valid _ raw_registry_create programs m raw_registry_create_ok _ _ V R).
  - split; [done|]. by apply reg_reachable_ok.
  - intros c x Vc [Rx _]. pose proof (reg_apply_reachable c x Vc Rx). split; [done|]. by apply reg_reachable_ok.
Qed.

(** Two threads take turns at every access: one lets a worker join, tracks two
    chunks on it and untracks the first, the other takes a snapshot, sweeps,
    and revives the worker with a heartbeat. *)
Definition registry_programs : list (list reg_call) :=
  [[RegJoin (Some "worker-01") (Some "tcp://1") (Some demo_caps) 1000; RegTrack (Some "worker-01") 7; RegTrack (Some "worker-01") 8;
    RegUntrack (Some "worker-01") 7];
   [RegHeartbeat (Some "worker-09") (Some demo_caps) 1500; RegAcquire; RegJoin (Some "worker-02") NULL NULL 2000; RegSweep 9000 5000 false 4;
    RegHeartbeat (Some "worker-01") (Some demo_caps) 9500; RegRelease (Some 0%nat)]].
Definition registry_machine : machine :=
  schedule reg_enter (concat (replicate 150 [0; 1]%nat)) (spawn raw_registry_create registry_programs).

Lemma registry_threads_linearizable_witness :
  (fun e => (e.1.1, e.2)) <$> returned registry_machine =
    [(0%nat, RegBool true); (1%nat, RegBool false); (0%nat, RegBool true); (1%nat, RegSlot 0); (1%nat, RegBool false); (0%nat, RegBool true);
     (1%nat, RegDead 1 ["worker-01"]); (0%nat, RegBool true); (1%nat, RegBool true); (1%nat, RegVoid)] /\
  linearized reg_enter reg_apply registry_abs (fun x => reg_reachable x /\ reg_ok x) (registry_abs raw_registry_create)
    registry_programs registry_machine.
Proof.
  split; [vm_compute; reflexivity|].
  apply (registry_threads_linearizable registry_programs registry_machine).
  - repeat constructor; cbn; unfold REG_NAME_MAX, in_u64; lia.
  - apply schedule_reach, reach_spawn.
Defined.
