(* ===== verification/WorkloadThreads.v ===== *)
(** The workload engine ([master/src/workload.c]) as several threads run it:
    every operation is a program of single accesses to the job table and to the
    chunk and edge tables inside a job, under the context's lock.  [Workload] has
    the operations as functions on lists; this file shows that each program does
    what its function does, never leaves an array, and hence that threads
    interleaved in any way see the engine of the model. *)
From S2P Require Import Prelude CFloat Workload WorkloadProps Threads Tables.

(** * The structure *)

Definition MAX_CHUNKS_PER_JOB : nat := 64.
Definition MAX_EDGES_PER_JOB : nat := 128.

(** [chunks] and [chunk_count] are [rj_chunks], [edges] and [edge_count]
    [rj_edges]. *)
Record raw_job := {
  rj_workload_id : Z;
  rj_name : string;
  rj_state : WorkloadState;
  rj_start_timestamp_ms : Z;
  rj_deadline_seconds : Z;
  rj_chunks : table ManagedChunkNode;
  rj_edges : table PlanDependencyEdge;
  rj_overall_progress : cfloat;
  rj_aggregated_result_hash : string
}.

(** [jobs] and [active_jobs_count] are [rw_jobs]. *)
Record raw_workloads := { rw_jobs : table raw_job; rw_next_workload_id : Z }.

Definition zero_chunk : ManagedChunkNode :=
  {| mc_chunk_id := 0; mc_memory_demand_bytes := 0; mc_cpu_cores_demand := 0; mc_target_node_id := 0;
     mc_data_locality_score := S754_zero false; mc_state := CHK_STATE_PENDING; mc_assigned_worker := ""; mc_output_checksum := "" |}.
Definition zero_edge : PlanDependencyEdge := {| pe_src_chunk_id := 0; pe_dst_chunk_id := 0 |}.
Definition zero_job : raw_job :=
  {| rj_workload_id := 0; rj_name := ""; rj_state := WL_STATE_SUBMITTED; rj_start_timestamp_ms := 0; rj_deadline_seconds := 0;
     rj_chunks := blank zero_chunk MAX_CHUNKS_PER_JOB; rj_edges := blank zero_edge MAX_EDGES_PER_JOB;
     rj_overall_progress := S754_zero false; rj_aggregated_result_hash := "" |}.

#[export] Instance chunk_inhabited : Inhabited ManagedChunkNode := populate zero_chunk.
#[export] Instance edge_inhabited : Inhabited PlanDependencyEdge := populate zero_edge.
#[export] Instance raw_job_inhabited : Inhabited raw_job := populate zero_job.

(** [calloc] and [next_workload_id = 1001]. *)
Definition raw_workload_init : raw_workloads := {| rw_jobs := blank zero_job MAX_ACTIVE_WORKLOADS; rw_next_workload_id := 1001 |}.

(** ** What it stands for *)

Definition job_abs (j : raw_job) : ActiveWorkloadLifecycle :=
  {| job_workload_id := rj_workload_id j; job_name := rj_name j; job_state := rj_state j;
     job_start_timestamp_ms := rj_start_timestamp_ms j; job_deadline_seconds := rj_deadline_seconds j;
     job_chunks := live (rj_chunks j); job_edges := live (rj_edges j); job_overall_progress := rj_overall_progress j;
     job_aggregated_result_hash := rj_aggregated_result_hash j |}.
Definition workloads_abs (s : raw_workloads) : vom_workload_context :=
  {| wc_jobs := job_abs <$> live (rw_jobs s); wc_next_workload_id := rw_next_workload_id s |}.

Record raw_job_ok (j : raw_job) : Prop := {
  jo_chunks : tab_ok MAX_CHUNKS_PER_JOB (rj_chunks j);
  jo_edges : tab_ok MAX_EDGES_PER_JOB (rj_edges j)
}.

(** A job no submission has taken, as [calloc] left it where that matters. *)
Record fresh_job (j : raw_job) : Prop := {
  fj_ok : raw_job_ok j;
  fj_chunks : count (rj_chunks j) = 0%nat;
  fj_edges : count (rj_edges j) = 0%nat;
  fj_progress : rj_overall_progress j = S754_zero false;
  fj_hash : rj_aggregated_result_hash j = ""%string
}.

Record workloads_ok (s : raw_workloads) : Prop := {
  wko_jobs : tab_ok MAX_ACTIVE_WORKLOADS (rw_jobs s);
  wko_all : tab_all raw_job_ok fresh_job (rw_jobs s)
}.

(** ** Accesses *)

Definition rj_set_id (x : Z) (j : raw_job) : raw_job :=
  {| rj_workload_id := x; rj_name := rj_name j; rj_state := rj_state j; rj_start_timestamp_ms := rj_start_timestamp_ms j;
     rj_deadline_seconds := rj_deadline_seconds j; rj_chunks := rj_chunks j; rj_edges := rj_edges j;
     rj_overall_progress := rj_overall_progress j; rj_aggregated_result_hash := rj_aggregated_result_hash j |}.
Definition rj_set_name (x : string) (j : raw_job) : raw_job :=
  {| rj_workload_id := rj_workload_id j; rj_name := x; rj_state := rj_state j; rj_start_timestamp_ms := rj_start_timestamp_ms j;
     rj_deadline_seconds := rj_deadline_seconds j; rj_chunks := rj_chunks j; rj_edges := rj_edges j;
     rj_overall_progress := rj_overall_progress j; rj_aggregated_result_hash := rj_aggregated_result_hash j |}.
Definition rj_set_state (x : WorkloadState) (j : raw_job) : raw_job :=
  {| rj_workload_id := rj_workload_id j; rj_name := rj_name j; rj_state := x; rj_start_timestamp_ms := rj_start_timestamp_ms j;
     rj_deadline_seconds := rj_deadline_seconds j; rj_chunks := rj_chunks j; rj_edges := rj_edges j;
     rj_overall_progress := rj_overall_progress j; rj_aggregated_result_hash := rj_aggregated_result_hash j |}.
Definition rj_set_start (x : Z) (j : raw_job) : raw_job :=
  {| rj_workload_id := rj_workload_id j; rj_name := rj_name j; rj_state := rj_state j; rj_start_timestamp_ms := x;
     rj_deadline_seconds := rj_deadline_seconds j; rj_chunks := rj_chunks j; rj_edges := rj_edges j;
     rj_overall_progress := rj_overall_progress j; rj_aggregated_result_hash := rj_aggregated_result_hash j |}.
Definition rj_set_deadline (x : Z) (j : raw_job) : raw_job :=
  {| rj_workload_id := rj_workload_id j; rj_name := rj_name j; rj_state := rj_state j; rj_start_timestamp_ms := rj_start_timestamp_ms j;
     rj_deadline_seconds := x; rj_chunks := rj_chunks j; rj_edges := rj_edges j;
     rj_overall_progress := rj_overall_progress j; rj_aggregated_result_hash := rj_aggregated_result_hash j |}.
Definition rj_set_tables (cs : table ManagedChunkNode) (es : table PlanDependencyEdge) (j : raw_job) : raw_job :=
  {| rj_workload_id := rj_workload_id j; rj_name := rj_name j; rj_state := rj_state j; rj_start_timestamp_ms := rj_start_timestamp_ms j;
     rj_deadline_seconds := rj_deadline_seconds j; rj_chunks := cs; rj_edges := es;
     rj_overall_progress := rj_overall_progress j; rj_aggregated_result_hash := rj_aggregated_result_hash j |}.
Definition rj_set_progress (x : cfloat) (j : raw_job) : raw_job :=
  {| rj_workload_id := rj_workload_id j; rj_name := rj_name j; rj_state := rj_state j; rj_start_timestamp_ms := rj_start_timestamp_ms j;
     rj_deadline_seconds := rj_deadline_seconds j; rj_chunks := rj_chunks j; rj_edges := rj_edges j;
     rj_overall_progress := x; rj_aggregated_result_hash := rj_aggregated_result_hash j |}.
Definition rj_set_hash (x : string) (j : raw_job) : raw_job :=
  {| rj_workload_id := rj_workload_id j; rj_name := rj_name j; rj_state := rj_state j; rj_start_timestamp_ms := rj_start_timestamp_ms j;
     rj_deadline_seconds := rj_deadline_seconds j; rj_chunks := rj_chunks j; rj_edges := rj_edges j;
     rj_overall_progress := rj_overall_progress j; rj_aggregated_result_hash := x |}.

(** The jobs, and the chunks and edges of one job. *)
Definition J : lens raw_workloads (table raw_job) :=
  {| lget := rw_jobs; lset t s := {| rw_jobs := t; rw_next_workload_id := rw_next_workload_id s |} |}.
Definition JC : lens raw_job (table ManagedChunkNode) := {| lget := rj_chunks; lset t j := rj_set_tables t (rj_edges j) j |}.
Definition JE : lens raw_job (table PlanDependencyEdge) := {| lget := rj_edges; lset t j := rj_set_tables (rj_chunks j) t j |}.

Definition job_set_edges (es : list PlanDependencyEdge) (j : ActiveWorkloadLifecycle) : ActiveWorkloadLifecycle :=
  {| job_workload_id := job_workload_id j; job_name := job_name j; job_state := job_state j;
     job_start_timestamp_ms := job_start_timestamp_ms j; job_deadline_seconds := job_deadline_seconds j; job_chunks := job_chunks j;
     job_edges := es; job_overall_progress := job_overall_progress j; job_aggregated_result_hash := job_aggregated_result_hash j |}.

Definition jobs_of : lens vom_workload_context (list ActiveWorkloadLifecycle) := {| lget := wc_jobs; lset := wc_set_jobs |}.
Definition job_chunks_of : lens ActiveWorkloadLifecycle (list ManagedChunkNode) := {| lget := job_chunks; lset := job_set_chunks |}.
Definition job_edges_of : lens ActiveWorkloadLifecycle (list PlanDependencyEdge) := {| lget := job_edges; lset := job_set_edges |}.

(** The members of a chunk and of an edge, in their order. *)
Definition node_members : list (ManagedChunkNode -> ManagedChunkNode -> ManagedChunkNode) :=
  let member (n : nat) (x y : ManagedChunkNode) :=
    let pick {A} (k : nat) (f : ManagedChunkNode -> A) := f (if (k =? n)%nat then x else y) in
    {| mc_chunk_id := pick 0%nat mc_chunk_id; mc_memory_demand_bytes := pick 1%nat mc_memory_demand_bytes;
       mc_cpu_cores_demand := pick 2%nat mc_cpu_cores_demand; mc_target_node_id := pick 3%nat mc_target_node_id;
       mc_data_locality_score := pick 4%nat mc_data_locality_score; mc_state := pick 5%nat mc_state;
       mc_assigned_worker := pick 6%nat mc_assigned_worker; mc_output_checksum := pick 7%nat mc_output_checksum |} in
  member <$> seq 0 8.
Definition edge_members : list (PlanDependencyEdge -> PlanDependencyEdge -> PlanDependencyEdge) :=
  [fun x y => {| pe_src_chunk_id := pe_src_chunk_id x; pe_dst_chunk_id := pe_dst_chunk_id y |};
   fun x y => {| pe_src_chunk_id := pe_src_chunk_id y; pe_dst_chunk_id := pe_dst_chunk_id x |}].

(** * Code on a job *)

Abbreviation jcode A := (prog raw_job A).

(** Iterations are bounded by one more than the length of the array. *)
Fixpoint plan_chunks_code (desc : UserWorkloadDesc) (wl_id : Z) (fuel i : nat) : jcode unit :=
  match fuel with
  | O => mret tt
  | S fuel =>
      n ← rd_count JC;
      if (i <? n)%nat then
        assign JC i (mock_chunk desc wl_id i) node_members ;;
        plan_chunks_code desc wl_id fuel (i + 1)
      else mret tt
  end.

(** [job->edges[e] = (PlanDependencyEdge){ job->chunks[s].chunk_id, job->chunks[d].chunk_id }] *)
Definition plan_edge_code (e s d : nat) : jcode unit :=
  src ← fetch JC s mc_chunk_id;
  dst ← fetch JC d mc_chunk_id;
  assign JE e {| pe_src_chunk_id := src; pe_dst_chunk_id := dst |} edge_members.

Definition planner_code (desc : UserWorkloadDesc) (wl_id : Z) : jcode unit :=
  wr_count JC 3 ;;
  wr_count JE 2 ;;
  plan_chunks_code desc wl_id (S MAX_CHUNKS_PER_JOB) 0 ;;
  plan_edge_code 0 0 1 ;;
  plan_edge_code 1 1 2.

(** One pass of the loop over [k]: the first chunk with the edge's source. *)
Definition edge_code (i j : nat) : jcode bool :=
  dst ← fetch JE j pe_dst_chunk_id;
  id ← fetch JC i mc_chunk_id;
  if dst =? id then
    found ← search (rd_count JC)
      (fun k => id ← fetch JC k mc_chunk_id; src ← fetch JE j pe_src_chunk_id; mret (id =? src)) (S MAX_CHUNKS_PER_JOB) 0;
    match found with
    | Some k => fetch JC k (fun c => bool_decide (mc_state c = CHK_STATE_COMPLETED))
    | None => mret true
    end
  else mret true.

(** [parents_completed]: the loop over [j]. *)
Fixpoint parents_code (i fuel j : nat) : jcode bool :=
  match fuel with
  | O => mret true
  | S fuel =>
      n ← rd_count JE;
      if (j <? n)%nat then
        satisfied ← edge_code i j;
        if (satisfied : bool) then parents_code i fuel (j + 1) else mret false
      else mret true
  end.

Fixpoint evaluate_code (fuel i : nat) : jcode unit :=
  match fuel with
  | O => mret tt
  | S fuel =>
      n ← rd_count JC;
      if (i <? n)%nat then
        pending ← fetch JC i (fun c => bool_decide (mc_state c = CHK_STATE_PENDING));
        ready ← (if (pending : bool) then parents_code i (S MAX_EDGES_PER_JOB) 0 else mret false);
        (if (ready : bool) then put JC i (mc_set_state CHK_STATE_READY) else mret tt) ;;
        evaluate_code fuel (i + 1)
      else mret tt
  end.

(** [completed] and [failed]. *)
Fixpoint count_code (fuel i : nat) (completed failed : Z) : jcode (Z * Z) :=
  match fuel with
  | O => mret (completed, failed)
  | S fuel =>
      n ← rd_count JC;
      if (i <? n)%nat then
        c ← fetch JC i (is_state CHK_STATE_COMPLETED);
        f ← fetch JC i (is_state CHK_STATE_FAILED);
        count_code fuel (i + 1) (if (c : bool) then completed + 1 else completed) (if (f : bool) then failed + 1 else failed)
      else mret (completed, failed)
  end.

Fixpoint hash_code (fuel i : nat) (h : Z) : jcode Z :=
  match fuel with
  | O => mret h
  | S fuel =>
      n ← rd_count JC;
      if (i <? n)%nat then
        checksum ← fetch JC i mc_output_checksum;
        hash_code fuel (i + 1) (foldl fnv_byte h (bytes_of_string checksum))
      else mret h
  end.

Definition progress_code : jcode unit :=
  '(completed, failed) ← count_code (S MAX_CHUNKS_PER_JOB) 0 0 0;
  n ← rd_count JC;
  (if (0 <? n)%nat then n ← rd_count JC; write (rj_set_progress (fdiv (float_of_Z completed) (float_of_Z (Z.of_nat n))))
   else write (rj_set_progress (float_of_Z 0))) ;;
  if failed >? 0 then write (rj_set_state WL_STATE_FAILED)
  else
    n ← rd_count JC;
    if completed =? Z.of_nat n then
      write (rj_set_state WL_STATE_COMPLETED) ;;
      h ← hash_code (S MAX_CHUNKS_PER_JOB) 0 0xcbf29ce484222325;
      write (rj_set_hash (strncpy (SHORT_STR_LEN - 1) (String.append "sha256-" (hex_digits 16 h ""))))
    else mret tt.

(** The loop over [c] and the rest of the operation. *)
Definition result_code (chunk_id : Z) (result_state : ChunkState) (checksum : ptr string) : jcode bool :=
  found ← search (rd_count JC) (fun c => fetch JC c (fun x => mc_chunk_id x =? chunk_id)) (S MAX_CHUNKS_PER_JOB) 0;
  match found with
  | Some c =>
      put JC c (mc_set_state result_state) ;;
      (match checksum with
       | Some s => put JC c (mc_set_checksum (strncpy (SHORT_STR_LEN - 1) s))
       | NULL => mret tt
       end) ;;
      evaluate_code (S MAX_CHUNKS_PER_JOB) 0 ;;
      progress_code ;;
      mret true
  | None => mret false
  end.

(** * The operations *)

Abbreviation wcode A := (prog raw_workloads A).

Definition set_next_workload_id (x : Z) (s : raw_workloads) : raw_workloads :=
  {| rw_jobs := rw_jobs s; rw_next_workload_id := x |}.

Definition submit_workload_code (input : UserWorkloadDesc) (current_time_ms : Z) : wcode Z :=
  n ← rd_count J;
  if (MAX_ACTIVE_WORKLOADS <=? n)%nat then mret 0
  else
    assigned_id ← read rw_next_workload_id;
    write (set_next_workload_id (u64 (assigned_id + 1))) ;;
    job ← entry J [rj_set_id assigned_id; rj_set_name (strncpy (SHORT_STR_LEN - 1) (uw_workload_name input));
                   rj_set_state WL_STATE_PLANNING; rj_set_start current_time_ms; rj_set_deadline (uw_deadline_seconds input)];
    within J job (planner_code input assigned_id) ;;
    put J job (rj_set_state WL_STATE_EXECUTING) ;;
    within J job (evaluate_code (S MAX_CHUNKS_PER_JOB) 0) ;;
    mret assigned_id.

Definition cancel_code (workload_id : Z) : wcode bool :=
  found ← search (rd_count J) (fun i => fetch J i (fun j => rj_workload_id j =? workload_id)) (S MAX_ACTIVE_WORKLOADS) 0;
  match found with
  | Some i => put J i (rj_set_state WL_STATE_CANCELLED) ;; mret true
  | None => mret false
  end.

Fixpoint update_result_code (workload_id chunk_id : Z) (result_state : ChunkState) (checksum : ptr string) (fuel i : nat) : wcode bool :=
  match fuel with
  | O => mret false
  | S fuel =>
      n ← rd_count J;
      if (i <? n)%nat then
        here ← fetch J i (fun j => rj_workload_id j =? workload_id);
        found ← (if (here : bool) then within J i (result_code chunk_id result_state checksum) else mret false);
        if (found : bool) then mret true else update_result_code workload_id chunk_id result_state checksum fuel (i + 1)
      else mret false
  end.

(** The [printf] is left out. *)
Fixpoint deadlines_code (current_time_ms : Z) (fuel i : nat) : wcode unit :=
  match fuel with
  | O => mret tt
  | S fuel =>
      n ← rd_count J;
      if (i <? n)%nat then
        executing ← fetch J i (fun j => bool_decide (rj_state j = WL_STATE_EXECUTING));
        late ← (if (executing : bool) then
                  elapsed_seconds ← fetch J i (fun j => u64 (current_time_ms - rj_start_timestamp_ms j) / 1000);
                  fetch J i (fun j => elapsed_seconds >=? rj_deadline_seconds j)
                else mret false);
        (if (late : bool) then put J i (rj_set_state WL_STATE_FAILED) else mret tt) ;;
        deadlines_code current_time_ms fuel (i + 1)
      else mret tt
  end.

(** [rows] are the lines printed so far. *)
Fixpoint summary_code (fuel i : nat) (rows : list (Z * string * WorkloadState * cdouble * string)) :
    wcode (list (Z * string * WorkloadState * cdouble * string)) :=
  match fuel with
  | O => mret rows
  | S fuel =>
      n ← rd_count J;
      if (i <? n)%nat then
        id ← fetch J i rj_workload_id;
        name ← fetch J i rj_name;
        state ← fetch J i rj_state;
        progress ← fetch J i rj_overall_progress;
        hash ← fetch J i rj_aggregated_result_hash;
        summary_code fuel (i + 1) (rows ++ [(id, name, state, double_of_float (fmul progress (float_of_Z 100)), hash)])
      else mret rows
  end.

(** * Each program does what its function does *)

#[export] Instance job_chunks_mirror : Mirrors raw_job_ok job_abs JC MAX_CHUNKS_PER_JOB job_chunks_of.
Proof. apply mirrors_intro; try done; [by constructor; intros; destruct s..|by intros s []|by intros t s []; constructor]. Qed.
#[export] Instance job_edges_mirror : Mirrors raw_job_ok job_abs JE MAX_EDGES_PER_JOB job_edges_of.
Proof. apply mirrors_intro; try done; [by constructor; intros; destruct s..|by intros s []|by intros t s []; constructor]. Qed.

Lemma J_lens : lens_ok (fun _ => True) J.
Proof. by constructor; intros; destruct s. Qed.
Lemma jobs_of_lens : lens_ok (fun _ => True) jobs_of.
Proof. by constructor; intros; destruct s. Qed.
Lemma jobs_same x : lset jobs_of (wc_jobs x) x = x.
Proof. by destruct x. Qed.

#[export] Instance jobs_by : MirrorsBy workloads_ok workloads_abs J MAX_ACTIVE_WORKLOADS raw_job_ok fresh_job job_abs jobs_of.
Proof. refine {| mr_lens := J_lens; mr_list := jobs_of_lens |}; try done; by intros s []. Qed.

Lemma node_members_complete : complete node_members.
Proof. intros [] []. reflexivity. Qed.
Lemma edge_members_complete : complete edge_members.
Proof. intros [] []. reflexivity. Qed.
#[local] Hint Resolve node_members_complete edge_members_complete : core.

Abbreviation jdoes := (does raw_job_ok job_abs).
Abbreviation jobserves := (observes raw_job_ok job_abs).
Abbreviation wdoes := (does workloads_ok workloads_abs).
Abbreviation wobserves := (observes workloads_ok workloads_abs).

Lemma job_chunks_same y : job_set_chunks (job_chunks y) y = y.
Proof. by destruct y. Qed.

(** ** Readiness *)

Lemma edge_observes y i j c e : job_chunks y !! i = Some c -> job_edges y !! j = Some e ->
  jobserves (edge_code i j) y (edge_satisfied (job_chunks y) (mc_chunk_id c) e).
Proof.
  intros Hc He. unfold edge_code, edge_satisfied.
  eapply observes_bind; [by apply (fetch_observes (M := job_edges_of) _ _ _ e)|].
  eapply observes_bind; [by apply (fetch_observes (M := job_chunks_of) _ _ _ c)|]. destr_if; [|apply observes_ret].
  eapply observes_bind.
  { apply (search_observes (M := job_chunks_of) _ (fun c => mc_chunk_id c =? pe_src_chunk_id e)); [lia|]. intros k d Hd.
    eapply observes_bind; [by apply (fetch_observes (M := job_chunks_of) _ _ _ d)|].
    eapply observes_bind; [by apply (fetch_observes (M := job_edges_of) _ _ _ e)|]. apply observes_ret. }
  cbn [lget job_chunks_of]. destruct (find_idx _ _) as [k|] eqn:F; [|apply observes_ret].
  destruct (find_idx_Some _ _ _ F) as (d & Hd & _). rewrite Hd.
  by apply (fetch_observes (M := job_chunks_of) (fun c => bool_decide (mc_state c = CHK_STATE_COMPLETED))).
Qed.

Lemma parents_observes y i c : job_chunks y !! i = Some c -> forall fuel j, (length (job_edges y) - j < fuel)%nat ->
  jobserves (parents_code i fuel j) y (parents_completed (job_chunks y) (drop j (job_edges y)) (mc_chunk_id c)).
Proof.
  intros Hc. induction fuel as [|fuel IH]; intros j H; [lia|]. cbn [parents_code].
  eapply observes_bind; [apply (count_observes (M := job_edges_of))|]. cbn [lget job_edges_of].
  destruct (Nat.ltb_spec j (length (job_edges y))) as [Hj|Hj].
  2: { rewrite drop_ge by done. apply observes_ret. }
  destruct (lookup_lt_is_Some_2 _ _ Hj) as [e He]. rewrite (drop_S _ e j He), <- (Nat.add_1_r j). cbn [parents_completed forallb].
  eapply observes_bind; [by apply edge_observes|]. destruct (edge_satisfied _ _ e); [apply IH; lia|apply observes_ret].
Qed.

Lemma evaluate_chunk_length es cs i : length (evaluate_chunk es cs i) = length cs.
Proof. unfold evaluate_chunk. destruct (cs !! i); [|done]. destr_if; [|done]. apply length_insert. Qed.

Lemma evaluate_from : forall fuel i y, (length (job_chunks y) - i < fuel)%nat ->
  jdoes (evaluate_code fuel i) y tt
    (job_set_chunks (foldl (evaluate_chunk (job_edges y)) (job_chunks y) (seq i (length (job_chunks y) - i))) y).
Proof.
  induction fuel as [|fuel IH]; intros i y H; [lia|]. cbn [evaluate_code].
  eapply does_observe; [apply (count_observes (M := job_chunks_of))|]. cbn [lget job_chunks_of].
  destruct (Nat.ltb_spec i (length (job_chunks y))) as [Hi|Hi].
  2: { replace (length (job_chunks y) - i)%nat with 0%nat by lia. cbn. rewrite job_chunks_same. apply does_ret. }
  destruct (lookup_lt_is_Some_2 _ _ Hi) as [c Hc].
  eapply does_observe; [by apply (fetch_observes (M := job_chunks_of) (fun c => bool_decide (mc_state c = CHK_STATE_PENDING)) _ _ c)|].
  set (ready := bool_decide (mc_state c = CHK_STATE_PENDING) && parents_completed (job_chunks y) (job_edges y) (mc_chunk_id c)).
  apply (does_cap (M := job_edges_of)). intros Ce. cbn [lget job_edges_of] in Ce.
  eapply (does_observe _ _ _ ready).
  { unfold ready. destruct (bool_decide _); [|apply observes_ret]. cbn [andb].
    pose proof (parents_observes y i c Hc (S MAX_EDGES_PER_JOB) 0 ltac:(lia)) as D. by rewrite drop_0 in D. }
  set (y1 := job_set_chunks (evaluate_chunk (job_edges y) (job_chunks y) i) y).
  eapply (does_bind _ _ _ _ y1).
  { unfold y1, evaluate_chunk. rewrite Hc. fold ready. destruct ready.
    - by apply (put_does (M := job_chunks_of) _ _ _ c).
    - rewrite job_chunks_same. apply does_ret. }
  pose proof (IH (i + 1)%nat y1) as D.
  rewrite (evaluate_chunk_length _ _ _ : length (job_chunks y1) = length (job_chunks y)) in D. replace (length (job_chunks y) - i)%nat with (S (length (job_chunks y) - (i + 1))) by lia.
  cbn [seq foldl]. rewrite <- (Nat.add_1_r i). apply D. lia.
Qed.

Lemma evaluate_does y : jdoes (evaluate_code (S MAX_CHUNKS_PER_JOB) 0) y tt (evaluate_ready_chunks y).
Proof.
  apply (does_cap (M := job_chunks_of)). intros C. cbn [lget job_chunks_of] in C.
  pose proof (evaluate_from (S MAX_CHUNKS_PER_JOB) 0 y) as D. rewrite Nat.sub_0_r in D. apply D. lia.
Qed.

(** ** Progress *)

Lemma count_from y : forall fuel i c f, (length (job_chunks y) - i < fuel)%nat ->
  jobserves (count_code fuel i c f) y (c + Z.of_nat (countb (is_state CHK_STATE_COMPLETED) (drop i (job_chunks y))),
                                       f + Z.of_nat (countb (is_state CHK_STATE_FAILED) (drop i (job_chunks y)))).
Proof.
  induction fuel as [|fuel IH]; intros i c f H; [lia|]. cbn [count_code].
  eapply observes_bind; [apply (count_observes (M := job_chunks_of))|]. cbn [lget job_chunks_of].
  destruct (Nat.ltb_spec i (length (job_chunks y))) as [Hi|Hi].
  2: { rewrite drop_ge by done. cbn. rewrite !Z.add_0_r. apply observes_ret. }
  destruct (lookup_lt_is_Some_2 _ _ Hi) as [x Hx]. rewrite (drop_S _ x i Hx), !countb_cons, <- (Nat.add_1_r i).
  do 2 (eapply observes_bind; [by apply (fetch_observes (M := job_chunks_of) _ _ _ x)|]).
  match goal with |- observes _ _ (count_code _ _ ?c' ?f') _ (?a, ?b) => pose proof (IH (i + 1)%nat c' f' ltac:(lia)) as D end.
  match type of D with observes _ _ _ _ (?a, ?b) => match goal with |- observes _ _ _ _ (?a', ?b') => replace a' with a; [replace b' with b; [exact D|]|] end end;
    destr_if; lia.
Qed.

Lemma hash_from y : forall fuel i h, (length (job_chunks y) - i < fuel)%nat ->
  jobserves (hash_code fuel i h) y
    (foldl (fun h c => foldl fnv_byte h (bytes_of_string (mc_output_checksum c))) h (drop i (job_chunks y))).
Proof.
  induction fuel as [|fuel IH]; intros i h H; [lia|]. cbn [hash_code].
  eapply observes_bind; [apply (count_observes (M := job_chunks_of))|]. cbn [lget job_chunks_of].
  destruct (Nat.ltb_spec i (length (job_chunks y))) as [Hi|Hi].
  2: { rewrite drop_ge by done. apply observes_ret. }
  destruct (lookup_lt_is_Some_2 _ _ Hi) as [x Hx]. rewrite (drop_S _ x i Hx), <- (Nat.add_1_r i). cbn [foldl].
  eapply observes_bind; [by apply (fetch_observes (M := job_chunks_of) _ _ _ x)|]. apply IH. lia.
Qed.

(** Members beside the tables. *)
Lemma job_write f h y : (forall j, rj_chunks (f j) = rj_chunks j) -> (forall j, rj_edges (f j) = rj_edges j) ->
  (forall j, job_abs (f j) = h (job_abs j)) -> jdoes (write f) y tt (h y).
Proof. intros E1 E2 E3. apply write_does; [|done]. intros j []. constructor; by rewrite ?E1, ?E2. Qed.

Lemma progress_does y : jdoes progress_code y tt (recalculate_job_progress y).
Proof.
  unfold progress_code. apply (does_cap (M := job_chunks_of)). intros C. cbn [lget job_chunks_of] in C.
  eapply does_observe; [apply count_from; lia|]. rewrite drop_0, !Z.add_0_l.
  set (completed := Z.of_nat (countb (is_state CHK_STATE_COMPLETED) (job_chunks y))).
  set (failed := Z.of_nat (countb (is_state CHK_STATE_FAILED) (job_chunks y))).
  eapply does_observe; [apply (count_observes (M := job_chunks_of))|]. cbn [lget job_chunks_of].
  unfold recalculate_job_progress. fold completed failed. set (y1 := job_set_progress _ y).
  eapply (does_bind _ _ _ tt y1).
  { unfold y1. rewrite Z.gtb_ltb. destruct (Nat.ltb_spec 0 (length (job_chunks y))); destruct (Z.ltb_spec 0 (Z.of_nat (length (job_chunks y)))); try lia.
    - eapply does_observe; [apply (count_observes (M := job_chunks_of))|].
      by apply (job_write _ (job_set_progress (fdiv (float_of_Z completed) (float_of_Z (Z.of_nat (length (job_chunks y))))))).
    - by apply (job_write _ (job_set_progress (float_of_Z 0))). }
  destruct (failed >? 0); [by apply (job_write _ (job_set_state WL_STATE_FAILED))|].
  eapply does_observe; [apply (count_observes (M := job_chunks_of))|]. cbn [lget job_chunks_of].
  change (job_chunks y1) with (job_chunks y). destruct (completed =? Z.of_nat (length (job_chunks y))); [|apply does_ret].
  eapply does_bind; [by apply (job_write _ (job_set_state WL_STATE_COMPLETED))|].
  eapply does_observe; [apply hash_from; cbn [job_set_state y1 job_set_progress job_chunks]; lia|]. rewrite drop_0.
  by apply (job_write _ (job_set_hash _)).
Qed.

(** ** A result *)

Lemma chunk_result_does y k st s :
  jdoes (result_code k st s) y (match find_idx (fun c => mc_chunk_id c =? k) (job_chunks y) with Some _ => true | None => false end)
    (match find_idx (fun c => mc_chunk_id c =? k) (job_chunks y) with Some c => update_job c st s y | None => y end).
Proof.
  unfold result_code. eapply does_observe.
  { apply (search_observes (M := job_chunks_of) _ (fun c => mc_chunk_id c =? k)); [lia|]. intros j c Hc.
    by apply (fetch_observes (M := job_chunks_of) (fun c => mc_chunk_id c =? k)). }
  cbn [lget job_chunks_of]. destruct (find_idx _ _) as [i|] eqn:F; [|apply does_ret].
  destruct (find_idx_Some _ _ _ F) as (c & Hc & _). unfold update_job.
  set (y2 := job_set_chunks (alter (write_result st s) i (job_chunks y)) y).
  eapply does_bind; [by apply (put_does (M := job_chunks_of) _ _ _ c)|]. set (y1 := lset job_chunks_of _ y).
  eapply (does_bind _ _ _ tt y2).
  { unfold y2. rewrite (alter_entry _ _ _ _ Hc). unfold write_result. destruct s as [s|]; [|apply does_ret].
    pose proof (put_does (M := job_chunks_of) (ok := raw_job_ok) (abs := job_abs) (L := JC)
      (mc_set_checksum (strncpy (SHORT_STR_LEN - 1) s)) y1 i (mc_set_state st c)) as D.
    cbn [lget lset job_chunks_of y1 job_set_chunks job_chunks] in D. rewrite list_insert_insert_eq in D. apply D.
    apply list_lookup_insert_eq. by eapply lookup_lt_Some. }
  eapply does_bind; [apply evaluate_does|]. eapply does_bind; [apply progress_does|]. apply does_ret.
Qed.

(** ** Planning *)

Lemma plan_chunks_from desc id : forall fuel i y, (length (job_chunks y) - i < fuel)%nat ->
  jdoes (plan_chunks_code desc id fuel i) y tt
    (job_set_chunks (take i (job_chunks y) ++ (mock_chunk desc id <$> seq i (length (job_chunks y) - i))) y).
Proof.
  induction fuel as [|fuel IH]; intros i y H; [lia|]. cbn [plan_chunks_code].
  eapply does_observe; [apply (count_observes (M := job_chunks_of))|]. cbn [lget job_chunks_of].
  destruct (Nat.ltb_spec i (length (job_chunks y))) as [Hi|Hi].
  2: { replace (length (job_chunks y) - i)%nat with 0%nat by lia. cbn. rewrite take_ge, app_nil_r, job_chunks_same by lia. apply does_ret. }
  eapply does_bind; [by apply (assign_does (M := job_chunks_of))|]. set (y1 := lset job_chunks_of _ y).
  pose proof (IH (i + 1)%nat y1) as D.
  rewrite (length_insert _ _ _ : length (job_chunks y1) = length (job_chunks y)) in D.
  rewrite (visit_take _ _ _ Hi : take (i + 1) (job_chunks y1) = _) in D. rewrite <- app_assoc in D.
  replace (length (job_chunks y) - i)%nat with (S (length (job_chunks y) - (i + 1))) by lia.
  cbn [seq]. rewrite fmap_cons, <- (Nat.add_1_r i). apply D. lia.
Qed.

(** Into a job with three chunks and two edges, whatever they are. *)
Lemma plan_edge_does y e s d cs cd : job_chunks y !! s = Some cs -> job_chunks y !! d = Some cd -> (e < length (job_edges y))%nat ->
  jdoes (plan_edge_code e s d) y tt
    (job_set_edges (<[e := {| pe_src_chunk_id := mc_chunk_id cs; pe_dst_chunk_id := mc_chunk_id cd |}]> (job_edges y)) y).
Proof.
  intros Hs Hd He. unfold plan_edge_code.
  eapply does_observe; [by apply (fetch_observes (M := job_chunks_of) _ _ _ cs)|].
  eapply does_observe; [by apply (fetch_observes (M := job_chunks_of) _ _ _ cd)|].
  by apply (assign_does (M := job_edges_of)).
Qed.

Lemma plan_does desc id y : length (job_chunks y) = 3%nat -> length (job_edges y) = 2%nat ->
  jdoes (plan_chunks_code desc id (S MAX_CHUNKS_PER_JOB) 0 ;; plan_edge_code 0 0 1 ;; plan_edge_code 1 1 2) y tt
    (mock_invoke_chunk_planner desc id y).
Proof.
  intros H3 H2. eapply does_bind; [apply plan_chunks_from; unfold MAX_CHUNKS_PER_JOB; lia|]. rewrite H3, take_0. cbn [seq Nat.sub app].
  destruct (job_edges y) as [|e0 [|e1 [|]]] eqn:E; try done.
  eapply does_bind; [apply (plan_edge_does _ 0 0 1 (mock_chunk desc id 0) (mock_chunk desc id 1)); [done|done|cbn; rewrite E; cbn; lia]|].
  cbn [job_edges job_set_chunks]. rewrite E.
  pose proof (plan_edge_does (job_set_edges (<[0%nat := {| pe_src_chunk_id := mc_chunk_id (mock_chunk desc id 0);
    pe_dst_chunk_id := mc_chunk_id (mock_chunk desc id 1) |}]> [e0; e1]) (job_set_chunks (mock_chunk desc id <$> [0; 1; 2]%nat) y))
    1 1 2 (mock_chunk desc id 1) (mock_chunk desc id 2)) as D. apply D; [done|done|cbn; lia].
Qed.

(** The counts are written first: the entries they uncover hold what the memory
    held. *)
Lemma planner_does desc id y : jdoes (planner_code desc id) y tt (mock_invoke_chunk_planner desc id y).
Proof.
  intros j O <-. unfold planner_code, wr_count, leaves. do 2 (rewrite run_bind, run_write; cbv beta iota).
  set (j1 := over JE (with_count 2) (over JC (with_count 3) j)). destruct O as [[C1 C2 C3] [E1 E2 E3]].
  assert (raw_job_ok j1) as O1.
  { constructor; constructor; cbn; try done; unfold MAX_CHUNKS_PER_JOB, MAX_EDGES_PER_JOB; lia. }
  assert (length (job_chunks (job_abs j1)) = 3%nat) as L3 by (cbn; rewrite length_take, C1; unfold MAX_CHUNKS_PER_JOB; lia).
  assert (length (job_edges (job_abs j1)) = 2%nat) as L2 by (cbn; rewrite length_take, E1; unfold MAX_EDGES_PER_JOB; lia).
  destruct (plan_does desc id _ L3 L2 j1 O1 eq_refl) as (j2 & R & O2 & A). exists j2. split_and!; [exact R|done|by rewrite A].
Qed.

(** ** The job table *)

Lemma insert_last {A} (l : list A) x y : <[length l := y]> (l ++ [x]) = l ++ [y].
Proof. rewrite insert_app_r_alt by done. by rewrite Nat.sub_diag. Qed.

(** Code on the job that was just added. *)
Lemma last_does {A} (p : jcode A) l b r b' x : jdoes p b r b' ->
  wdoes (within J (length l) p) (lset jobs_of (l ++ [b]) x) r (lset jobs_of (l ++ [b']) x).
Proof.
  intros D. rewrite <- (insert_last l b b'). apply (within_does (M := jobs_of)) with (b := b) (x := lset jobs_of (l ++ [b]) x); [|done].
  by apply list_lookup_middle.
Qed.

Lemma submit_workload_does input now x : uw_is_splittable input = true ->
  wdoes (submit_workload_code input now) x (vom_workload_submit (Some input) now x).1 (vom_workload_submit (Some input) now x).2.
Proof.
  intros Sp. unfold vom_workload_submit, submit_workload_code. rewrite Sp. cbn [negb].
  eapply does_observe; [apply (count_observes (M := jobs_of))|]. cbn [lget jobs_of].
  destruct (Nat.leb_spec MAX_ACTIVE_WORKLOADS (length (wc_jobs x))) as [C|C]; [apply does_ret|]. cbn [fst snd].
  eapply does_observe; [by apply (read_observes _ wc_next_workload_id)|]. set (id := wc_next_workload_id x).
  set (x1 := {| wc_jobs := wc_jobs x; wc_next_workload_id := u64 (id + 1) |}).
  eapply (does_bind _ _ _ tt x1).
  { apply (write_does _ (fun x => {| wc_jobs := wc_jobs x; wc_next_workload_id := u64 (id + 1) |})); [|done]. by intros s []. }
  eapply does_bind.
  { apply (entry_by (M := jobs_of) _ x1 (new_job id input now)); [done| |exact C]. intros a [[] F1 F2 F3 F4]. split; [by constructor|].
    unfold job_abs, new_job, live. cbn. by rewrite F1, F2, F3, F4, !take_0. }
  change (lget jobs_of x1) with (wc_jobs x). eapply does_bind; [apply last_does, planner_does|].
  eapply does_bind.
  { set (planned := mock_invoke_chunk_planner input id _).
    apply (put_by (M := jobs_of) _ _ _ planned (job_set_state WL_STATE_EXECUTING planned)); [by apply list_lookup_middle|].
    intros a [] E. split; [by constructor|]. by rewrite <- E. }
  cbn [lget lset jobs_of wc_set_jobs wc_jobs]. rewrite insert_last. eapply does_bind; [|apply does_ret].
  apply (last_does _ _ _ _ (evaluate_ready_chunks (job_set_state WL_STATE_EXECUTING (mock_invoke_chunk_planner input id (new_job id input now)))) x1).
  apply evaluate_does.
Qed.

Lemma cancel_does id x : let '(b, y) := vom_workload_cancel id x in wdoes (cancel_code id) x b y.
Proof.
  unfold vom_workload_cancel, cancel_code.
  assert (wobserves (search (rd_count J) (fun i => fetch J i (fun j => rj_workload_id j =? id)) (S MAX_ACTIVE_WORKLOADS) 0) x
    (find_idx (fun j => job_workload_id j =? id) (wc_jobs x))) as O.
  { apply (search_observes (M := jobs_of) _ (fun j => job_workload_id j =? id)); [lia|]. intros j b Hb.
    by apply (fetch_via (M := jobs_of) _ (fun j => job_workload_id j =? id)). }
  destruct (find_idx _ _) as [i|] eqn:F; (eapply does_observe; [exact O|]); [|apply does_ret].
  destruct (find_idx_Some _ _ _ F) as (b & Hb & _). rewrite (alter_entry _ _ _ _ Hb).
  eapply does_bind; [|apply does_ret]. eapply (put_by (M := jobs_of)); [exact Hb|]. intros a [] <-. split; [by constructor|done].
Qed.

(** The loop of a result from job [i] on. *)
Lemma update_from id k st s x : forall fuel i, (length (wc_jobs x) - i < fuel)%nat ->
  let '(b, y) := match update_loop id k st s (drop i (wc_jobs x)) with
                 | Some js => (true, wc_set_jobs (take i (wc_jobs x) ++ js) x)
                 | None => (false, x)
                 end in
  wdoes (update_result_code id k st s fuel i) x b y.
Proof.
  induction fuel as [|fuel IH]; intros i H; [lia|].
  destruct (decide (i < length (wc_jobs x))%nat) as [Hi|Hi].
  2: { rewrite drop_ge by lia. cbn [update_loop update_result_code]. eapply does_observe; [apply (count_observes (M := jobs_of))|].
       cbn [lget jobs_of]. rewrite (proj2 (Nat.ltb_ge _ _)) by lia. apply does_ret. }
  destruct (lookup_lt_is_Some_2 _ _ Hi) as [job Hj]. pose proof (IH (i + 1)%nat ltac:(lia)) as D.
  rewrite (drop_S _ job i Hj), <- (Nat.add_1_r i). cbn [update_loop].
  set (hit := if job_workload_id job =? id then find_idx (fun c => mc_chunk_id c =? k) (job_chunks job) else None).
  assert (wdoes (if job_workload_id job =? id then within J i (result_code k st s) else mret false) x
    (match hit with Some _ => true | None => false end)
    (lset jobs_of (<[i := match hit with Some c => update_job c st s job | None => job end]> (wc_jobs x)) x)) as One.
  { unfold hit. destruct (job_workload_id job =? id).
    - apply (within_does (M := jobs_of)) with (b := job); [exact Hj|]. apply chunk_result_does.
    - rewrite list_insert_id, jobs_same by done. apply does_ret. }
  assert (forall b y, wdoes (found ← (if job_workload_id job =? id then within J i (result_code k st s) else mret false);
      if (found : bool) then mret true else update_result_code id k st s fuel (i + 1)) x b y ->
      wdoes (update_result_code id k st s (S fuel) i) x b y) as Start.
  { intros b y H1. cbn [update_result_code]. eapply does_observe; [apply (count_observes (M := jobs_of))|]. cbn [lget jobs_of].
    rewrite (proj2 (Nat.ltb_lt _ _)) by done.
    eapply does_observe; [by apply (fetch_via (M := jobs_of) _ (fun j => job_workload_id j =? id) _ _ job)|]. exact H1. }
  destruct hit as [c|].
  - rewrite insert_take_drop, <- (Nat.add_1_r i) in One by done. apply Start. eapply does_bind; [exact One|]. apply does_ret.
  - rewrite list_insert_id, jobs_same in One by done. rewrite (take_lookup_S _ i job) in D by done.
    destruct (update_loop id k st s (drop (i + 1) (wc_jobs x))) as [js|]; cbn [fmap option_fmap option_map]; [rewrite <- app_assoc in D|];
      apply Start; (eapply does_bind; [exact One|exact D]).
Qed.

Lemma update_does id k st s x :
  let '(b, y) := vom_workload_update_chunk_result id k st s x in
  wdoes (update_result_code id k st s (S MAX_ACTIVE_WORKLOADS) 0) x b y.
Proof.
  unfold vom_workload_update_chunk_result. pose proof (update_from id k st s x (S MAX_ACTIVE_WORKLOADS) 0) as D.
  rewrite drop_0 in D. destruct (update_loop id k st s (wc_jobs x)); apply (does_cap (M := jobs_of)); intros C;
    cbn [lget jobs_of] in C; apply D; lia.
Qed.

(** One job of the deadline check. *)
Lemma deadline_body now x i job : wc_jobs x !! i = Some job ->
  wdoes (executing ← fetch J i (fun j => bool_decide (rj_state j = WL_STATE_EXECUTING));
         late ← (if (executing : bool) then
                   elapsed_seconds ← fetch J i (fun j => u64 (now - rj_start_timestamp_ms j) / 1000);
                   fetch J i (fun j => elapsed_seconds >=? rj_deadline_seconds j)
                 else mret false);
         if (late : bool) then put J i (rj_set_state WL_STATE_FAILED) else mret tt) x tt
    (lset jobs_of (<[i := check_deadline now job]> (wc_jobs x)) x).
Proof.
  intros Hj. eapply does_observe.
  { by apply (fetch_via (M := jobs_of) _ (fun j => bool_decide (job_state j = WL_STATE_EXECUTING)) _ _ job). }
  unfold check_deadline. destruct (bool_decide _).
  2: { rewrite list_insert_id, jobs_same by done. apply (does_observe _ _ _ false); [apply observes_ret|apply does_ret]. }
  set (elapsed := u64 (now - job_start_timestamp_ms job) / 1000).
  apply (does_observe _ _ _ (elapsed >=? job_deadline_seconds job)).
  { eapply observes_bind; [by apply (fetch_via (M := jobs_of) _ (fun j => u64 (now - job_start_timestamp_ms j) / 1000) _ _ job)|].
    by apply (fetch_via (M := jobs_of) _ (fun j => elapsed >=? job_deadline_seconds j) _ _ job). }
  destruct (elapsed >=? _).
  - eapply (put_by (M := jobs_of)); [exact Hj|]. intros a [] <-. split; [by constructor|done].
  - rewrite list_insert_id, jobs_same by done. apply does_ret.
Qed.

Lemma deadlines_from now : forall fuel i x, (length (wc_jobs x) - i < fuel)%nat ->
  wdoes (deadlines_code now fuel i) x tt (wc_set_jobs (take i (wc_jobs x) ++ (check_deadline now <$> drop i (wc_jobs x))) x).
Proof.
  induction fuel as [|fuel IH]; intros i x H; [lia|]. cbn [deadlines_code].
  eapply does_observe; [apply (count_observes (M := jobs_of))|]. cbn [lget jobs_of].
  destruct (Nat.ltb_spec i (length (wc_jobs x))) as [Hi|Hi].
  2: { rewrite drop_ge, take_ge by done. cbn. rewrite app_nil_r. rewrite (jobs_same x : wc_set_jobs (wc_jobs x) x = x). apply does_ret. }
  destruct (lookup_lt_is_Some_2 _ _ Hi) as [job Hj]. rewrite (drop_S _ job i Hj), fmap_cons, <- (Nat.add_1_r i).
  set (x1 := lset jobs_of (<[i := check_deadline now job]> (wc_jobs x)) x).
  pose proof (IH (i + 1)%nat x1) as D. rewrite (length_insert _ _ _ : length (wc_jobs x1) = length (wc_jobs x)) in D.
  rewrite (visit_take _ _ _ Hi : take (i + 1) (wc_jobs x1) = _) in D.
  rewrite (visit_drop _ _ _ : drop (i + 1) (wc_jobs x1) = _), <- app_assoc in D.
  pose proof (deadline_body now x i job Hj) as B. specialize (D ltac:(lia)).
  intros s O A. destruct (B s O A) as (s1 & R1 & O1 & A1). destruct (D s1 O1 A1) as (s2 & R2 & O2 & A2). exists s2.
  split; [|split; [exact O2|exact A2]]. revert R1. rewrite !run_bind.
  destruct (run (fetch J i _) s) as [executing t1]. rewrite !run_bind. destruct (run (if executing then _ else _) t1) as [late t2].
  rewrite run_bind. intros ->. exact R2.
Qed.

Lemma deadlines_does now x : wdoes (deadlines_code now (S MAX_ACTIVE_WORKLOADS) 0) x tt (vom_workload_check_deadlines now x).
Proof.
  apply (does_cap (M := jobs_of)). intros C. cbn [lget jobs_of] in C.
  pose proof (deadlines_from now (S MAX_ACTIVE_WORKLOADS) 0 x) as D. rewrite drop_0 in D. apply D. lia.
Qed.

Lemma summary_from x : forall fuel i rows, (length (wc_jobs x) - i < fuel)%nat ->
  wobserves (summary_code fuel i rows) x (rows ++ (summary_row <$> drop i (wc_jobs x))).
Proof.
  induction fuel as [|fuel IH]; intros i rows H; [lia|]. cbn [summary_code].
  eapply observes_bind; [apply (count_observes (M := jobs_of))|]. cbn [lget jobs_of].
  destruct (Nat.ltb_spec i (length (wc_jobs x))) as [Hi|Hi].
  2: { rewrite drop_ge by done. cbn. rewrite app_nil_r. apply observes_ret. }
  destruct (lookup_lt_is_Some_2 _ _ Hi) as [j Hj]. rewrite (drop_S _ j i Hj), fmap_cons, <- (Nat.add_1_r i).
  eapply observes_bind; [by apply (fetch_via (M := jobs_of) _ job_workload_id _ _ j)|].
  eapply observes_bind; [by apply (fetch_via (M := jobs_of) _ job_name _ _ j)|].
  eapply observes_bind; [by apply (fetch_via (M := jobs_of) _ job_state _ _ j)|].
  eapply observes_bind; [by apply (fetch_via (M := jobs_of) _ job_overall_progress _ _ j)|].
  eapply observes_bind; [by apply (fetch_via (M := jobs_of) _ job_aggregated_result_hash _ _ j)|].
  pose proof (IH (i + 1)%nat (rows ++ [summary_row j]) ltac:(lia)) as D. by rewrite <- app_assoc in D.
Qed.

Lemma summary_observes x : wobserves (summary_code (S MAX_ACTIVE_WORKLOADS) 0 []) x (vom_workload_publish_summary_to_ui x).
Proof.
  intros s O A. pose proof (summary_from x (S MAX_ACTIVE_WORKLOADS) 0 []) as D. rewrite drop_0 in D. apply D; [|done|done].
  rewrite <- A. change (wc_jobs (workloads_abs s)) with (lget jobs_of (workloads_abs s)). rewrite mirror_length by done.
  pose proof (tab_count _ _ (wko_jobs _ O)). cbn [lget J]. lia.
Qed.

(** * Many threads *)

Inductive workload_call :=
| WlSubmit (input : ptr UserWorkloadDesc) (current_time_ms : Z)
| WlCancel (workload_id : Z)
| WlResult (workload_id chunk_id : Z) (result_state : ChunkState) (checksum : ptr string)
| WlDeadlines (current_time_ms : Z)
| WlPublish.

Inductive workload_result :=
| WlVoid
| WlId (workload_id : Z)
| WlBool (b : bool)
| WlRows (rows : list (Z * string * WorkloadState * cdouble * string)).

#[export] Instance workload_result_eq_dec : EqDecision workload_result.
Proof. solve_decision. Defined.

(** An input that cannot be split is turned down before the lock. *)
Definition workload_enter (c : workload_call) : workload_result + prog raw_workloads workload_result :=
  match c with
  | WlSubmit NULL _ => inl (WlId 0)
  | WlSubmit (Some input) now =>
      if negb (uw_is_splittable input) then inl (WlId 0) else inr (id ← submit_workload_code input now; mret (WlId id))
  | WlCancel id => inr (b ← cancel_code id; mret (WlBool b))
  | WlResult id k st s => inr (b ← update_result_code id k st s (S MAX_ACTIVE_WORKLOADS) 0; mret (WlBool b))
  | WlDeadlines now => inr (deadlines_code now (S MAX_ACTIVE_WORKLOADS) 0 ;; mret WlVoid)
  | WlPublish => inr (rows ← summary_code (S MAX_ACTIVE_WORKLOADS) 0 []; mret (WlRows rows))
  end.

(** The call as one step of the model. *)
Definition workload_apply (c : workload_call) (x : vom_workload_context) : workload_result * vom_workload_context :=
  match c with
  | WlSubmit input now => let '(id, y) := vom_workload_submit input now x in (WlId id, y)
  | WlCancel id => let '(b, y) := vom_workload_cancel id x in (WlBool b, y)
  | WlResult id k st s => let '(b, y) := vom_workload_update_chunk_result id k st s x in (WlBool b, y)
  | WlDeadlines now => (WlVoid, vom_workload_check_deadlines now x)
  | WlPublish => (WlRows (vom_workload_publish_summary_to_ui x), x)
  end.

Lemma workload_wrap {A} (p : wcode A) (f : A -> workload_result) s r y : workloads_ok s -> wdoes p (workloads_abs s) r y ->
  workloads_ok (run (a ← p; mret (f a)) s).2 /\
  (f r, y) = ((run (a ← p; mret (f a)) s).1, workloads_abs (run (a ← p; mret (f a)) s).2).
Proof. intros O D. apply does_run; [done|]. by apply wrap_does. Qed.

Lemma workload_exec c s : workloads_ok s -> workloads_ok (exec workload_enter c s).2 /\
  workload_apply c (workloads_abs s) = ((exec workload_enter c s).1, workloads_abs (exec workload_enter c s).2).
Proof.
  intros O. unfold exec. destruct c as [[input|] now|id|id k st cs|now|]; cbn [workload_enter workload_apply]; [|done|..].
  - destruct (uw_is_splittable input) eqn:Sp; cbn [negb].
    + pose proof (submit_workload_does input now (workloads_abs s) Sp) as D. destruct (vom_workload_submit _ _ _). by apply workload_wrap.
    + unfold vom_workload_submit. by rewrite Sp.
  - pose proof (cancel_does id (workloads_abs s)) as D. destruct (vom_workload_cancel _ _). by apply workload_wrap.
  - pose proof (update_does id k st cs (workloads_abs s)) as D. destruct (vom_workload_update_chunk_result _ _ _ _ _). by apply workload_wrap.
  - apply (workload_wrap _ (fun _ => WlVoid) _ tt); [done|]. apply deadlines_does.
  - apply workload_wrap; [done|]. apply observes_does, summary_observes.
Qed.

#[export] Instance workload_locked : Locked workload_enter workload_apply :=
  {| lk_ok := workloads_ok; lk_abs := workloads_abs; lk_exec := workload_exec |}.

Lemma raw_workload_init_ok : workloads_ok raw_workload_init.
Proof.
  constructor; [apply blank_ok|]. split; [done|]. apply Forall_replicate. constructor; try done. constructor; apply blank_ok.
Qed.

Lemma raw_workload_init_abs : vom_workload_init true = Some (workloads_abs raw_workload_init).
Proof. done. Qed.

Lemma workload_apply_reachable c x : wl_reachable x -> wl_reachable (workload_apply c x).2.
Proof.
  intros R. destruct c as [input now|id|id k st s|now|]; cbn [workload_apply]; [..|done].
  - pose proof (ws_submit x input now) as St. destruct (vom_workload_submit _ _ _). by eapply wl_more.
  - pose proof (ws_cancel x id) as St. destruct (vom_workload_cancel _ _). by eapply wl_more.
  - pose proof (ws_update x id k st s) as St. destruct (vom_workload_update_chunk_result _ _ _ _ _). by eapply wl_more.
  - eapply wl_more; [done|]. apply ws_deadlines.
Qed.

(** ** The ids given out *)

(** The accepted submissions of a history, by the ids they got. *)
Definition submitted (h : list (nat * workload_call * workload_result)) : list Z :=
  omap (fun e => match e.2 with WlId id => if id =? 0 then None else Some id | _ => None end) h.

Lemma workload_apply_jobs c x t r y : wl_ok x -> workload_apply c x = (r, y) ->
  submitted [(t, c, r)] = (fun i => 1001 + Z.of_nat i) <$> seq (length (wc_jobs x)) (length (wc_jobs y) - length (wc_jobs x)) /\
  (length (wc_jobs x) <= length (wc_jobs y))%nat.
Proof.
  intros I. destruct c as [input now|id|id k st s|now|]; cbn [workload_apply].
  - unfold vom_workload_submit. destruct input as [input|]; [|intros [= <- <-]; by rewrite Nat.sub_diag].
    destr_if; [intros [= <- <-]; by rewrite Nat.sub_diag|]. destr_if; [intros [= <- <-]; by rewrite Nat.sub_diag|].
    intros [= <- <-]. cbn [wc_jobs]. rewrite length_app. cbn [length]. split; [|lia].
    replace (length (wc_jobs x) + 1 - length (wc_jobs x))%nat with 1%nat by lia. cbn. rewrite (wo_next _ I).
    by rewrite (proj2 (Z.eqb_neq _ _)) by lia.
  - unfold vom_workload_cancel. destruct (find_idx _ _); intros [= <- <-]; cbn [wc_jobs wc_set_jobs]; rewrite ?length_alter;
      by rewrite Nat.sub_diag.
  - unfold vom_workload_update_chunk_result. destruct (update_loop _ _ _ _ _) as [js|] eqn:U; intros [= <- <-]; [|by rewrite Nat.sub_diag].
    destruct (update_loop_Some _ _ _ _ _ _ U) as (i & job & c & _ & _ & _ & ->). cbn [wc_jobs wc_set_jobs].
    rewrite length_insert. by rewrite Nat.sub_diag.
  - intros [= <- <-]. cbn [wc_jobs wc_set_jobs vom_workload_check_deadlines]. rewrite length_fmap. by rewrite Nat.sub_diag.
  - intros [= <- <-]. by rewrite Nat.sub_diag.
Qed.

Lemma replay_submitted h : forall x, replay workload_apply (workloads_abs raw_workload_init) h = Some x -> wl_ok x /\
  submitted h = (fun i => 1001 + Z.of_nat i) <$> seq 0 (length (wc_jobs x)).
Proof.
  induction h as [|[[t c] r] h IH] using rev_ind; intros x.
  - intros [= <-]. split; [|done]. apply wl_reachable_ok. by apply wl_init.
  - rename x into z. intros (y & E & A)%replay_snoc_Some.
    destruct (IH _ E) as [I S1]. destruct (workload_apply_jobs c y t r z I A) as [S2 Le]. split.
    + apply wl_reachable_ok. pose proof (workload_apply_reachable c y) as R. rewrite A in R. apply R.
      clear -E. revert E. apply (replay_reach workload_apply (fun _ => True) wl_reachable);
        [intros; by apply workload_apply_reachable|by apply Forall_true|by apply wl_init].
    + unfold submitted in *. rewrite omap_app, S1, S2, <- fmap_app, <- seq_app. do 2 f_equal. lia.
Qed.

(** C22: Threads that submit jobs, hand in results, cancel, check deadlines and
    publish concurrently, interleaved at every access to the job, chunk and edge
    tables, see the engine of the model: the calls return, in the order of their
    returns, what the model returns, and every state between two calls is a
    reachable one; the accepted submissions get the ids 1001, 1002, ... in this
    order, so no id is given out twice, and their jobs are the ones in the
    table; no operation has left an array (such an access would have marked it),
    and no schedule blocks or runs for ever. *)
Theorem workload_threads_ids (programs : list (list workload_call)) m :
  threads_reach workload_enter raw_workload_init programs m ->
  linearized workload_enter workload_apply workloads_abs wl_reachable (workloads_abs raw_workload_init) programs m /\
  submitted (returned m) = (fun i => 1001 + Z.of_nat i) <$> seq 0 (length (submitted (returned m))) /\
  (mutex m = None -> workloads_ok (shared m) /\ rj_workload_id <$> live (rw_jobs (shared m)) = submitted (returned m)).
Proof.
  intros R.
  assert (linearized workload_enter workload_apply workloads_abs wl_reachable (workloads_abs raw_workload_init) programs m) as Lz.
  { refine (locked_linearized workload_enter workload_apply (fun _ => True) _ raw_workload_init programs m raw_workload_init_ok _ _ _ R).
    - by apply wl_init.
    - intros c x _. apply workload_apply_reachable.
    - apply Forall_true. intros. by apply Forall_true. }
  split; [exact Lz|]. destruct (lz_replay _ _ _ _ _ _ _ Lz) as (x & Rp & _ & Eq).
  destruct (replay_submitted _ _ Rp) as [I S1]. split; [by rewrite S1, length_fmap, length_seq|].
  intros M. specialize (Eq M). split; [exact (locked_intact workload_enter workload_apply raw_workload_init programs m raw_workload_init_ok R M)|].
  rewrite S1. transitivity (job_workload_id <$> wc_jobs x); [rewrite <- Eq; cbn; by rewrite <- list_fmap_compose|].
  apply list_eq. intros i. rewrite !list_lookup_fmap. destruct (wc_jobs x !! i) as [job|] eqn:Hj.
  - rewrite lookup_seq_lt by (by eapply lookup_lt_Some). cbn. by rewrite (wo_ids _ I _ _ Hj).
  - rewrite lookup_seq_ge by (by apply lookup_ge_None). done.
Qed.

(** Two threads take turns at every access: both submit jobs; one completes the
    first chunk of the first job and cancels the second job, the other checks
    the deadlines and prints the dashboard. *)
Definition workload_programs : list (list workload_call) :=
  [[WlSubmit (Some demo_desc) 5000; WlResult 1001 (chunk_id_of 1001 0) CHK_STATE_COMPLETED (Some "c0"); WlCancel 1002];
   [WlSubmit NULL 5000; WlSubmit (Some demo_desc) 5500; WlDeadlines 6000; WlResult 1002 1 CHK_STATE_FAILED NULL; WlPublish]].
Definition workload_machine : machine :=
  schedule workload_enter (concat (replicate 300 [0; 1]%nat)) (spawn raw_workload_init workload_programs).

Lemma workload_threads_ids_witness :
  submitted (returned workload_machine) = [1001; 1002] /\
  rj_workload_id <$> live (rw_jobs (shared workload_machine)) = [1001; 1002] /\
  (fun j => mc_state <$> live (rj_chunks j)) <$> live (rw_jobs (shared workload_machine)) =
    [[CHK_STATE_COMPLETED; CHK_STATE_READY; CHK_STATE_PENDING]; [CHK_STATE_READY; CHK_STATE_PENDING; CHK_STATE_PENDING]] /\
  rj_state <$> live (rw_jobs (shared workload_machine)) = [WL_STATE_EXECUTING; WL_STATE_CANCELLED].
Proof.
  assert (submitted (returned workload_machine) = [1001; 1002]) as E by (vm_compute; reflexivity).
  split; [exact E|]. split; [|split; vm_compute; reflexivity].
  destruct (workload_threads_ids workload_programs workload_machine) as (_ & _ & A).
  - apply schedule_reach, reach_spawn.
  - rewrite <- E. apply A. vm_compute. reflexivity.
Defined.
