(* ===== verification/RecoveryThreads.v ===== *)
(** The recovery engine ([master/src/recovery.c]) as several threads run it:
    heartbeats, timeout sweeps, new leases and incoming results as programs of
    single accesses to the arrays, counts and members of the context, under its
    [lock].  Each program does what the function of [MasterRecovery] does, so that
    a result is committed at most once however the threads interleave. *)
From S2P Require Import Prelude MasterRecovery MasterRecoveryProps Threads Tables.

(** * The context *)

Record raw_recovery := {
  rr_workers : table rec_worker_obs;
  rr_leases : table rec_lease_record;
  rr_health : UiHealthStatus;
  rr_text : string;
  rr_jobs : Z
}.

Definition zero_obs : rec_worker_obs := {| ro_worker_id := ""; ro_last_heartbeat_ms := 0; ro_is_healthy := false |}.
Definition zero_lease_record : rec_lease_record :=
  {| rl_lease_id := 0; rl_chunk_id := 0; rl_workload_id := 0; rl_assigned_worker_id := ""; rl_lease_expires_ms := 0;
     rl_state := LEASE_ACTIVE; rl_retry_count := 0; rl_retry_policy := VOM_RETRY_NONE |}.

#[export] Instance obs_inhabited : Inhabited rec_worker_obs := populate zero_obs.
#[export] Instance lease_record_inhabited : Inhabited rec_lease_record := populate zero_lease_record.

(** What [vom_recovery_init] leaves of zeroed memory. *)
Definition raw_recovery_init : raw_recovery :=
  {| rr_workers := blank zero_obs REC_MAX_WORKERS; rr_leases := blank zero_lease_record REC_MAX_LEASES;
     rr_health := UI_HEALTH_OK; rr_text := strncpy (REC_NAME_MAX - 1) "HEALTHY"; rr_jobs := 0 |}.

Definition RW : lens raw_recovery (table rec_worker_obs) :=
  {| lget := rr_workers; lset t s := {| rr_workers := t; rr_leases := rr_leases s; rr_health := rr_health s; rr_text := rr_text s; rr_jobs := rr_jobs s |} |}.
Definition RL : lens raw_recovery (table rec_lease_record) :=
  {| lget := rr_leases; lset t s := {| rr_workers := rr_workers s; rr_leases := t; rr_health := rr_health s; rr_text := rr_text s; rr_jobs := rr_jobs s |} |}.
Definition obs_of : lens vom_recovery_context (list rec_worker_obs) := {| lget := rec_workers; lset := rec_set_workers |}.
Definition records_of : lens vom_recovery_context (list rec_lease_record) := {| lget := rec_leases; lset := rec_set_leases |}.

Record recovery_ok (s : raw_recovery) : Prop := {
  rv_workers : tab_ok REC_MAX_WORKERS (rr_workers s);
  rv_leases : tab_ok REC_MAX_LEASES (rr_leases s)
}.

Definition recovery_abs (s : raw_recovery) : vom_recovery_context :=
  {| rec_workers := live (rr_workers s); rec_leases := live (rr_leases s); rec_summary_health := rr_health s;
     rec_operational_status_text := rr_text s; rec_active_recovery_jobs := rr_jobs s |}.

(** Members, in the order in which the code sets them. *)
Definition obs_members : list (rec_worker_obs -> rec_worker_obs -> rec_worker_obs) :=
  [fun x y => {| ro_worker_id := ro_worker_id x; ro_last_heartbeat_ms := ro_last_heartbeat_ms y; ro_is_healthy := ro_is_healthy y |};
   fun x y => {| ro_worker_id := ro_worker_id y; ro_last_heartbeat_ms := ro_last_heartbeat_ms x; ro_is_healthy := ro_is_healthy y |};
   fun x y => {| ro_worker_id := ro_worker_id y; ro_last_heartbeat_ms := ro_last_heartbeat_ms y; ro_is_healthy := ro_is_healthy x |}].

Definition record_members : list (rec_lease_record -> rec_lease_record -> rec_lease_record) :=
  let member (n : nat) (x y : rec_lease_record) :=
    let pick {A} (k : nat) (f : rec_lease_record -> A) := f (if (k =? n)%nat then x else y) in
    {| rl_lease_id := pick 0%nat rl_lease_id; rl_chunk_id := pick 1%nat rl_chunk_id; rl_workload_id := pick 2%nat rl_workload_id;
       rl_assigned_worker_id := pick 3%nat rl_assigned_worker_id; rl_lease_expires_ms := pick 4%nat rl_lease_expires_ms;
       rl_state := pick 5%nat rl_state; rl_retry_count := pick 6%nat rl_retry_count; rl_retry_policy := pick 7%nat rl_retry_policy |} in
  member <$> seq 0 8.

Definition obs_seen (now : Z) (w : rec_worker_obs) : rec_worker_obs :=
  {| ro_worker_id := ro_worker_id w; ro_last_heartbeat_ms := now; ro_is_healthy := ro_is_healthy w |}.
Definition obs_healthy (b : bool) (w : rec_worker_obs) : rec_worker_obs :=
  {| ro_worker_id := ro_worker_id w; ro_last_heartbeat_ms := ro_last_heartbeat_ms w; ro_is_healthy := b |}.
Definition rl_set_retries (n : Z) (l : rec_lease_record) : rec_lease_record := rl_set (rl_state l) n l.

Definition set_jobs (n : Z) (s : raw_recovery) : raw_recovery :=
  {| rr_workers := rr_workers s; rr_leases := rr_leases s; rr_health := rr_health s; rr_text := rr_text s; rr_jobs := n |}.
Definition set_health (h : UiHealthStatus) (s : raw_recovery) : raw_recovery :=
  {| rr_workers := rr_workers s; rr_leases := rr_leases s; rr_health := h; rr_text := rr_text s; rr_jobs := rr_jobs s |}.
Definition set_text (t : string) (s : raw_recovery) : raw_recovery :=
  {| rr_workers := rr_workers s; rr_leases := rr_leases s; rr_health := rr_health s; rr_text := t; rr_jobs := rr_jobs s |}.

(** * The operations *)

Abbreviation rcode A := (prog raw_recovery A).

Definition recovery_heartbeat_code (worker_id : string) (now_ms : Z) : rcode unit :=
  found ← search (rd_count RW) (fun i => fetch RW i (fun w => strcmp_eq (ro_worker_id w) worker_id)) (S REC_MAX_WORKERS) 0;
  match found with
  | Some i => put RW i (obs_seen now_ms) ;; put RW i (obs_healthy true)
  | None =>
      n ← rd_count RW;
      if (n <? REC_MAX_WORKERS)%nat then
        push RW {| ro_worker_id := strncpy (REC_NAME_MAX - 1) worker_id; ro_last_heartbeat_ms := now_ms; ro_is_healthy := true |} obs_members
      else mret tt
  end.

(** Step 1 for worker [i], from lease [j] on. *)
Fixpoint mark_code (i fuel j : nat) : rcode unit :=
  match fuel with
  | O => mret tt
  | S fuel =>
      n ← rd_count RL;
      if (j <? n)%nat then
        assigned ← fetch RL j rl_assigned_worker_id; worker_id ← fetch RW i ro_worker_id;
        active ← (if strcmp_eq assigned worker_id then fetch RL j (fun l => bool_decide (rl_state l = LEASE_ACTIVE)) else mret false);
        (if (active : bool) then
           put RL j (rl_set_state LEASE_UNCERTAIN) ;;
           jobs ← read rr_jobs;
           write (set_jobs (u32 (jobs + 1)))
         else mret tt) ;;
        mark_code i fuel (j + 1)
      else mret tt
  end.

Fixpoint lost_code (now_ms heartbeat_timeout_ms : Z) (fuel i : nat) (cluster_degraded : bool) : rcode bool :=
  match fuel with
  | O => mret cluster_degraded
  | S fuel =>
      n ← rd_count RW;
      if (i <? n)%nat then
        healthy ← fetch RW i ro_is_healthy;
        missed ← (if (healthy : bool) then fetch RW i (fun w => u64 (now_ms - ro_last_heartbeat_ms w) >? heartbeat_timeout_ms) else mret false);
        (if (missed : bool) then put RW i (obs_healthy false) ;; mark_code i (S REC_MAX_LEASES) 0 else mret tt) ;;
        healthy ← fetch RW i ro_is_healthy;
        lost_code now_ms heartbeat_timeout_ms fuel (i + 1) (if (healthy : bool) then cluster_degraded else true)
      else mret cluster_degraded
  end.

(** Step 2, from lease [i] on. *)
Fixpoint requeue_code (now_ms : Z) (fuel i : nat) : rcode unit :=
  match fuel with
  | O => mret tt
  | S fuel =>
      n ← rd_count RL;
      if (i <? n)%nat then
        uncertain ← fetch RL i (fun l => bool_decide (rl_state l = LEASE_UNCERTAIN));
        take ← (if (uncertain : bool) then mret true else
                active ← fetch RL i (fun l => bool_decide (rl_state l = LEASE_ACTIVE));
                if (active : bool) then fetch RL i (fun l => now_ms >? rl_lease_expires_ms l) else mret false);
        (if (take : bool) then
           retries ← fetch RL i rl_retry_count;
           put RL i (rl_set_retries (u32 (retries + 1))) ;;
           policy ← fetch RL i (fun l => negb (bool_decide (rl_retry_policy l = VOM_RETRY_NONE)));
           again ← (if (policy : bool) then fetch RL i (fun l => rl_retry_count l <=? 3) else mret false);
           put RL i (rl_set_state (if (again : bool) then LEASE_EXPIRED else LEASE_RECONCILED)) ;;
           jobs ← read rr_jobs;
           (if jobs >? 0 then jobs ← read rr_jobs; write (set_jobs (u32 (jobs - 1))) else mret tt)
         else mret tt) ;;
        requeue_code now_ms fuel (i + 1)
      else mret tt
  end.

Definition recovery_sweep_code (now_ms heartbeat_timeout_ms : Z) : rcode unit :=
  cluster_degraded ← lost_code now_ms heartbeat_timeout_ms (S REC_MAX_WORKERS) 0 false;
  requeue_code now_ms (S REC_MAX_LEASES) 0 ;;
  if (cluster_degraded : bool) then
    write (set_health UI_HEALTH_WARN) ;; write (set_text (strncpy (REC_NAME_MAX - 1) "DEGRADED / RECOVERING"))
  else write (set_health UI_HEALTH_OK) ;; write (set_text (strncpy (REC_NAME_MAX - 1) "HEALTHY")).

Definition recovery_result_code (lease_id : Z) (worker_id : string) : rcode bool :=
  found ← search (rd_count RL) (fun i => fetch RL i (fun l => rl_lease_id l =? lease_id)) (S REC_MAX_LEASES) 0;
  match found with
  | None => mret false
  | Some i =>
      expired ← fetch RL i (fun l => bool_decide (rl_state l = LEASE_EXPIRED));
      stale ← (if (expired : bool) then mret true else fetch RL i (fun l => bool_decide (rl_state l = LEASE_RECONCILED)));
      if (stale : bool) then mret false else
      assigned ← fetch RL i rl_assigned_worker_id;
      if negb (strcmp_eq assigned worker_id) then mret false else
      put RL i (rl_set_state LEASE_RECONCILED) ;; mret true
  end.

Definition recovery_inject_code (lease_id chunk_id : Z) (worker_id : string) (expires_ms : Z) (policy : VomRetryAction) : rcode unit :=
  n ← rd_count RL;
  if (n <? REC_MAX_LEASES)%nat then
    push RL {| rl_lease_id := lease_id; rl_chunk_id := chunk_id; rl_workload_id := 999;
               rl_assigned_worker_id := strncpy (REC_NAME_MAX - 1) worker_id; rl_lease_expires_ms := expires_ms;
               rl_state := LEASE_ACTIVE; rl_retry_count := 0; rl_retry_policy := policy |} record_members
  else mret tt.

(** * Each program does what its function does *)

#[export] Instance obs_mirror : Mirrors recovery_ok recovery_abs RW REC_MAX_WORKERS obs_of.
Proof. apply mirrors_intro; try done; [by constructor; intros; destruct s..|by intros s []|by intros t s []; constructor]. Qed.
#[export] Instance records_mirror : Mirrors recovery_ok recovery_abs RL REC_MAX_LEASES records_of.
Proof. apply mirrors_intro; try done; [by constructor; intros; destruct s..|by intros s []|by intros t s []; constructor]. Qed.

Lemma obs_members_complete : complete obs_members.
Proof. intros [] []. reflexivity. Qed.
Lemma record_members_complete : complete record_members.
Proof. intros [] []. reflexivity. Qed.
#[local] Hint Resolve obs_members_complete record_members_complete : core.

Abbreviation rdoes := (does recovery_ok recovery_abs).
Abbreviation robserves := (observes recovery_ok recovery_abs).

(** The tables and the job counter change, the rest stays. *)
Definition with_tables (ws : list rec_worker_obs) (ls : list rec_lease_record) (jobs : Z) (x : vom_recovery_context) : vom_recovery_context :=
  {| rec_workers := ws; rec_leases := ls; rec_summary_health := rec_summary_health x;
     rec_operational_status_text := rec_operational_status_text x; rec_active_recovery_jobs := jobs |}.

Lemma with_tables_id x : with_tables (rec_workers x) (rec_leases x) (rec_active_recovery_jobs x) x = x.
Proof. by destruct x. Qed.

Lemma jobs_does n x : rdoes (write (set_jobs n)) x tt (with_tables (rec_workers x) (rec_leases x) n x).
Proof. apply (write_does _ (fun x => with_tables (rec_workers x) (rec_leases x) n x)); [|done]. intros s []. by constructor. Qed.

Lemma jobs_observes x : robserves (read rr_jobs) x (rec_active_recovery_jobs x).
Proof. by apply (read_observes _ rec_active_recovery_jobs). Qed.

Lemma put_record f x i l : rec_leases x !! i = Some l ->
  rdoes (put RL i f) x tt (with_tables (rec_workers x) (<[i := f l]> (rec_leases x)) (rec_active_recovery_jobs x) x).
Proof. intros H. by apply (put_does (M := records_of)). Qed.

Lemma put_obs f x i w : rec_workers x !! i = Some w ->
  rdoes (put RW i f) x tt (with_tables (<[i := f w]> (rec_workers x)) (rec_leases x) (rec_active_recovery_jobs x) x).
Proof. intros H. by apply (put_does (M := obs_of)). Qed.

Lemma heartbeat_does id now x : rdoes (recovery_heartbeat_code id now) x tt (vom_recovery_register_worker_heartbeat (Some id) now x).
Proof.
  unfold recovery_heartbeat_code, vom_recovery_register_worker_heartbeat.
  eapply does_observe; [apply (search_observes _ (fun w => strcmp_eq (ro_worker_id w) id)); [cbn; lia|]|].
  { intros j w Hw. by eapply (fetch_observes (fun w => strcmp_eq (ro_worker_id w) id)). }
  cbn [lget obs_of]. destruct (find_idx _ _) as [i|] eqn:F.
  - destruct (find_idx_Some _ _ _ F) as (w & Hw & _). rewrite (alter_nth _ _ _ w), (nth_lookup_Some _ _ _ _ Hw).
    eapply does_bind; [by apply put_obs|].
    set (x1 := with_tables (<[i := obs_seen now w]> (rec_workers x)) (rec_leases x) (rec_active_recovery_jobs x) x).
    replace (rec_set_workers (<[i := obs_heartbeat now w]> (rec_workers x)) x) with
      (with_tables (<[i := obs_healthy true (obs_seen now w)]> (rec_workers x1)) (rec_leases x1) (rec_active_recovery_jobs x1) x1)
      by (cbn; by rewrite list_insert_insert_eq).
    apply (put_obs (obs_healthy true) x1). apply list_lookup_insert_eq. by eapply lookup_lt_Some.
  - observe. cbn [lget obs_of]. destruct (Nat.ltb_spec (length (rec_workers x)) REC_MAX_WORKERS); [|apply does_ret].
    by apply (push_does (M := obs_of)).
Qed.

Lemma inject_does id k w e p x : rdoes (recovery_inject_code id k w e p) x tt (vom_recovery_inject_test_lease id k w e p x).
Proof.
  unfold recovery_inject_code, vom_recovery_inject_test_lease. observe. cbn [lget records_of].
  destruct (Nat.ltb_spec (length (rec_leases x)) REC_MAX_LEASES); [|apply does_ret]. by apply (push_does (M := records_of)).
Qed.

Lemma result_does id w h x : rdoes (recovery_result_code id w) x
  (vom_recovery_process_incoming_result id (Some w) (Some h) x).1 (vom_recovery_process_incoming_result id (Some w) (Some h) x).2.
Proof.
  unfold recovery_result_code, vom_recovery_process_incoming_result.
  eapply does_observe; [apply (search_observes _ (fun l => rl_lease_id l =? id)); [cbn; lia|]|].
  { intros j l Hl. by eapply (fetch_observes (fun l => rl_lease_id l =? id)). }
  cbn [lget records_of]. destruct (find_idx _ _) as [i|] eqn:F; [|apply does_ret].
  destruct (find_idx_Some _ _ _ F) as (l & Hl & _). rewrite Hl. observe.
  eapply does_observe.
  { instantiate (1 := bool_decide (rl_state l = LEASE_EXPIRED) || bool_decide (rl_state l = LEASE_RECONCILED)).
    destruct (bool_decide (rl_state l = LEASE_EXPIRED)); [apply observes_ret|by eapply (fetch_observes (fun l => bool_decide (rl_state l = LEASE_RECONCILED)))]. }
  destr_if; [apply does_ret|]. observe. destr_if; [apply does_ret|]. eapply does_bind; [by apply put_record|]. apply does_ret.
Qed.

(** ** The sweep *)

(** One lease of step 1. *)
Lemma mark_body x j l (lost : bool) : rec_leases x !! j = Some l ->
  rdoes (if lost then put RL j (rl_set_state LEASE_UNCERTAIN) ;; jobs ← read rr_jobs; write (set_jobs (u32 (jobs + 1))) else mret tt) x tt
    (with_tables (rec_workers x) (<[j := if lost then rl_set_state LEASE_UNCERTAIN l else l]> (rec_leases x))
       (if lost then u32 (rec_active_recovery_jobs x + 1) else rec_active_recovery_jobs x) x).
Proof.
  intros Hl. destruct lost.
  - eapply does_bind; [by apply put_record|]. eapply does_observe; [apply jobs_observes|]. apply jobs_does.
  - rewrite list_insert_id, with_tables_id by done. apply does_ret.
Qed.

Lemma mark_does i w : forall fuel j x, rec_workers x !! i = Some w -> (length (rec_leases x) - j < fuel)%nat ->
  rdoes (mark_code i fuel j) x tt
    (let (ls, jobs) := mark_uncertain (ro_worker_id w) (drop j (rec_leases x)) (rec_active_recovery_jobs x) in
     with_tables (rec_workers x) (take j (rec_leases x) ++ ls) jobs x).
Proof.
  induction fuel as [|fuel IH]; intros j x Hw H; [lia|]. cbn [mark_code]. observe. cbn [lget records_of].
  destruct (Nat.ltb_spec j (length (rec_leases x))) as [Hj|Hj].
  2: { rewrite drop_ge, take_ge by done. cbn. rewrite app_nil_r, with_tables_id. apply does_ret. }
  destruct (lookup_lt_is_Some_2 _ _ Hj) as [l Hl]. do 2 observe.
  set (lost := strcmp_eq (rl_assigned_worker_id l) (ro_worker_id w) && bool_decide (rl_state l = LEASE_ACTIVE)).
  eapply does_observe.
  { instantiate (1 := lost). unfold lost. destruct (strcmp_eq _ _); [|apply observes_ret].
    by eapply (fetch_observes (fun l => bool_decide (rl_state l = LEASE_ACTIVE))). }
  eapply does_bind; [by apply mark_body|]. set (x1 := with_tables _ _ _ x).
  pose proof (IH (j + 1)%nat x1 Hw ltac:(cbn; rewrite length_insert; lia)) as D. cbn [x1 with_tables rec_leases rec_active_recovery_jobs rec_workers] in D.
  rewrite visit_drop, visit_take in D by done. rewrite (drop_S _ l j Hl). replace (S j) with (j + 1)%nat by lia. cbn [mark_uncertain]. fold lost.
  destruct lost; destruct (mark_uncertain _ _ _) as [ls' jobs']; rewrite <- app_assoc in D; exact D.
Qed.

(** One worker of step 1. *)
Definition after_check (now t : Z) (w : rec_worker_obs) : rec_worker_obs := if missed_heartbeat now t w then obs_lost w else w.
Definition after_marks (now t : Z) (w : rec_worker_obs) (ls : list rec_lease_record) (jobs : Z) : list rec_lease_record * Z :=
  if missed_heartbeat now t w then mark_uncertain (ro_worker_id w) ls jobs else (ls, jobs).

Lemma sweep_workers_cons now t w ws ls jobs deg : sweep_workers now t (w :: ws) ls jobs deg =
  let (ls1, jobs1) := after_marks now t w ls jobs in
  let '(ws', ls', jobs', deg') := sweep_workers now t ws ls1 jobs1 (if ro_is_healthy (after_check now t w) then deg else true) in
  (after_check now t w :: ws', ls', jobs', deg').
Proof.
  cbn [sweep_workers]. unfold after_marks, after_check. destruct (missed_heartbeat now t w); [done|].
  replace (deg || negb (ro_is_healthy w)) with (if ro_is_healthy w then deg else true); [done|]. by destruct (ro_is_healthy w), deg.
Qed.

Lemma lost_body now t x i w : rec_workers x !! i = Some w ->
  rdoes (if missed_heartbeat now t w then put RW i (obs_healthy false) ;; mark_code i (S REC_MAX_LEASES) 0 else mret tt) x tt
    (let (ls, jobs) := after_marks now t w (rec_leases x) (rec_active_recovery_jobs x) in
     with_tables (<[i := after_check now t w]> (rec_workers x)) ls jobs x).
Proof.
  intros Hw. unfold after_marks, after_check. destruct (missed_heartbeat now t w).
  2: { rewrite list_insert_id, with_tables_id by done. apply does_ret. }
  eapply does_bind; [by apply put_obs|]. change (obs_healthy false w) with (obs_lost w).
  set (x1 := with_tables (<[i := obs_lost w]> (rec_workers x)) (rec_leases x) (rec_active_recovery_jobs x) x).
  assert (rec_workers x1 !! i = Some (obs_lost w)) as Hw1 by (apply list_lookup_insert_eq; by eapply lookup_lt_Some).
  apply (does_cap (M := records_of)). intros Cap.
  assert (length (rec_leases x1) - 0 < S REC_MAX_LEASES)%nat as Hn by (cbn [lget records_of] in Cap; lia).
  exact (mark_does i (obs_lost w) (S REC_MAX_LEASES) 0 x1 Hw1 Hn).
Qed.

(** Step 1 for all workers. *)
Lemma lost_does now t : forall fuel i deg x, (length (rec_workers x) - i < fuel)%nat ->
  let '(ws, ls, jobs, deg') := sweep_workers now t (drop i (rec_workers x)) (rec_leases x) (rec_active_recovery_jobs x) deg in
  rdoes (lost_code now t fuel i deg) x deg' (with_tables (take i (rec_workers x) ++ ws) ls jobs x).
Proof.
  induction fuel as [|fuel IH]; intros i deg x H; [lia|].
  destruct (decide (i < length (rec_workers x))%nat) as [Hi|Hi].
  2: { rewrite drop_ge, take_ge by lia. cbn [sweep_workers lost_code]. rewrite app_nil_r, with_tables_id. observe. cbn [lget obs_of].
       rewrite (proj2 (Nat.ltb_ge _ _)) by lia. apply does_ret. }
  destruct (lookup_lt_is_Some_2 _ _ Hi) as [w Hw]. rewrite (drop_S _ w i Hw), sweep_workers_cons.
  replace (S i) with (i + 1)%nat by lia. pose proof (lost_body now t x i w Hw) as B.
  destruct (after_marks now t w (rec_leases x) (rec_active_recovery_jobs x)) as [ls1 jobs1].
  set (x1 := with_tables (<[i := after_check now t w]> (rec_workers x)) ls1 jobs1 x) in B.
  set (deg1 := if ro_is_healthy (after_check now t w) then deg else true).
  assert (rec_workers x1 !! i = Some (after_check now t w)) as Hw1 by (apply list_lookup_insert_eq; by eapply lookup_lt_Some).
  pose proof (IH (i + 1)%nat deg1 x1 ltac:(cbn; rewrite length_insert; lia)) as D.
  cbn [x1 with_tables rec_workers rec_leases rec_active_recovery_jobs] in D. rewrite visit_drop, visit_take in D by done.
  destruct (sweep_workers now t (drop (i + 1) (rec_workers x)) ls1 jobs1 deg1) as [[[ws ls] jobs] deg2].
  rewrite <- app_assoc in D. cbn [lost_code]. observe. cbn [lget obs_of]. rewrite (proj2 (Nat.ltb_lt _ _)) by done. observe.
  eapply does_observe.
  { instantiate (1 := missed_heartbeat now t w). unfold missed_heartbeat. destruct (ro_is_healthy w); [|apply observes_ret].
    by eapply (fetch_observes (fun w => u64 (now - ro_last_heartbeat_ms w) >? t)). }
  eapply does_bind; [exact B|]. observe. exact D.
Qed.

(** One lease of step 2. *)
Lemma requeue_body now x i l : rec_leases x !! i = Some l ->
  rdoes (if needs_requeue now l then
           retries ← fetch RL i rl_retry_count;
           put RL i (rl_set_retries (u32 (retries + 1))) ;;
           policy ← fetch RL i (fun l => negb (bool_decide (rl_retry_policy l = VOM_RETRY_NONE)));
           again ← (if (policy : bool) then fetch RL i (fun l => rl_retry_count l <=? 3) else mret false);
           put RL i (rl_set_state (if (again : bool) then LEASE_EXPIRED else LEASE_RECONCILED)) ;;
           jobs ← read rr_jobs;
           (if jobs >? 0 then jobs ← read rr_jobs; write (set_jobs (u32 (jobs - 1))) else mret tt)
         else mret tt) x tt
    (with_tables (rec_workers x) (<[i := requeue_if now l]> (rec_leases x))
       (if needs_requeue now l then if rec_active_recovery_jobs x >? 0 then u32 (rec_active_recovery_jobs x - 1) else rec_active_recovery_jobs x
        else rec_active_recovery_jobs x) x).
Proof.
  intros Hl. unfold requeue_if. destruct (needs_requeue now l).
  2: { rewrite list_insert_id, with_tables_id by done. apply does_ret. }
  observe. eapply does_bind; [by apply put_record|]. set (l1 := rl_set_retries (u32 (rl_retry_count l + 1)) l).
  set (x1 := with_tables (rec_workers x) (<[i := l1]> (rec_leases x)) (rec_active_recovery_jobs x) x).
  assert (rec_leases x1 !! i = Some l1) as Hl1 by (apply list_lookup_insert_eq; by eapply lookup_lt_Some).
  observe. eapply does_observe.
  { instantiate (1 := negb (bool_decide (rl_retry_policy l = VOM_RETRY_NONE)) && (u32 (rl_retry_count l + 1) <=? 3)).
    cbn [l1 rl_set_retries rl_set rl_retry_policy]. destruct (bool_decide _); [apply observes_ret|].
    exact (fetch_observes (fun l => rl_retry_count l <=? 3) x1 i l1 Hl1). }
  eapply does_bind; [by apply put_record|]. cbn [x1 with_tables rec_workers rec_leases rec_active_recovery_jobs].
  rewrite list_insert_insert_eq. set (l2 := rl_set_state _ l1).
  assert (l2 = requeue l) as -> by (unfold l2, requeue; by destruct (negb _ && _)).
  set (x2 := with_tables _ _ _ x1). eapply does_observe; [apply jobs_observes|].
  change (rec_active_recovery_jobs x2) with (rec_active_recovery_jobs x). destruct (rec_active_recovery_jobs x >? 0).
  - eapply does_observe; [apply jobs_observes|]. apply (jobs_does (u32 (rec_active_recovery_jobs x - 1)) x2).
  - apply does_ret.
Qed.

Lemma requeue_does now : forall fuel i x, (length (rec_leases x) - i < fuel)%nat ->
  rdoes (requeue_code now fuel i) x tt
    (let (ls, jobs) := requeue_leases now (drop i (rec_leases x)) (rec_active_recovery_jobs x) in
     with_tables (rec_workers x) (take i (rec_leases x) ++ ls) jobs x).
Proof.
  induction fuel as [|fuel IH]; intros i x H; [lia|]. cbn [requeue_code]. observe. cbn [lget records_of].
  destruct (Nat.ltb_spec i (length (rec_leases x))) as [Hi|Hi].
  2: { rewrite drop_ge, take_ge by done. cbn. rewrite app_nil_r, with_tables_id. apply does_ret. }
  destruct (lookup_lt_is_Some_2 _ _ Hi) as [l Hl]. observe. eapply does_observe.
  { instantiate (1 := needs_requeue now l). unfold needs_requeue. destruct (bool_decide (rl_state l = LEASE_UNCERTAIN)); [apply observes_ret|].
    cbn [orb]. observe. destruct (bool_decide (rl_state l = LEASE_ACTIVE)); [|apply observes_ret].
    by eapply (fetch_observes (fun l => now >? rl_lease_expires_ms l)). }
  eapply does_bind; [by apply requeue_body|]. set (x1 := with_tables _ _ _ x).
  pose proof (IH (i + 1)%nat x1 ltac:(cbn; rewrite length_insert; lia)) as D. cbn [x1 with_tables rec_leases rec_active_recovery_jobs rec_workers] in D.
  rewrite visit_drop, visit_take in D by done. rewrite (drop_S _ l i Hl). replace (S i) with (i + 1)%nat by lia. cbn [requeue_leases].
  unfold requeue_if in D. destruct (needs_requeue now l); destruct (requeue_leases _ _ _) as [ls' jobs']; rewrite <- app_assoc in D; exact D.
Qed.

Lemma health_does h x : rdoes (write (set_health h)) x tt
  {| rec_workers := rec_workers x; rec_leases := rec_leases x; rec_summary_health := h;
     rec_operational_status_text := rec_operational_status_text x; rec_active_recovery_jobs := rec_active_recovery_jobs x |}.
Proof.
  apply (write_does _ (fun x => {| rec_workers := rec_workers x; rec_leases := rec_leases x; rec_summary_health := h;
     rec_operational_status_text := rec_operational_status_text x; rec_active_recovery_jobs := rec_active_recovery_jobs x |})); [|done].
  intros s []. by constructor.
Qed.
Lemma text_does t x : rdoes (write (set_text t)) x tt
  {| rec_workers := rec_workers x; rec_leases := rec_leases x; rec_summary_health := rec_summary_health x;
     rec_operational_status_text := t; rec_active_recovery_jobs := rec_active_recovery_jobs x |}.
Proof.
  apply (write_does _ (fun x => {| rec_workers := rec_workers x; rec_leases := rec_leases x; rec_summary_health := rec_summary_health x;
     rec_operational_status_text := t; rec_active_recovery_jobs := rec_active_recovery_jobs x |})); [|done].
  intros s []. by constructor.
Qed.

Lemma sweep_does now t x : rdoes (recovery_sweep_code now t) x tt (vom_recovery_sweep_timeouts now t x).
Proof.
  unfold recovery_sweep_code, vom_recovery_sweep_timeouts.
  apply (does_cap (M := obs_of)). intros C1. apply (does_cap (M := records_of)). intros C2. cbn [lget obs_of records_of] in *.
  pose proof (lost_does now t (S REC_MAX_WORKERS) 0 false x ltac:(lia)) as D. rewrite drop_0 in D.
  destruct (sweep_workers _ _ _ _ _ _) as [[[ws ls] jobs] deg]. cbn [take app] in D. eapply does_bind; [exact D|].
  set (x1 := with_tables ws ls jobs x). apply (does_cap (M := records_of)). intros C3.
  assert (length (rec_leases x1) - 0 < S REC_MAX_LEASES)%nat as Hn by (rewrite Nat.sub_0_r; apply Nat.lt_succ_r; exact C3).
  pose proof (requeue_does now (S REC_MAX_LEASES) 0 x1 Hn) as D2. rewrite drop_0 in D2.
  change (rec_leases x1) with ls in D2. change (rec_active_recovery_jobs x1) with jobs in D2.
  destruct (requeue_leases now ls jobs) as [ls2 jobs2]. eapply does_bind; [exact D2|].
  destruct deg; (eapply does_bind; [apply health_does|]); apply text_does.
Qed.

(** * Many threads *)

Inductive recovery_call :=
| RecHeartbeat (worker_id : ptr string) (now_ms : Z)
| RecSweep (now_ms heartbeat_timeout_ms : Z)
| RecResult (lease_id : Z) (worker_id result_hash : ptr string)
| RecInject (lease_id chunk_id : Z) (worker_id : string) (expires_ms : Z) (policy : VomRetryAction).

Inductive recovery_result := RecVoid | RecBool (b : bool).

#[export] Instance recovery_result_eq_dec : EqDecision recovery_result.
Proof. solve_decision. Defined.

Definition recovery_enter (c : recovery_call) : recovery_result + prog raw_recovery recovery_result :=
  match c with
  | RecHeartbeat NULL _ => inl RecVoid
  | RecResult _ NULL _ | RecResult _ _ NULL => inl (RecBool false)
  | RecHeartbeat (Some id) now => inr (recovery_heartbeat_code id now ;; mret RecVoid)
  | RecSweep now t => inr (recovery_sweep_code now t ;; mret RecVoid)
  | RecResult id (Some w) (Some _) => inr (b ← recovery_result_code id w; mret (RecBool b))
  | RecInject id k w e p => inr (recovery_inject_code id k w e p ;; mret RecVoid)
  end.

(** The call as one step of the model. *)
Definition recovery_apply (c : recovery_call) (x : vom_recovery_context) : recovery_result * vom_recovery_context :=
  match c with
  | RecHeartbeat id now => (RecVoid, vom_recovery_register_worker_heartbeat id now x)
  | RecSweep now t => (RecVoid, vom_recovery_sweep_timeouts now t x)
  | RecResult id w h => let '(b, y) := vom_recovery_process_incoming_result id w h x in (RecBool b, y)
  | RecInject id k w e p => (RecVoid, vom_recovery_inject_test_lease id k w e p x)
  end.

Lemma recovery_exec c s : recovery_ok s -> recovery_ok (exec recovery_enter c s).2 /\
  recovery_apply c (recovery_abs s) = ((exec recovery_enter c s).1, recovery_abs (exec recovery_enter c s).2).
Proof.
  intros O. unfold exec. destruct c as [[id|] now|now t|id [w|] [h|]|id k w e p]; cbn [recovery_enter recovery_apply]; try done.
  - apply does_run; [done|]. apply (wrap_does _ (fun _ => RecVoid) _ tt), heartbeat_does.
  - apply does_run; [done|]. apply (wrap_does _ (fun _ => RecVoid) _ tt), sweep_does.
  - pose proof (result_does id w h (recovery_abs s)) as D. destruct (vom_recovery_process_incoming_result _ _ _ _) as [b y].
    apply does_run; [done|]. by apply (wrap_does _ RecBool).
  - apply does_run; [done|]. apply (wrap_does _ (fun _ => RecVoid) _ tt), inject_does.
Qed.

#[export] Instance recovery_locked : Locked recovery_enter recovery_apply :=
  {| lk_ok := recovery_ok; lk_abs := recovery_abs; lk_exec := recovery_exec |}.

Lemma raw_recovery_init_ok : recovery_ok raw_recovery_init.
Proof. constructor; apply blank_ok. Qed.

Lemma raw_recovery_init_abs : vom_recovery_init true = Some (recovery_abs raw_recovery_init).
Proof. done. Qed.

(** The results accepted along a history of calls. *)
Definition accepted (h : list (nat * recovery_call * recovery_result)) : list (Z * string) :=
  omap (fun e => match e with (_, RecResult id (Some w) _, RecBool true) => Some (id, w) | _ => None end) h.

Lemma accepted_snoc h e : accepted (h ++ [e]) = accepted h ++ accepted [e].
Proof. apply omap_app. Qed.

Lemma recovery_apply_history c x acc t r y : rec_history x acc -> recovery_apply c x = (r, y) ->
  rec_history y (acc ++ accepted [(t, c, r)]).
Proof.
  intros Hx. destruct c as [id now|now to|id w h|id k w e p]; cbn [recovery_apply].
  - intros [= <- <-]. rewrite app_nil_r. eapply rh_step; [done|constructor].
  - intros [= <- <-]. rewrite app_nil_r. eapply rh_step; [done|constructor].
  - destruct w as [w|]; [|intros [= <- <-]; by rewrite app_nil_r].
    pose proof (rh_result x acc id w h Hx) as R. destruct (vom_recovery_process_incoming_result _ _ _ _) as [b z].
    intros [= <- <-]. cbn in *. destruct b; [exact R|by rewrite app_nil_r].
  - intros [= <- <-]. rewrite app_nil_r. eapply rh_step; [done|constructor].
Qed.

Lemma replay_history h : forall x, replay recovery_apply (recovery_abs raw_recovery_init) h = Some x -> rec_history x (accepted h).
Proof.
  induction h as [|[[t c] r] h IH] using rev_ind; intros x.
  - intros [= <-]. by apply rh_init.
  - rewrite accepted_snoc. intros (y & E & A)%replay_snoc_Some. eapply recovery_apply_history; [by apply IH|exact A].
Qed.

(** C24: However threads interleave at the accesses of heartbeats, sweeps, new
    leases and incoming results, no lease id has two results accepted, each
    accepted result came from the worker the lease is assigned to and its lease
    stays settled; the calls return what the one-step model returns for them in
    the order of their returns; and every schedule ends with all calls returned. *)
Theorem recovery_threads_commit_once (programs : list (list recovery_call)) m :
  threads_reach recovery_enter raw_recovery_init programs m ->
  linearized recovery_enter recovery_apply recovery_abs (fun x => exists acc, rec_history x acc) (recovery_abs raw_recovery_init) programs m /\
  NoDup (accepted (returned m)).*1 /\
  (mutex m = None -> forall id w, (id, w) ∈ accepted (returned m) -> exists l, l ∈ live (rr_leases (shared m)) /\
     rl_lease_id l = id /\ rl_assigned_worker_id l = w /\ rl_state l = LEASE_RECONCILED).
Proof.
  intros R.
  assert (linearized recovery_enter recovery_apply recovery_abs (fun x => exists acc, rec_history x acc) (recovery_abs raw_recovery_init) programs m) as Lz.
  { refine (locked_linearized recovery_enter recovery_apply (fun _ => True) _ raw_recovery_init programs m raw_recovery_init_ok _ _ _ R).
    - exists []. by apply rh_init.
    - intros c x _ [acc Hx]. destruct (recovery_apply c x) as [r y] eqn:A. eexists. by eapply (recovery_apply_history c x acc 0).
    - apply Forall_true. intros. by apply Forall_true. }
  split; [exact Lz|]. destruct (lz_replay _ _ _ _ _ _ _ Lz) as (x & Rp & _ & Eq).
  destruct (history_commits _ _ (replay_history _ _ Rp)) as [N S]. split; [exact N|]. intros M id w Hin. specialize (Eq M).
  destruct (S id w Hin) as (i & l & Hf & Hl & Hw & Hs). exists l. find_idx_inv Hf. bprop. simplify_eq.
  split; [|done]. change (live (rr_leases (shared m))) with (rec_leases (recovery_abs (shared m))). by eapply list_elem_of_lookup_2.
Qed.

(** Three threads: one announces the worker and its lease and hands in the
    result, one hands in the same result and a foreign one, one sweeps. *)
Definition recovery_programs : list (list recovery_call) :=
  [[RecHeartbeat (Some "tablet-01") 10000; RecInject 7001 501 "tablet-01" 60000 VOM_RETRY_IMMEDIATE; RecResult 7001 (Some "tablet-01") (Some "h1")];
   [RecResult 7001 (Some "tablet-02") (Some "h2"); RecResult 7001 NULL NULL; RecResult 7001 (Some "tablet-01") (Some "h1")];
   [RecSweep 12000 5000; RecSweep 13000 5000]].
Definition recovery_machine : machine :=
  schedule recovery_enter (concat (replicate 150 [0; 2; 1]%nat)) (spawn raw_recovery_init recovery_programs).

Lemma recovery_threads_commit_once_witness :
  (fun e => (e.1.1, e.2)) <$> returned recovery_machine =
    [(0%nat, RecVoid); (2%nat, RecVoid); (1%nat, RecBool false); (1%nat, RecBool false); (0%nat, RecVoid); (2%nat, RecVoid);
     (1%nat, RecBool true); (0%nat, RecBool false)] /\
  accepted (returned recovery_machine) = [(7001, "tablet-01"%string)] /\
  exists l, l ∈ live (rr_leases (shared recovery_machine)) /\ rl_lease_id l = 7001 /\
    rl_assigned_worker_id l = "tablet-01"%string /\ rl_state l = LEASE_RECONCILED.
Proof.
  split; [vm_compute; reflexivity|]. split; [vm_compute; reflexivity|].
  destruct (recovery_threads_commit_once recovery_programs recovery_machine) as [_ [_ A]].
  - apply schedule_reach, reach_spawn.
  - apply A; [vm_compute; reflexivity|]. vm_compute. left.
Defined.
