(* ===== verification/Router.v ===== *)
(** The master's message router ([master/src/router.c]): start, stop, sending
    a framed message to a worker, and one round of receiving and dispatching,
    over any socket of the messaging library. *)
From S2P Require Import Prelude Envelope.

Definition ROUTER_ID_MAX_LEN : Z := 64.
Definition ROUTER_PAYLOAD_MAX_LEN : Z := 4096.

Inductive VomRouterEvent :=
  ROUTER_EVENT_WORKER_JOINED | ROUTER_EVENT_WORKER_HEARTBEAT | ROUTER_EVENT_CHUNK_PROGRESS
| ROUTER_EVENT_CHUNK_RESULT | ROUTER_EVENT_WORKER_FAILURE | ROUTER_EVENT_CLI_CONTROL_REQ
| ROUTER_EVENT_TRANSPORT_FAULT.

Inductive VomRouterMsgCode :=
  ROUTER_MSG_AUTH_REQ | ROUTER_MSG_AUTH_RESP | ROUTER_MSG_JOIN_REQ | ROUTER_MSG_JOIN_RESP
| ROUTER_MSG_HEARTBEAT | ROUTER_MSG_CHUNK_ASSIGN | ROUTER_MSG_CHUNK_ACK | ROUTER_MSG_CHUNK_REPORT.

Definition router_msg_value (c : VomRouterMsgCode) : Z :=
  match c with
  | ROUTER_MSG_AUTH_REQ => 1 | ROUTER_MSG_AUTH_RESP => 2 | ROUTER_MSG_JOIN_REQ => 3
  | ROUTER_MSG_JOIN_RESP => 4 | ROUTER_MSG_HEARTBEAT => 5 | ROUTER_MSG_CHUNK_ASSIGN => 6
  | ROUTER_MSG_CHUNK_ACK => 7 | ROUTER_MSG_CHUNK_REPORT => 8
  end.

Inductive VomRouterStatus :=
  ROUTER_STATUS_SUCCESS | ROUTER_STATUS_ERR_VERSION | ROUTER_STATUS_ERR_SIZE
| ROUTER_STATUS_ERR_SOCKET | ROUTER_STATUS_ERR_TIMEOUT.

(** How a round ends: with a status, or with the store [id_buf[bytes]] past
    the end of its array, or not at all, in a receive that waits. *)
Inductive round_end := Returned (st : VomRouterStatus) | OutOfBounds | WaitsForFrame.

(** A call of one of the two callbacks. *)
Inductive router_call :=
| CallEvent (worker_id : string) (event : VomRouterEvent)
| CallMsg (worker_id : string) (env : envelope) (payload : list Z).

Section Router.
Context {S : Type} `{Zmq S}.

Record vom_master_router_context := {
  rt_sock : option S;
  rt_next_seq_id : Z;
  rt_is_running : bool
}.

Definition rt_set_sock (s : option S) (c : vom_master_router_context) : vom_master_router_context :=
  {| rt_sock := s; rt_next_seq_id := rt_next_seq_id c; rt_is_running := rt_is_running c |}.

(** [alloc]: whether [calloc] and [zmq_ctx_new] succeed. *)
Definition vom_master_router_create (alloc : bool) : ptr vom_master_router_context :=
  if alloc then Some {| rt_sock := None; rt_next_seq_id := 1; rt_is_running := false |} else NULL.

(** The type of the socket the router opens, a literal 4: that is [ZMQ_REP], a
    ROUTER is 6. *)
Definition router_socket_type : Z := 4.

(** [zmq_socket] is what the library returns for a type of socket, [bind_ok]
    whether [zmq_bind] succeeds. *)
Definition vom_master_router_start (bind_endpoint : ptr string) (zmq_socket : Z -> ptr S) (bind_ok : bool)
    (c : vom_master_router_context) : VomRouterStatus * vom_master_router_context :=
  match bind_endpoint with
  | NULL => (ROUTER_STATUS_ERR_SOCKET, c)
  | Some _ =>
      match zmq_socket router_socket_type with
      | NULL => (ROUTER_STATUS_ERR_SOCKET, rt_set_sock None c)
      | Some s =>
          if bind_ok then
            (ROUTER_STATUS_SUCCESS,
             {| rt_sock := Some s; rt_next_seq_id := rt_next_seq_id c; rt_is_running := true |})
          else (ROUTER_STATUS_ERR_SOCKET, rt_set_sock None c)
      end
  end.

Definition vom_master_router_stop (c : vom_master_router_context) : vom_master_router_context :=
  {| rt_sock := rt_sock c; rt_next_seq_id := rt_next_seq_id c; rt_is_running := false |}.

(** [stack] is what the message buffer holds before it is written (sent as
    it is when [payload] is [NULL] and [length] is not 0); [sec] and [usec]
    are what [gettimeofday] returns. *)
Definition vom_master_router_send_to_worker (worker_id : ptr string) (code : VomRouterMsgCode)
    (payload : ptr (list Z)) (length : Z) (stack : list Z) (sec usec : Z)
    (c : vom_master_router_context) : VomRouterStatus * vom_master_router_context :=
  match rt_sock c, worker_id with
  | Some sock, Some worker_id =>
      if negb (rt_is_running c) then (ROUTER_STATUS_ERR_SOCKET, c)
      else if length >? ROUTER_PAYLOAD_MAX_LEN then (ROUTER_STATUS_ERR_SIZE, c)
      else
        let env := {| env_protocol_version := 1;
                      env_message_code := router_msg_value code;
                      env_payload_length := u32 length;
                      env_sequence_id := rt_next_seq_id c;
                      env_timestamp_ms := u64 (u64 (sec * 1000) + usec / 1000) |} in
        let next := u64 (rt_next_seq_id c + 1) in
        let running := rt_is_running c in
        let (rc1, sock) := zmq_send sock (bytes_of_string worker_id) true in
        let ctx sock := {| rt_sock := Some sock; rt_next_seq_id := next; rt_is_running := running |} in
        if rc1 <? 0 then (ROUTER_STATUS_ERR_SOCKET, ctx sock)
        else
          let (rc2, sock) := zmq_send sock [] true in
          if rc2 <? 0 then (ROUTER_STATUS_ERR_SOCKET, ctx sock)
          else
            let body := match payload with Some p => p | NULL => drop ENVELOPE_SIZE stack end in
            let msg_buffer := encode_envelope env ++ take (Z.to_nat length) body in
            let (rc3, sock) := zmq_send sock msg_buffer false in
            if rc3 <? 0 then (ROUTER_STATUS_ERR_SOCKET, ctx sock)
            else (ROUTER_STATUS_SUCCESS, ctx sock)
  | _, _ => (ROUTER_STATUS_ERR_SOCKET, c)
  end.

Definition internal_router_check_frames (sock : S) : bool :=
  match zmq_rcvmore sock with None => false | Some rcv => rcv end.

(** The event a message code raises. *)
Definition code_event (code : Z) : option VomRouterEvent :=
  if code =? router_msg_value ROUTER_MSG_JOIN_REQ then Some ROUTER_EVENT_WORKER_JOINED
  else if code =? router_msg_value ROUTER_MSG_HEARTBEAT then Some ROUTER_EVENT_WORKER_HEARTBEAT
  else if code =? router_msg_value ROUTER_MSG_CHUNK_REPORT then Some ROUTER_EVENT_CHUNK_RESULT
  else None.

(** [msg_cb] and [event_cb] are whether the callbacks are given.  The result
    is how the round ends, the callback calls in order, and the socket.  The
    receives behind the first one do not wait ([zmq_more_law]), so no signal
    interrupts them. *)
Definition round_on (msg_cb event_cb : bool) (sock : S) : round_end * list router_call * S :=
  let '(bytes, id_bytes, sock) := zmq_recv_dontwait sock (ROUTER_ID_MAX_LEN - 1) in
  if bytes <? 0 then (Returned ROUTER_STATUS_SUCCESS, [], sock)
  else if bytes >=? ROUTER_ID_MAX_LEN then (OutOfBounds, [], sock)
  else
    let id := cstr_of_bytes id_bytes in
    let fault := if event_cb then [CallEvent id ROUTER_EVENT_TRANSPORT_FAULT] else [] in
    if negb (internal_router_check_frames sock) then (Returned ROUTER_STATUS_ERR_SIZE, [], sock)
    else
      match zmq_recv_wait sock 1 with
      | None => (WaitsForFrame, [], sock)
      | Some (dbytes, _, sock) =>
          if dbytes <? 0 then (Returned ROUTER_STATUS_ERR_SIZE, [], sock)
          else if negb (internal_router_check_frames sock) then (Returned ROUTER_STATUS_ERR_SIZE, [], sock)
          else
            match zmq_recv_wait sock (Z.of_nat ENVELOPE_SIZE + ROUTER_PAYLOAD_MAX_LEN) with
            | None => (WaitsForFrame, [], sock)
            | Some (pbytes, pbuf, sock) =>
                if pbytes <? Z.of_nat ENVELOPE_SIZE then (Returned ROUTER_STATUS_ERR_SIZE, fault, sock)
                else
                  let env := decode_envelope pbuf in
                  if negb (env_protocol_version env =? 1) then (Returned ROUTER_STATUS_ERR_VERSION, fault, sock)
                  else if negb (u32 (Z.of_nat ENVELOPE_SIZE + env_payload_length env) =? u32 pbytes)
                  then (Returned ROUTER_STATUS_ERR_SIZE, fault, sock)
                  else
                    let events :=
                      match code_event (env_message_code env) with
                      | Some ev => if event_cb then [CallEvent id ev] else []
                      | None => []
                      end in
                    let msgs := if msg_cb then [CallMsg id env (drop ENVELOPE_SIZE pbuf)] else [] in
                    (Returned ROUTER_STATUS_SUCCESS, events ++ msgs, sock)
            end
      end.

Definition vom_master_router_run_once (msg_cb event_cb : bool) (c : vom_master_router_context) :
    round_end * list router_call * vom_master_router_context :=
  match rt_sock c with
  | Some sock =>
      if rt_is_running c then
        let '(e, calls, sock) := round_on msg_cb event_cb sock in (e, calls, rt_set_sock (Some sock) c)
      else (Returned ROUTER_STATUS_ERR_SOCKET, [], c)
  | None => (Returned ROUTER_STATUS_ERR_SOCKET, [], c)
  end.

End Router.
Arguments vom_master_router_context S : clear implicits.

(** With a library that only has ROUTER sockets to give, the router does not
    start. *)
Example router_asks_for_rep {S} (s : S) ep c :
  fst (vom_master_router_start (Some ep) (fun type => if type =? 6 then Some s else NULL) true c) = ROUTER_STATUS_ERR_SOCKET.
Proof. reflexivity. Qed.
