(* ===== verification/RouterThreads.v ===== *)
(** [vom_master_router_send_to_worker] ([master/src/router.c]) called by several
    threads.  A message is three calls of [zmq_send] under [write_lock]; threads
    interleave at each of them and at each access to the context.  Over any socket
    that queues what it accepts, the lock keeps the frames of a message together;
    the end of the file shows what a failure between two frames does. *)
From S2P Require Import Prelude Envelope Router Threads.

(** [sent s]: the frames the socket has accepted, with their more flag. *)
Class ZmqQueue (S : Type) `{Zmq S} := {
  sent : S -> list (list Z * bool);
  zmq_send_law : forall s bs more rc s', zmq_send s bs more = (rc, s') ->
    sent s' = if rc <? 0 then sent s else sent s ++ [(bs, more)]
}.

Record send_call := {
  sd_worker_id : ptr string;
  sd_code : VomRouterMsgCode;
  sd_payload : ptr (list Z);
  sd_length : Z;
  sd_stack : list Z;
  sd_sec : Z;
  sd_usec : Z
}.

#[export] Instance status_eq_dec : EqDecision VomRouterStatus.
Proof. solve_decision. Defined.

Definition call_envelope (seq : Z) (c : send_call) : envelope :=
  {| env_protocol_version := 1; env_message_code := router_msg_value (sd_code c); env_payload_length := u32 (sd_length c);
     env_sequence_id := seq; env_timestamp_ms := u64 (u64 (sd_sec c * 1000) + sd_usec c / 1000) |}.

(** [msg_buffer] up to the length that is sent. *)
Definition call_buffer (seq : Z) (c : send_call) : list Z :=
  encode_envelope (call_envelope seq c) ++
  take (Z.to_nat (sd_length c)) (match sd_payload c with Some p => p | NULL => drop ENVELOPE_SIZE (sd_stack c) end).

Section RouterThreads.
Context {S : Type} `{ZmqQueue S}.

Notation context := (@vom_master_router_context S).

(** * The operation, access by access *)

(** The router runs: it has its socket and nobody stops it. *)
Definition running_router (seq : Z) (sock : S) : context := {| rt_sock := Some sock; rt_next_seq_id := seq; rt_is_running := true |}.
Definition router_ok (c : context) : Prop := exists seq sock, c = running_router seq sock.

Definition send_frame (bs : list Z) (more : bool) : prog context Z :=
  Do (fun c => match rt_sock c with Some s => rt_set_sock (Some (zmq_send s bs more).2) c | None => c end)
     (fun c => Ret (match rt_sock c with Some s => (zmq_send s bs more).1 | None => -1 end)).

Definition set_next_seq (n : Z) (c : context) : context :=
  {| rt_sock := rt_sock c; rt_next_seq_id := n; rt_is_running := rt_is_running c |}.

(** From [pthread_mutex_lock] to [pthread_mutex_unlock]. *)
Definition send_code (worker_id : string) (c : send_call) : prog context VomRouterStatus :=
  seq ← read rt_next_seq_id;
  write (set_next_seq (u64 (seq + 1))) ;;
  rc1 ← send_frame (bytes_of_string worker_id) true;
  if rc1 <? 0 then mret ROUTER_STATUS_ERR_SOCKET else
  rc2 ← send_frame [] true;
  if rc2 <? 0 then mret ROUTER_STATUS_ERR_SOCKET else
  rc3 ← send_frame (call_buffer seq c) false;
  mret (if rc3 <? 0 then ROUTER_STATUS_ERR_SOCKET else ROUTER_STATUS_SUCCESS).

Definition send_enter (c : send_call) : VomRouterStatus + prog context VomRouterStatus :=
  match sd_worker_id c with
  | NULL => inl ROUTER_STATUS_ERR_SOCKET
  | Some worker_id =>
      if sd_length c >? ROUTER_PAYLOAD_MAX_LEN then inl ROUTER_STATUS_ERR_SIZE else inr (send_code worker_id c)
  end.

Definition send_apply (c : send_call) (x : context) : VomRouterStatus * context :=
  vom_master_router_send_to_worker (sd_worker_id c) (sd_code c) (sd_payload c) (sd_length c) (sd_stack c) (sd_sec c) (sd_usec c) x.

Lemma send_frame_run bs more seq sock :
  run (send_frame bs more) (running_router seq sock) =
    ((zmq_send sock bs more).1, running_router seq (zmq_send sock bs more).2).
Proof. done. Qed.

Lemma send_exec c x : router_ok x -> router_ok (exec send_enter c x).2 /\
  send_apply c x = ((exec send_enter c x).1, (exec send_enter c x).2).
Proof.
  intros (seq & sock & ->). unfold exec, send_enter, send_apply, vom_master_router_send_to_worker.
  cbn [rt_sock rt_is_running rt_next_seq_id running_router negb].
  destruct (sd_worker_id c) as [id|]; [|split; [by eexists _, _|done]].
  destruct (sd_length c >? ROUTER_PAYLOAD_MAX_LEN); [split; [by eexists _, _|done]|].
  unfold send_code. run_prog. change (rt_next_seq_id (running_router seq sock)) with seq.
  change (set_next_seq (u64 (seq + 1)) (running_router seq sock)) with (running_router (u64 (seq + 1)) sock).
  rewrite send_frame_run. destruct (zmq_send sock (bytes_of_string id) true) as [rc1 s1]. run_prog.
  destruct (rc1 <? 0); [split; [by eexists _, _|done]|]. run_prog. rewrite send_frame_run.
  destruct (zmq_send s1 [] true) as [rc2 s2]. run_prog. destruct (rc2 <? 0); [split; [by eexists _, _|done]|]. run_prog.
  rewrite send_frame_run. fold (call_envelope seq c). fold (call_buffer seq c).
  destruct (zmq_send s2 (call_buffer seq c) false) as [rc3 s3]. run_prog. split; [by eexists _, _|]. by destruct (rc3 <? 0).
Qed.

#[export] Instance router_locked : Locked send_enter send_apply := {| lk_ok := router_ok; lk_abs := id; lk_exec := send_exec |}.

(** * What the calls leave on the socket *)

Definition frames_of (seq : Z) (id : string) (c : send_call) : list (list Z * bool) :=
  [(bytes_of_string id, true); ([], true); (call_buffer seq c, false)].

(** One call from number [seq]: its frames, all of them exactly if it succeeds,
    and the number of the next one. *)
Inductive call_wrote (seq : Z) (c : send_call) : VomRouterStatus -> list (list Z * bool) -> Z -> Prop :=
| wrote_null : sd_worker_id c = NULL -> call_wrote seq c ROUTER_STATUS_ERR_SOCKET [] seq
| wrote_size id : sd_worker_id c = Some id -> sd_length c > ROUTER_PAYLOAD_MAX_LEN -> call_wrote seq c ROUTER_STATUS_ERR_SIZE [] seq
| wrote_part id n : sd_worker_id c = Some id -> (n < 3)%nat ->
    call_wrote seq c ROUTER_STATUS_ERR_SOCKET (take n (frames_of seq id c)) (u64 (seq + 1))
| wrote_all id : sd_worker_id c = Some id -> sd_length c <= ROUTER_PAYLOAD_MAX_LEN ->
    call_wrote seq c ROUTER_STATUS_SUCCESS (frames_of seq id c) (u64 (seq + 1)).

Inductive history_wrote (seq : Z) : list (nat * send_call * VomRouterStatus) -> list (list Z * bool) -> Z -> Prop :=
| history_none : history_wrote seq [] [] seq
| history_call h l n t c r fs n' : history_wrote seq h l n -> call_wrote n c r fs n' ->
    history_wrote seq (h ++ [(t, c, r)]) (l ++ fs) n'.

Lemma send_wrote c seq sock r x : send_apply c (running_router seq sock) = (r, x) ->
  exists fs n sock', x = running_router n sock' /\ call_wrote seq c r fs n /\ sent sock' = sent sock ++ fs.
Proof.
  unfold send_apply, vom_master_router_send_to_worker. cbn [rt_sock rt_is_running rt_next_seq_id running_router negb].
  destruct (sd_worker_id c) as [id|] eqn:W.
  2: { intros [= <- <-]. eexists [], _, _. split_and!; [done|by apply wrote_null|by rewrite app_nil_r]. }
  destruct (Z.gtb_spec (sd_length c) ROUTER_PAYLOAD_MAX_LEN) as [L|L].
  { intros [= <- <-]. eexists [], _, _. split_and!; [done|eapply wrote_size; [done|lia]|by rewrite app_nil_r]. }
  fold (call_envelope seq c). fold (call_buffer seq c).
  destruct (zmq_send sock (bytes_of_string id) true) as [rc1 s1] eqn:E1. apply zmq_send_law in E1.
  destruct (rc1 <? 0).
  { intros [= <- <-]. eexists _, _, _. split_and!; [done|by apply (wrote_part _ _ id 0); [|lia]|by rewrite E1, app_nil_r]. }
  destruct (zmq_send s1 [] true) as [rc2 s2] eqn:E2. apply zmq_send_law in E2. destruct (rc2 <? 0).
  { intros [= <- <-]. eexists _, _, _. split_and!; [done|by apply (wrote_part _ _ id 1); [|lia]|by rewrite E2, E1]. }
  destruct (zmq_send s2 (call_buffer seq c) false) as [rc3 s3] eqn:E3. apply zmq_send_law in E3. destruct (rc3 <? 0).
  { intros [= <- <-]. eexists _, _, _. split_and!; [done|by apply (wrote_part _ _ id 2); [|lia]|].
    rewrite E3, E2, E1. by rewrite <- app_assoc. }
  intros [= <- <-]. eexists _, _, _. split_and!; [done|by apply wrote_all|]. rewrite E3, E2, E1. by rewrite <- !app_assoc.
Qed.

Lemma replay_wrote h seq sock x : replay send_apply (running_router seq sock) h = Some x ->
  exists fs n sock', x = running_router n sock' /\ history_wrote seq h fs n /\ sent sock' = sent sock ++ fs.
Proof.
  revert x. induction h as [|[[t c] r] h IH] using rev_ind; intros x.
  - intros [= <-]. eexists [], _, _. split_and!; [done|constructor|by rewrite app_nil_r].
  - rewrite replay_snoc. destruct (replay send_apply _ h) as [y|]; [|done]. cbn.
    destruct (IH y eq_refl) as (fs & n & s1 & -> & W & E). destruct (send_apply c (running_router n s1)) as [r' z] eqn:A.
    case_decide as D; [|done]. intros [= <-]. subst r'. destruct (send_wrote _ _ _ _ _ A) as (fs' & n' & s2 & -> & W' & E').
    exists (fs ++ fs'), n', s2. split_and!; [done|by econstructor|]. by rewrite E', E, app_assoc.
Qed.

(** ** Messages *)

(** The messages on a socket: frames up to one without the more flag. *)
Fixpoint messages_from (part : list (list Z)) (l : list (list Z * bool)) : list (list (list Z)) :=
  match l with
  | [] => []
  | (f, true) :: l => messages_from (part ++ [f]) l
  | (f, false) :: l => (part ++ [f]) :: messages_from [] l
  end.
Definition messages (l : list (list Z * bool)) : list (list (list Z)) := messages_from [] l.

(** The messages that successful calls announce, numbered from [seq]. *)
Fixpoint announced (seq : Z) (h : list (nat * send_call * VomRouterStatus)) : list (list (list Z)) :=
  match h with
  | [] => []
  | (_, c, ROUTER_STATUS_SUCCESS) :: h =>
      [bytes_of_string (default "" (sd_worker_id c)); []; call_buffer seq c] :: announced (u64 (seq + 1)) h
  | _ :: h => announced seq h
  end.

(** No call failed at the socket or for want of a worker. *)
Definition none_failed (h : list (nat * send_call * VomRouterStatus)) : Prop := Forall (fun e => e.2 <> ROUTER_STATUS_ERR_SOCKET) h.

(** The same history from its front. *)
Lemma history_front seq h l n : history_wrote seq h l n -> h = [] /\ l = [] /\ n = seq \/
  exists t c r h' fs l' n', h = (t, c, r) :: h' /\ l = fs ++ l' /\ call_wrote seq c r fs n' /\ history_wrote n' h' l' n.
Proof.
  induction 1 as [|h l n t c r fs n' Hw IH C]; [by left|right]. destruct IH as [(-> & -> & ->)|(t0 & c0 & r0 & h' & fs0 & l' & n0 & -> & -> & C0 & Hw')].
  - exists t, c, r, [], fs, [], n'. split_and!; [done|by rewrite app_nil_r|done|constructor].
  - exists t0, c0, r0, (h' ++ [(t, c, r)]), fs0, (l' ++ fs), n0. split_and!; [done|by rewrite app_assoc|done|by econstructor].
Qed.

Lemma history_messages h : forall seq l n, history_wrote seq h l n -> none_failed h -> messages l = announced seq h.
Proof.
  induction h as [|e h IH]; intros seq l n Hw F; destruct (history_front _ _ _ _ Hw) as [(E & -> & _)|(t & c & r & h' & fs & l' & n' & E & -> & C & Hw')];
    [done|done|done|]. injection E as -> ->. apply Forall_cons in F as [Fr F]. destruct C as [W|id W L|id k W L|id W L]; try done.
  - by eapply IH.
  - cbn. rewrite W. cbn. f_equal. by eapply IH.
Qed.

Lemma send_apply_ok c x : router_ok x -> router_ok (send_apply c x).2.
Proof. intros O. destruct (send_exec c x O) as [O' E]. by rewrite E. Qed.

(** C28: Threads that send through a running router, interleaved at every
    [zmq_send], get what the one-step model returns for the calls in the order of
    their returns, and finish.  What is on the socket is call after call: all
    three frames of a call that succeeds, the first few of one that fails, none of
    one that is refused; and as long as no call failed the socket carries exactly
    the announced messages, each whole, to its worker, with consecutive sequence
    numbers. *)
Theorem router_threads_whole_messages (sock : S) (seq : Z) (programs : list (list send_call)) m :
  sent sock = [] -> threads_reach send_enter (running_router seq sock) programs m ->
  linearized send_enter send_apply id router_ok (running_router seq sock) programs m /\
  (mutex m = None -> exists n sock', shared m = running_router n sock' /\
     history_wrote seq (returned m) (sent sock') n /\
     (none_failed (returned m) -> messages (sent sock') = announced seq (returned m))).
Proof.
  intros E0 R.
  assert (linearized send_enter send_apply id router_ok (running_router seq sock) programs m) as Lz.
  { refine (locked_linearized send_enter send_apply (fun _ => True) router_ok (running_router seq sock) programs m _ _ _ _ R).
    - by eexists _, _.
    - by eexists _, _.
    - intros c x _. apply send_apply_ok.
    - apply Forall_true. intros. by apply Forall_true. }
  split; [exact Lz|]. intros M. destruct (lz_replay _ _ _ _ _ _ _ Lz) as (x & Rp & _ & Eq). specialize (Eq M). cbn in Eq. subst x.
  destruct (replay_wrote _ _ _ _ Rp) as (fs & n & s' & Es & Hw & Ef). rewrite E0 in Ef. cbn in Ef. subst fs.
  exists n, s'. split_and!; [exact Es|exact Hw|]. intros F. by eapply history_messages.
Qed.
End RouterThreads.

(** * Instances *)

#[export, refine] Instance wire_queue : ZmqQueue wire := {| sent := w_out |}.
Proof. intros s bs more rc s'. cbn. unfold wire_send. destruct (w_up s); intros [= <- <-]; [|done]. cbn. destruct (Z.ltb_spec (Z.of_nat (length bs)) 0); [lia|done]. Defined.

Definition demo_send (id : string) (code : VomRouterMsgCode) (p : list Z) : send_call :=
  {| sd_worker_id := Some id; sd_code := code; sd_payload := Some p; sd_length := Z.of_nat (length p); sd_stack := []; sd_sec := 10; sd_usec := 5000 |}.
Definition demo_oversized : send_call :=
  {| sd_worker_id := Some "w3"; sd_code := ROUTER_MSG_AUTH_RESP; sd_payload := NULL; sd_length := 5000; sd_stack := []; sd_sec := 0; sd_usec := 0 |}.
Definition send_programs : list (list send_call) :=
  [[demo_send "w1" ROUTER_MSG_CHUNK_ASSIGN [1; 2]; demo_oversized]; [demo_send "w2" ROUTER_MSG_JOIN_RESP []; demo_send "w1" ROUTER_MSG_HEARTBEAT [7]]].
Definition wire_idle : wire := {| w_in := []; w_more := false; w_out := []; w_up := true |}.
Definition send_machine : @machine (@vom_master_router_context wire) send_call VomRouterStatus :=
  schedule send_enter (concat (replicate 20 [0; 1]%nat)) (spawn (running_router 41 wire_idle) send_programs).

Lemma router_threads_whole_messages_witness :
  (fun e => (e.1.1, e.2)) <$> returned send_machine =
    [(0%nat, ROUTER_STATUS_SUCCESS); (0%nat, ROUTER_STATUS_ERR_SIZE); (1%nat, ROUTER_STATUS_SUCCESS); (1%nat, ROUTER_STATUS_SUCCESS)] /\
  exists n sock', shared send_machine = running_router n sock' /\ messages (sent sock') = announced 41 (returned send_machine).
Proof.
  split; [vm_compute; reflexivity|].
  assert (sent wire_idle = []) as E0 by reflexivity.
  destruct (router_threads_whole_messages wire_idle 41 send_programs send_machine E0) as [_ [n [s [E [_ M]]]]].
  - apply schedule_reach, reach_spawn.
  - vm_compute. reflexivity.
  - exists n, s. split; [exact E|]. apply M. vm_compute. repeat constructor; discriminate.
Defined.

(** ** A failure between two frames *)

(** A socket that refuses the sends marked in [fk_fail]. *)
Record flaky := { fk_out : list (list Z * bool); fk_fail : list bool }.

#[export] Instance flaky_zmq : Zmq flaky :=
  { zmq_recv_dontwait := fun s _ => (-1, [], s); zmq_recv_wait := fun _ _ => None; zmq_rcvmore := fun _ => None;
    zmq_send := fun s bs more =>
      if default false (head (fk_fail s)) then (-1, {| fk_out := fk_out s; fk_fail := tail (fk_fail s) |})
      else (Z.of_nat (length bs), {| fk_out := fk_out s ++ [(bs, more)]; fk_fail := tail (fk_fail s) |}) }.

#[export, refine] Instance flaky_queue : ZmqQueue flaky := {| sent := fk_out |}.
Proof. intros s bs more rc s'. cbn. destruct (default false _); intros [= <- <-]; [done|]. cbn. destruct (Z.ltb_spec (Z.of_nat (length bs)) 0); [lia|done]. Defined.

(** The first call fails at its second frame and returns; its first frame is
    still open on the socket, so that the second call, which succeeds, completes
    it: the socket carries one message, to the worker of the failed call. *)
Example failed_send_tears_the_next :
  let start := running_router 1 {| fk_out := []; fk_fail := [false; true] |} in
  let first := send_apply (demo_send "w1" ROUTER_MSG_CHUNK_ASSIGN [1]) start in
  let second := send_apply (demo_send "w2" ROUTER_MSG_CHUNK_ASSIGN [2]) first.2 in
  first.1 = ROUTER_STATUS_ERR_SOCKET /\ second.1 = ROUTER_STATUS_SUCCESS /\
  (messages ∘ sent <$> rt_sock second.2) =
    Some [[bytes_of_string "w1"; bytes_of_string "w2"; []; call_buffer 2 (demo_send "w2" ROUTER_MSG_CHUNK_ASSIGN [2])]].
Proof. vm_compute. done. Qed.
