(* ===== verification/WorkerTransport.v ===== *)
(** The worker's side of the wire ([worker/src/transport.c]): configuration,
    connection state, sending and polling. *)
From S2P Require Import Prelude Envelope.

Definition TRANSPORT_BUFFER_MAX : Z := 4096.

Inductive VomTransportEvent :=
  TRANS_EVENT_CONNECTED | TRANS_EVENT_AUTHENTICATED | TRANS_EVENT_JOINED | TRANS_EVENT_HEARTBEAT_SENT
| TRANS_EVENT_HEARTBEAT_ACKED | TRANS_EVENT_DISCONNECTED | TRANS_EVENT_RECONNECTING | TRANS_EVENT_ERROR.

Inductive VomMsgCode :=
  MSG_CODE_AUTH_REQ | MSG_CODE_AUTH_RESP | MSG_CODE_JOIN_REQ | MSG_CODE_JOIN_RESP
| MSG_CODE_HEARTBEAT | MSG_CODE_CHUNK_ASSIGN | MSG_CODE_CHUNK_ACK | MSG_CODE_CHUNK_REPORT.

Definition msg_value (c : VomMsgCode) : Z :=
  match c with
  | MSG_CODE_AUTH_REQ => 1 | MSG_CODE_AUTH_RESP => 2 | MSG_CODE_JOIN_REQ => 3
  | MSG_CODE_JOIN_RESP => 4 | MSG_CODE_HEARTBEAT => 5 | MSG_CODE_CHUNK_ASSIGN => 6
  | MSG_CODE_CHUNK_ACK => 7 | MSG_CODE_CHUNK_REPORT => 8
  end.

Inductive VomTransportStatus :=
  TRANS_STATUS_SUCCESS | TRANS_STATUS_ERR_VERSION | TRANS_STATUS_ERR_AUTH | TRANS_STATUS_ERR_SIZE
| TRANS_STATUS_ERR_TIMEOUT | TRANS_STATUS_ERR_DISCONNECT.

Record vom_transport_config := {
  tc_worker_id : string;
  tc_server_public_key : string;
  tc_client_public_key : string;
  tc_client_secret_key : string
}.

Inductive transport_call :=
| CallTransEvent (event : VomTransportEvent)
| CallTransMsg (env : envelope) (payload : list Z).

Section Transport.
Context {S : Type} `{Zmq S}.

Record vom_worker_transport_context := {
  wt_sock : option S;
  wt_config : vom_transport_config;
  wt_next_seq_id : Z;
  wt_is_connected : bool;
  wt_is_authenticated : bool;
  wt_is_joined : bool
}.

Definition wt_set (sock : option S) (conn auth joined : bool) (c : vom_worker_transport_context) :
    vom_worker_transport_context :=
  {| wt_sock := sock; wt_config := wt_config c; wt_next_seq_id := wt_next_seq_id c;
     wt_is_connected := conn; wt_is_authenticated := auth; wt_is_joined := joined |}.

Definition empty_config : vom_transport_config :=
  {| tc_worker_id := ""; tc_server_public_key := ""; tc_client_public_key := "";
     tc_client_secret_key := "" |}.

(** [alloc]: whether [calloc] and [zmq_ctx_new] succeed. *)
Definition vom_worker_transport_create (alloc : bool) : ptr vom_worker_transport_context :=
  if alloc then
    Some {| wt_sock := None; wt_config := empty_config; wt_next_seq_id := 1;
            wt_is_connected := false; wt_is_authenticated := false; wt_is_joined := false |}
  else NULL.

Definition vom_worker_transport_configure (config : ptr vom_transport_config)
    (c : vom_worker_transport_context) : VomTransportStatus * vom_worker_transport_context :=
  match config with
  | NULL => (TRANS_STATUS_ERR_VERSION, c)
  | Some cfg =>
      (TRANS_STATUS_SUCCESS,
       {| wt_sock := wt_sock c; wt_config := cfg; wt_next_seq_id := wt_next_seq_id c;
          wt_is_connected := wt_is_connected c; wt_is_authenticated := wt_is_authenticated c;
          wt_is_joined := wt_is_joined c |})
  end.

(** The literal 5, [ZMQ_DEALER]. *)
Definition transport_socket_type : Z := 5.

(** [zmq_socket] is what the library returns for a type of socket (the options
    set), [connect_ok] whether [zmq_connect] succeeds. *)
Definition vom_worker_transport_connect (endpoint : ptr string) (zmq_socket : Z -> ptr S) (connect_ok : bool)
    (c : vom_worker_transport_context) : VomTransportStatus * vom_worker_transport_context :=
  let flags s conn := wt_set s conn (wt_is_authenticated c) (wt_is_joined c) c in
  match endpoint with
  | NULL => (TRANS_STATUS_ERR_DISCONNECT, c)
  | Some _ =>
      match zmq_socket transport_socket_type with
      | NULL => (TRANS_STATUS_ERR_DISCONNECT, flags None (wt_is_connected c))
      | Some s =>
          if connect_ok then (TRANS_STATUS_SUCCESS, flags (Some s) true)
          else (TRANS_STATUS_ERR_DISCONNECT, flags None (wt_is_connected c))
      end
  end.

Definition vom_worker_transport_disconnect (lease_aware : bool) (c : vom_worker_transport_context) :
    VomTransportStatus * vom_worker_transport_context :=
  match wt_sock c with
  | None => (TRANS_STATUS_ERR_DISCONNECT, c)
  | Some _ => (TRANS_STATUS_SUCCESS, wt_set None false false false c)
  end.

(** [stack], [sec] and [usec] as in the router's send. *)
Definition vom_worker_transport_send (code : VomMsgCode) (payload : ptr (list Z)) (length : Z)
    (stack : list Z) (sec usec : Z) (c : vom_worker_transport_context) :
    VomTransportStatus * vom_worker_transport_context :=
  match wt_sock c with
  | None => (TRANS_STATUS_ERR_DISCONNECT, c)
  | Some sock =>
      if negb (wt_is_connected c) then (TRANS_STATUS_ERR_DISCONNECT, c)
      else if length >? TRANSPORT_BUFFER_MAX then (TRANS_STATUS_ERR_SIZE, c)
      else
        let env := {| env_protocol_version := 1;
                      env_message_code := msg_value code;
                      env_payload_length := u32 length;
                      env_sequence_id := wt_next_seq_id c;
                      env_timestamp_ms := u64 (u64 (sec * 1000) + usec / 1000) |} in
        let body := match payload with Some p => p | NULL => drop ENVELOPE_SIZE stack end in
        let buffer := encode_envelope env ++ take (Z.to_nat length) body in
        let (rc, sock) := zmq_send sock buffer false in
        let c := {| wt_sock := Some sock; wt_config := wt_config c;
                    wt_next_seq_id := u64 (wt_next_seq_id c + 1);
                    wt_is_connected := wt_is_connected c;
                    wt_is_authenticated := wt_is_authenticated c; wt_is_joined := wt_is_joined c |} in
        if rc <? 0 then (TRANS_STATUS_ERR_DISCONNECT, c) else (TRANS_STATUS_SUCCESS, c)
  end.

Definition vom_worker_transport_poll (msg_cb event_cb : bool) (c : vom_worker_transport_context) :
    VomTransportStatus * list transport_call * vom_worker_transport_context :=
  match wt_sock c with
  | None => (TRANS_STATUS_ERR_DISCONNECT, [], c)
  | Some sock =>
      let '(rc, buffer, sock) :=
        zmq_recv_dontwait sock (Z.of_nat ENVELOPE_SIZE + TRANSPORT_BUFFER_MAX) in
      let conn := wt_is_connected c in let auth := wt_is_authenticated c in
      let joined := wt_is_joined c in
      let fire ev := if event_cb then [CallTransEvent ev] else [] in
      let same := wt_set (Some sock) conn auth joined c in
      if rc <? 0 then (TRANS_STATUS_SUCCESS, [], same)
      else if rc <? Z.of_nat ENVELOPE_SIZE then (TRANS_STATUS_ERR_SIZE, fire TRANS_EVENT_ERROR, same)
      else
        let env := decode_envelope buffer in
        if negb (env_protocol_version env =? 1) then
          (TRANS_STATUS_ERR_VERSION, fire TRANS_EVENT_ERROR, same)
        else if negb (Z.of_nat ENVELOPE_SIZE + env_payload_length env =? rc) then
          (TRANS_STATUS_ERR_SIZE, fire TRANS_EVENT_ERROR, same)
        else
          let msgs := if msg_cb then [CallTransMsg env (drop ENVELOPE_SIZE buffer)] else [] in
          let '(events, c') :=
            if env_message_code env =? msg_value MSG_CODE_AUTH_RESP
            then (fire TRANS_EVENT_AUTHENTICATED, wt_set (Some sock) conn true joined c)
            else if env_message_code env =? msg_value MSG_CODE_JOIN_RESP
            then (fire TRANS_EVENT_JOINED, wt_set (Some sock) conn auth true c)
            else if env_message_code env =? msg_value MSG_CODE_HEARTBEAT
            then (fire TRANS_EVENT_HEARTBEAT_ACKED, same)
            else ([], same) in
          (TRANS_STATUS_SUCCESS, events ++ msgs, c')
  end.

End Transport.
Arguments vom_worker_transport_context S : clear implicits.
