(* ===== verification/WireProps.v ===== *)
(** The router and the worker's transport on the wire: what is dispatched,
    that what one end frames the same end's receiver understands, and where
    the two ends' framings differ. *)
From S2P Require Import Prelude Envelope Router WorkerTransport.

(** * Sizes *)

Lemma decode_payload_u32 bs : Forall in_u8 bs -> (8 <= length bs)%nat -> in_u32 (env_payload_length (decode_envelope bs)).
Proof.
  intros H Hl. cbn. pose proof (le_value_range (take 4 (drop 4 bs))) as R.
  rewrite length_take, length_drop, Nat.min_l in R by lia. apply R. by apply Forall_take, Forall_drop.
Qed.

(** The size test in 32-bit arithmetic admits exactly the right length. *)
Lemma size_test_exact len pbytes :
  in_u32 len -> 24 <= pbytes < 2 ^ 31 -> u32 (24 + len) = u32 pbytes -> pbytes = 24 + len.
Proof.
  unfold in_u32, u32. intros Hl Hp E. rewrite (Z.mod_small pbytes) in E by lia.
  destruct (Z.lt_ge_cases (24 + len) (2 ^ 32)) as [Hlt|Hge]; [rewrite Z.mod_small in E; lia|].
  exfalso. replace (24 + len) with ((24 + len - 2 ^ 32) + 1 * 2 ^ 32) in E by lia.
  rewrite Z.mod_add, Z.mod_small in E by lia. lia.
Qed.

(** A worker id survives the trip through a frame. *)
Lemma cstr_bytes_of_string s :
  Forall (fun b => b <> 0) (bytes_of_string s) -> cstr_of_bytes (bytes_of_string s) = s.
Proof.
  induction s as [|c s IH]; cbn; [done|]. intros [Hc Hs]%Forall_cons.
  destruct (Z.eqb_spec (Z.of_N (Ascii.N_of_ascii c)) 0); [done|].
  by rewrite N2Z.id, Ascii.ascii_N_embedding, IH.
Qed.

Lemma bytes_of_string_range s : Forall in_u8 (bytes_of_string s).
Proof.
  induction s as [|c s IH]; cbn; constructor; [|done]. unfold in_u8.
  pose proof (Ascii.N_ascii_bounded c). lia.
Qed.

Lemma bytes_of_string_length s : length (bytes_of_string s) = String.length s.
Proof. induction s as [|c s IH]; cbn; [done|]. by rewrite IH. Qed.

Lemma fmap_u8_id bs : Forall in_u8 bs -> u8 <$> bs = bs.
Proof. induction 1 as [|b bs Hb _ IH]; [done|]. cbn [fmap list_fmap]. by rewrite u8_id, IH. Qed.

(** * Dispatch *)

(** Splits the outermost test of [H]. *)
Ltac if_in H :=
  match type of H with
  | (if ?b then _ else _) = _ => destruct b eqn:?
  | _ => progress cbv zeta in H
  end.

(** While there are more frames a receive does not wait. *)
Lemma more_ready {S : Type} `{ZmqLaws S} (s : S) len :
  negb (internal_router_check_frames s) = false -> zmq_recv_wait s len <> None.
Proof.
  unfold internal_router_check_frames. intros E. apply zmq_more_law. destruct (zmq_rcvmore s) as [[]|]; done.
Qed.

(** C27: Whatever arrives, the router hands a message to its callback only
    when the envelope has protocol version 1 and the frame is exactly the
    envelope and the announced payload: then the round succeeds, it is the
    only message and the last call, and the payload passed has the announced
    length (up to the 4096 bytes the buffer holds).  Every other round passes
    no message, no round waits, and one stores past [id_buf] only if the
    identity frame is longer than the buffer. *)
Theorem router_dispatch_sound {S : Type} `{ZmqLaws S} (sock sock' : S) (msg_cb event_cb : bool)
    (e : round_end) (calls : list router_call) :
  round_on msg_cb event_cb sock = (e, calls, sock') ->
  (forall id env payload, CallMsg id env payload ∈ calls ->
     e = Returned ROUTER_STATUS_SUCCESS /\ msg_cb = true /\ env_protocol_version env = 1 /\
     in_u32 (env_payload_length env) /\
     Z.of_nat (length payload) = Z.min (env_payload_length env) ROUTER_PAYLOAD_MAX_LEN /\
     exists events, calls = events ++ [CallMsg id env payload] /\ (length events <= 1)%nat) /\
  (e = OutOfBounds -> fst (fst (zmq_recv_dontwait sock (ROUTER_ID_MAX_LEN - 1))) >= ROUTER_ID_MAX_LEN) /\
  e <> WaitsForFrame.
Proof.
  unfold round_on. destruct (zmq_recv_dontwait sock _) as [[bytes idb] s1] eqn:R1. intros HR.
  repeat (if_in HR; [injection HR as <- <- <-; split; [|split];
    [intros ??? Hin; by apply elem_of_nil in Hin|intros ?; bprop; unfold ROUTER_ID_MAX_LEN in *; cbn; try done; lia|done]|]).
  destruct (zmq_recv_wait s1 1) as [[[dbytes db] s2]|] eqn:R2.
  2: { by destruct (more_ready s1 1). }
  repeat (if_in HR; [injection HR as <- <- <-; split; [|split];
    [intros ??? Hin; by apply elem_of_nil in Hin|done|done]|]).
  destruct (zmq_recv_wait s2 _) as [[[pbytes pbuf] s3]|] eqn:R3.
  2: { by destruct (more_ready s2 (Z.of_nat ENVELOPE_SIZE + ROUTER_PAYLOAD_MAX_LEN)). }
  assert (forall id env payload c, CallMsg id env payload ∉ (if event_cb then [CallEvent c ROUTER_EVENT_TRANSPORT_FAULT] else [])) as Hf.
  { intros id env p c Hin. destruct event_cb; [apply list_elem_of_singleton in Hin; done|by apply elem_of_nil in Hin]. }
  repeat (if_in HR; [injection HR as <- <- <-; split; [intros ??? Hin; by destruct (Hf _ _ _ _ Hin)|by split]|]).
  destruct (zmq_wait_law _ _ _ R3) as ([Hn|(frame & Hrc & Hbs)] & Hint & Hby); [bprop; unfold ENVELOPE_SIZE in *; lia|].
  bprop. unfold ROUTER_PAYLOAD_MAX_LEN, ENVELOPE_SIZE in *.
  assert (length pbuf = Nat.min 4120 (length frame)) as Hlen by (rewrite Hbs, length_take; lia).
  pose proof (decode_payload_u32 pbuf Hby ltac:(lia)) as Hpl.
  assert (pbytes = 24 + env_payload_length (decode_envelope pbuf)) as Hsz by (apply size_test_exact; lia || done).
  injection HR as <- <- <-. split; [|done]. intros id env payload Hin.
  set (evs := match code_event _ with Some _ => _ | None => _ end) in *.
  assert ((forall id env payload, CallMsg id env payload ∉ evs) /\ (length evs <= 1)%nat) as [Hev Hle].
  { unfold evs. destruct (code_event _), event_cb; (split; [|cbn; lia]); intros ??? Hx;
      (by apply elem_of_nil in Hx) || by apply list_elem_of_singleton in Hx. }
  apply elem_of_app in Hin as [Hin|Hin]; [by apply Hev in Hin|].
  destruct msg_cb; [|by apply elem_of_nil in Hin]. apply list_elem_of_singleton in Hin.
  injection Hin as -> -> ->. split_and!; try done; try apply Hpl.
  - rewrite length_drop. lia.
  - by exists evs.
Qed.

Definition demo_env : envelope :=
  {| env_protocol_version := 1; env_message_code := 5; env_payload_length := 2;
     env_sequence_id := 9; env_timestamp_ms := 77 |}.
Definition demo_wire (frames : list (list Z)) : wire :=
  {| w_in := [frames]; w_more := false; w_out := []; w_up := true |}.

Lemma router_dispatch_sound_witness :
  let '(e, calls, _) :=
    round_on true true (demo_wire [bytes_of_string "w1"; []; encode_envelope demo_env ++ [4; 2]]) in
  e = Returned ROUTER_STATUS_SUCCESS /\
  calls = [CallEvent "w1" ROUTER_EVENT_WORKER_HEARTBEAT; CallMsg "w1" demo_env [4; 2]].
Proof.
  destruct (round_on true true (demo_wire [bytes_of_string "w1"; []; encode_envelope demo_env ++ [4; 2]]))
    as [[e calls] s] eqn:E.
  destruct (router_dispatch_sound _ s true true e calls E) as [H _].
  assert (calls = [CallEvent "w1" ROUTER_EVENT_WORKER_HEARTBEAT; CallMsg "w1" demo_env [4; 2]]) as Hc
    by (vm_compute in E |- *; injection E as <- <- <-; reflexivity).
  split; [|exact Hc]. apply (H "w1" demo_env [4; 2]). rewrite Hc. right. left.
Defined.

(** * Framing *)

Definition wire_read (fs : list (list Z)) (ms : list (list (list Z))) (out : list (list Z * bool)) (up : bool) : wire :=
  {| w_in := match fs with [] => ms | _ => fs :: ms end;
     w_more := match fs with [] => false | _ => true end; w_out := out; w_up := up |}.

Lemma wire_next_frame f fs ms more out up len :
  Z.of_nat (length f) < 2 ^ 31 ->
  wire_next {| w_in := (f :: fs) :: ms; w_more := more; w_out := out; w_up := up |} len =
  Some (Z.of_nat (length f), take (Z.to_nat len) (u8 <$> f), wire_read fs ms out up).
Proof. intros H. unfold wire_next. cbn [w_in]. by apply Z.ltb_lt in H as ->. Qed.

Lemma wire_dontwait_frame f fs ms more out up len :
  Z.of_nat (length f) < 2 ^ 31 ->
  wire_recv_dontwait {| w_in := (f :: fs) :: ms; w_more := more; w_out := out; w_up := up |} len =
  (Z.of_nat (length f), take (Z.to_nat len) (u8 <$> f), wire_read fs ms out up).
Proof. intros H. unfold wire_recv_dontwait. by rewrite wire_next_frame. Qed.

Lemma wire_next_read f fs ms out up len :
  Z.of_nat (length f) < 2 ^ 31 ->
  wire_next (wire_read (f :: fs) ms out up) len =
  Some (Z.of_nat (length f), take (Z.to_nat len) (u8 <$> f), wire_read fs ms out up).
Proof. apply wire_next_frame. Qed.

Lemma wire_dontwait_read f fs ms out up len :
  Z.of_nat (length f) < 2 ^ 31 ->
  wire_recv_dontwait (wire_read (f :: fs) ms out up) len =
  (Z.of_nat (length f), take (Z.to_nat len) (u8 <$> f), wire_read fs ms out up).
Proof. apply wire_dontwait_frame. Qed.

Lemma check_frames_read fs ms out up :
  internal_router_check_frames (wire_read fs ms out up) = match fs with [] => false | _ => true end.
Proof. by destruct fs. Qed.

(** Reading one message of three frames from a wire. *)
Lemma round_three id env p more out up :
  Forall (fun b => b <> 0) (bytes_of_string id) -> (String.length id < 64)%nat ->
  envelope_ok env -> env_protocol_version env = 1 -> env_payload_length env = Z.of_nat (length p) ->
  Forall in_u8 p -> Z.of_nat (length p) <= ROUTER_PAYLOAD_MAX_LEN ->
  round_on true true {| w_in := [[bytes_of_string id; []; encode_envelope env ++ p]];
                        w_more := more; w_out := out; w_up := up |} =
  (Returned ROUTER_STATUS_SUCCESS,
   match code_event (env_message_code env) with Some ev => [CallEvent id ev] | None => [] end ++
   [CallMsg id env p],
   {| w_in := []; w_more := false; w_out := out; w_up := up |}).
Proof.
  intros Hz Hid He Hv Hl Hp Hmax. unfold ROUTER_PAYLOAD_MAX_LEN in *.
  assert (length (encode_envelope env ++ p) = (24 + length p)%nat) as Hlen
    by (rewrite length_app, encode_length; done).
  assert (Forall in_u8 (encode_envelope env ++ p)) as Hb.
  { apply Forall_app. split; [|done]. unfold encode_envelope. rewrite !Forall_app.
    split_and!; apply le_bytes_range. }
  unfold round_on. cbn [zmq_recv_dontwait zmq_recv_wait wire_zmq].
  rewrite wire_dontwait_frame by (rewrite bytes_of_string_length; lia).
  rewrite bytes_of_string_length. unfold ROUTER_ID_MAX_LEN.
  destruct (Z.ltb_spec (Z.of_nat (String.length id)) 0); [lia|].
  rewrite Z.geb_leb. destruct (Z.leb_spec 64 (Z.of_nat (String.length id))); [lia|].
  rewrite (fmap_u8_id (bytes_of_string id)) by apply bytes_of_string_range.
  rewrite take_ge by (rewrite bytes_of_string_length; lia). rewrite cstr_bytes_of_string by done.
  rewrite check_frames_read. cbn [negb].
  rewrite wire_next_read by (cbn; lia). change (Z.of_nat (length (@nil Z)) <? 0) with false.
  rewrite check_frames_read. cbn [negb]. rewrite wire_next_read by (rewrite Hlen; lia).
  rewrite Hlen. unfold ENVELOPE_SIZE, ROUTER_PAYLOAD_MAX_LEN.
  destruct (Z.ltb_spec (Z.of_nat (24 + length p)) (Z.of_nat 24)); [lia|].
  rewrite fmap_u8_id by done. rewrite take_ge by (rewrite Hlen; lia).
  rewrite decode_encode by done. rewrite Hv, Hl. change (1 =? 1) with true. cbn [negb].
  rewrite Nat2Z.inj_add, Z.eqb_refl. cbn [negb]. rewrite drop_app_length' by (by rewrite encode_length).
  by destruct (code_event _).
Qed.

(** The router understands its own framing: a message sent to a worker
    through a working socket goes out as identity, empty delimiter and body,
    takes the next sequence number, and a round that receives those frames
    raises the event of its code and hands over the same worker id, envelope
    and payload. *)
Theorem router_loopback (w : string) (code : VomRouterMsgCode) (p stack : list Z) (sec usec seq : Z)
    (s : wire) :
  Forall (fun b => b <> 0) (bytes_of_string w) -> (String.length w < 64)%nat ->
  Forall in_u8 p -> Z.of_nat (length p) <= ROUTER_PAYLOAD_MAX_LEN -> in_u64 seq -> w_up s = true ->
  exists env s',
  vom_master_router_send_to_worker (Some w) code (Some p) (Z.of_nat (length p)) stack sec usec
    {| rt_sock := Some s; rt_next_seq_id := seq; rt_is_running := true |} =
  (ROUTER_STATUS_SUCCESS,
   {| rt_sock := Some s'; rt_next_seq_id := u64 (seq + 1); rt_is_running := true |}) /\
  w_out s' = w_out s ++ [(bytes_of_string w, true); ([], true); (encode_envelope env ++ p, false)] /\
  env_message_code env = router_msg_value code /\ env_sequence_id env = seq /\
  exists s2, round_on true true (demo_wire [bytes_of_string w; []; encode_envelope env ++ p]) =
    (Returned ROUTER_STATUS_SUCCESS,
     match code_event (router_msg_value code) with Some ev => [CallEvent w ev] | None => [] end ++
     [CallMsg w env p], s2).
Proof.
  intros Hz Hw Hp Hmax Hseq Hup.
  set (env := {| env_protocol_version := 1; env_message_code := router_msg_value code;
                 env_payload_length := u32 (Z.of_nat (length p)); env_sequence_id := seq;
                 env_timestamp_ms := u64 (u64 (sec * 1000) + usec / 1000) |}).
  assert (u32 (Z.of_nat (length p)) = Z.of_nat (length p)) as Hu
    by (apply u32_id; unfold in_u32, ROUTER_PAYLOAD_MAX_LEN in *; lia).
  assert (envelope_ok env) as He.
  { unfold envelope_ok, env; cbn -[u32 u64]. split_and!; try apply u32_range; try apply u64_range; try apply Hseq;
      unfold in_u16; try lia; destruct code; cbn; lia. }
  eexists env, _. split.
  { unfold vom_master_router_send_to_worker. cbn [rt_sock rt_is_running rt_next_seq_id negb].
    destruct (Z.gtb_spec (Z.of_nat (length p)) ROUTER_PAYLOAD_MAX_LEN); [lia|].
    fold env. cbn [zmq_send wire_zmq]. unfold wire_send. rewrite Hup. cbn [w_up w_out].
    rewrite Nat2Z.id, firstn_all.
    destruct (Z.ltb_spec (Z.of_nat (length (bytes_of_string w))) 0); [lia|].
    change (Z.of_nat (length (@nil Z)) <? 0) with false. cbn iota. cbn [w_up w_out w_in w_more].
    destruct (Z.ltb_spec (Z.of_nat (length (encode_envelope env ++ p))) 0); [lia|]. reflexivity. }
  split; [cbn [w_out]; by rewrite <- !app_assoc|]. split; [done|]. split; [done|].
  eexists. apply round_three; auto.
Qed.

Lemma router_loopback_witness :
  exists env s',
  vom_master_router_send_to_worker (Some "w1") ROUTER_MSG_CHUNK_ASSIGN (Some [1; 2; 3]) 3 [] 10 5000
    {| rt_sock := Some (demo_wire []); rt_next_seq_id := 4; rt_is_running := true |} =
  (ROUTER_STATUS_SUCCESS, {| rt_sock := Some s'; rt_next_seq_id := 5; rt_is_running := true |}) /\
  env_sequence_id env = 4.
Proof.
  destruct (router_loopback "w1" ROUTER_MSG_CHUNK_ASSIGN [1; 2; 3] [] 10 5000 4 (demo_wire []))
    as (env & s' & H1 & _ & _ & H2 & _).
  - repeat constructor; discriminate.
  - apply Nat.ltb_lt. reflexivity.
  - repeat constructor; unfold in_u8; lia.
  - unfold ROUTER_PAYLOAD_MAX_LEN. cbn. lia.
  - unfold in_u64. lia.
  - reflexivity.
  - exists env, s'. split; [exact H1|exact H2].
Defined.

(** The two ends do not speak the same framing.  A worker's message is
    one body frame, which a ROUTER socket delivers behind the worker's
    identity; every router round refuses it with a size error and without a
    callback, for want of the empty delimiter, and the message is lost.  And
    the delimiter of a message the router sends is taken by the worker's poll
    for a short message (size error and ERROR event) before the next poll
    dispatches the body. *)
Theorem router_worker_framing_mismatch (w : string) (env : envelope) (p : list Z) (more up : bool)
    (out : list (list Z * bool)) (c : vom_worker_transport_context wire) :
  (String.length w < 64)%nat -> envelope_ok env -> env_protocol_version env = 1 ->
  env_payload_length env = Z.of_nat (length p) -> Forall in_u8 p ->
  Z.of_nat (length p) <= TRANSPORT_BUFFER_MAX ->
  let body := encode_envelope env ++ p in
  round_on true true {| w_in := [[bytes_of_string w; body]]; w_more := more; w_out := out; w_up := up |} =
    (Returned ROUTER_STATUS_ERR_SIZE, [], {| w_in := []; w_more := false; w_out := out; w_up := up |}) /\
  (wt_sock c = Some {| w_in := [[[]; body]]; w_more := more; w_out := out; w_up := up |} ->
   exists c1,
   vom_worker_transport_poll true true c = (TRANS_STATUS_ERR_SIZE, [CallTransEvent TRANS_EVENT_ERROR], c1) /\
   exists c2 calls,
   vom_worker_transport_poll true true c1 = (TRANS_STATUS_SUCCESS, calls ++ [CallTransMsg env p], c2)).
Proof.
  intros Hw He Hv Hl Hp Hmax body. unfold TRANSPORT_BUFFER_MAX in *.
  assert (length body = (24 + length p)%nat) as Hlen by (unfold body; rewrite length_app, encode_length; done).
  assert (Forall in_u8 body) as Hb.
  { unfold body. apply Forall_app. split; [|done]. unfold encode_envelope. rewrite !Forall_app.
    split_and!; apply le_bytes_range. }
  split.
  - unfold round_on. cbn [zmq_recv_dontwait zmq_recv_wait wire_zmq].
    rewrite wire_dontwait_frame by (rewrite bytes_of_string_length; lia).
    rewrite bytes_of_string_length. unfold ROUTER_ID_MAX_LEN.
    destruct (Z.ltb_spec (Z.of_nat (String.length w)) 0); [lia|].
    rewrite Z.geb_leb. destruct (Z.leb_spec 64 (Z.of_nat (String.length w))); [lia|].
    rewrite check_frames_read. cbn [negb]. rewrite wire_next_read by (rewrite Hlen; lia).
    destruct (Z.ltb_spec (Z.of_nat (length body)) 0); [lia|]. by rewrite check_frames_read.
  - intros Hs. unfold vom_worker_transport_poll at 1. rewrite Hs. cbn [zmq_recv_dontwait zmq_recv_wait wire_zmq].
    rewrite wire_dontwait_frame by (cbn; lia). change (Z.of_nat (length (@nil Z)) <? 0) with false.
    change (Z.of_nat (length (@nil Z)) <? Z.of_nat ENVELOPE_SIZE) with true. cbn iota.
    eexists. split; [reflexivity|]. unfold vom_worker_transport_poll. cbn [wt_sock wt_set zmq_recv_dontwait wire_zmq].
    rewrite wire_dontwait_read by (rewrite Hlen; lia). rewrite Hlen. unfold ENVELOPE_SIZE, TRANSPORT_BUFFER_MAX.
    destruct (Z.ltb_spec (Z.of_nat (24 + length p)) 0); [lia|].
    destruct (Z.ltb_spec (Z.of_nat (24 + length p)) (Z.of_nat 24)); [lia|].
    rewrite fmap_u8_id by done. rewrite take_ge by (rewrite Hlen; lia). unfold body.
    rewrite decode_encode by done. rewrite Hv, Hl, Nat2Z.inj_add. change (1 =? 1) with true. cbn [negb].
    rewrite Z.eqb_refl. cbn [negb]. rewrite drop_app_length' by (by rewrite encode_length).
    repeat destr_if; eexists _, _; reflexivity.
Qed.

Definition demo_transport (frames : list (list Z)) : vom_worker_transport_context wire :=
  {| wt_sock := Some (demo_wire frames); wt_config := empty_config; wt_next_seq_id := 1;
     wt_is_connected := true; wt_is_authenticated := false; wt_is_joined := false |}.

Lemma router_worker_framing_mismatch_witness :
  exists c1, vom_worker_transport_poll true true (demo_transport [[]; encode_envelope demo_env ++ [4; 2]]) =
    (TRANS_STATUS_ERR_SIZE, [CallTransEvent TRANS_EVENT_ERROR], c1).
Proof.
  destruct (router_worker_framing_mismatch "w1" demo_env [4; 2] false true []
              (demo_transport [[]; encode_envelope demo_env ++ [4; 2]])) as [_ H].
  - apply Nat.ltb_lt. reflexivity.
  - unfold envelope_ok, in_u16, in_u32, in_u64. cbn. lia.
  - reflexivity.
  - reflexivity.
  - repeat constructor; unfold in_u8; lia.
  - unfold TRANSPORT_BUFFER_MAX. cbn. lia.
  - destruct (H eq_refl) as (c1 & H1 & _). exists c1. exact H1.
Defined.

(** * The worker's session *)

Section Session.
Context {S : Type} `{Zmq S}.

(** What a worker does with its transport. *)
Inductive transport_call_op :=
| DoConfigure (config : ptr vom_transport_config)
| DoConnect (endpoint : ptr string) (zmq_socket : Z -> ptr S) (connect_ok : bool)
| DoDisconnect (lease_aware : bool)
| DoPoll (msg_cb event_cb : bool)
| DoSend (code : VomMsgCode) (payload : ptr (list Z)) (length : Z) (stack : list Z) (sec usec : Z).

Definition transport_do (op : transport_call_op) (c : vom_worker_transport_context S) :
    VomTransportStatus * vom_worker_transport_context S :=
  match op with
  | DoConfigure cfg => vom_worker_transport_configure cfg c
  | DoConnect ep sock ok => vom_worker_transport_connect ep sock ok c
  | DoDisconnect b => vom_worker_transport_disconnect b c
  | DoPoll m e => let '(st, _, c) := vom_worker_transport_poll m e c in (st, c)
  | DoSend code p len stack sec usec => vom_worker_transport_send code p len stack sec usec c
  end.

(** The link as the results of the calls tell it: up after a successful
    connection, stale when a later one has failed, down at the start and after
    a disconnection. *)
Inductive link := LinkDown | LinkUp | LinkStale.

Definition link_after (op : transport_call_op) (st : VomTransportStatus) (l : link) : link :=
  match op, st with
  | DoConnect (Some _) _ _, TRANS_STATUS_SUCCESS => LinkUp
  | DoConnect (Some _) _ _, _ => match l with LinkDown => LinkDown | _ => LinkStale end
  | DoDisconnect _, TRANS_STATUS_SUCCESS => LinkDown
  | _, _ => l
  end.

(** The sequence numbers of the messages that were sent, oldest first. *)
Definition sent_after (op : transport_call_op) (st : VomTransportStatus) (next : Z) (q : list Z) : list Z :=
  match op, st with
  | DoSend _ _ _ _ _ _, TRANS_STATUS_SUCCESS => q ++ [next]
  | _, _ => q
  end.

(** Sessions: any calls in any order, a send only before the counter wraps. *)
Inductive wt_history : vom_worker_transport_context S -> list Z -> link -> Prop :=
| wth_create c : vom_worker_transport_create true = Some c -> wt_history c [] LinkDown
| wth_call c q l op st c' : wt_history c q l ->
    match op with DoSend _ _ _ _ _ _ => wt_next_seq_id c + 1 < 2 ^ 64 | _ => True end ->
    transport_do op c = (st, c') ->
    wt_history c' (sent_after op st (wt_next_seq_id c) q) (link_after op st l).

Record wt_ok (c : vom_worker_transport_context S) (q : list Z) (l : link) : Prop := {
  wk_conn : wt_is_connected c = true <-> l <> LinkDown;
  wk_sock : wt_sock c <> None <-> l = LinkUp;
  wk_down : l = LinkDown -> wt_is_authenticated c = false /\ wt_is_joined c = false;
  wk_next : 1 <= wt_next_seq_id c;
  wk_last : forall x, x ∈ q -> x < wt_next_seq_id c;
  wk_inc : forall i j x y, (i < j)%nat -> q !! i = Some x -> q !! j = Some y -> x < y
}.

Lemma poll_flags m e c :
  let c' := snd (vom_worker_transport_poll m e c) in
  wt_next_seq_id c' = wt_next_seq_id c /\ wt_is_connected c' = wt_is_connected c /\
  (wt_sock c' = None <-> wt_sock c = None) /\ (wt_sock c = None -> c' = c).
Proof.
  cbn. unfold vom_worker_transport_poll. destruct (wt_sock c) as [s|] eqn:E; [|done].
  destruct (zmq_recv_dontwait s _) as [[rc buf] s']. repeat (destr_if; [by cbn|]).
  by repeat destr_if; cbn.
Qed.

Lemma send_effect code p len st sec usec c s' c' :
  vom_worker_transport_send code p len st sec usec c = (s', c') ->
  wt_is_connected c' = wt_is_connected c /\ wt_is_authenticated c' = wt_is_authenticated c /\
  wt_is_joined c' = wt_is_joined c /\ (wt_sock c' = None <-> wt_sock c = None) /\
  (wt_next_seq_id c' = u64 (wt_next_seq_id c + 1) \/
   wt_next_seq_id c' = wt_next_seq_id c /\ s' <> TRANS_STATUS_SUCCESS).
Proof.
  unfold vom_worker_transport_send. destruct (wt_sock c) as [s|] eqn:E; [|intros [= <- <-]; rewrite E; by split_and!; auto].
  destr_if; [intros [= <- <-]; rewrite E; by split_and!; auto|].
  destr_if; [intros [= <- <-]; rewrite E; by split_and!; auto|].
  destruct (zmq_send s _ false) as [rc s1]. destr_if; intros [= <- <-]; cbn; by split_and!; auto.
Qed.

Lemma wt_ok_same c q l c' :
  wt_ok c q l -> wt_is_connected c' = wt_is_connected c -> (wt_sock c' = None <-> wt_sock c = None) ->
  (wt_sock c = None -> wt_is_authenticated c' = wt_is_authenticated c /\ wt_is_joined c' = wt_is_joined c) ->
  wt_next_seq_id c' = wt_next_seq_id c -> wt_ok c' q l.
Proof.
  intros [H1 H2 H3 H4 H5 H6] E1 E2 E3 E4. constructor; rewrite ?E4; auto.
  - by rewrite E1.
  - by rewrite E2.
  - intros ->. assert (wt_sock c = None) as N.
    { destruct (wt_sock c) eqn:E; [|done]. assert (LinkDown = LinkUp) by (apply H2; congruence). done. }
    destruct (E3 N) as [-> ->]. by apply H3.
Qed.

Lemma connect_ok ep sock ok c q l st c' : wt_ok c q l -> vom_worker_transport_connect ep sock ok c = (st, c') ->
  wt_ok c' q (link_after (DoConnect ep sock ok) st l).
Proof.
  intros I. pose proof I as [H1 H2 H3 H4 H5 H6]. unfold vom_worker_transport_connect.
  destruct ep; [|intros [= <- <-]; exact I].
  assert (wt_ok (wt_set None (wt_is_connected c) (wt_is_authenticated c) (wt_is_joined c) c) q
    (match l with LinkDown => LinkDown | _ => LinkStale end)) as Failed.
  { constructor; cbn; auto.
    - rewrite H1. by destruct l.
    - by destruct l.
    - destruct l; [auto|done|done]. }
  destruct (sock transport_socket_type) as [sk|]; [destruct ok|]; intros [= <- <-]; [|exact Failed..].
  constructor; cbn; auto; done.
Qed.

Lemma send_ok code p len st sec usec c q l s' c' : wt_ok c q l -> wt_next_seq_id c + 1 < 2 ^ 64 ->
  vom_worker_transport_send code p len st sec usec c = (s', c') ->
  wt_ok c' (sent_after (DoSend code p len st sec usec) s' (wt_next_seq_id c) q) l.
Proof.
  intros I Hn E. destruct (send_effect _ _ _ _ _ _ _ _ _ E) as (E1 & E2 & E3 & E4 & [E5|[E5 E6]]).
  2: { cbn. replace (match s' with TRANS_STATUS_SUCCESS => _ | _ => q end) with q by (by destruct s').
       by eapply wt_ok_same. }
  pose proof I as [H1 H2 H3 H4 H5 H6]. rewrite u64_id in E5 by (unfold in_u64; lia).
  assert (wt_ok c' q l) as K.
  { constructor; rewrite ?E1, ?E2, ?E3, ?E4, ?E5; auto; [lia|]. intros x Hx. specialize (H5 x Hx). lia. }
  destruct s'; try exact K. destruct K as [K1 K2 K3 K4 K5 K6]. cbn. constructor; auto.
  - intros x. rewrite elem_of_app, list_elem_of_singleton. intros [?| ->]; [auto|lia].
  - intros i j x y Hij Hi Hj. apply lookup_app_Some in Hj as [Hj|[Hge Hj]].
    + rewrite lookup_app_l in Hi by (apply lookup_lt_Some in Hj; lia). eauto.
    + apply list_lookup_singleton_Some in Hj as [Hj <-].
      rewrite lookup_app_l in Hi by lia. by apply H5, list_elem_of_lookup_2 with i.
Qed.

Lemma wt_history_ok c q l : wt_history c q l -> wt_ok c q l.
Proof.
  induction 1 as [c E|c q l op st c' _ I Hn E].
  - injection E as <-. constructor; cbn; try done; try lia. intros x Hx. by apply elem_of_nil in Hx.
  - destruct op as [cfg|ep sock ok|b|m e|code p len stk sec usec]; cbn [transport_do] in E.
    + destruct cfg; injection E as <- <-; [|exact I]. by eapply wt_ok_same.
    + by eapply connect_ok.
    + pose proof I as [H1 H2 H3 H4 H5 H6]. unfold vom_worker_transport_disconnect in E.
      destruct (wt_sock c); injection E as <- <-; [|exact I]. cbn. constructor; cbn; auto; done.
    + destruct (poll_flags m e c) as (E1 & E2 & E3 & E4).
      destruct (vom_worker_transport_poll m e c) as [[st' calls] c1]. injection E as <- <-. cbn [snd] in *.
      eapply wt_ok_same; [exact I|done|done| |done]. intros N. by rewrite (E4 N).
    + by eapply send_ok.
Qed.

(** C29: A transport session as its caller sees it: over any calls in any order
    (configuration, connections, also while connected, sends, polls and
    disconnections, with any results of the messaging library), the results
    tell the state of the link.  The context counts as connected exactly when
    the link is up or stale, it has a socket exactly when the link is up, and it
    is neither authenticated nor joined while the link is down.  Without a
    socket, so also in a stale session, every send, poll and disconnection is
    refused and changes nothing; with one a disconnection takes the link down.
    The sequence numbers of the messages sent strictly increase, as long as the
    64-bit counter does not wrap. *)
Theorem transport_session_sound (c : vom_worker_transport_context S) (q : list Z) (l : link) :
  wt_history c q l ->
  (wt_is_connected c = true <-> l <> LinkDown) /\ (wt_sock c <> None <-> l = LinkUp) /\
  (l = LinkDown -> wt_is_authenticated c = false /\ wt_is_joined c = false) /\
  (forall op, l <> LinkUp -> match op with DoSend _ _ _ _ _ _ | DoPoll _ _ | DoDisconnect _ => True | _ => False end ->
     transport_do op c = (TRANS_STATUS_ERR_DISCONNECT, c)) /\
  (forall b, l = LinkUp -> fst (transport_do (DoDisconnect b) c) = TRANS_STATUS_SUCCESS) /\
  (forall i j x y, (i < j)%nat -> q !! i = Some x -> q !! j = Some y -> x < y).
Proof.
  intros R. destruct (wt_history_ok c q l R) as [H1 H2 H3 _ _ H6]. split_and!; auto; try apply H1; try apply H2.
  - intros op Hl Hop. assert (wt_sock c = None) as N.
    { destruct (wt_sock c) eqn:E; [|done]. destruct Hl. apply H2. congruence. }
    destruct op; try done; cbn; unfold vom_worker_transport_disconnect, vom_worker_transport_poll, vom_worker_transport_send;
      by rewrite N.
  - intros b Hl. cbn. unfold vom_worker_transport_disconnect. by destruct (wt_sock c); [|destruct (proj2 H2 Hl)].
Qed.

End Session.
Arguments transport_call_op S : clear implicits.

(** A connection, a message, and a second connection that fails. *)
Lemma transport_session_sound_witness :
  let c0 := {| wt_sock := None; wt_config := empty_config; wt_next_seq_id := 1;
               wt_is_connected := false; wt_is_authenticated := false; wt_is_joined := false |} in
  let c1 := snd (transport_do (DoConnect (Some "tcp://m"%string) (fun _ => Some (demo_wire [])) true) c0) in
  let c2 := snd (transport_do (DoSend MSG_CODE_JOIN_REQ None 0 [] 1 1) c1) in
  let c3 := snd (transport_do (DoConnect (Some "tcp://m"%string) (fun _ => None) true) c2) in
  wt_is_connected c3 = true /\ transport_do (DoSend MSG_CODE_HEARTBEAT None 0 [] 2 2) c3 = (TRANS_STATUS_ERR_DISCONNECT, c3).
Proof.
  intros c0 c1 c2 c3.
  assert (wt_history c0 [] LinkDown) as H0 by (apply wth_create; reflexivity).
  pose proof (wth_call _ _ _ (DoConnect (Some "tcp://m"%string) (fun _ => Some (demo_wire [])) true) _ c1 H0 I eq_refl) as H1.
  pose proof (wth_call _ _ _ (DoSend MSG_CODE_JOIN_REQ None 0 [] 1 1) _ c2 H1 eq_refl eq_refl) as H2.
  pose proof (wth_call _ _ _ (DoConnect (Some "tcp://m"%string) (fun _ => None) true) _ c3 H2 I eq_refl) as H3.
  destruct (transport_session_sound c3 _ _ H3) as (C & _ & _ & R & _).
  split; [apply C; discriminate|]. apply R; [discriminate|exact I].
Defined.

(** A second connection attempt that fails leaves the flags of the first. *)
Example failed_reconnect_keeps_flags :
  let c := demo_transport [] in
  let c' := snd (vom_worker_transport_connect (Some "tcp://m") (fun _ => NULL) false c) in
  wt_sock c' = None /\ wt_is_connected c' = true /\
  fst (vom_worker_transport_disconnect true c') = TRANS_STATUS_ERR_DISCONNECT.
Proof. vm_compute. repeat split. Qed.
