(* ===== verification/MasterMain.v ===== *)
(** The master daemon ([master/src/main.c]): start-up with recovery from the
    write-ahead file, the rounds of its event loop (one poll of the ROUTER
    socket with the handlers for joins and heartbeats, then the periodic
    persistence), and restarts.

    The operating system and the messaging library are arguments of a round:
    the clock, the contents of the uninitialised stack buffers, the signals that
    interrupt a receive, and whether the file operations succeed.  Only the
    receive of the identity has the flag DONTWAIT; the other two wait, for ever
    if no frame comes.  Console output is not modelled. *)
From stdpp Require Import gmap.
From S2P Require Import Prelude CFloat SnapshotRing ClusterState ClusterStateProps Envelope Router WireProps.

Definition WAL_PATH_DEFAULT : string := "master_cluster.wal".
Definition SCHEDULER_TICK_INTERVAL_MS : Z := 1000.

(** What one round finds: [time (NULL)], the old bytes of [id_buf] and [pbuf],
    the success of [fopen] and [fwrite], and whether a signal ends the wait for
    the delimiter and the one for the body. *)
Record round_env := {
  re_time : Z;
  re_interrupt_delim : bool;
  re_interrupt_body : bool;
  re_id_stack : list Z;
  re_pbuf_stack : list Z;
  re_wb_ok : bool;
  re_fwrite_ok : bool
}.

(** What becomes of a poll or a round: it comes to its end, or it waits for ever
    in a receive, or it stores past [id_buf]. *)
Inductive outcome (A : Type) := Ends (a : A) | WaitsForEver | Overruns.
Arguments Ends {A} a.
Arguments WaitsForEver {A}.
Arguments Overruns {A}.

#[export] Instance outcome_bind : MBind outcome := fun A B f o =>
  match o with Ends a => f a | WaitsForEver => WaitsForEver | Overruns => Overruns end.

Definition or_else {A} (o : outcome A) (r : option A) : outcome A := match r with Some a => Ends a | None => o end.

(** ** The identity buffer *)

(** [id_buf] after the receive and the store of the terminator; [None] if that
    store is past the 64 bytes. *)
Definition id_buffer (stack bs : list Z) (bytes : Z) : option (list Z) :=
  if bytes <? 64 then Some (<[Z.to_nat bytes := 0]> (bs ++ drop (length bs) stack)) else None.

(** [(uint32_t) atoi (id_buf + 7)], with 0 replaced by 1. *)
Definition worker_number (id_buf : list Z) : Z :=
  let n := u32 (atoi (cstr_of_bytes (drop 7 id_buf))) in
  if n =? 0 then 1 else n.

(** ** The handlers *)

(** [cluster_state->master_state.state_generation_version++] *)
Definition ctx_bump (c : ClusterStateContext) : ClusterStateContext :=
  ctx_set_state (bump_version (master_state c)) c.

(** The record built from a JOIN request; [payload] is the rest of [pbuf]. *)
Definition join_member (id_buf : list Z) (env : envelope) (payload : list Z) (now_ms : Z) : WorkerMember :=
  {| wm_worker_id := worker_number id_buf;
     wm_health := WORKER_HEALTH_ONLINE;
     wm_last_seen_timestamp_ms := now_ms;
     wm_resources :=
       if env_payload_length env >=? 24 then
         {| wr_total_memory_bytes := le_value (take 8 (drop 4 payload)); wr_reserved_memory_bytes := 0;
            wr_total_cores := le_value (take 4 payload); wr_reserved_cores := 0 |}
       else
         {| wr_total_memory_bytes := 4 * 1024 * 1024 * 1024; wr_reserved_memory_bytes := 0;
            wr_total_cores := 4; wr_reserved_cores := 0 |} |}.

Definition join_response (env : envelope) (now_ms : Z) : envelope :=
  {| env_protocol_version := 1; env_message_code := router_msg_value ROUTER_MSG_JOIN_RESP;
     env_payload_length := 0; env_sequence_id := env_sequence_id env; env_timestamp_ms := now_ms |}.

Section Master.
Context {S : Type} `{Zmq S}.

(** The three frames of the reply; their results are ignored. *)
Definition send_join_response (id_buf : list Z) (env : envelope) (now_ms : Z) (sock : S) : S :=
  let sock := (zmq_send sock (bytes_of_string (cstr_of_bytes id_buf)) true).2 in
  let sock := (zmq_send sock [] true).2 in
  (zmq_send sock (encode_envelope (join_response env now_ms)) false).2.

(** The [switch] on the message code. *)
Definition dispatch (id_buf : list Z) (env : envelope) (payload : list Z) (now_ms : Z)
    (c : ClusterStateContext) (sock : S) : ClusterStateContext * S :=
  if env_message_code env =? router_msg_value ROUTER_MSG_JOIN_REQ then
    let c := (cluster_state_register_worker (Some (join_member id_buf env payload now_ms)) c).2 in
    (ctx_bump c, send_join_response id_buf env now_ms sock)
  else if env_message_code env =? router_msg_value ROUTER_MSG_HEARTBEAT then
    let c := (cluster_state_process_heartbeat (worker_number id_buf) now_ms c).2 in
    (ctx_bump c, sock)
  else (c, sock).

(** The poll of the socket. *)
Definition master_poll (re : round_env) (now_ms : Z) (c : ClusterStateContext) (sock : S) :
    outcome (ClusterStateContext * S) :=
  let '(bytes, id, sock) := zmq_recv_dontwait sock 63 in
  if bytes >? 0 then
    id_buf ← or_else Overruns (id_buffer (re_id_stack re) id bytes);
    '(_, _, sock) ← or_else WaitsForEver (zmq_recv_blocking (re_interrupt_delim re) sock 1);
    '(pbytes, body, sock) ← or_else WaitsForEver (zmq_recv_blocking (re_interrupt_body re) sock 4120);
    if pbytes >=? 24 then
      let pbuf := body ++ drop (length body) (re_pbuf_stack re) in
      let env := decode_envelope pbuf in
      if env_protocol_version env =? 1 then
        Ends (dispatch id_buf env (drop ENVELOPE_SIZE pbuf) now_ms c sock)
      else Ends (c, sock)
    else Ends (c, sock)
  else Ends (c, sock).

Record master := {
  ms_cluster : ClusterStateContext;
  ms_sock : S;
  ms_files : wal_files;
  ms_simulated_tick_count : Z;
  ms_last_wal_persist_ms : Z;
  ms_last_scheduler_tick_ms : Z
}.

(** One turn of the [while] loop. *)
Definition master_round (re : round_env) (m : master) : outcome master :=
  let now_ms := u64 (u64 (re_time re) * 1000) in
  '(c, sock) ← master_poll re now_ms (ms_cluster m) (ms_sock m);
  let tick := u64 (now_ms - ms_last_scheduler_tick_ms m) >=? SCHEDULER_TICK_INTERVAL_MS in
  let persist := u64 (now_ms - ms_last_wal_persist_ms m) >=? 1000 in
  Ends {| ms_cluster := c; ms_sock := sock;
          ms_files := if persist
                      then (cluster_state_persist_to_wal (re_wb_ok re) (re_fwrite_ok re)
                              (Some WAL_PATH_DEFAULT) c (ms_files m)).2
                      else ms_files m;
          ms_simulated_tick_count := u64 (ms_simulated_tick_count m + 1);
          ms_last_wal_persist_ms := if persist then now_ms else ms_last_wal_persist_ms m;
          ms_last_scheduler_tick_ms := if tick then now_ms else ms_last_scheduler_tick_ms m |}.

(** Start-up before the loop: [uuid] is what [generate_cluster_uuid] wrote,
    [sock] the bound socket ([NULL] if the context, the socket or the bind
    failed), [rb_ok] whether the write-ahead file can be read.  [None] is
    [EXIT_FAILURE]. *)
Definition master_boot (alloc : bool) (uuid : string) (epoch : Z) (rb_ok : bool) (sock : ptr S)
    (fs : wal_files) : option master :=
  c ← cluster_state_create alloc (Some uuid) (u64 epoch);
  let c := (cluster_state_recover_from_wal rb_ok (Some WAL_PATH_DEFAULT) fs c).2 in
  sock ← sock;
  let '(snapshot, c) := cluster_state_acquire_snapshot c in
  let c := cluster_state_release_snapshot (Some snapshot) c in
  Some {| ms_cluster := c; ms_sock := sock; ms_files := fs; ms_simulated_tick_count := 0;
          ms_last_wal_persist_ms := 0; ms_last_scheduler_tick_ms := 0 |}.

(** Runs of the daemon: a first start without files, rounds, and a crash or
    shutdown at any point followed by a new start on the files left behind. *)
Inductive master_reachable : master -> Prop :=
| MA_first alloc uuid epoch rb sock m :
    master_boot alloc uuid epoch rb sock ∅ = Some m -> master_reachable m
| MA_round re m m' : master_reachable m -> master_round re m = Ends m' -> master_reachable m'
| MA_restart alloc uuid epoch rb sock m m' :
    master_reachable m -> master_boot alloc uuid epoch rb sock (ms_files m) = Some m' ->
    master_reachable m'.

(** * Invariant *)

Definition master_inv (m : master) : Prop := cs_inv (ms_cluster m, ms_files m).

Lemma ctx_bump_ok c : state_ok (master_state c) -> state_ok (master_state (ctx_bump c)).
Proof. apply bump_version_ok. Qed.

Lemma dispatch_ok id env p now c sock :
  state_ok (master_state c) -> state_ok (master_state (dispatch id env p now c sock).1).
Proof.
  intros I. unfold dispatch. destruct (_ =? _); [by apply ctx_bump_ok, register_worker_ok|].
  destruct (_ =? _); [by apply ctx_bump_ok, heartbeat_ok|done].
Qed.

(** A poll leaves the cluster alone or dispatches one message. *)
Lemma poll_cases re now c sock c' sock' :
  master_poll re now c sock = Ends (c', sock') ->
  c' = c \/ exists id env p s, c' = (dispatch id env p now c s).1.
Proof.
  unfold master_poll. destruct (zmq_recv_dontwait sock 63) as [[bytes id] s1].
  destruct (bytes >? 0); [|intros [= <- <-]; by left].
  destruct (id_buffer _ id bytes) as [buf|]; [|done]. cbn [or_else mbind outcome_bind].
  destruct (zmq_recv_blocking _ s1 1) as [[[? ?] s2]|]; [|done]. cbn [or_else mbind outcome_bind].
  destruct (zmq_recv_blocking _ s2 4120) as [[[pb body] s3]|]; [|done]. cbn [or_else mbind outcome_bind].
  destruct (pb >=? 24); [|intros [= <- <-]; by left].
  destruct (_ =? 1); [|intros [= <- <-]; by left].
  intros E. right. eexists _, _, _, _. injection E as ->. reflexivity.
Qed.

Lemma poll_ok re now c sock c' sock' :
  state_ok (master_state c) -> master_poll re now c sock = Ends (c', sock') -> state_ok (master_state c').
Proof. intros I [->|(id & env & p & s & ->)]%poll_cases; [done|by apply dispatch_ok]. Qed.

Lemma round_cases re m m' : master_round re m = Ends m' ->
  exists c sock, master_poll re (u64 (u64 (re_time re) * 1000)) (ms_cluster m) (ms_sock m) = Ends (c, sock) /\
    ms_cluster m' = c /\ (ms_files m' = ms_files m \/
      ms_files m' = (cluster_state_persist_to_wal (re_wb_ok re) (re_fwrite_ok re) (Some WAL_PATH_DEFAULT) c (ms_files m)).2).
Proof.
  unfold master_round. cbv zeta. destruct (master_poll _ _ _ _) as [[c sock]| |]; [|done..]. intros E. injection E as <-.
  exists c, sock. split; [done|]. split; [done|]. cbn [ms_files]. destr_if; auto.
Qed.

Lemma round_inv re m m' : master_inv m -> master_round re m = Ends m' -> master_inv m'.
Proof.
  intros [I F] (c & sock & P & E1 & E2)%round_cases.
  pose proof (poll_ok _ _ _ _ _ _ I P) as I'. unfold master_inv. rewrite E1.
  destruct E2 as [->| ->]; [by split|].
  exact (cs_step_inv (c, ms_files m) _ (conj I' F) 
    (cs_persist c (ms_files m) (re_wb_ok re) (re_fwrite_ok re) (Some WAL_PATH_DEFAULT))).
Qed.

Lemma boot_inv alloc uuid epoch rb sock fs m :
  (forall p s, fs !! p = Some (Some s) -> state_ok s) ->
  master_boot alloc uuid epoch rb sock fs = Some m -> master_inv m.
Proof.
  intros F E. unfold master_boot in E. destruct alloc; [|done].
  destruct (cluster_state_create true (Some uuid) (u64 epoch)) as [c|] eqn:C; [|done].
  cbn [mbind option_bind] in E. destruct sock as [sock|]; [|done]. cbn [mbind option_bind] in E.
  pose proof (create_ok _ _ _ C) as I.
  set (c1 := (cluster_state_recover_from_wal _ _ _ _).2) in E.
  assert (cs_inv (c1, fs)) as I1 by exact (cs_step_inv (c, fs) _ (conj I F) (cs_recover c fs rb _)).
  assert (cs_inv ((cluster_state_acquire_snapshot c1).2, fs)) as I2
    by exact (cs_step_inv (c1, fs) _ I1 (cs_acquire c1 fs)).
  destruct (cluster_state_acquire_snapshot c1) as [snap c2]. injection E as <-.
  exact (cs_step_inv (c2, fs) _ I2 (cs_release c2 fs (Some snap))).
Qed.

Lemma master_reachable_inv m : master_reachable m -> master_inv m.
Proof.
  induction 1 as [alloc uuid epoch rb sock m B|re m m' _ IH R|alloc uuid epoch rb sock m m' _ IH B].
  - eapply boot_inv; [|exact B]. intros p s Hs. by rewrite lookup_empty in Hs.
  - by eapply round_inv.
  - eapply boot_inv; [|exact B]. apply IH.
Qed.

(** ** Membership only grows *)

Definition member_ids (c : ClusterStateContext) : list Z := wm_worker_id <$> active_workers (master_state c).

Lemma register_ids w c :
  member_ids c `prefix_of` member_ids (cluster_state_register_worker (Some w) c).2.
Proof.
  unfold cluster_state_register_worker. destr_if; [done|]. destruct (find_idx _ _); [done|].
  unfold member_ids. cbn [snd ctx_set_state master_state internal_recalculate_aggregates cs_set_metrics
    active_workers]. destr_if; cbn [cs_set_status bump_version cs_set_workers active_workers];
    rewrite fmap_app; by apply prefix_app_r.
Qed.

Lemma heartbeat_ids id t c : member_ids (cluster_state_process_heartbeat id t c).2 = member_ids c.
Proof.
  unfold cluster_state_process_heartbeat. destruct (find_idx _ _) as [i|]; [|done].
  unfold member_ids. cbn. by rewrite fmap_alter_same.
Qed.

Lemma dispatch_ids id env p now c s : member_ids c `prefix_of` member_ids (dispatch id env p now c s).1.
Proof.
  unfold dispatch. destruct (_ =? _); [apply register_ids|]. destruct (_ =? _); [|done].
  rewrite <- (heartbeat_ids (worker_number id) now c). reflexivity.
Qed.

Lemma poll_ids re now c sock c' sock' :
  master_poll re now c sock = Ends (c', sock') -> member_ids c `prefix_of` member_ids c'.
Proof. intros [->|(id & env & p & s & ->)]%poll_cases; [done|apply dispatch_ids]. Qed.

(** * Properties *)

(** C11: The master daemon keeps its state consistent whatever it receives:
    in every state reached by rounds with arbitrary traffic, clocks, stack
    contents and file failures, and by crashes and restarts at any point, the
    tables fit their arrays with distinct keys, the metrics are exact, the
    cluster is operational exactly if it has members, every write-ahead image
    satisfies the same, and a further round only ever adds members. *)
Theorem master_daemon_consistent (m : master) :
  master_reachable m ->
  let s := master_state (ms_cluster m) in
  (length (active_workers s) <= CLUSTER_MAX_WORKERS)%nat /\ NoDup (member_ids (ms_cluster m)) /\
  metrics s = metrics_of (active_workers s) /\
  (global_status s = CLUSTER_STATUS_OPERATIONAL <-> active_workers s <> []) /\
  (forall p i, ms_files m !! p = Some (Some i) -> state_ok i) /\
  (forall re m', master_round re m = Ends m' ->
     member_ids (ms_cluster m) `prefix_of` member_ids (ms_cluster m')).
Proof.
  intros R. destruct (master_reachable_inv m R) as [[H1 H2 H3 H4 H5 H6 H7 H8 H9] F]. cbn in *.
  do 3 (split; [done|]). split; [rewrite H9; by destruct (active_workers (master_state (ms_cluster m)))|].
  split; [done|]. intros re m' (c & sock & P & -> & _)%round_cases. by eapply poll_ids.
Qed.

End Master.
Arguments master S : clear implicits.

(** ** A join over the wire *)

(** The number a master reads out of an identity of at least seven characters. *)
Definition number_of (id : string) : Z :=
  let n := u32 (atoi (str_skip 7 id)) in if n =? 0 then 1 else n.

Lemma cstr_of_bytes_stop s rest :
  Forall (fun b => b <> 0) (bytes_of_string s) -> cstr_of_bytes (bytes_of_string s ++ 0 :: rest) = s.
Proof.
  induction s as [|c s IH]; cbn; [done|]. intros [Hc Hs]%Forall_cons.
  destruct (Z.eqb_spec (Z.of_N (Ascii.N_of_ascii c)) 0); [done|].
  by rewrite N2Z.id, Ascii.ascii_N_embedding, IH.
Qed.

Lemma drop_bytes_of_string n s : drop n (bytes_of_string s) = bytes_of_string (str_skip n s).
Proof. revert n. induction s as [|c s IH]; intros [|n]; cbn; done || apply IH. Qed.

(** The identity buffer holds the identity and its terminator. *)
Lemma id_buffer_string stack id :
  (String.length id < 64)%nat -> length stack = 64%nat ->
  exists rest, id_buffer stack (bytes_of_string id) (Z.of_nat (String.length id)) =
               Some (bytes_of_string id ++ 0 :: rest).
Proof.
  intros Hl Hs. unfold id_buffer. rewrite (proj2 (Z.ltb_lt _ _)) by lia. rewrite Nat2Z.id.
  rewrite bytes_of_string_length. destruct (drop (String.length id) stack) as [|x rest] eqn:E.
  { apply (f_equal length) in E. rewrite length_drop in E. cbn in E. lia. }
  exists rest. f_equal. rewrite insert_app_r_alt by (rewrite bytes_of_string_length; lia).
  by rewrite bytes_of_string_length, Nat.sub_diag.
Qed.

Lemma worker_number_string id rest :
  (7 <= String.length id)%nat -> Forall (fun b => b <> 0) (bytes_of_string id) ->
  worker_number (bytes_of_string id ++ 0 :: rest) = number_of id.
Proof.
  intros Hl Hz. unfold worker_number, number_of. rewrite drop_app_le by (by rewrite bytes_of_string_length).
  rewrite drop_bytes_of_string, cstr_of_bytes_stop; [done|]. rewrite <- drop_bytes_of_string.
  by apply Forall_drop.
Qed.

(** What [pbuf] holds behind the envelope: the payload, as much of it as fits,
    and then what was there before. *)
Definition payload_buffer (re : round_env) (p : list Z) : list Z :=
  take 4096 p ++ drop (24 + length (take 4096 p)) (re_pbuf_stack re).

(** No signal interrupts the poll. *)
Definition undisturbed (re : round_env) : Prop := re_interrupt_delim re = false /\ re_interrupt_body re = false.

(** One message of three frames, polled from a wire. *)
Lemma poll_three re now c id d env p ms more out up :
  undisturbed re -> Forall (fun b => b <> 0) (bytes_of_string id) -> (0 < String.length id < 64)%nat ->
  length (re_id_stack re) = 64%nat -> Z.of_nat (length d) < 2 ^ 31 ->
  envelope_ok env -> env_protocol_version env = 1 -> Forall in_u8 p -> Z.of_nat (24 + length p) < 2 ^ 31 ->
  exists rest,
  master_poll re now c
    {| w_in := [bytes_of_string id; d; encode_envelope env ++ p] :: ms; w_more := more; w_out := out; w_up := up |} =
  Ends (dispatch (bytes_of_string id ++ 0 :: rest) env (payload_buffer re p) now c
          {| w_in := ms; w_more := false; w_out := out; w_up := up |}).
Proof.
  intros [U1 U2] Hz Hid Hs Hd He Hv Hp Hmax.
  assert (length (encode_envelope env ++ p) = (24 + length p)%nat) as Hlen
    by (rewrite length_app, encode_length; done).
  assert (Forall in_u8 (encode_envelope env ++ p)) as Hb.
  { apply Forall_app. split; [|done]. unfold encode_envelope. rewrite !Forall_app.
    split_and!; apply le_bytes_range. }
  destruct (id_buffer_string (re_id_stack re) id) as [rest Hbuf]; [lia|done|]. exists rest.
  unfold master_poll, zmq_recv_blocking. rewrite U1, U2. cbn [zmq_recv_dontwait zmq_recv_wait wire_zmq].
  rewrite wire_dontwait_frame by (rewrite bytes_of_string_length; lia).
  rewrite (fmap_u8_id (bytes_of_string id)) by apply bytes_of_string_range.
  rewrite take_ge by (rewrite bytes_of_string_length; lia). rewrite bytes_of_string_length.
  rewrite Z.gtb_ltb, (proj2 (Z.ltb_lt _ _)) by lia. rewrite Hbuf. cbn [or_else mbind outcome_bind].
  rewrite wire_next_read by done. cbn [or_else mbind outcome_bind].
  rewrite wire_next_read by (rewrite Hlen; lia). cbn [or_else mbind outcome_bind].
  rewrite fmap_u8_id by done. rewrite Hlen. rewrite Z.geb_leb, (proj2 (Z.leb_le _ _)) by lia.
  assert (take (Z.to_nat 4120) (encode_envelope env ++ p) = encode_envelope env ++ take 4096 p) as ->.
  { rewrite take_app, encode_length, take_ge by (rewrite encode_length; unfold ENVELOPE_SIZE; lia). done. }
  rewrite <- app_assoc, decode_encode by done. rewrite Hv. change (1 =? 1) with true. cbv iota.
  rewrite drop_app_length' by (by rewrite encode_length). unfold payload_buffer.
  by rewrite length_app, encode_length.
Qed.

(** The resources a join request asks for: those at the front of [pbuf] if it
    announces 24 bytes or more, otherwise 4 cores and 4 GiB. *)
Definition join_resources (announced : Z) (pbuf : list Z) : WorkerResources :=
  if announced >=? 24 then
    {| wr_total_memory_bytes := le_value (take 8 (drop 4 pbuf)); wr_reserved_memory_bytes := 0;
       wr_total_cores := le_value (take 4 pbuf); wr_reserved_cores := 0 |}
  else
    {| wr_total_memory_bytes := 4 * 1024 * 1024 * 1024; wr_reserved_memory_bytes := 0;
       wr_total_cores := 4; wr_reserved_cores := 0 |}.

Lemma join_member_eq id rest env pbuf now :
  Forall (fun b => b <> 0) (bytes_of_string id) -> (7 <= String.length id)%nat ->
  join_member (bytes_of_string id ++ 0 :: rest) env pbuf now =
  {| wm_worker_id := number_of id; wm_health := WORKER_HEALTH_ONLINE; wm_last_seen_timestamp_ms := now;
     wm_resources := join_resources (env_payload_length env) pbuf |}.
Proof. intros Hz Hl. unfold join_member. by rewrite worker_number_string. Qed.

(** C12: The join handshake: when a join request (protocol version 1) of a
    worker whose identity has 7 to 63 characters arrives in three frames, the
    second of any content and the third an envelope with a payload of any
    size, and no signal interrupts the poll, the master answers the same
    identity, on a socket that can send, with an empty delimiter and a
    JOIN_RESP that echoes the sequence number; the worker becomes a member
    under the number in its identity, online, exactly if that number is not a
    member and fewer than 32 are, and otherwise the members stay as they are.
    A request that announces less than 24 bytes of payload registers 4 cores
    and 4 GiB, whatever it carries; one that announces more registers the 4 and
    8 bytes behind the envelope, taken from the payload if it has 12 bytes and
    from what the buffer held where it is shorter.  The version grows with
    every request. *)
Theorem master_join_handshake (re : round_env) (now : Z) (c : ClusterStateContext) (id : string)
    (d payload : list Z) (env : envelope) (ms : list (list (list Z))) (more : bool)
    (out : list (list Z * bool)) :
  undisturbed re -> Forall (fun b => b <> 0) (bytes_of_string id) -> (7 <= String.length id < 64)%nat ->
  length (re_id_stack re) = 64%nat -> Z.of_nat (length d) < 2 ^ 31 ->
  envelope_ok env -> env_protocol_version env = 1 ->
  env_message_code env = router_msg_value ROUTER_MSG_JOIN_REQ ->
  Forall in_u8 payload -> Z.of_nat (24 + length payload) < 2 ^ 31 ->
  exists c' s', master_poll re now c
    {| w_in := [bytes_of_string id; d; encode_envelope env ++ payload] :: ms;
       w_more := more; w_out := out; w_up := true |} = Ends (c', s') /\
  w_in s' = ms /\
  w_out s' = out ++ [(bytes_of_string id, true); ([], true); (encode_envelope (join_response env now), false)] /\
  let pbuf := take 4096 payload ++ drop (24 + length (take 4096 payload)) (re_pbuf_stack re) in
  let resources :=
    if env_payload_length env >=? 24 then
      {| wr_total_memory_bytes := le_value (take 8 (drop 4 pbuf)); wr_reserved_memory_bytes := 0;
         wr_total_cores := le_value (take 4 pbuf); wr_reserved_cores := 0 |}
    else
      {| wr_total_memory_bytes := 2 ^ 32; wr_reserved_memory_bytes := 0; wr_total_cores := 4; wr_reserved_cores := 0 |} in
  (12 <= length payload -> take 4 pbuf = take 4 payload /\ take 8 (drop 4 pbuf) = take 8 (drop 4 payload))%nat /\
  if bool_decide (number_of id ∈ member_ids c) || (CLUSTER_MAX_WORKERS <=? length (member_ids c))%nat then
    master_state c' = bump_version (master_state c)
  else
    active_workers (master_state c') = active_workers (master_state c) ++
      [{| wm_worker_id := number_of id; wm_health := WORKER_HEALTH_ONLINE; wm_last_seen_timestamp_ms := now;
          wm_resources := resources |}] /\
    active_leases (master_state c') = active_leases (master_state c) /\
    state_generation_version (master_state c') = u64 (u64 (state_generation_version (master_state c) + 1) + 1).
Proof.
  intros HU Hz Hid Hs Hd He Hv Hc Hp Hlen.
  destruct (poll_three re now c id d env payload ms more out true) as [rest E]; try done; [lia|].
  rewrite E. clear E. unfold dispatch. rewrite Hc, Z.eqb_refl. rewrite join_member_eq by (done || lia).
  set (w := {| wm_worker_id := number_of id |}). eexists _, _. split; [reflexivity|].
  unfold send_join_response. rewrite cstr_of_bytes_stop by done.
  split; [done|]. split; [cbn; by rewrite <- !app_assoc|]. cbv zeta. split.
  { intros Hl. assert (12 <= length (take 4096 payload))%nat by (rewrite length_take; lia).
    rewrite (take_app_le _ _ 4), (drop_app_le _ _ 4), (take_app_le _ _ 8) by (rewrite ?length_drop; lia).
    by rewrite !take_drop_commute, !take_take. }
  unfold cluster_state_register_worker, member_ids. rewrite length_fmap.
  destruct (_ <=? _)%nat eqn:L; [by rewrite orb_true_r|]. rewrite orb_false_r.
  destruct (find_idx _ _) as [i|] eqn:F.
  - find_idx_inv F. bprop. rewrite bool_decide_eq_true_2; [done|]. change (number_of id) with (wm_worker_id w).
    rewrite <- Hp0. apply list_elem_of_fmap_2. by eapply list_elem_of_lookup_2.
  - rewrite bool_decide_eq_false_2.
    2: { eapply find_key_None; [|exact F]. intros x Hx. by apply Z.eqb_eq. }
    cbn [snd ctx_bump ctx_set_state master_state bump_version internal_recalculate_aggregates cs_set_metrics
         active_workers active_leases state_generation_version].
    destr_if; by split_and!.
Qed.

(** ** A run *)

Definition demo_round (t : Z) : round_env :=
  {| re_time := t; re_interrupt_delim := false; re_interrupt_body := false; re_id_stack := replicate 64 170; re_pbuf_stack := replicate 4120 170;
     re_wb_ok := true; re_fwrite_ok := true |}.

Definition join_env (len : Z) : envelope :=
  {| env_protocol_version := 1; env_message_code := 3; env_payload_length := len;
     env_sequence_id := 11; env_timestamp_ms := 5000 |}.

(** 8 cores and 16 GiB, in the 24 bytes the master asks for. *)
Definition join_payload : list Z := le_bytes 4 8 ++ le_bytes 8 (2 ^ 34) ++ replicate 12 0.

Definition join_frames (id : string) : list (list Z) :=
  [bytes_of_string id; []; encode_envelope (join_env 24) ++ join_payload].

Definition wire_with (msgs : list (list (list Z))) : wire :=
  {| w_in := msgs; w_more := false; w_out := []; w_up := true |}.

Definition demo_master : option (master wire) :=
  m ← master_boot true "vom-1" 100 false (Some (wire_with [join_frames "worker-5"])) ∅;
  m ← match master_round (demo_round 200) m with Ends m => Some m | _ => None end;
  master_boot true "vom-1" 300 true (Some (wire_with [])) (ms_files m).

Lemma master_daemon_consistent_witness : exists m,
  demo_master = Some m /\ member_ids (ms_cluster m) = [5] /\ NoDup (member_ids (ms_cluster m)) /\
  global_status (master_state (ms_cluster m)) = CLUSTER_STATUS_OPERATIONAL.
Proof.
  destruct demo_master as [m|] eqn:E; [|vm_compute in E; discriminate E].
  assert (master_reachable m) as R.
  { unfold demo_master in E.
    destruct (master_boot true "vom-1" 100 false _ ∅) as [m1|] eqn:B1; [|discriminate E].
    cbn [mbind option_bind] in E. destruct (master_round (demo_round 200) m1) as [m2| |] eqn:B2; [|discriminate E..].
    cbn [mbind option_bind] in E. eapply MA_restart; [|exact E]. eapply MA_round; [|exact B2].
    eapply MA_first; exact B1. }
  exists m. split; [reflexivity|].
  assert (member_ids (ms_cluster m) = [5]) as Hm.
  { assert (match demo_master with Some m => member_ids (ms_cluster m) | None => [] end = [5]) as H
      by (vm_compute; reflexivity). by rewrite E in H. }
  destruct (master_daemon_consistent m R) as (_ & N & _ & G & _).
  split; [exact Hm|]. split; [exact N|]. apply G. intros Hw. unfold member_ids in Hm.
  rewrite Hw in Hm. discriminate Hm.
Defined.

(** 8 cores and 16 GiB are taken from a payload announced as 24 bytes; the 12
    bytes of the worker daemon are not looked at. *)
Lemma master_join_handshake_witness :
  let request len := [bytes_of_string "worker-5"; []; encode_envelope (join_env len) ++ take (Z.to_nat len) join_payload] in
  (exists c' s', master_poll (demo_round 5) 5000 demo_ctx0 (wire_with [request 24]) = Ends (c', s') /\
    wr_total_cores <$> (wm_resources <$> active_workers (master_state c')) = [8] /\ length (w_out s') = 3%nat) /\
  (exists c' s', master_poll (demo_round 5) 5000 demo_ctx0 (wire_with [request 12]) = Ends (c', s') /\
    wr_total_cores <$> (wm_resources <$> active_workers (master_state c')) = [4] /\ length (w_out s') = 3%nat).
Proof.
  assert (forall len, len = 24 \/ len = 12 ->
    exists c' s', master_poll (demo_round 5) 5000 demo_ctx0
      (wire_with [[bytes_of_string "worker-5"; []; encode_envelope (join_env len) ++ take (Z.to_nat len) join_payload]]) = Ends (c', s') /\
    wr_total_cores <$> (wm_resources <$> active_workers (master_state c')) = [if len =? 24 then 8 else 4] /\
    length (w_out s') = 3%nat) as K.
  { intros len Hlen. destruct (master_join_handshake (demo_round 5) 5000 demo_ctx0 "worker-5" []
      (take (Z.to_nat len) join_payload) (join_env len) [] false []) as (c' & s' & E & _ & O & _ & M).
    - split; reflexivity.
    - repeat constructor; discriminate.
    - split; apply Nat.leb_le; reflexivity.
    - reflexivity.
    - reflexivity.
    - unfold envelope_ok, in_u16, in_u32, in_u64. cbn. lia.
    - reflexivity.
    - reflexivity.
    - destruct Hlen as [-> | ->]; repeat constructor; discriminate.
    - destruct Hlen as [-> | ->]; reflexivity.
    - exists c', s'. split; [exact E|]. split; [|rewrite O; reflexivity].
      destruct (bool_decide _ || _) eqn:B; [vm_compute in B; discriminate B|].
      rewrite (proj1 M). destruct Hlen as [-> | ->]; vm_compute; reflexivity. }
  split; [apply (K 24); by left|apply (K 12); by right].
Defined.

(** What the worker daemon sends ([worker/src/main.c], [send_envelope] on a
    DEALER socket) arrives as two frames, identity and body: the master takes
    the body for the delimiter and waits for a third frame that this message
    does not have.  With nothing else on the wire it waits for ever, and so the
    worker, which waits for the reply.  A signal ends the wait: then no member
    is added and no reply is sent. *)
Example worker_join_is_never_answered :
  let s := wire_with [[bytes_of_string "worker-5"; encode_envelope (join_env 12) ++ take 12 join_payload]] in
  master_poll (demo_round 5) 5000 demo_ctx0 s = WaitsForEver /\
  exists s', master_poll
    {| re_time := 5; re_interrupt_delim := false; re_interrupt_body := true; re_id_stack := replicate 64 170;
       re_pbuf_stack := replicate 4120 170; re_wb_ok := true; re_fwrite_ok := true |} 5000 demo_ctx0 s = Ends (demo_ctx0, s') /\
    w_out s' = [].
Proof. split; [vm_compute; reflexivity|]. eexists. split; [vm_compute; reflexivity|reflexivity]. Qed.

(** Identities without a number after their seventh character all count as
    worker 1: the second one never becomes a member. *)
Example identities_without_number_collide :
  (number_of "worker-aa:bb:cc", number_of "worker-zz:00:01") = (1, 1).
Proof. vm_compute. reflexivity. Qed.
