(* ===== verification/WalImage.v ===== *)
(** The write-ahead file as bytes: [master/src/cluster_state.c] writes its
    [ClusterStateSnapshot] as it lies in memory and reads it back.  Here the
    structure is the one of [Declarations] with the layout of [Layout], a file
    is its bytes, and a run on bytes is shown to be a run of the model of
    [ClusterState], in which a file is the snapshot it holds. *)
From stdpp Require Import gmap.
From S2P Require Import Prelude CFloat FloatBounds SnapshotRing ClusterState ClusterStateProps.
From S2P Require Import Envelope Layout Declarations Router WireProps MasterMain.

(** * The bits of a [float] *)

Definition sign_bit (s : bool) : Z := if s then 2 ^ 31 else 0.

(** A NaN is written as the quiet one. *)
Definition bits_of_float (x : cfloat) : Z :=
  match x with
  | S754_zero s => sign_bit s
  | S754_infinity s => sign_bit s + 255 * 2 ^ 23
  | S754_nan => 255 * 2 ^ 23 + 2 ^ 22
  | S754_finite s m e => sign_bit s + (if Zpos m <? 2 ^ 23 then Zpos m else (e + 150) * 2 ^ 23 + (Zpos m - 2 ^ 23))
  end.

Definition float_of_bits (b : Z) : cfloat :=
  let s := 2 ^ 31 <=? b in
  let e := b / 2 ^ 23 mod 256 in
  let m := b mod 2 ^ 23 in
  if e =? 255 then if m =? 0 then S754_infinity s else S754_nan
  else if e =? 0 then match m with Zpos p => S754_finite s p (-149) | _ => S754_zero s end
  else S754_finite s (Z.to_pos (m + 2 ^ 23)) (e - 150).

(** A value of the type [float]. *)
Definition is_float (x : cfloat) : Prop := valid_binary 24 128 x = true.

(** * Values of the declared structures *)

Definition pad_to {A} (n : nat) (d : A) (l : list A) : list A := l ++ replicate (n - length l) d.

Definition chars_val (n : nat) (s : string) : cval := VSeq (VInt <$> pad_to n 0 (bytes_of_string s)).

Definition health_value (h : WorkerHealth) : Z :=
  match h with WORKER_HEALTH_ONLINE => 0 | WORKER_HEALTH_DRAINING => 1 | WORKER_HEALTH_OFFLINE => 2 end.
Definition status_value (s : ClusterStatus) : Z :=
  match s with CLUSTER_STATUS_BOOSTRAP => 0 | CLUSTER_STATUS_OPERATIONAL => 1 | CLUSTER_STATUS_DEGRADED => 2 end.
Definition lease_value (s : LeaseStatus) : Z :=
  match s with
  | LEASE_STATUS_RUNNING => 0 | LEASE_STATUS_COMPLETED => 1 | LEASE_STATUS_FAILED => 2 | LEASE_STATUS_TIMED_OUT => 3
  end.

Definition member_val (w : WorkerMember) : cval :=
  let r := wm_resources w in
  VSeq [VInt (wm_worker_id w); VInt (health_value (wm_health w)); VInt (wm_last_seen_timestamp_ms w);
        VSeq [VInt (wr_total_memory_bytes r); VInt (wr_reserved_memory_bytes r);
              VInt (wr_total_cores r); VInt (wr_reserved_cores r)]].
Definition lease_val (l : ChunkLease) : cval :=
  VSeq [VInt (cl_chunk_id l); VInt (lease_value (cl_status l)); VInt (bits_of_float (cl_progress_percentage l));
        VInt (cl_failure_retry_count l)].
Definition metrics_val (m : ClusterMetrics) : cval :=
  VSeq [VInt (m_aggregate_memory_bytes m); VInt (m_allocated_memory_bytes m); VInt (m_aggregate_cores m);
        VInt (m_allocated_cores m); VInt (m_active_worker_count m)].

(** The entries behind the counts are still the zeros of [calloc]. *)
Definition zero_member : cval := VSeq [VInt 0; VInt 0; VInt 0; VSeq [VInt 0; VInt 0; VInt 0; VInt 0]].
Definition zero_lease_val : cval := VSeq [VInt 0; VInt 0; VInt 0; VInt 0].

Definition snapshot_val (s : ClusterStateSnapshot) : cval :=
  VSeq [chars_val csc_UUID_STR_MAX (cluster_uuid s); VInt (master_epoch s); VInt (state_generation_version s);
        VInt (status_value (global_status s));
        VSeq (pad_to csc_CLUSTER_MAX_WORKERS zero_member (member_val <$> active_workers s));
        VInt (Z.of_nat (length (active_workers s)));
        VSeq (pad_to csc_CLUSTER_MAX_ACTIVE_LEASES zero_lease_val (lease_val <$> active_leases s));
        VInt (Z.of_nat (length (active_leases s))); metrics_val (metrics s)].

(** ** Reading them back; [None] for a number that is no enumerator. *)

Definition int_of (v : cval) : Z := match v with VInt z => z | _ => 0 end.
Definition seq_of (v : cval) : list cval := match v with VSeq vs => vs | _ => [] end.

Definition health_of (z : Z) : option WorkerHealth :=
  if z =? 0 then Some WORKER_HEALTH_ONLINE else if z =? 1 then Some WORKER_HEALTH_DRAINING
  else if z =? 2 then Some WORKER_HEALTH_OFFLINE else None.
Definition status_of (z : Z) : option ClusterStatus :=
  if z =? 0 then Some CLUSTER_STATUS_BOOSTRAP else if z =? 1 then Some CLUSTER_STATUS_OPERATIONAL
  else if z =? 2 then Some CLUSTER_STATUS_DEGRADED else None.
Definition lease_status_of (z : Z) : option LeaseStatus :=
  if z =? 0 then Some LEASE_STATUS_RUNNING else if z =? 1 then Some LEASE_STATUS_COMPLETED
  else if z =? 2 then Some LEASE_STATUS_FAILED else if z =? 3 then Some LEASE_STATUS_TIMED_OUT else None.

Definition member_of (v : cval) : option WorkerMember :=
  match v with
  | VSeq [VInt id; VInt h; VInt seen; VSeq [VInt tm; VInt rm; VInt tc; VInt rc]] =>
      h ← health_of h;
      Some {| wm_worker_id := id; wm_health := h; wm_last_seen_timestamp_ms := seen;
              wm_resources := {| wr_total_memory_bytes := tm; wr_reserved_memory_bytes := rm;
                                 wr_total_cores := tc; wr_reserved_cores := rc |} |}
  | _ => None
  end.
Definition lease_of_val (v : cval) : option ChunkLease :=
  match v with
  | VSeq [VInt id; VInt st; VInt p; VInt n] =>
      st ← lease_status_of st;
      Some {| cl_chunk_id := id; cl_status := st; cl_progress_percentage := float_of_bits p; cl_failure_retry_count := n |}
  | _ => None
  end.
Definition metrics_of_val (v : cval) : option ClusterMetrics :=
  match v with
  | VSeq [VInt a; VInt b; VInt c; VInt d; VInt e] =>
      Some {| m_aggregate_memory_bytes := a; m_allocated_memory_bytes := b; m_aggregate_cores := c;
              m_allocated_cores := d; m_active_worker_count := e |}
  | _ => None
  end.

Definition snapshot_of_val (v : cval) : option ClusterStateSnapshot :=
  match v with
  | VSeq [uuid; VInt epoch; VInt version; VInt st; VSeq ws; VInt nw; VSeq ls; VInt nl; mv] =>
      st ← status_of st;
      ws ← mapM member_of (take (Z.to_nat nw) ws);
      ls ← mapM lease_of_val (take (Z.to_nat nl) ls);
      mt ← metrics_of_val mv;
      Some {| cluster_uuid := cstr_of_bytes (int_of <$> seq_of uuid); master_epoch := epoch;
              state_generation_version := version; global_status := st; active_workers := ws;
              active_leases := ls; metrics := mt |}
  | _ => None
  end.

(** * The operations on bytes *)

Definition SNAPSHOT_SIZE : nat := sizeof csc_ClusterStateSnapshot.

Definition wal_encode (s : ClusterStateSnapshot) : list Z := store csc_ClusterStateSnapshot (snapshot_val s).

(** What [fread] of one block finds: nothing in a shorter file, and otherwise a
    structure, unless a number in it is no enumerator of its type. *)
Definition image_of (bs : list Z) : option (option ClusterStateSnapshot) :=
  if (length bs <? SNAPSHOT_SIZE)%nat then Some None
  else Some <$> snapshot_of_val (load csc_ClusterStateSnapshot bs).

Abbreviation byte_files := (gmap string (list Z)).

(** [written]: the bytes of the block that reach the file. *)
Definition persist_bytes (wb_ok : bool) (written : nat) (path : ptr string) (c : ClusterStateContext) (fs : byte_files) :
    bool * byte_files :=
  match path with
  | NULL => (false, fs)
  | Some path =>
      if wb_ok then
        ((SNAPSHOT_SIZE <=? written)%nat, <[path := take written (wal_encode (master_state c))]> fs)
      else (false, fs)
  end.

(** [None]: the bytes are no structure of the type. *)
Definition recover_bytes (rb_ok : bool) (path : ptr string) (fs : byte_files) (c : ClusterStateContext) :
    option (bool * ClusterStateContext) :=
  match path with
  | NULL => Some (false, c)
  | Some path =>
      match fs !! path with
      | None => Some (false, c)
      | Some bs =>
          if rb_ok then
            read_blocks ← image_of bs;
            match read_blocks with
            | None => Some (false, c)
            | Some temp_state => Some (true, ctx_set_state (bump_version temp_state) c)
            end
          else Some (false, c)
      end
  end.

(** * The image of a snapshot *)

(** ** Floats *)

Lemma finite_float s m e : is_float (S754_finite s m e) ->
  Zpos m < 2 ^ 24 /\ (if Zpos m <? 2 ^ 23 then e = -149 else -149 <= e <= 104).
Proof.
  unfold is_float. cbn. unfold bounded, canonical_mantissa, fexp, emin. intros H.
  apply andb_true_iff in H as [H1 H2]. rewrite <- Zeq_is_eq_bool in H1. apply Z.leb_le in H2.
  pose proof (digits2_bounds m) as [B1 B2]. set (d := Zpos (digits2_pos m)) in *.
  assert (0 < d) by (unfold d; lia). clearbody d.
  assert (d <= 24) by lia.
  split; [eapply Z.lt_le_trans; [exact B2|]; apply Z.pow_le_mono_r; lia|].
  destruct (Z.ltb_spec (Zpos m) (2 ^ 23)).
  - assert (d - 1 < 23) by (apply (Z.pow_lt_mono_r_iff 2); lia). lia.
  - assert (23 < d) by (apply (Z.pow_lt_mono_r_iff 2); lia). lia.
Qed.

Lemma split_bits (s : bool) e m : 0 <= e < 256 -> 0 <= m < 2 ^ 23 ->
  let b := sign_bit s + e * 2 ^ 23 + m in
  (2 ^ 31 <=? b) = s /\ b / 2 ^ 23 mod 256 = e /\ b mod 2 ^ 23 = m /\ 0 <= b < 2 ^ 32.
Proof.
  intros He Hm b. assert (b = ((if s then 256 else 0) + e) * 2 ^ 23 + m) as E by (unfold b, sign_bit; destruct s; lia).
  assert (b / 2 ^ 23 = (if s then 256 else 0) + e) as D
    by (rewrite E, Z.add_comm, Z.div_add, Z.div_small by lia; lia).
  split_and!.
  - unfold b, sign_bit. destruct s; [apply Z.leb_le|apply Z.leb_gt]; lia.
  - rewrite D. destruct s; [|by apply Z.mod_small]. rewrite Z.add_comm, (Z.add_mod e 256 256), Z.mod_same, Z.add_0_r, Z.mod_mod by lia.
    by apply Z.mod_small.
  - rewrite E, Z.add_comm, Z.mod_add by lia. by apply Z.mod_small.
  - unfold b, sign_bit. destruct s; lia.
  - unfold b, sign_bit. destruct s; lia.
Qed.

Lemma float_bits_roundtrip x : is_float x -> 0 <= bits_of_float x < 2 ^ 32 /\ float_of_bits (bits_of_float x) = x.
Proof.
  assert (forall (s : bool) e m, 0 <= e < 256 -> 0 <= m < 2 ^ 23 ->
    float_of_bits (sign_bit s + e * 2 ^ 23 + m) =
    if e =? 255 then if m =? 0 then S754_infinity s else S754_nan
    else if e =? 0 then match m with Zpos p => S754_finite s p (-149) | _ => S754_zero s end
    else S754_finite s (Z.to_pos (m + 2 ^ 23)) (e - 150)) as F.
  { intros s e m He Hm. destruct (split_bits s e m He Hm) as (S & E & M & _). unfold float_of_bits. by rewrite S, E, M. }
  destruct x as [s|s| |s m e]; intros V.
  - destruct (split_bits s 0 0) as (_ & _ & _ & R); [lia..|]. rewrite !Z.add_0_r in R. split; [exact R|].
    cbn [bits_of_float]. replace (sign_bit s) with (sign_bit s + 0 * 2 ^ 23 + 0) by lia. by rewrite F by lia.
  - destruct (split_bits s 255 0) as (_ & _ & _ & R); [lia..|]. rewrite Z.add_0_r in R. split; [exact R|].
    cbn [bits_of_float]. rewrite <- (Z.add_0_r (sign_bit s + 255 * 2 ^ 23)). by rewrite F by lia.
  - split; [cbn; lia|reflexivity].
  - apply finite_float in V as [Hm He]. cbn [bits_of_float]. destruct (Z.ltb_spec (Zpos m) (2 ^ 23)) as [L|L].
    + destruct (split_bits s 0 (Zpos m)) as (_ & _ & _ & R); [lia..|]. replace (sign_bit s + Zpos m) with (sign_bit s + 0 * 2 ^ 23 + Zpos m) by lia.
      split; [exact R|]. rewrite F by lia. cbn. by subst.
    + destruct (split_bits s (e + 150) (Zpos m - 2 ^ 23)) as (_ & _ & _ & R); [lia..|]. rewrite Z.add_assoc. split; [exact R|].
      rewrite F by lia. rewrite (proj2 (Z.eqb_neq _ _)) by lia. rewrite (proj2 (Z.eqb_neq _ _)) by lia.
      f_equal; [|lia]. replace (Zpos m - 2 ^ 23 + 2 ^ 23) with (Zpos m) by lia. done.
Qed.

(** ** Values in range *)

Definition member_fits (w : WorkerMember) : Prop :=
  let r := wm_resources w in
  in_u32 (wm_worker_id w) /\ in_u64 (wm_last_seen_timestamp_ms w) /\ in_u64 (wr_total_memory_bytes r) /\
  in_u64 (wr_reserved_memory_bytes r) /\ in_u32 (wr_total_cores r) /\ in_u32 (wr_reserved_cores r).
Definition lease_fits (l : ChunkLease) : Prop :=
  in_u64 (cl_chunk_id l) /\ is_float (cl_progress_percentage l) /\ in_u32 (cl_failure_retry_count l).
Definition metrics_fit (m : ClusterMetrics) : Prop :=
  in_u64 (m_aggregate_memory_bytes m) /\ in_u64 (m_allocated_memory_bytes m) /\ in_u32 (m_aggregate_cores m) /\
  in_u32 (m_allocated_cores m) /\ in_u32 (m_active_worker_count m).

(** A C string in its array. *)
Definition text_ok (s : string) : Prop := Forall (fun b => b <> 0) (bytes_of_string s).

Record snapshot_fits (s : ClusterStateSnapshot) : Prop := {
  sf_uuid : text_ok (cluster_uuid s);
  sf_uuid_len : (String.length (cluster_uuid s) <= 63)%nat;
  sf_epoch : in_u64 (master_epoch s);
  sf_version : in_u64 (state_generation_version s);
  sf_workers : Forall member_fits (active_workers s);
  sf_workers_len : (length (active_workers s) <= CLUSTER_MAX_WORKERS)%nat;
  sf_leases : Forall lease_fits (active_leases s);
  sf_leases_len : (length (active_leases s) <= CLUSTER_MAX_ACTIVE_LEASES)%nat;
  sf_metrics : metrics_fit (metrics s)
}.

Ltac in_range := cbn [has_type] in *; unfold scalar_ok, in_u32, in_u64, in_s32 in *; cbn in *; unfold in_s32 in *; lia.

Lemma pad_to_typed t n d l : has_type t d -> Forall (has_type t) l -> (length l <= n)%nat ->
  has_type (Array n t) (VSeq (pad_to n d l)).
Proof.
  intros Hd Hl Hn. unfold pad_to. split; [rewrite length_app, length_replicate; lia|].
  apply Forall_app. split; [done|]. by apply Forall_replicate.
Qed.

Lemma chars_typed n s : (String.length s < n)%nat -> has_type (Array n (Scalar Char)) (chars_val n s).
Proof.
  intros H. split.
  - unfold pad_to. rewrite length_fmap, length_app, length_replicate, bytes_of_string_length. lia.
  - apply Forall_fmap, Forall_app. split; [|by apply Forall_replicate].
    eapply Forall_impl; [apply bytes_of_string_range|]. intros b Hb. exact Hb.
Qed.

Lemma chars_roundtrip n s : text_ok s -> (String.length s < n)%nat ->
  cstr_of_bytes (int_of <$> seq_of (chars_val n s)) = s.
Proof.
  intros T H. unfold chars_val, pad_to. cbn [seq_of]. rewrite <- list_fmap_compose. rewrite bytes_of_string_length.
  destruct (n - String.length s)%nat as [|k] eqn:E; [lia|]. cbn [replicate].
  rewrite (list_fmap_ext _ id) by done. rewrite list_fmap_id. by apply cstr_of_bytes_stop.
Qed.

Lemma snapshot_typed s : snapshot_fits s -> has_type csc_ClusterStateSnapshot (snapshot_val s).
Proof.
  intros [U UL E V W WL L LL M].
  assert (has_type csc_WorkerMember zero_member) as Z1 by (cbn; split_and!; in_range).
  assert (has_type csc_ChunkLease zero_lease_val) as Z2 by (cbn; split_and!; in_range).
  unfold csc_ClusterStateSnapshot, snapshot_val. rewrite typed_struct. cbn [fields_typed snd].
  unfold CLUSTER_MAX_WORKERS, CLUSTER_MAX_ACTIVE_LEASES in *. split_and!; try done.
  - apply chars_typed. unfold csc_UUID_STR_MAX. lia.
  - destruct (global_status s); in_range.
  - apply pad_to_typed; [done| |by rewrite length_fmap]. apply Forall_fmap. eapply Forall_impl; [exact W|].
    intros w (H1 & H2 & H3 & H4 & H5 & H6). cbn. split_and!; try in_range. all: destruct (wm_health w); in_range.
  - in_range.
  - apply pad_to_typed; [done| |by rewrite length_fmap]. apply Forall_fmap. eapply Forall_impl; [exact L|].
    intros l (H1 & H2 & H3). apply float_bits_roundtrip in H2 as [H2 _]. cbn. split_and!; try in_range.
    all: destruct (cl_status l); in_range.
  - in_range.
  - destruct M as (M1 & M2 & M3 & M4 & M5). cbn. split_and!; in_range.
Qed.

Lemma mapM_fmap {A B} (f : A -> B) (g : B -> option A) l : Forall (fun x => g (f x) = Some x) l ->
  mapM g (f <$> l) = Some l.
Proof. induction 1 as [|x l H _ IH]; cbn; [done|]. rewrite H. cbn. cbn in IH. by rewrite IH. Qed.

Lemma take_pad {A} n (d : A) l : take (Z.to_nat (Z.of_nat (length l))) (pad_to n d l) = l.
Proof. unfold pad_to. rewrite Nat2Z.id. by rewrite take_app_length. Qed.

Lemma snapshot_val_roundtrip s : snapshot_fits s -> snapshot_of_val (snapshot_val s) = Some s.
Proof.
  intros [U UL E V W WL L LL M]. unfold snapshot_of_val, snapshot_val, metrics_val.
  assert (status_of (status_value (global_status s)) = Some (global_status s)) as -> by (by destruct (global_status s)).
  cbn [mbind option_bind].
  rewrite <- (length_fmap member_val), take_pad, mapM_fmap.
  2: { eapply Forall_true. intros w. cbn. assert (health_of (health_value (wm_health w)) = Some (wm_health w)) as ->
         by (by destruct (wm_health w)). by destruct w as [? ? ? []]. }
  cbn [mbind option_bind]. rewrite <- (length_fmap lease_val), take_pad, mapM_fmap.
  2: { eapply Forall_impl; [exact L|]. intros l (_ & F & _). apply float_bits_roundtrip in F as [_ F]. cbn.
       assert (lease_status_of (lease_value (cl_status l)) = Some (cl_status l)) as -> by (by destruct (cl_status l)).
       cbn. rewrite F. by destruct l. }
  cbn [mbind option_bind metrics_of_val]. rewrite chars_roundtrip by (done || unfold csc_UUID_STR_MAX; lia).
  by destruct s as [? ? ? ? ? ? []].
Qed.

(** A full image is read back as the snapshot it was made of, whatever follows
    it; fewer bytes are read as nothing. *)
Lemma snapshot_wf : wf csc_ClusterStateSnapshot = true.
Proof. vm_compute. reflexivity. Qed.
Lemma snapshot_union_free : union_free csc_ClusterStateSnapshot = true.
Proof. vm_compute. reflexivity. Qed.

Lemma wal_encode_length s : snapshot_fits s -> length (wal_encode s) = SNAPSHOT_SIZE.
Proof. intros F. exact (store_length _ snapshot_wf _ (snapshot_typed _ F)). Qed.

Lemma wal_image s : snapshot_fits s -> image_of (wal_encode s) = Some (Some s).
Proof.
  intros F. unfold image_of. rewrite (wal_encode_length _ F), Nat.ltb_irrefl. unfold wal_encode.
  rewrite <- (app_nil_r (store _ _)), (load_store _ snapshot_wf snapshot_union_free _ _ (snapshot_typed _ F)).
  rewrite (snapshot_val_roundtrip _ F). reflexivity.
Qed.

Lemma wal_image_short bs : (length bs < SNAPSHOT_SIZE)%nat -> image_of bs = Some None.
Proof. intros H. unfold image_of. by rewrite (proj2 (Nat.ltb_lt _ _) H). Qed.

(** * Runs on bytes *)

Inductive wal_step : ClusterStateContext * byte_files -> ClusterStateContext * byte_files -> Prop :=
| wal_register c fs w : member_fits w -> wal_step (c, fs) (snd (cluster_state_register_worker (Some w) c), fs)
| wal_update c fs id st p : in_u64 id -> is_float p -> wal_step (c, fs) (snd (cluster_state_update_lease id st p c), fs)
| wal_heartbeat c fs id t : in_u64 t -> wal_step (c, fs) (snd (cluster_state_process_heartbeat id t c), fs)
| wal_acquire c fs : wal_step (c, fs) (snd (cluster_state_acquire_snapshot c), fs)
| wal_release c fs p : wal_step (c, fs) (cluster_state_release_snapshot p c, fs)
| wal_persist c fs o n p : wal_step (c, fs) (c, snd (persist_bytes o n p c fs))
| wal_recover c fs o p r : recover_bytes o p fs c = Some r -> wal_step (c, fs) (snd r, fs)
| wal_restart c fs uuid epoch c' : text_ok uuid -> in_u64 epoch ->
    cluster_state_create true (Some uuid) epoch = Some c' -> wal_step (c, fs) (c', fs).

Inductive wal_reachable : ClusterStateContext * byte_files -> Prop :=
| wal_start uuid epoch c : text_ok uuid -> in_u64 epoch -> cluster_state_create true (Some uuid) epoch = Some c ->
    wal_reachable (c, ∅)
| wal_more x y : wal_reachable x -> wal_step x y -> wal_reachable y.

(** What the model of [ClusterState] has for the files. *)
Definition abs_files (fs : byte_files) : wal_files := (fun bs => default None (image_of bs)) <$> fs.

Definition file_ok (bs : list Z) : Prop :=
  (length bs < SNAPSHOT_SIZE)%nat \/ exists s, snapshot_fits s /\ bs = wal_encode s.

Definition wal_inv (x : ClusterStateContext * byte_files) : Prop :=
  snapshot_fits (master_state x.1) /\ map_Forall (fun _ => file_ok) x.2.

#[local] Opaque SNAPSHOT_SIZE wal_encode image_of.

Lemma file_image bs : file_ok bs -> exists i, image_of bs = Some i.
Proof. intros [H|(s & F & ->)]; eexists; [by apply wal_image_short|by apply wal_image]. Qed.

Lemma text_ok_strncpy n s : text_ok s -> text_ok (strncpy n s).
Proof.
  unfold text_ok, strncpy. revert n. induction s as [|a s IH]; intros [|n] H; cbn in *; try done; try constructor.
  - by apply Forall_cons in H as [H _].
  - apply Forall_cons in H as [_ H]. by apply IH.
Qed.

Lemma create_fits uuid epoch c : text_ok uuid -> in_u64 epoch -> cluster_state_create true (Some uuid) epoch = Some c ->
  snapshot_fits (master_state c).
Proof.
  intros T E [= <-]. constructor; cbn; try done; try lia.
  - by apply text_ok_strncpy.
  - rewrite strncpy_length. lia.
Qed.

Lemma metrics_fold_fit ws : forall m, metrics_fit m -> metrics_fit (foldl add_worker m ws).
Proof.
  induction ws as [|w ws IH]; intros m H; cbn; [done|]. apply IH. unfold add_worker. destr_if; [|done].
  unfold metrics_fit. cbn. split_and!; (apply u64_range || apply u32_range).
Qed.

Lemma fits_aggregates s : snapshot_fits s -> snapshot_fits (internal_recalculate_aggregates s).
Proof. intros []. constructor; auto. apply metrics_fold_fit. unfold metrics_fit. cbn. split_and!; done. Qed.

Lemma fits_bump s : snapshot_fits s -> snapshot_fits (bump_version s).
Proof. intros []. constructor; auto. apply u64_range. Qed.

Lemma fits_workers ws s : Forall member_fits ws -> (length ws <= CLUSTER_MAX_WORKERS)%nat -> snapshot_fits s ->
  snapshot_fits (cs_set_workers ws s).
Proof. intros H1 H2 []. by constructor. Qed.

Lemma fits_leases ls s : Forall lease_fits ls -> (length ls <= CLUSTER_MAX_ACTIVE_LEASES)%nat -> snapshot_fits s ->
  snapshot_fits (cs_set_leases ls s).
Proof. intros H1 H2 []. by constructor. Qed.

Lemma fits_status st s : snapshot_fits s -> snapshot_fits (cs_set_status st s).
Proof. intros []. by constructor. Qed.

#[local] Hint Resolve fits_aggregates fits_bump fits_status : core.

Lemma register_fits w c : member_fits w -> snapshot_fits (master_state c) ->
  snapshot_fits (master_state (snd (cluster_state_register_worker (Some w) c))).
Proof.
  intros W F. unfold cluster_state_register_worker. destr_if; [done|]. apply Nat.leb_gt in Heqb.
  destruct (find_idx _ _); [done|]. cbn [snd master_state ctx_set_state].
  assert (snapshot_fits (cs_set_workers (active_workers (master_state c) ++ [w]) (master_state c))).
  { apply fits_workers; [|rewrite length_app; cbn; lia|done]. apply Forall_app. split; [apply F|by apply Forall_singleton]. }
  destruct (bool_decide _ && _); auto.
Qed.

Lemma update_fits id st p c : in_u64 id -> is_float p -> snapshot_fits (master_state c) ->
  snapshot_fits (master_state (snd (cluster_state_update_lease id st p c))).
Proof.
  intros I P F.
  assert (forall l, lease_fits l -> lease_fits (lease_update st p l)) as U.
  { intros l (H1 & H2 & H3). split_and!; cbn; try done; destr_if; try done; apply u32_range. }
  unfold cluster_state_update_lease. destruct (find_idx _ _); [|destr_if; [done|]]; cbn [snd master_state ctx_set_state];
    apply fits_bump, fits_leases; try done.
  - apply Forall_alter; [apply F|]. intros l _. apply U.
  - rewrite length_alter. apply F.
  - apply Forall_alter; [|by intros l _; apply U]. apply Forall_app. split; [apply F|].
    apply Forall_singleton. split_and!; cbn; try done; in_range.
  - apply Nat.leb_gt in Heqb. rewrite length_alter, length_app. cbn. lia.
Qed.

Lemma heartbeat_fits id t c : in_u64 t -> snapshot_fits (master_state c) ->
  snapshot_fits (master_state (snd (cluster_state_process_heartbeat id t c))).
Proof.
  intros T F. unfold cluster_state_process_heartbeat. destruct (find_idx _ _); [|done]. cbn [snd master_state ctx_set_state].
  apply fits_aggregates, fits_bump, fits_workers; [|rewrite length_alter; apply F|done].
  apply Forall_alter; [apply F|]. intros w _ (H1 & H2 & H3 & H4 & H5 & H6). by split_and!.
Qed.

(** ** The simulation *)

Lemma release_state p c : master_state (cluster_state_release_snapshot p c) = master_state c.
Proof. unfold cluster_state_release_snapshot. destruct p; [|done]. by destruct (find_idx _ _). Qed.

Lemma persist_simulates o n p c fs : snapshot_fits (master_state c) ->
  cluster_state_persist_to_wal o (SNAPSHOT_SIZE <=? n)%nat p c (abs_files fs) =
    ((persist_bytes o n p c fs).1, abs_files (persist_bytes o n p c fs).2) /\
  forall q bs, (persist_bytes o n p c fs).2 !! q = Some bs -> fs !! q = Some bs \/ file_ok bs.
Proof.
  intros F. unfold cluster_state_persist_to_wal, persist_bytes. destruct p as [p|]; [|by auto].
  destruct o; [|by auto]. cbn [fst snd]. unfold abs_files. rewrite fmap_insert.
  pose proof (wal_encode_length _ F) as L. destruct (Nat.leb_spec SNAPSHOT_SIZE n).
  - rewrite take_ge by lia. rewrite (wal_image _ F). split; [done|].
    intros q bs. rewrite lookup_insert. destruct (decide _); [|by auto]. intros [= <-]. right. right. by exists (master_state c).
  - assert (length (take n (wal_encode (master_state c))) < SNAPSHOT_SIZE)%nat by (rewrite length_take; lia).
    rewrite wal_image_short by done. split; [done|].
    intros q bs. rewrite lookup_insert. destruct (decide _); [|by auto]. intros [= <-]. right. by left.
Qed.

Lemma recover_simulates o p c fs : map_Forall (fun _ => file_ok) fs ->
  recover_bytes o p fs c = Some (cluster_state_recover_from_wal o p (abs_files fs) c).
Proof.
  intros H. unfold recover_bytes, cluster_state_recover_from_wal. destruct p as [p|]; [|done].
  unfold abs_files. rewrite lookup_fmap. destruct (fs !! p) as [bs|] eqn:E; cbn; [|done]. destruct o; [|done].
  destruct (file_image bs (H p bs E)) as [i ->]. cbn. by destruct i.
Qed.

Lemma recover_fits o p c fs r : wal_inv (c, fs) -> recover_bytes o p fs c = Some r -> snapshot_fits (master_state (snd r)).
Proof.
  intros [F H]. unfold recover_bytes. destruct p as [p|]; [|by intros [= <-]].
  destruct (fs !! p) as [bs|] eqn:E; [|by intros [= <-]]. destruct o; [|by intros [= <-]].
  destruct (H p bs E) as [L|(s & Fs & ->)].
  - rewrite wal_image_short by done. by intros [= <-].
  - rewrite wal_image by done. intros [= <-]. by apply fits_bump.
Qed.

Lemma wal_step_simulates x y : wal_inv x -> wal_step x y -> wal_inv y /\ cs_step (x.1, abs_files x.2) (y.1, abs_files y.2).
Proof.
  intros I H. pose proof I as [F B]. destruct H; cbn [fst snd] in *; (split; [split; [|try exact B]|]); try (by constructor);
    cbn [fst snd].
  - by apply register_fits.
  - by apply update_fits.
  - by apply heartbeat_fits.
  - exact F.
  - by rewrite release_state.
  - exact F.
  - intros q bs E. destruct (persist_simulates o n p c fs F) as [_ P]. destruct (P q bs E); [by eapply B|done].
  - destruct (persist_simulates o n p c fs F) as [P _].
    replace (abs_files (persist_bytes o n p c fs).2) with
      (cluster_state_persist_to_wal o (SNAPSHOT_SIZE <=? n)%nat p c (abs_files fs)).2 by (by rewrite P). constructor.
  - by eapply recover_fits.
  - rewrite (recover_simulates o p c fs B) in H. injection H as <-. constructor.
  - by eapply create_fits.
  - by econstructor.
Qed.

Lemma wal_reachable_simulates x : wal_reachable x -> wal_inv x /\ cs_reachable (x.1, abs_files x.2).
Proof.
  induction 1 as [uuid epoch c T E H|x y _ [I R] S].
  - split; [split; [by eapply create_fits|apply map_Forall_empty]|]. cbn [fst snd]. unfold abs_files. rewrite fmap_empty.
    by econstructor.
  - destruct (wal_step_simulates x y I S) as [Iy C]. split; [exact Iy|]. by eapply cs_more.
Qed.

(** C15: The write-ahead file, taken as the bytes of the C structure, implements
    the model in which a file is a snapshot: in every run of registrations,
    lease updates, heartbeats, snapshots, restarts, writes cut off at any byte
    and recoveries, the context and the files read as snapshots are a run of the
    cluster-state model; each write and each recovery returns what the model
    returns, no recovery meets a number that is no enumerator, and a write that
    is not cut off leaves a file of exactly [sizeof (ClusterStateSnapshot)]
    bytes from which the state itself is read back. *)
Theorem wal_bytes_refine (c : ClusterStateContext) (fs : byte_files) : wal_reachable (c, fs) ->
  cs_reachable (c, abs_files fs) /\
  (forall o n p, cluster_state_persist_to_wal o (SNAPSHOT_SIZE <=? n)%nat p c (abs_files fs) =
     ((persist_bytes o n p c fs).1, abs_files (persist_bytes o n p c fs).2)) /\
  (forall o p, recover_bytes o p fs c = Some (cluster_state_recover_from_wal o p (abs_files fs) c)) /\
  length (wal_encode (master_state c)) = SNAPSHOT_SIZE /\ image_of (wal_encode (master_state c)) = Some (Some (master_state c)).
Proof.
  intros R. destruct (wal_reachable_simulates _ R) as [[F B] C]. split_and!; [exact C|..].
  - intros o n p. by apply persist_simulates.
  - intros o p. by apply recover_simulates.
  - by apply wal_encode_length.
  - by apply wal_image.
Qed.

#[local] Transparent SNAPSHOT_SIZE wal_encode image_of.

(** A run: a worker, a lease at 12.5 percent, a file, a write to another file
    that is cut off after a thousand bytes, and a new context. *)
Definition wal_c1 : ClusterStateContext :=
  snd (cluster_state_update_lease 7 LEASE_STATUS_FAILED (S754_finite false 13107200 (-20)) demo_ctx1).
Definition wal_fs1 : byte_files := snd (persist_bytes true SNAPSHOT_SIZE (Some "journal.wal") wal_c1 ∅).
Definition wal_fs2 : byte_files := snd (persist_bytes true 1000 (Some "cut.wal") wal_c1 wal_fs1).

Lemma wal_demo_reachable : wal_reachable (demo_ctx0, wal_fs2).
Proof.
  assert (text_ok "cluster-dev-uuid-001") as T by (vm_compute; repeat constructor; discriminate).
  apply (wal_more (wal_c1, wal_fs2)); [|by eapply (wal_restart _ _ "cluster-dev-uuid-001" 100)].
  apply (wal_more (wal_c1, wal_fs1)); [|apply wal_persist].
  apply (wal_more (wal_c1, ∅)); [|apply wal_persist].
  apply (wal_more (demo_ctx1, ∅)); [|by apply wal_update].
  apply (wal_more (demo_ctx0, ∅)); [|by apply wal_register].
  by apply (wal_start "cluster-dev-uuid-001" 100).
Defined.

Lemma wal_bytes_refine_witness :
  recover_bytes true (Some "journal.wal") wal_fs2 demo_ctx0 =
    Some (cluster_state_recover_from_wal true (Some "journal.wal") (abs_files wal_fs2) demo_ctx0) /\
  option_map fst (recover_bytes true (Some "journal.wal") wal_fs2 demo_ctx0) = Some true /\
  option_map fst (recover_bytes true (Some "cut.wal") wal_fs2 demo_ctx0) = Some false /\
  (c ← snd <$> recover_bytes true (Some "journal.wal") wal_fs2 demo_ctx0; Some (active_leases (master_state c))) =
    Some (active_leases (master_state wal_c1)).
Proof.
  split_and!; [apply (wal_bytes_refine demo_ctx0 wal_fs2 wal_demo_reachable)|vm_compute; reflexivity..].
Defined.
