(* ===== verification/WorkerMain.v ===== *)
(** The worker daemon ([worker/src/main.c]): its identity and command line,
    the two envelope routines over a DEALER socket, the join phase and the
    event loop with heartbeats and acknowledgements; and what the master daemon
    makes of that traffic.

    The operating system is an argument: the interface files, the process id,
    every [time (NULL)], the blocks [malloc] returns ([None] when it fails), the
    old bytes of stack buffers, and the signals.  The receives have no DONTWAIT:
    while the master is silent the daemon waits, and sends nothing. *)
From S2P Require Import Prelude Scanf SnapshotRing ClusterState ClusterStateProps Envelope Router WireProps MasterMain.

(** * Identity and command line *)

(** The two interface files, each [None] when it cannot be opened. *)
Definition generate_worker_id (cap : nat) (eth0 wlan0 : option (list Z)) (pid now : Z) : string :=
  let f := match eth0 with Some _ => eth0 | None => wlan0 end in
  match f ≫= fscanf_word 17 with
  | Some mac => strncpy (cap - 1) ("worker-" ++ str_skip 9 mac)
  | None => strncpy (cap - 1) ("worker-" ++ fmt_d pid ++ "-" ++ fmt_d now)
  end.

Record worker_globals := {
  g_master_endpoint : string;
  g_worker_id : string;
  g_worker_running : bool
}.

Definition worker_globals_init : worker_globals :=
  {| g_master_endpoint := "tcp://127.0.0.1:5555"; g_worker_id := ""; g_worker_running := true |}.

Definition vom_worker_signal_handler (g : worker_globals) : worker_globals :=
  {| g_master_endpoint := g_master_endpoint g; g_worker_id := g_worker_id g; g_worker_running := false |}.

Definition set_endpoint (v : string) (g : worker_globals) : worker_globals :=
  {| g_master_endpoint := strncpy 255 v; g_worker_id := g_worker_id g; g_worker_running := g_worker_running g |}.
Definition set_worker_id (v : string) (g : worker_globals) : worker_globals :=
  {| g_master_endpoint := g_master_endpoint g; g_worker_id := strncpy 63 v; g_worker_running := g_worker_running g |}.

(** [argv] is without the program's name; [None] is [exit (0)] after the help text. *)
Fixpoint vom_worker_cli_parse (argv : list string) (g : worker_globals) : option worker_globals :=
  match argv with
  | [] => Some g
  | a :: rest =>
      let help := strcmp_eq a "--help" || strcmp_eq a "-h" in
      match rest with
      | v :: rest' =>
          if strcmp_eq a "--connect" then vom_worker_cli_parse rest' (set_endpoint v g)
          else if strcmp_eq a "--id" then vom_worker_cli_parse rest' (set_worker_id v g)
          else if help then None else vom_worker_cli_parse rest g
      | [] => if help then None else Some g
      end
  end.

(** * Envelopes over a socket *)

(** The output parameters of [recv_envelope]: the envelope, and the payload
    buffer with its length unless those pointers are [NULL]. *)
Record recv_out := {
  ro_env : envelope;
  ro_payload : ptr (list Z * Z)
}.

(** How a part of the program goes: it is done, or it waits for ever in a
    receive, in the state [b]. *)
Inductive progress (A B : Type) := Done (a : A) | Waits (b : B).
Arguments Done {A B} a.
Arguments Waits {A B} b.

Section Worker.
Context {S : Type} `{Zmq S}.

Definition send_envelope (malloc : option (list Z)) (time : Z) (code : VomRouterMsgCode)
    (payload : ptr (list Z)) (payload_len : Z) (sock : S) : bool * S :=
  let env := {| env_protocol_version := 1; env_message_code := router_msg_value code;
                env_payload_length := payload_len; env_sequence_id := 0;
                env_timestamp_ms := u64 (u64 time * 1000) |} in
  match malloc with
  | None => (false, sock)
  | Some heap =>
      let body := match payload with Some p => p | NULL => drop ENVELOPE_SIZE heap end in
      let (rc, sock) := zmq_send sock (encode_envelope env ++ take (Z.to_nat payload_len) body) false in
      (rc >=? 0, sock)
  end.

(** [interrupted]: a signal ends the receive.  [None]: it waits for ever. *)
Definition recv_envelope (interrupted : bool) (stack : list Z) (out : recv_out) (sock : S) : option (bool * recv_out * S) :=
  '(bytes, bs, sock) ← zmq_recv_blocking interrupted sock 4120;
  if bytes <? Z.of_nat ENVELOPE_SIZE then Some (false, out, sock)
  else
    let buf := bs ++ drop (length bs) stack in
    let env := decode_envelope buf in
    if env_payload_length env >? 4096 then Some (false, {| ro_env := env; ro_payload := ro_payload out |}, sock)
    else
      let n := Z.to_nat (env_payload_length env) in
      Some (true,
       {| ro_env := env;
          ro_payload := match ro_payload out with
                        | Some (old, _) =>
                            Some (take n (drop ENVELOPE_SIZE buf) ++ drop n old, env_payload_length env)
                        | NULL => NULL
                        end |}, sock).

(** * The daemon *)

(** 4 cores and 4 GiB, in 12 of the 64 bytes. *)
Definition worker_join_payload : list Z :=
  le_bytes 4 4 ++ le_bytes 8 (4 * 1024 * 1024 * 1024) ++ replicate 52 0.

(** The wait for a JOIN_RESP: [n] attempts left; [stack k] is what the receive
    buffer holds and [signals k] whether a signal ends the receive when [k]
    attempts are left.  The result has [g_worker_running]: an interrupted
    attempt counts as one, and the next one waits again. *)
Fixpoint join_loop (n : nat) (signals : nat -> bool) (stack : nat -> list Z) (running : bool) (out : recv_out) (sock : S) :
    progress (bool * bool * S) (bool * S) :=
  match n with
  | O => Done (false, running, sock)
  | Datatypes.S n' =>
      match recv_envelope (signals n) (stack n) out sock with
      | None => Waits (running, sock)
      | Some (ok, out, sock) =>
          let running := running && negb (signals n) in
          if ok && (env_message_code (ro_env out) =? router_msg_value ROUTER_MSG_JOIN_RESP)
          then Done (true, running, sock)
          else join_loop n' signals stack running out sock
      end
  end.

(** What one turn of the event loop finds: the clock when it starts and at each
    send, the blocks of [malloc], the old contents of the stack variables,
    whether a signal ends the receive, and whether one arrives at another time
    of the turn. *)
Record worker_turn := {
  wt_time : Z;
  wt_hb_malloc : option (list Z);
  wt_hb_time : Z;
  wt_stack : list Z;
  wt_out : recv_out;
  wt_ack_malloc : option (list Z);
  wt_ack_time : Z;
  wt_interrupt : bool;
  wt_signal : bool
}.

Record worker_daemon := {
  wd_globals : worker_globals;
  wd_sock : S;
  wd_last_heartbeat_ms : Z
}.

Definition now_of (time : Z) : Z := u64 (u64 time * 1000).

Definition heartbeat_interval_ms : Z := 5000.

(** One turn of the [while] loop. *)
Definition worker_round (t : worker_turn) (d : worker_daemon) : progress worker_daemon worker_daemon :=
  let now_ms := now_of (wt_time t) in
  let '(last, sock) :=
    if u64 (now_ms - wd_last_heartbeat_ms d) >=? heartbeat_interval_ms
    then (now_ms, (send_envelope (wt_hb_malloc t) (wt_hb_time t) ROUTER_MSG_HEARTBEAT NULL 0 (wd_sock d)).2)
    else (wd_last_heartbeat_ms d, wd_sock d) in
  match recv_envelope (wt_interrupt t) (wt_stack t) (wt_out t) sock with
  | None => Waits {| wd_globals := wd_globals d; wd_sock := sock; wd_last_heartbeat_ms := last |}
  | Some (ok, out, sock) =>
      let sock :=
        if ok && (env_message_code (ro_env out) =? router_msg_value ROUTER_MSG_CHUNK_ASSIGN)
        then (send_envelope (wt_ack_malloc t) (wt_ack_time t) ROUTER_MSG_CHUNK_ACK NULL 0 sock).2
        else sock in
      Done {| wd_globals := if wt_interrupt t || wt_signal t then vom_worker_signal_handler (wd_globals d) else wd_globals d;
              wd_sock := sock; wd_last_heartbeat_ms := last |}
  end.

(** The loop, over the turns the outside world offers. *)
Fixpoint worker_loop (ts : list worker_turn) (d : worker_daemon) : progress worker_daemon worker_daemon :=
  match ts with
  | [] => Done d
  | t :: ts =>
      if g_worker_running (wd_globals d) then
        match worker_round t d with
        | Done d => worker_loop ts d
        | Waits d => Waits d
        end
      else Done d
  end.

(** The set-up of the socket: [zmq_ctx_new] and [zmq_socket], the identity
    option, and [zmq_connect] with its result. *)
Record zmq_setup := {
  zs_ctx : bool;
  zs_socket : option S;
  zs_set_identity : string -> S -> S;
  zs_connect : string -> S -> Z * S
}.

(** What [main] finds before its loop; [wb_join_signals k]: a signal ends the
    receive with [k] attempts left, [wb_signal]: one arrives at another time. *)
Record worker_boot := {
  wb_eth0 : option (list Z);
  wb_wlan0 : option (list Z);
  wb_pid : Z;
  wb_id_time : Z;
  wb_join_malloc : option (list Z);
  wb_join_time : Z;
  wb_join_stack : nat -> list Z;
  wb_join_out : recv_out;
  wb_join_signals : nat -> bool;
  wb_signal : bool;
  wb_loop_time : Z
}.

(** Where [main] is after the turns offered: it has ended with an exit code,
    before or behind its loop, or it runs on, or it waits for ever in a receive,
    of the join phase or of the loop. *)
Inductive worker_end :=
| WorkerExit (code : Z) (d : option worker_daemon)
| WorkerRuns (d : worker_daemon)
| WorkerWaitsToJoin (sock : S)
| WorkerWaits (d : worker_daemon).

Definition worker_main (argv : list string) (b : worker_boot) (z : zmq_setup) (ts : list worker_turn) : worker_end :=
  if match argv with a :: _ => strcmp_eq a "--test" | [] => false end then WorkerExit 0 None
  else
      let g := worker_globals_init in
      let g := if strcmp_eq (g_worker_id g) ""
               then set_worker_id (generate_worker_id 64 (wb_eth0 b) (wb_wlan0 b) (wb_pid b) (wb_id_time b)) g
               else g in
      match vom_worker_cli_parse argv g with
      | None => WorkerExit 0 None
      | Some g =>
          if negb (zs_ctx z) then WorkerExit 1 None
          else
            match zs_socket z with
            | None => WorkerExit 1 None
            | Some sock =>
                let '(rc, sock) := zs_connect z (g_master_endpoint g) (zs_set_identity z (g_worker_id g) sock) in
                if negb (rc =? 0) then WorkerExit 1 None
                else
                  let '(sent, sock) :=
                    send_envelope (wb_join_malloc b) (wb_join_time b) ROUTER_MSG_JOIN_REQ
                      (Some worker_join_payload) (4 + 8) sock in
                  if negb sent then WorkerExit 1 None
                  else
                    match join_loop 50 (wb_join_signals b) (wb_join_stack b) (g_worker_running g) (wb_join_out b) sock with
                    | Waits (_, sock) => WorkerWaitsToJoin sock
                    | Done (_, running, sock) =>
                        let g := if running && negb (wb_signal b) then g else vom_worker_signal_handler g in
                        match worker_loop ts {| wd_globals := g; wd_sock := sock;
                                                wd_last_heartbeat_ms := now_of (wb_loop_time b) |} with
                        | Waits d => WorkerWaits d
                        | Done d => if g_worker_running (wd_globals d) then WorkerRuns d else WorkerExit 0 (Some d)
                        end
                    end
            end
      end.

End Worker.
Arguments worker_daemon S : clear implicits.
Arguments zmq_setup S : clear implicits.
Arguments worker_end S : clear implicits.

(** * The daemon on a wire *)

Lemma countb_app {A} (p : A -> bool) l k : countb p (l ++ k) = (countb p l + countb p k)%nat.
Proof. unfold countb. by rewrite List.filter_app, length_app. Qed.

(** The message code of a frame the worker accepts. *)
Definition frame_code (f : list Z) : option Z :=
  if (length f <? ENVELOPE_SIZE)%nat || (env_payload_length (decode_envelope f) >? 4096) then None
  else Some (env_message_code (decode_envelope f)).

Definition frame_is (code : VomRouterMsgCode) (f : list Z) : bool :=
  bool_decide (frame_code f = Some (router_msg_value code)).

(** A wire of non-empty messages whose frames are bytes of a size that fits an
    [int]. *)
Definition wire_wf (w : wire) : Prop :=
  Forall (fun m => m <> []) (w_in w) /\
  Forall (fun f => Forall in_u8 f /\ Z.of_nat (length f) < 2 ^ 31) (concat (w_in w)).

(** The wire after one frame is taken and [sent] is appended. *)
Definition wire_after (w w' : wire) (frames : list (list Z)) (sent : list (list Z * bool)) : Prop :=
  concat (w_in w') = frames /\ w_out w' = w_out w ++ sent /\ w_up w' = w_up w /\ wire_wf w'.

Lemma wire_after_refl w : wire_wf w -> wire_after w w (concat (w_in w)) [].
Proof. intros H. split_and!; try done. by rewrite app_nil_r. Qed.

Lemma decode_envelope_front bs rest :
  (ENVELOPE_SIZE <= length bs)%nat -> decode_envelope (bs ++ rest) = decode_envelope bs.
Proof.
  unfold ENVELOPE_SIZE, decode_envelope. intros Hl.
  assert (forall n i, (i + n <= 24)%nat -> take n (drop i (bs ++ rest)) = take n (drop i bs)) as Hs.
  { intros n i Hi. rewrite drop_app_le by lia. apply take_app_le. rewrite length_drop. lia. }
  pose proof (Hs 2%nat 0%nat) as H0. rewrite !drop_0 in H0. rewrite H0, !Hs by lia. done.
Qed.

Lemma frame_code_spec f stack rest :
  (ENVELOPE_SIZE <= length f)%nat -> decode_envelope (take 4120 f ++ drop rest stack) = decode_envelope f.
Proof.
  intros Hl. unfold ENVELOPE_SIZE in *. rewrite decode_envelope_front by (unfold ENVELOPE_SIZE; rewrite length_take; lia).
  rewrite <- (take_drop 4120 f) at 2. symmetry. apply decode_envelope_front.
  unfold ENVELOPE_SIZE. rewrite length_take. lia.
Qed.

(** One call of [recv_envelope] takes the next frame, and accepts it exactly
    if it has a code. *)
Lemma recv_wire stack out w f fs :
  wire_wf w -> concat (w_in w) = f :: fs ->
  exists ok out' w', recv_envelope false stack out w = Some (ok, out', w') /\ wire_after w w' fs [] /\
    forall c, ok && (env_message_code (ro_env out') =? router_msg_value c) = frame_is c f.
Proof.
  intros [Hne Hf] E. destruct w as [[|[|g gs] ms] more o up]; cbn in E, Hne, Hf; [done|by apply Forall_cons in Hne as []|].
  injection E as -> <-. apply Forall_cons in Hf as [[Hb Hl] Hf]. apply Forall_cons in Hne as [_ Hne].
  assert (concat (match gs with [] => ms | _ => gs :: ms end) = gs ++ concat ms) as Hc by (by destruct gs).
  unfold recv_envelope, zmq_recv_blocking. cbn [zmq_recv_wait wire_zmq]. rewrite wire_next_frame by done. rewrite fmap_u8_id by done.
  cbn [mbind option_bind]. set (w' := wire_read gs ms o up).
  assert (wire_after {| w_in := (f :: gs) :: ms; w_more := more; w_out := o; w_up := up |} w' (gs ++ concat ms) []) as Hw.
  { unfold w', wire_read, wire_after, wire_wf. cbn [w_in w_out w_up]. rewrite app_nil_r, Hc. split_and!; try done.
    destruct gs; [done|]. by constructor. }
  clearbody w'.
  unfold frame_is, frame_code. destruct (Z.ltb_spec (Z.of_nat (length f)) (Z.of_nat ENVELOPE_SIZE)) as [L|L].
  { eexists _, _, _. split; [done|]. split; [exact Hw|]. intros c. rewrite (proj2 (Nat.ltb_lt _ _)) by lia.
    by rewrite bool_decide_eq_false_2. }
  rewrite (proj2 (Nat.ltb_ge _ _)) by lia. rewrite frame_code_spec by lia. cbn [orb].
  destruct (_ >? 4096); eexists _, _, _; (split; [done|]); (split; [exact Hw|]); intros c.
  - by rewrite bool_decide_eq_false_2.
  - cbn [ro_env]. destruct (Z.eqb_spec (env_message_code (decode_envelope f)) (router_msg_value c)) as [->|N];
      [by rewrite bool_decide_eq_true_2|rewrite bool_decide_eq_false_2 by congruence; done].
Qed.

(** With nothing on the wire the receive waits for ever. *)
Lemma recv_wire_empty stack out w :
  wire_wf w -> concat (w_in w) = [] -> recv_envelope false stack out w = None.
Proof.
  intros [Hne _] E. destruct w as [[|[|g gs] ms] more o up]; cbn in *; [done| |done].
  by apply Forall_cons in Hne as [].
Qed.

Definition worker_env (code : VomRouterMsgCode) (len time : Z) : envelope :=
  {| env_protocol_version := 1; env_message_code := router_msg_value code; env_payload_length := len;
     env_sequence_id := 0; env_timestamp_ms := now_of time |}.

Lemma send_wire heap time code w :
  w_up w = true -> wire_wf w ->
  exists w', send_envelope (Some heap) time code NULL 0 w = (true, w') /\
    wire_after w w' (concat (w_in w)) [(encode_envelope (worker_env code 0 time), false)].
Proof.
  intros Hup Hwf. unfold send_envelope. cbn [zmq_send wire_zmq]. unfold wire_send. rewrite Hup, app_nil_r.
  eexists. split; [rewrite Z.geb_leb, (proj2 (Z.leb_le _ _)) by lia; reflexivity|].
  unfold wire_after. cbn [w_in w_out w_up]. by rewrite <- Hup.
Qed.

Lemma wire_after_trans w w1 w2 fs gs s1 s2 :
  wire_after w w1 fs s1 -> wire_after w1 w2 gs s2 -> wire_after w w2 gs (s1 ++ s2).
Proof.
  intros (A1 & A2 & A3 & A4) (B1 & B2 & B3 & B4). split_and!; try done.
  - by rewrite B2, A2, app_assoc.
  - congruence.
Qed.

(** Why the loop goes no further: no turn is offered, a signal has arrived, or
    a receive waits for ever. *)
Inductive loop_stop := StopOffered | StopSignal | StopWaits.

(** The turns the loop takes when [n] frames arrive: up to the first in which a
    signal arrives, or in which nothing is left to receive. *)
Fixpoint turns_taken (n : nat) (ts : list worker_turn) {struct ts} : list worker_turn * loop_stop :=
  match ts with
  | [] => ([], StopOffered)
  | t :: ts =>
      if wt_interrupt t then ([t], StopSignal)
      else
        match n with
        | O => ([t], StopWaits)
        | S n => if wt_signal t then ([t], StopSignal) else let '(taken, stop) := turns_taken n ts in (t :: taken, stop)
        end
  end.

(** The receives of some turns that no signal ends. *)
Definition reads (ts : list worker_turn) : nat := countb (fun t => negb (wt_interrupt t)) ts.

(** The clock never runs backwards from [a] on. *)
Fixpoint clock_from (a : Z) (ts : list worker_turn) : Prop :=
  match ts with
  | [] => True
  | t :: ts => a <= now_of (wt_time t) /\ clock_from (now_of (wt_time t)) ts
  end.

(** The time of the last turn. *)
Fixpoint last_turn_ms (a : Z) (ts : list worker_turn) : Z :=
  match ts with
  | [] => a
  | t :: ts => last_turn_ms (now_of (wt_time t)) ts
  end.

Definition mallocs_ok (t : worker_turn) : Prop :=
  exists a b, wt_hb_malloc t = Some a /\ wt_ack_malloc t = Some b.

Definition has_code (code : VomRouterMsgCode) (e : envelope) : bool :=
  env_message_code e =? router_msg_value code.

Definition frame_of (e : envelope) : list Z * bool := (encode_envelope e, false).

(** The frame a turn receives, if any, and the envelopes it sends. *)
Definition turn_reads (frames : list (list Z)) (t : worker_turn) : list (list Z) :=
  if wt_interrupt t then [] else take 1 frames.

Definition turn_sends (last : Z) (frames : list (list Z)) (t : worker_turn) : list envelope :=
  (if now_of (wt_time t) - last >=? heartbeat_interval_ms
   then [worker_env ROUTER_MSG_HEARTBEAT 0 (wt_hb_time t)] else []) ++
  (if existsb (frame_is ROUTER_MSG_CHUNK_ASSIGN) (turn_reads frames t)
   then [worker_env ROUTER_MSG_CHUNK_ACK 0 (wt_ack_time t)] else []).

Lemma now_of_range t : in_u64 (now_of t).
Proof. apply u64_range. Qed.
#[local] Hint Resolve now_of_range : cint.

(** One turn: it waits for ever exactly if there is nothing to receive and no
    signal ends the receive. *)
Lemma round_wire t (d : worker_daemon wire) :
  let now := now_of (wt_time t) in let frames := concat (w_in (wd_sock d)) in
  wire_wf (wd_sock d) -> w_up (wd_sock d) = true -> mallocs_ok t ->
  in_u64 (wd_last_heartbeat_ms d) -> wd_last_heartbeat_ms d <= now ->
  exists d',
  worker_round t d = (if wt_interrupt t then Done d' else match frames with [] => Waits d' | _ => Done d' end) /\
  wire_after (wd_sock d) (wd_sock d') (drop (reads [t]) frames)
    (frame_of <$> turn_sends (wd_last_heartbeat_ms d) frames t) /\
  wd_last_heartbeat_ms d' =
    (if now - wd_last_heartbeat_ms d >=? heartbeat_interval_ms then now else wd_last_heartbeat_ms d) /\
  wd_globals d' =
    (if wt_interrupt t || match frames with [] => false | _ => wt_signal t end
     then vom_worker_signal_handler (wd_globals d) else wd_globals d).
Proof.
  intros now frames Hwf Hup (ha & hb & Ma & Mb) Hu Hle. unfold worker_round, turn_sends, turn_reads, reads.
  fold now frames. rewrite u64_sub_spec, (proj2 (Z.leb_le _ _)), Ma, Mb by (done || apply now_of_range).
  set (due := now - wd_last_heartbeat_ms d >=? heartbeat_interval_ms).
  assert (exists w1, (if due then (now, (send_envelope (Some ha) (wt_hb_time t) ROUTER_MSG_HEARTBEAT NULL 0 (wd_sock d)).2)
      else (wd_last_heartbeat_ms d, wd_sock d)) = (if due then now else wd_last_heartbeat_ms d, w1) /\
      wire_after (wd_sock d) w1 frames (if due then [frame_of (worker_env ROUTER_MSG_HEARTBEAT 0 (wt_hb_time t))] else []))
    as (w1 & -> & Hs).
  { destruct due; [|exists (wd_sock d); split; [done|]; by split_and!; rewrite ?app_nil_r].
    destruct (send_wire ha (wt_hb_time t) ROUTER_MSG_HEARTBEAT _ Hup Hwf) as (w1 & -> & A). by exists w1. }
  rewrite fmap_app. pose proof Hs as (Hin & _ & Hup1 & Hwf1). rewrite Hup in Hup1.
  assert (forall w2 b k, wire_after w1 w2 (drop k frames) [] ->
    wire_after (wd_sock d) (if b : bool then (send_envelope (Some hb) (wt_ack_time t) ROUTER_MSG_CHUNK_ACK NULL 0 w2).2 else w2)
      (drop k frames) ((frame_of <$> (if due then [worker_env ROUTER_MSG_HEARTBEAT 0 (wt_hb_time t)] else [])) ++
       (frame_of <$> (if b then [worker_env ROUTER_MSG_CHUNK_ACK 0 (wt_ack_time t)] else [])))) as Hfin.
  { intros w2 b k A. pose proof A as (Hin2 & _ & Hup2 & Hwf2). rewrite Hup1 in Hup2.
    eapply wire_after_trans; [destruct due; exact Hs|]. destruct b; [|done].
    destruct (send_wire hb (wt_ack_time t) ROUTER_MSG_CHUNK_ACK _ Hup2 Hwf2) as (w3 & -> & B). rewrite Hin2 in B.
    exact (wire_after_trans _ _ _ _ _ _ _ A B). }
  assert (wire_after w1 w1 frames []) as Stay by (by split_and!; rewrite ?app_nil_r).
  destruct (wt_interrupt t) eqn:Int.
  { eexists. split; [reflexivity|]. cbn [wd_sock wd_last_heartbeat_ms wd_globals orb countb List.filter negb length existsb].
    rewrite Int. split_and!; [|done..]. by apply (Hfin w1 false 0%nat). }
  cbn [countb List.filter negb length orb]. rewrite Int. cbn [negb length].
  destruct frames as [|f fs] eqn:F.
  - rewrite recv_wire_empty by done. eexists. split; [reflexivity|]. cbn [wd_sock wd_last_heartbeat_ms wd_globals take existsb].
    split_and!; [|done..]. by apply (Hfin w1 false 1%nat).
  - destruct (recv_wire (wt_stack t) (wt_out t) w1 f fs Hwf1 Hin) as (ok & out' & w2 & -> & A & Hc).
    rewrite Hc. eexists. split; [reflexivity|]. cbn [wd_sock wd_last_heartbeat_ms wd_globals take existsb].
    split_and!; [|done..]. rewrite orb_false_r. by apply (Hfin w2 _ 1%nat).
Qed.

Lemma turn_sends_counts last frames t :
  countb (has_code ROUTER_MSG_CHUNK_ACK) (turn_sends last frames t) =
    countb (frame_is ROUTER_MSG_CHUNK_ASSIGN) (take (reads [t]) frames) /\
  countb (has_code ROUTER_MSG_HEARTBEAT) (turn_sends last frames t) =
    (if now_of (wt_time t) - last >=? heartbeat_interval_ms then 1 else 0)%nat /\
  Forall (fun e => e = worker_env ROUTER_MSG_HEARTBEAT 0 (wt_hb_time t) \/
                   e = worker_env ROUTER_MSG_CHUNK_ACK 0 (wt_ack_time t)) (turn_sends last frames t).
Proof.
  unfold turn_sends, turn_reads, reads, countb. cbn [List.filter].
  destruct (wt_interrupt t); cbn [negb length]; [|destruct frames as [|f fs]].
  - cbn [take existsb]. destruct (_ >=? _); cbn; by split_and!; auto.
  - cbn [take existsb]. destruct (_ >=? _); cbn; by split_and!; auto.
  - cbn [take existsb List.filter]. destruct (frame_is _ f), (_ >=? _); cbn; split_and!; eauto 8.
Qed.

Lemma reads_cons t ts : reads (t :: ts) = (reads [t] + reads ts)%nat.
Proof. unfold reads. rewrite !countb_cons. unfold countb. cbn. lia. Qed.

(** What the loop has done when it stops, from a daemon whose last heartbeat is
    less than an interval old. *)
Definition loop_done (d d' : worker_daemon wire) (now : Z) (taken : list worker_turn) (sent : list envelope) : Prop :=
  let frames := concat (w_in (wd_sock d)) in
  wire_after (wd_sock d) (wd_sock d') (drop (reads taken) frames) (frame_of <$> sent) /\
  Forall (fun e => exists t, t ∈ taken /\ (e = worker_env ROUTER_MSG_HEARTBEAT 0 (wt_hb_time t) \/
                                     e = worker_env ROUTER_MSG_CHUNK_ACK 0 (wt_ack_time t))) sent /\
  countb (has_code ROUTER_MSG_CHUNK_ACK) sent = countb (frame_is ROUTER_MSG_CHUNK_ASSIGN) (take (reads taken) frames) /\
  wd_last_heartbeat_ms d + heartbeat_interval_ms * Z.of_nat (countb (has_code ROUTER_MSG_HEARTBEAT) sent)
    <= wd_last_heartbeat_ms d' /\
  wd_last_heartbeat_ms d' <= last_turn_ms now taken < wd_last_heartbeat_ms d' + heartbeat_interval_ms.

Definition may_go_on (d : worker_daemon wire) (now : Z) : Prop :=
  wire_wf (wd_sock d) /\ w_up (wd_sock d) = true /\ in_u64 (wd_last_heartbeat_ms d) /\
  wd_last_heartbeat_ms d <= now < wd_last_heartbeat_ms d + heartbeat_interval_ms.

Lemma loop_done_nil d now : may_go_on d now -> loop_done d d now [] [].
Proof.
  intros (Hwf & _ & _ & Hn). unfold loop_done. cbn [reads countb List.filter length last_turn_ms fmap list_fmap].
  rewrite drop_0. split_and!; [by apply wire_after_refl|done|done|cbn; lia|lia|lia].
Qed.

(** A turn, and the daemon behind it. *)
Lemma loop_turn t d now : may_go_on d now -> mallocs_ok t -> now <= now_of (wt_time t) ->
  exists d' sent, worker_round t d =
    (if wt_interrupt t then Done d' else match concat (w_in (wd_sock d)) with [] => Waits d' | _ => Done d' end) /\
  loop_done d d' now [t] sent /\ may_go_on d' (now_of (wt_time t)) /\
  concat (w_in (wd_sock d')) = drop (reads [t]) (concat (w_in (wd_sock d))) /\
  wd_globals d' =
    (if wt_interrupt t || match concat (w_in (wd_sock d)) with [] => false | _ => wt_signal t end
     then vom_worker_signal_handler (wd_globals d) else wd_globals d).
Proof.
  intros (Hwf & Hup & Hu & Hn) Mt Hc. set (t1 := now_of (wt_time t)) in *. set (frames := concat (w_in (wd_sock d))).
  destruct (round_wire t d Hwf Hup Mt Hu ltac:(fold t1; lia)) as (d' & R & A & L & G). fold frames t1 in R, A, L, G.
  destruct (turn_sends_counts (wd_last_heartbeat_ms d) frames t) as (Ca & Ch & Cf). fold t1 in Ch.
  set (sent := turn_sends (wd_last_heartbeat_ms d) frames t) in *.
  assert (wd_last_heartbeat_ms d' <= t1 /\ t1 < wd_last_heartbeat_ms d' + heartbeat_interval_ms /\
    wd_last_heartbeat_ms d + heartbeat_interval_ms * Z.of_nat (countb (has_code ROUTER_MSG_HEARTBEAT) sent)
      <= wd_last_heartbeat_ms d') as (L1 & L2 & L3).
  { rewrite Ch, L. unfold heartbeat_interval_ms in *. destr_if; bprop; lia. }
  exists d', sent. split; [exact R|]. pose proof A as (Hin & _ & Hup' & Hwf'). rewrite Hup in Hup'. split; [|split].
  - unfold loop_done. cbn [last_turn_ms]. fold frames t1. split_and!; try done; try lia.
    eapply Forall_impl; [exact Cf|]. intros e He. exists t. split; [left|done].
  - split_and!; try done; try lia. rewrite L. destr_if; [apply now_of_range|done].
  - by split.
Qed.

Lemma loop_done_trans d d1 d2 now t taken s1 s2 :
  loop_done d d1 now [t] s1 -> concat (w_in (wd_sock d1)) = drop (reads [t]) (concat (w_in (wd_sock d))) ->
  loop_done d1 d2 (now_of (wt_time t)) taken s2 -> loop_done d d2 now (t :: taken) (s1 ++ s2).
Proof.
  intros (A1 & A2 & A3 & A4 & A5) E (B1 & B2 & B3 & B4 & B5). rewrite E in B1, B3. rewrite drop_drop in B1. unfold loop_done.
  rewrite reads_cons. cbn [last_turn_ms] in *. split_and!.
  - rewrite fmap_app. by eapply wire_after_trans.
  - apply Forall_app. split.
    + eapply Forall_impl; [exact A2|]. intros e (x & ->%list_elem_of_singleton & He). exists t. split; [left|done].
    + eapply Forall_impl; [exact B2|]. intros e (x & Hx & He). exists x. split; [by right|done].
  - rewrite countb_app, A3, B3, <- countb_app. f_equal. by rewrite take_take_drop.
  - rewrite countb_app. lia.
  - lia.
  - lia.
Qed.

(** What the loop does to the wire, by induction on its turns. *)
Lemma loop_wire ts : forall (d : worker_daemon wire) now,
  may_go_on d now -> Forall mallocs_ok ts -> g_worker_running (wd_globals d) = true -> clock_from now ts ->
  let '(taken, stop) := turns_taken (length (concat (w_in (wd_sock d)))) ts in
  exists d' sent, worker_loop ts d = match stop with StopWaits => Waits d' | _ => Done d' end /\
    g_worker_running (wd_globals d') = match stop with StopSignal => false | _ => true end /\
    loop_done d d' now taken sent.
Proof.
  induction ts as [|t ts IH]; intros d now Hd HM Hrun Hc; cbn [turns_taken worker_loop].
  { exists d, []. split; [done|]. split; [done|]. by apply loop_done_nil. }
  apply Forall_cons in HM as [Mt HM]. destruct Hc as [Hc1 Hc]. rewrite Hrun.
  destruct (loop_turn t d now Hd Mt Hc1) as (d1 & s1 & -> & D1 & Hd1 & E & G).
  destruct (wt_interrupt t) eqn:Int.
  { exists d1, s1. split; [|split; [by rewrite G|done]]. destruct ts; [done|]. cbn [worker_loop]. by rewrite G. }
  cbn [orb] in G. destruct (concat (w_in (wd_sock d))) as [|f fs] eqn:F; cbn [length].
  { exists d1, s1. split; [done|]. split; [by rewrite G|done]. }
  assert (concat (w_in (wd_sock d1)) = fs) as E' by (rewrite E; unfold reads; cbn; by rewrite Int).
  destruct (wt_signal t) eqn:Sg.
  { exists d1, s1. split; [|split; [by rewrite G|done]]. destruct ts; [done|]. cbn [worker_loop]. by rewrite G. }
  specialize (IH d1 _ Hd1 HM). rewrite E' in IH. specialize (IH ltac:(by rewrite G) Hc).
  destruct (turns_taken (length fs) ts) as [taken stop]. destruct IH as (d2 & s2 & W & R & D2).
  exists d2, (s1 ++ s2). split; [exact W|]. split; [exact R|]. eapply loop_done_trans; [done|by rewrite F|done].
Qed.

Lemma cli_parse_cons a v r g :
  vom_worker_cli_parse (a :: v :: r) g =
  if strcmp_eq a "--connect" then vom_worker_cli_parse r (set_endpoint v g)
  else if strcmp_eq a "--id" then vom_worker_cli_parse r (set_worker_id v g)
  else if strcmp_eq a "--help" || strcmp_eq a "-h" then None else vom_worker_cli_parse (v :: r) g.
Proof. reflexivity. Qed.

Lemma parse_running argv g g' :
  vom_worker_cli_parse argv g = Some g' -> g_worker_running g' = g_worker_running g.
Proof.
  remember (length argv) as n eqn:Hn. revert argv g Hn.
  induction n as [n IH] using lt_wf_ind. intros [|a [|v r]] g -> E.
  - by injection E as <-.
  - cbn [vom_worker_cli_parse] in E. destr_if_hyp; [done|]. by injection E as <-.
  - rewrite cli_parse_cons in E. repeat destr_if_hyp; try done; eapply IH in E; try reflexivity; try exact E; cbn; lia.
Qed.

(** The join phase, with [n] attempts left: what it leaves of the frames, and
    whether a signal has ended one of its receives; [None] if it waits for ever. *)
Fixpoint join_rest (n : nat) (signals : nat -> bool) (frames : list (list Z)) : option (list (list Z) * bool) :=
  match n with
  | O => Some (frames, false)
  | S n' =>
      if signals n then (fun '(rest, _) => (rest, true)) <$> join_rest n' signals frames
      else
        match frames with
        | [] => None
        | f :: fs => if frame_is ROUTER_MSG_JOIN_RESP f then Some (fs, false) else join_rest n' signals fs
        end
  end.

Lemma join_wire n signals stack : forall running out w, wire_wf w ->
  match join_rest n signals (concat (w_in w)) with
  | None => exists running' w', join_loop n signals stack running out w = Waits (running', w') /\ wire_after w w' [] []
  | Some (rest, signalled) => exists joined w',
      join_loop n signals stack running out w = Done (joined, running && negb signalled, w') /\ wire_after w w' rest []
  end.
Proof.
  induction n as [|n IH]; intros running out w Hwf; cbn [join_loop join_rest].
  { exists false, w. rewrite andb_true_r. split; [done|]. by apply wire_after_refl. }
  destruct (signals (S n)) eqn:Sg.
  - change (recv_envelope true (stack (S n)) out w) with (Some (false, out, w)). cbn [andb negb].
    specialize (IH (running && false) out w Hwf). destruct (join_rest n signals (concat (w_in w))) as [[rest sg]|]; cbn; [|done].
    destruct IH as (j & w' & E & A). exists j, w'. split; [|done]. rewrite E. by rewrite !andb_false_r.
  - destruct (concat (w_in w)) as [|f fs] eqn:E.
    + rewrite recv_wire_empty by done. exists running, w. split; [done|]. rewrite <- E. by apply wire_after_refl.
    + destruct (recv_wire (stack (S n)) out w f fs Hwf E) as (ok & o1 & w1 & -> & A & Hc).
      rewrite Hc. cbn [negb]. rewrite andb_true_r. destruct (frame_is _ f).
      * exists true, w1. by rewrite andb_true_r.
      * specialize (IH running o1 w1 ltac:(apply A)). replace (concat (w_in w1)) with fs in IH by (symmetry; apply A).
        destruct (join_rest n signals fs) as [[rest sg]|].
        -- destruct IH as (j & w' & -> & B). exists j, w'. split; [done|]. exact (wire_after_trans _ _ _ _ _ _ _ A B).
        -- destruct IH as (r & w' & -> & B). exists r, w'. split; [done|]. exact (wire_after_trans _ _ _ _ _ _ _ A B).
Qed.

(** The worker's join request on the wire. *)
Definition worker_join_frame (time : Z) : list Z :=
  encode_envelope (worker_env ROUTER_MSG_JOIN_REQ 12 time) ++ take 12 worker_join_payload.

(** The globals [main] starts its loop with. *)
Definition worker_globals_of (argv : list string) (b : worker_boot) : option worker_globals :=
  vom_worker_cli_parse argv
    (set_worker_id (generate_worker_id 64 (wb_eth0 b) (wb_wlan0 b) (wb_pid b) (wb_id_time b)) worker_globals_init).

(** C13: What a connected worker daemon does on the wire, as long as the clock
    does not run backwards, the allocations succeed and the socket takes what is
    sent.  It sends its join request first and only once.  It receives the
    incoming frames in order, waiting for each: up to 50 of them for the join,
    until one is a JOIN_RESP, a receive that a signal ends counting as an
    attempt; then one per turn of its loop.  It acknowledges exactly the
    CHUNK_ASSIGN frames it receives in the loop, and everything else it sends
    are heartbeats, at most one per five seconds since the loop began: the one
    that is due when a turn begins is sent then, and none while the turn waits
    to receive.  When frames run out the daemon waits for ever, in the join phase
    or in the next turn, sending no more, unless a signal ends that receive; a
    signal in the loop ends it after the turn with exit code 0, and after one
    in the join phase the loop is not entered.  Every message is a single frame. *)
Theorem worker_daemon_traffic (argv : list string) (b : worker_boot) (z : zmq_setup wire)
    (ts : list worker_turn) (g : worker_globals) (s0 w : wire) (heap : list Z) :
  head argv <> Some "--test"%string -> worker_globals_of argv b = Some g ->
  zs_ctx z = true -> zs_socket z = Some s0 ->
  zs_connect z (g_master_endpoint g) (zs_set_identity z (g_worker_id g) s0) = (0, w) ->
  wire_wf w -> w_up w = true -> wb_join_malloc b = Some heap -> Forall mallocs_ok ts ->
  clock_from (now_of (wb_loop_time b)) ts ->
  let frames := concat (w_in w) in
  let join := (worker_join_frame (wb_join_time b), false) in
  match join_rest 50 (wb_join_signals b) frames with
  | None => exists s, worker_main argv b z ts = WorkerWaitsToJoin s /\ w_out s = w_out w ++ [join] /\ concat (w_in s) = []
  | Some (rest, signalled) =>
      let '(taken, stop) := if signalled || wb_signal b then ([], StopSignal) else turns_taken (length rest) ts in
      exists d sent,
      worker_main argv b z ts =
        match stop with StopOffered => WorkerRuns d | StopSignal => WorkerExit 0 (Some d) | StopWaits => WorkerWaits d end /\
      w_out (wd_sock d) = w_out w ++ join :: (frame_of <$> sent) /\
      concat (w_in (wd_sock d)) = drop (reads taken) rest /\
      Forall (fun e => exists t, t ∈ taken /\ (e = worker_env ROUTER_MSG_HEARTBEAT 0 (wt_hb_time t) \/
                                         e = worker_env ROUTER_MSG_CHUNK_ACK 0 (wt_ack_time t))) sent /\
      countb (has_code ROUTER_MSG_CHUNK_ACK) sent =
        countb (frame_is ROUTER_MSG_CHUNK_ASSIGN) (take (reads taken) rest) /\
      now_of (wb_loop_time b) + 5000 * Z.of_nat (countb (has_code ROUTER_MSG_HEARTBEAT) sent)
        <= wd_last_heartbeat_ms d /\
      wd_last_heartbeat_ms d <= last_turn_ms (now_of (wb_loop_time b)) taken < wd_last_heartbeat_ms d + 5000
  end.
Proof.
  intros Ht Hg Hctx Hs Hcon Hwf Hup Hm HM Hck frames join.
  pose proof (parse_running _ _ _ Hg) as Hrun. cbn in Hrun.
  unfold worker_main. replace (match argv with a :: _ => strcmp_eq a "--test" | [] => false end) with false.
  2: { destruct argv as [|a r]; [done|]. symmetry. apply strcmp_ne. intros ->. done. }
  cbv zeta. change (strcmp_eq (g_worker_id worker_globals_init) "") with true. cbv iota.
  unfold worker_globals_of in Hg. rewrite Hg, Hctx, Hs, Hcon, Hm, Hrun. cbn [negb Z.eqb].
  unfold send_envelope. cbn [zmq_send wire_zmq]. unfold wire_send. rewrite Hup. rewrite Z.geb_leb, (proj2 (Z.leb_le _ _)) by lia.
  cbn [negb]. set (w1 := {| w_in := w_in w |}).
  assert (wire_after w w1 frames [join]) as A by (by split_and!).
  pose proof (join_wire 50 (wb_join_signals b) (wb_join_stack b) true (wb_join_out b) w1 ltac:(apply A)) as J.
  change (concat (w_in w1)) with frames in J. destruct (join_rest 50 (wb_join_signals b) frames) as [[rest signalled]|].
  2: { destruct J as (r & w2 & -> & B). exists w2. split; [done|].
       destruct (wire_after_trans _ _ _ _ _ _ _ A B) as (E1 & E2 & _). by rewrite app_nil_r in E2. }
  destruct J as (j & w2 & -> & B). pose proof (wire_after_trans _ _ _ _ _ _ _ A B) as C. rewrite app_nil_r in C.
  cbn [andb]. rewrite <- negb_orb.
  set (g' := if negb (signalled || wb_signal b) then g else vom_worker_signal_handler g).
  set (d0 := {| wd_globals := g'; wd_sock := w2 |}).
  assert (may_go_on d0 (now_of (wb_loop_time b))) as Hd0.
  { destruct C as (_ & _ & Cu & Cw). unfold may_go_on, heartbeat_interval_ms, d0. cbn [wd_sock wd_last_heartbeat_ms].
    rewrite Cu. split_and!; try done; try lia; apply now_of_range. }
  assert (exists d sent, (match worker_loop ts d0 with Waits d => WorkerWaits d
      | Done d => if g_worker_running (wd_globals d) then WorkerRuns d else WorkerExit 0 (Some d) end) =
      match (if signalled || wb_signal b then ([], StopSignal) else turns_taken (length rest) ts).2 with
      | StopOffered => WorkerRuns d | StopSignal => WorkerExit 0 (Some d) | StopWaits => WorkerWaits d end /\
      loop_done d0 d (now_of (wb_loop_time b)) (if signalled || wb_signal b then ([], StopSignal) else turns_taken (length rest) ts).1 sent) as K.
  { destruct (signalled || wb_signal b) eqn:Sg; unfold g' in d0; cbn [negb] in d0.
    - exists d0, []. split; [|by apply loop_done_nil]. by destruct ts.
    - pose proof (loop_wire ts d0 _ Hd0 HM Hrun Hck) as L. cbn [d0 wd_sock] in L.
      replace (concat (w_in w2)) with rest in L by (symmetry; apply C).
      destruct (turns_taken (length rest) ts) as [taken stop]. destruct L as (d & sent & -> & R & D). exists d, sent.
      split; [|exact D]. cbn [snd]. destruct stop; by rewrite ?R. }
  destruct (if signalled || wb_signal b then _ else _) as [taken stop]. cbn [fst snd] in K. destruct K as (d & sent & -> & D).
  destruct D as (D1 & D2 & D3 & D4 & D5). cbn [d0 wd_sock wd_last_heartbeat_ms] in *.
  replace (concat (w_in w2)) with rest in D1, D3 by (symmetry; apply C).
  exists d, sent. split; [done|]. pose proof (wire_after_trans _ _ _ _ _ _ _ C D1) as (E1 & E2 & _).
  unfold heartbeat_interval_ms in *. split_and!; try done; apply D5.
Qed.

Definition demo_out : recv_out :=
  {| ro_env := worker_env ROUTER_MSG_AUTH_REQ 0 0; ro_payload := Some (replicate 4096 0, 0) |}.
Definition demo_turn (time : Z) (signal : bool) : worker_turn :=
  {| wt_time := time; wt_hb_malloc := Some []; wt_hb_time := time; wt_stack := []; wt_out := demo_out;
     wt_ack_malloc := Some []; wt_ack_time := time;
     wt_interrupt := false; wt_signal := signal |}.
Definition demo_boot : worker_boot :=
  {| wb_eth0 := Some (bytes_of_string "52:54:00:12:34:56"); wb_wlan0 := None; wb_pid := 7; wb_id_time := 90;
     wb_join_malloc := Some []; wb_join_time := 100; wb_join_stack := fun _ => []; wb_join_out := demo_out;
     wb_join_signals := fun _ => false; wb_signal := false; wb_loop_time := 101 |}.
(** The master's reply with its delimiter, then two chunks. *)
Definition demo_replies : wire :=
  wire_with [[[]; encode_envelope (join_response (worker_env ROUTER_MSG_JOIN_REQ 12 100) 100000)];
             [encode_envelope (worker_env ROUTER_MSG_CHUNK_ASSIGN 2 104) ++ [1; 2]];
             [encode_envelope (worker_env ROUTER_MSG_CHUNK_ASSIGN 0 106)]].
Definition demo_setup (w : wire) : zmq_setup wire :=
  {| zs_ctx := true; zs_socket := Some w; zs_set_identity := fun _ s => s; zs_connect := fun _ s => (0, s) |}.
Definition demo_turns : list worker_turn := [demo_turn 104 false; demo_turn 106 false; demo_turn 111 true; demo_turn 200 false].

Lemma demo_replies_wf : wire_wf demo_replies.
Proof.
  split; [repeat constructor; discriminate|]. apply Forall_forall. intros f Hf.
  assert (Forall in_u8 f /\ Z.of_nat (length f) < 100) as [H ?]; [|split; [done|lia]].
  revert f Hf. apply Forall_forall. vm_compute. repeat constructor; done.
Qed.

(** A master that stays silent: the worker waits in its join phase, and one
    signal there makes it wait again. *)
Example silent_master_holds_worker :
  worker_main [] demo_boot (demo_setup (wire_with [])) demo_turns =
    WorkerWaitsToJoin {| w_in := []; w_more := false; w_out := [(worker_join_frame 100, false)]; w_up := true |} /\
  worker_main [] {| wb_eth0 := None; wb_wlan0 := None; wb_pid := 7; wb_id_time := 90; wb_join_malloc := Some [];
                    wb_join_time := 100; wb_join_stack := fun _ => []; wb_join_out := demo_out;
                    wb_join_signals := fun n => (n =? 50)%nat; wb_signal := false; wb_loop_time := 101 |}
    (demo_setup (wire_with [])) demo_turns =
    WorkerWaitsToJoin {| w_in := []; w_more := false; w_out := [(worker_join_frame 100, false)]; w_up := true |}.
Proof. split; vm_compute; reflexivity. Qed.

Lemma worker_daemon_traffic_witness : exists d sent,
  worker_main ["--connect"; "tcp://m:1"]%string demo_boot (demo_setup demo_replies) demo_turns = WorkerWaits d /\
  w_out (wd_sock d) = (worker_join_frame 100, false) :: (frame_of <$> sent) /\
  countb (has_code ROUTER_MSG_CHUNK_ACK) sent = 2%nat.
Proof.
  pose proof (worker_daemon_traffic ["--connect"; "tcp://m:1"]%string demo_boot (demo_setup demo_replies) demo_turns
    {| g_master_endpoint := "tcp://m:1"; g_worker_id := "worker-12:34:56"; g_worker_running := true |}
    demo_replies demo_replies []) as H.
  destruct H as (d & sent & H1 & H2 & _ & _ & H3 & _).
  - discriminate.
  - vm_compute. reflexivity.
  - reflexivity.
  - reflexivity.
  - reflexivity.
  - exact demo_replies_wf.
  - reflexivity.
  - reflexivity.
  - repeat constructor; exists [], []; split; reflexivity.
  - cbn [clock_from demo_turns]. vm_compute. repeat split; discriminate.
  - exists d, sent. split; [exact H1|]. split; [exact H2|]. rewrite H3. vm_compute. reflexivity.
Defined.

(** * The master daemon on worker traffic *)

(** What [send_envelope] puts in a frame for the calls of [main]. *)
Definition worker_frame (code : VomRouterMsgCode) (time : Z) : list Z :=
  match code with
  | ROUTER_MSG_JOIN_REQ => worker_join_frame time
  | _ => encode_envelope (worker_env code 0 time)
  end.

Definition payload_size (code : VomRouterMsgCode) : Z :=
  match code with ROUTER_MSG_JOIN_REQ => 12 | _ => 0 end.

(** The master's view of such a frame taken for an identity: one character and
    no number. *)
Lemma worker_frame_front code time : exists rest,
  worker_frame code time = [1; 0; router_msg_value code; 0; payload_size code; 0; 0; 0] ++ rest /\
  Forall in_u8 (worker_frame code time) /\ (24 <= length (worker_frame code time) < 63)%nat.
Proof.
  assert (forall code len, exists rest,
    encode_envelope (worker_env code len time) = le_bytes 2 1 ++ le_bytes 2 (router_msg_value code) ++ le_bytes 4 len ++ rest)
    as He by (intros; eexists; reflexivity).
  assert (Forall in_u8 (worker_frame code time)) as Hr.
  { assert (forall e, Forall in_u8 (encode_envelope e)) as R
      by (intros e; unfold encode_envelope; rewrite !Forall_app; split_and!; apply le_bytes_range).
    destruct code; try apply R. cbn [worker_frame]. unfold worker_join_frame. apply Forall_app. split; [apply R|].
    apply Forall_take. unfold worker_join_payload. rewrite !Forall_app. split_and!; try apply le_bytes_range.
    apply Forall_replicate. by vm_compute. }
  assert (24 <= length (worker_frame code time) < 63)%nat as Hl.
  { destruct code; cbn [worker_frame]; unfold worker_join_frame; rewrite ?length_app, encode_length;
      unfold ENVELOPE_SIZE; cbn -[le_bytes] ; cbn; lia. }
  destruct code; cbn [worker_frame]; unfold worker_join_frame;
    match goal with |- context [encode_envelope (worker_env ?c ?l time)] => destruct (He c l) as [r Hx] end;
    eexists; (split; [|done]); rewrite Hx, <- ?app_assoc; reflexivity.
Qed.

Lemma worker_env_ok code len time : in_u32 len -> envelope_ok (worker_env code len time).
Proof.
  intros. unfold envelope_ok, worker_env. cbn [env_protocol_version env_message_code env_payload_length
    env_sequence_id env_timestamp_ms]. split_and!; try apply now_of_range; try done; destruct code; done.
Qed.

Lemma worker_frame_decode code time rest :
  decode_envelope (worker_frame code time ++ rest) = worker_env code (payload_size code) time.
Proof.
  destruct code; cbn [worker_frame payload_size]; unfold worker_join_frame; rewrite <- ?app_assoc;
    apply decode_encode, worker_env_ok; done.
Qed.

(** A text taken for an envelope never has protocol version 1. *)
Lemma text_is_no_envelope id rest :
  Forall (fun b => b <> 0) (bytes_of_string id) -> (24 <= String.length id)%nat ->
  env_protocol_version (decode_envelope (bytes_of_string id ++ rest)) <> 1.
Proof.
  intros Hz Hl. pose proof (bytes_of_string_range id) as Hr. rewrite <- bytes_of_string_length in Hl.
  destruct (bytes_of_string id) as [|x [|y l]]; cbn in Hl; try lia. cbn.
  apply Forall_cons in Hz as [_ [Hy _]%Forall_cons]. apply Forall_cons in Hr as [Hx [Hy' _]%Forall_cons].
  unfold in_u8 in *. lia.
Qed.

(** A poll that takes an identity, a body for the delimiter and another
    identity for the body. *)
Lemma poll_ids_only re now c id1 b1 id2 b2 ms more out :
  undisturbed re ->
  Forall (fun b => b <> 0) (bytes_of_string id2) -> (0 < String.length id1 < 64)%nat -> (String.length id2 < 64)%nat ->
  length (re_id_stack re) = 64%nat -> Z.of_nat (length b1) < 2 ^ 31 ->
  exists w', master_poll re now c
    {| w_in := [bytes_of_string id1; b1] :: [bytes_of_string id2; b2] :: ms; w_more := more; w_out := out; w_up := true |}
    = Ends (c, w') /\ w' = {| w_in := [b2] :: ms; w_more := true; w_out := out; w_up := true |}.
Proof.
  intros [U1 U2] Hz H1 H2 Hs Hb. eexists. split; [|reflexivity].
  destruct (id_buffer_string (re_id_stack re) id1) as [rest Hbuf]; [lia|done|].
  unfold master_poll, zmq_recv_blocking. rewrite U1, U2. cbn [zmq_recv_dontwait zmq_recv_wait wire_zmq].
  rewrite wire_dontwait_frame by (rewrite bytes_of_string_length; lia).
  rewrite (fmap_u8_id (bytes_of_string id1)) by apply bytes_of_string_range.
  rewrite take_ge by (rewrite bytes_of_string_length; lia). rewrite bytes_of_string_length.
  rewrite Z.gtb_ltb, (proj2 (Z.ltb_lt _ _)) by lia. rewrite Hbuf. cbn [or_else mbind outcome_bind].
  rewrite wire_next_read by done. cbn [or_else mbind outcome_bind]. unfold wire_read at 1.
  rewrite wire_next_frame by (rewrite bytes_of_string_length; lia). cbn [or_else mbind outcome_bind].
  rewrite fmap_u8_id by apply bytes_of_string_range. rewrite take_ge by (rewrite bytes_of_string_length; lia).
  rewrite bytes_of_string_length, Z.geb_leb.
  destruct (Z.leb_spec 24 (Z.of_nat (String.length id2))) as [L|L]; [|reflexivity].
  rewrite (proj2 (Z.eqb_neq _ _)); [reflexivity|]. apply text_is_no_envelope; [done|lia].
Qed.

(** A poll that takes a worker's body for the identity, an identity for the
    delimiter and the next body. *)
Lemma poll_body_first re now c code2 t2 id3 code3 t3 ms more out :
  undisturbed re -> (String.length id3 < 64)%nat -> length (re_id_stack re) = 64%nat ->
  exists rest payload, master_poll re now c
    {| w_in := [worker_frame code2 t2] :: [bytes_of_string id3; worker_frame code3 t3] :: ms;
       w_more := more; w_out := out; w_up := true |}
  = Ends (dispatch ([1; 0; router_msg_value code2; 0; payload_size code2; 0; 0; 0] ++ rest)
            (worker_env code3 (payload_size code3) t3) payload now c
            {| w_in := ms; w_more := false; w_out := out; w_up := true |}).
Proof.
  intros [U1 U2] H3 Hs. destruct (worker_frame_front code2 t2) as (r2 & E2 & B2 & L2).
  destruct (worker_frame_front code3 t3) as (r3 & _ & B3 & L3).
  eexists _, _. unfold master_poll, zmq_recv_blocking. rewrite U1, U2. cbn [zmq_recv_dontwait zmq_recv_wait wire_zmq].
  rewrite wire_dontwait_frame by lia. rewrite (fmap_u8_id (worker_frame code2 t2)) by done.
  rewrite take_ge by lia. rewrite Z.gtb_ltb, (proj2 (Z.ltb_lt _ _)) by lia.
  unfold id_buffer. rewrite (proj2 (Z.ltb_lt _ _)) by lia. cbn [or_else mbind outcome_bind]. unfold wire_read at 1.
  rewrite wire_next_frame by (rewrite bytes_of_string_length; lia). cbn [or_else mbind outcome_bind].
  rewrite wire_next_read by lia. cbn [or_else mbind outcome_bind].
  rewrite (fmap_u8_id (worker_frame code3 t3)) by done. rewrite (take_ge (worker_frame code3 t3)) by lia.
  rewrite Z.geb_leb, (proj2 (Z.leb_le _ _)) by lia. rewrite worker_frame_decode.
  cbn [worker_env env_protocol_version]. change (1 =? 1) with true. cbv iota.
  rewrite Nat2Z.id, insert_app_r_alt by lia. rewrite E2 at 1. rewrite <- app_assoc. reflexivity.
Qed.

(** The master's state after a message it takes for one of worker 1. *)
Definition as_worker_one (code : VomRouterMsgCode) (now : Z) (c : ClusterStateContext) : ClusterStateContext :=
  match code with
  | ROUTER_MSG_JOIN_REQ =>
      ctx_bump (cluster_state_register_worker
        (Some {| wm_worker_id := 1; wm_health := WORKER_HEALTH_ONLINE; wm_last_seen_timestamp_ms := now;
                 wm_resources := {| wr_total_memory_bytes := 2 ^ 32; wr_reserved_memory_bytes := 0;
                                    wr_total_cores := 4; wr_reserved_cores := 0 |} |}) c).2
  | ROUTER_MSG_HEARTBEAT => ctx_bump (cluster_state_process_heartbeat 1 now c).2
  | _ => c
  end.

(** The two daemons composed: the master reads messages in threes of frames
    while a worker's message arrives as two, so of any three consecutive worker
    messages, from whichever workers, two polls of the master that no signal
    interrupts drop the first two and apply the third one to worker number 1
    (registering it, with 4 cores and 4 GiB, or refreshing its heartbeat); the
    reply to a join is addressed to the one-byte identity 1 and never to a
    worker, and after the two polls the frames are aligned as before. *)
Theorem master_takes_workers_for_one (re1 re2 : round_env) (now1 now2 : Z) (c : ClusterStateContext)
    (id1 id2 id3 : string) (code1 code2 code3 : VomRouterMsgCode) (t1 t2 t3 : Z)
    (ms : list (list (list Z))) (more : bool) (out : list (list Z * bool)) :
  undisturbed re1 -> undisturbed re2 -> Forall (fun b => b <> 0) (bytes_of_string id2) ->
  (0 < String.length id1 < 64)%nat -> (String.length id2 < 64)%nat -> (String.length id3 < 64)%nat ->
  length (re_id_stack re1) = 64%nat -> length (re_id_stack re2) = 64%nat ->
  exists w1 w2,
  master_poll re1 now1 c
    {| w_in := [bytes_of_string id1; worker_frame code1 t1] :: [bytes_of_string id2; worker_frame code2 t2] ::
               [bytes_of_string id3; worker_frame code3 t3] :: ms;
       w_more := more; w_out := out; w_up := true |} = Ends (c, w1) /\ w_out w1 = out /\
  master_poll re2 now2 c w1 = Ends (as_worker_one code3 now2 c, w2) /\ w_in w2 = ms /\ w_up w2 = true /\
  w_out w2 = out ++ match code3 with
                    | ROUTER_MSG_JOIN_REQ =>
                        [([1], true); ([], true);
                         (encode_envelope (join_response (worker_env code3 12 t3) now2), false)]
                    | _ => []
                    end.
Proof.
  intros U1 U2 Hz H1 H2 H3 S1 S2.
  destruct (poll_ids_only re1 now1 c id1 (worker_frame code1 t1) id2 (worker_frame code2 t2)
              ([bytes_of_string id3; worker_frame code3 t3] :: ms) more out) as (w1 & E1 & ->); try done.
  { destruct (worker_frame_front code1 t1) as (_ & _ & _ & L). lia. }
  destruct (poll_body_first re2 now2 c code2 t2 id3 code3 t3 ms true out U2 H3 S2) as (rest & p & E2).
  assert (worker_number ([1; 0; router_msg_value code2; 0; payload_size code2; 0; 0; 0] ++ rest) = 1) as W by reflexivity.
  unfold dispatch in E2. rewrite W in E2. unfold join_member in E2. rewrite W in E2.
  destruct code3; eexists _, _; (split; [exact E1|]); (split; [done|]); (split; [exact E2|]); cbn;
    split_and!; rewrite ?app_nil_r; try reflexivity.
  by rewrite <- !app_assoc.
Qed.

Lemma master_takes_workers_for_one_witness : exists w1 w2,
  master_poll (demo_round 5) 5000 demo_ctx0
    (wire_with [[bytes_of_string "worker-7"; worker_frame ROUTER_MSG_JOIN_REQ 1];
                [bytes_of_string "worker-8"; worker_frame ROUTER_MSG_JOIN_REQ 2];
                [bytes_of_string "worker-9"; worker_frame ROUTER_MSG_JOIN_REQ 3]]) = Ends (demo_ctx0, w1) /\
  master_poll (demo_round 6) 6000 demo_ctx0 w1 = Ends (as_worker_one ROUTER_MSG_JOIN_REQ 6000 demo_ctx0, w2) /\
  member_ids (as_worker_one ROUTER_MSG_JOIN_REQ 6000 demo_ctx0) = [1].
Proof.
  destruct (master_takes_workers_for_one (demo_round 5) (demo_round 6) 5000 6000 demo_ctx0
    "worker-7" "worker-8" "worker-9" ROUTER_MSG_JOIN_REQ ROUTER_MSG_JOIN_REQ ROUTER_MSG_JOIN_REQ 1 2 3 [] false [])
    as (w1 & w2 & H1 & _ & H2 & _).
  - split; reflexivity.
  - split; reflexivity.
  - repeat constructor; discriminate.
  - split; apply Nat.ltb_lt; reflexivity.
  - apply Nat.ltb_lt; reflexivity.
  - apply Nat.ltb_lt; reflexivity.
  - reflexivity.
  - reflexivity.
  - exists w1, w2. split; [exact H1|]. split; [exact H2|]. vm_compute. reflexivity.
Defined.
