(* ===== verification/WorkerState.v ===== *)
(** The worker's life cycle ([worker/src/worker_state.c]): the state machine
    driven by connection events and task counts, its abstract link automaton
    and the proof that the code refines it. *)
From S2P Require Import Prelude.

(** * Data *)

Inductive WorkerState :=
  WRK_STATE_OFFLINE | WRK_STATE_CONNECTED | WRK_STATE_REGISTERED | WRK_STATE_RUNNING
| WRK_STATE_DRAINING | WRK_STATE_SHUTDOWN.

Inductive WorkerEvent :=
  WRK_EVENT_CONNECT | WRK_EVENT_REGISTER_SUCCESS | WRK_EVENT_START_DRAIN | WRK_EVENT_STOP_DRAIN
| WRK_EVENT_DISCONNECT | WRK_EVENT_TERMINATE.

#[export] Instance WorkerState_eq_dec : EqDecision WorkerState.
Proof. solve_decision. Defined.
#[export] Instance WorkerEvent_eq_dec : EqDecision WorkerEvent.
Proof. solve_decision. Defined.

Record vom_worker_state := {
  ws_current_state : WorkerState;
  ws_last_transition_ms : Z;
  ws_active_tasks_count : Z;
  ws_master_endpoint : string
}.

(** * Operations *)

(** [alloc]: whether [calloc] succeeds. *)
Definition vom_worker_state_init (alloc : bool) : ptr vom_worker_state :=
  if alloc then
    Some {| ws_current_state := WRK_STATE_OFFLINE; ws_last_transition_ms := 0;
            ws_active_tasks_count := 0; ws_master_endpoint := "" |}
  else NULL.

Definition vom_worker_state_get (c : vom_worker_state) : WorkerState := ws_current_state c.

(** The [switch]: the next state if the event is allowed. *)
Definition next_state (s : WorkerState) (event : WorkerEvent) : option WorkerState :=
  match s with
  | WRK_STATE_OFFLINE =>
      match event with WRK_EVENT_CONNECT => Some WRK_STATE_CONNECTED | _ => None end
  | WRK_STATE_CONNECTED =>
      match event with
      | WRK_EVENT_REGISTER_SUCCESS => Some WRK_STATE_REGISTERED
      | WRK_EVENT_DISCONNECT => Some WRK_STATE_OFFLINE
      | _ => None
      end
  | WRK_STATE_REGISTERED | WRK_STATE_RUNNING =>
      match event with
      | WRK_EVENT_START_DRAIN => Some WRK_STATE_DRAINING
      | WRK_EVENT_DISCONNECT => Some WRK_STATE_OFFLINE
      | WRK_EVENT_TERMINATE => Some WRK_STATE_SHUTDOWN
      | _ => None
      end
  | WRK_STATE_DRAINING =>
      match event with
      | WRK_EVENT_STOP_DRAIN => Some WRK_STATE_REGISTERED
      | WRK_EVENT_DISCONNECT => Some WRK_STATE_OFFLINE
      | WRK_EVENT_TERMINATE => Some WRK_STATE_SHUTDOWN
      | _ => None
      end
  | WRK_STATE_SHUTDOWN => None
  end.

(** The copy of the endpoint in the OFFLINE case; [strncpy] pads with zeros. *)
Definition next_endpoint (s : WorkerState) (event : WorkerEvent) (endpoint : ptr string)
    (old : string) : string :=
  match s, event, endpoint with
  | WRK_STATE_OFFLINE, WRK_EVENT_CONNECT, Some e => strncpy 127 e
  | _, _, _ => old
  end.

Definition vom_worker_state_transition (event : WorkerEvent) (now_ms : Z) (endpoint : ptr string)
    (c : vom_worker_state) : bool * vom_worker_state :=
  match next_state (ws_current_state c) event with
  | Some next =>
      (true, {| ws_current_state := next; ws_last_transition_ms := now_ms;
                ws_active_tasks_count := ws_active_tasks_count c;
                ws_master_endpoint :=
                  next_endpoint (ws_current_state c) event endpoint (ws_master_endpoint c) |})
  | None => (false, c)
  end.

Definition ws_set (s : WorkerState) (tasks : Z) (c : vom_worker_state) : vom_worker_state :=
  {| ws_current_state := s; ws_last_transition_ms := ws_last_transition_ms c;
     ws_active_tasks_count := tasks; ws_master_endpoint := ws_master_endpoint c |}.

Definition vom_worker_state_update_tasks (delta : Z) (c : vom_worker_state) : vom_worker_state :=
  if 0 <? delta then
    let tasks := u32 (ws_active_tasks_count c + u32 delta) in
    match ws_current_state c with
    | WRK_STATE_REGISTERED => ws_set WRK_STATE_RUNNING tasks c
    | s => ws_set s tasks c
    end
  else if delta <? 0 then
    let u_delta := u32 (s32 (- delta)) in
    let tasks := if u_delta <=? ws_active_tasks_count c
                 then u32 (ws_active_tasks_count c - u_delta) else 0 in
    match ws_current_state c with
    | WRK_STATE_RUNNING =>
        ws_set (if tasks =? 0 then WRK_STATE_REGISTERED else WRK_STATE_RUNNING) tasks c
    | s => ws_set s tasks c
    end
  else c.

(** * The abstract link

    What the rest of the worker relies on: whether there is a link to the
    master, whether the worker has joined and whether it is draining.  Task
    counting is invisible at this level. *)

Inductive link := Off | Linked | Joined (draining : bool) | Down.

#[export] Instance link_eq_dec : EqDecision link.
Proof. solve_decision. Defined.

Definition link_of (s : WorkerState) : link :=
  match s with
  | WRK_STATE_OFFLINE => Off
  | WRK_STATE_CONNECTED => Linked
  | WRK_STATE_REGISTERED | WRK_STATE_RUNNING => Joined false
  | WRK_STATE_DRAINING => Joined true
  | WRK_STATE_SHUTDOWN => Down
  end.

Inductive link_step : link -> WorkerEvent -> link -> Prop :=
| L_connect : link_step Off WRK_EVENT_CONNECT Linked
| L_join : link_step Linked WRK_EVENT_REGISTER_SUCCESS (Joined false)
| L_drain : link_step (Joined false) WRK_EVENT_START_DRAIN (Joined true)
| L_undrain : link_step (Joined true) WRK_EVENT_STOP_DRAIN (Joined false)
| L_leave d : link_step (Joined d) WRK_EVENT_DISCONNECT Off
| L_drop : link_step Linked WRK_EVENT_DISCONNECT Off
| L_terminate d : link_step (Joined d) WRK_EVENT_TERMINATE Down.

(** The runs of the link automaton from [Off], with their events. *)
Inductive link_run : list WorkerEvent -> link -> Prop :=
| LR_start : link_run [] Off
| LR_step evs l e l' : link_run evs l -> link_step l e l' -> link_run (evs ++ [e]) l'.

#[export] Hint Constructors link_step link_run : core.

(** Histories: the calls made so far, each accepted transition logged. *)
Inductive ws_history : vom_worker_state -> list (WorkerEvent * Z * ptr string) -> Prop :=
| WH_init c : vom_worker_state_init true = Some c -> ws_history c []
| WH_accept c log e now ep c' :
    ws_history c log -> vom_worker_state_transition e now ep c = (true, c') ->
    ws_history c' (log ++ [(e, now, ep)])
| WH_refuse c log e now ep c' :
    ws_history c log -> vom_worker_state_transition e now ep c = (false, c') -> ws_history c' log
| WH_tasks c log delta :
    ws_history c log -> in_s32 delta -> ws_active_tasks_count c + delta < 2 ^ 32 ->
    ws_history (vom_worker_state_update_tasks delta c) log.

(** * Lemmas *)

(** Every move of the [switch] is a move of the link, and conversely. *)
Lemma next_state_sound s e s' : next_state s e = Some s' -> link_step (link_of s) e (link_of s').
Proof. destruct s, e; cbn; intros [= <-]; constructor. Qed.

Lemma next_state_complete s e l : link_step (link_of s) e l -> exists s', next_state s e = Some s' /\ link_of s' = l.
Proof.
  intros H. remember (link_of s) as k eqn:E. destruct H; destruct s; cbn in E; try discriminate E;
    cbn; eexists; (split; [reflexivity|]); done.
Qed.

(** Task counting is a stuttering step. *)
Lemma update_tasks_stutter d c :
  link_of (ws_current_state (vom_worker_state_update_tasks d c)) = link_of (ws_current_state c) /\
  ws_last_transition_ms (vom_worker_state_update_tasks d c) = ws_last_transition_ms c /\
  ws_master_endpoint (vom_worker_state_update_tasks d c) = ws_master_endpoint c.
Proof.
  unfold vom_worker_state_update_tasks. destruct (0 <? d).
  { destruct (ws_current_state c) eqn:E; cbn; rewrite ?E; done. }
  destruct (d <? 0); [|done].
  destruct (ws_current_state c) eqn:E; cbn [ws_set ws_current_state ws_last_transition_ms ws_master_endpoint];
    rewrite ?E; try done. by destr_if.
Qed.

(** [(uint32_t)(-delta)] of a negative [int]. *)
Lemma u_delta_exact d : in_s32 d -> d < 0 -> u32 (s32 (- d)) = - d.
Proof.
  unfold in_s32. intros Hd Hn. destruct (decide (d = - 2 ^ 31)) as [->|]; [done|].
  rewrite s32_id by (unfold in_s32; lia). apply u32_id. unfold in_u32. lia.
Qed.

(** The counter is exact as long as it does not wrap. *)
Lemma update_tasks_count d c :
  in_s32 d -> 0 <= ws_active_tasks_count c < 2 ^ 32 -> ws_active_tasks_count c + d < 2 ^ 32 ->
  ws_active_tasks_count (vom_worker_state_update_tasks d c) = Z.max 0 (ws_active_tasks_count c + d).
Proof.
  unfold in_s32. intros Hd Hc Hs. unfold vom_worker_state_update_tasks.
  destruct (0 <? d) eqn:E1; [|destruct (d <? 0) eqn:E2]; bprop.
  - rewrite (u32_id d) by (unfold in_u32; lia). rewrite u32_id by (unfold in_u32; lia).
    destruct (ws_current_state c); cbn [ws_set ws_active_tasks_count]; lia.
  - rewrite u_delta_exact by (unfold in_s32; lia).
    destruct (- d <=? ws_active_tasks_count c) eqn:E3; bprop.
    + rewrite u32_id by (unfold in_u32; lia).
      destruct (ws_current_state c); cbn [ws_set ws_active_tasks_count]; lia.
    + destruct (ws_current_state c); cbn [ws_set ws_active_tasks_count]; lia.
  - lia.
Qed.

(** A running worker has tasks, and keeps track of it. *)
Lemma update_tasks_running d c :
  (ws_current_state c = WRK_STATE_RUNNING -> 0 < ws_active_tasks_count c) ->
  in_s32 d -> 0 <= ws_active_tasks_count c < 2 ^ 32 -> ws_active_tasks_count c + d < 2 ^ 32 ->
  let c' := vom_worker_state_update_tasks d c in
  ws_current_state c' = WRK_STATE_RUNNING -> 0 < ws_active_tasks_count c'.
Proof.
  intros Hr Hd Hc Hs. cbv zeta. rewrite update_tasks_count by done.
  unfold in_s32 in Hd. unfold vom_worker_state_update_tasks.
  destruct (0 <? d) eqn:E1; [intros; bprop; lia|]. destruct (d <? 0) eqn:E2; bprop; [|intros H%Hr; lia].
  rewrite u_delta_exact by (unfold in_s32; lia).
  destruct (ws_current_state c) eqn:E; cbn [ws_set ws_current_state]; intros H; try congruence.
  destruct (- d <=? ws_active_tasks_count c) eqn:E3; [|done]. bprop.
  rewrite u32_id in H by (unfold in_u32; lia).
  destruct (ws_active_tasks_count c - - d =? 0) eqn:E4; [done|]. bprop. lia.
Qed.

(** * Properties *)

(** The endpoint of the last accepted connection that named one. *)
Definition last_endpoint (log : list (WorkerEvent * Z * ptr string)) : string :=
  foldl (fun acc x => match x with
                      | (WRK_EVENT_CONNECT, _, Some e) => strncpy 127 e
                      | _ => acc
                      end) EmptyString log.

Definition last_time (log : list (WorkerEvent * Z * ptr string)) : Z :=
  foldl (fun _ x => x.1.2) 0 log.

Record ws_ok (c : vom_worker_state) (log : list (WorkerEvent * Z * ptr string)) : Prop := {
  wso_link : link_run (log.*1.*1) (link_of (ws_current_state c));
  wso_time : ws_last_transition_ms c = last_time log;
  wso_endpoint : ws_master_endpoint c = last_endpoint log;
  wso_count : in_u32 (ws_active_tasks_count c);
  wso_running : ws_current_state c = WRK_STATE_RUNNING -> 0 < ws_active_tasks_count c
}.

Lemma accept_ok c log e now ep c' :
  ws_ok c log -> vom_worker_state_transition e now ep c = (true, c') ->
  ws_ok c' (log ++ [(e, now, ep)]).
Proof.
  intros [H1 H2 H3 H4 H5] T. unfold vom_worker_state_transition in T.
  destruct (next_state (ws_current_state c) e) as [n|] eqn:E; [|done]. injection T as <-.
  split; cbn [ws_current_state ws_last_transition_ms ws_master_endpoint ws_active_tasks_count].
  - rewrite !fmap_app. eapply LR_step; [exact H1|]. by apply next_state_sound.
  - unfold last_time. by rewrite foldl_app.
  - unfold last_endpoint. rewrite foldl_app. fold (last_endpoint log). rewrite <- H3. cbn.
    destruct (ws_current_state c), e; try discriminate E; done || by destruct ep.
  - exact H4.
  - intros ->. by destruct (ws_current_state c), e.
Qed.

Lemma ws_history_ok c log : ws_history c log -> ws_ok c log.
Proof.
  induction 1 as [c Hc|c log e now ep c' _ IH T|c log e now ep c' _ IH T|c log d _ IH Hd Hs].
  - injection Hc as <-. by split.
  - by eapply accept_ok.
  - unfold vom_worker_state_transition in T. destruct (next_state _ _); [done|]. by injection T as <-.
  - destruct IH as [H1 H2 H3 H4 H5]. destruct (update_tasks_stutter d c) as (E1 & E2 & E3).
    split; [by rewrite E1|by rewrite E2|by rewrite E3| |by apply update_tasks_running].
    unfold in_u32 in *. rewrite update_tasks_count by done. lia.
Qed.

(** The worker's state machine refines the link automaton: over any
    history of transitions and task counts (fewer than 2^32 tasks at a time)
    the accepted events are a run of the automaton that ends in the link of
    the current state, the time and endpoint stored are those of the last
    accepted transition and connection, and a RUNNING worker has a task.  An
    event is refused exactly if the automaton has no such move, and a refusal
    changes nothing. *)
Theorem worker_state_refines_link (c : vom_worker_state) (log : list (WorkerEvent * Z * ptr string)) :
  ws_history c log ->
  link_run (log.*1.*1) (link_of (vom_worker_state_get c)) /\
  ws_last_transition_ms c = last_time log /\ ws_master_endpoint c = last_endpoint log /\
  (vom_worker_state_get c = WRK_STATE_RUNNING -> 0 < ws_active_tasks_count c) /\
  forall e now ep, let '(ok, c') := vom_worker_state_transition e now ep c in
    if ok then link_step (link_of (vom_worker_state_get c)) e (link_of (vom_worker_state_get c'))
    else c' = c /\ forall l, ~ link_step (link_of (vom_worker_state_get c)) e l.
Proof.
  intros R. destruct (ws_history_ok c log R) as [H1 H2 H3 H4 H5].
  do 4 (split; [done|]). intros e now ep. unfold vom_worker_state_transition, vom_worker_state_get.
  destruct (next_state (ws_current_state c) e) as [n|] eqn:E.
  - by apply next_state_sound.
  - split; [done|]. intros l (s' & Hs & _)%next_state_complete. congruence.
Qed.

Lemma worker_state_refines_link_witness : exists c log,
  ws_history c log /\ ws_current_state c = WRK_STATE_DRAINING /\ ws_active_tasks_count c = 2 /\
  link_run (log.*1.*1) (Joined true) /\ ws_master_endpoint c = "tcp://127.0.0.1:5555".
Proof.
  assert (exists c log, ws_history c log /\
    c = {| ws_current_state := WRK_STATE_DRAINING; ws_last_transition_ms := 1200;
           ws_active_tasks_count := 2; ws_master_endpoint := "tcp://127.0.0.1:5555" |})
    as (c & log & R & E).
  { eexists _, _. split.
    - eapply (WH_accept _ _ WRK_EVENT_START_DRAIN 1200 NULL);
        [eapply (WH_tasks _ _ 2);
          [eapply (WH_accept _ _ WRK_EVENT_REGISTER_SUCCESS 1100 NULL);
            [eapply (WH_refuse _ _ WRK_EVENT_TERMINATE 1050 NULL);
              [eapply (WH_accept _ _ WRK_EVENT_CONNECT 1000 (Some "tcp://127.0.0.1:5555"));
                [by apply WH_init|]|]|]|split; [done|]|]|]; reflexivity.
    - reflexivity. }
  exists c, log. pose proof (worker_state_refines_link c log R) as (H & _).
  rewrite E in H |- *. split; [by rewrite <- E|]. by split_and!.
Defined.

(** Each report of started ([d > 0]) or finished ([d < 0]) tasks in turn. *)
Definition run_tasks (ds : list Z) (c : vom_worker_state) : vom_worker_state :=
  foldl (fun c d => vom_worker_state_update_tasks d c) c ds.

(** Reports that never finish more tasks than were started. *)
Fixpoint reports_ok (n : Z) (ds : list Z) : Prop :=
  match ds with
  | [] => True
  | d :: ds => in_s32 d /\ 0 <= n + d < 2 ^ 32 /\ reports_ok (n + d) ds
  end.

(** [RUNNING] exactly while there are tasks, among the joined states. *)
Definition busy_exact (c : vom_worker_state) : Prop :=
  (ws_current_state c = WRK_STATE_RUNNING /\ 0 < ws_active_tasks_count c) \/
  (ws_current_state c = WRK_STATE_REGISTERED /\ ws_active_tasks_count c = 0).

Lemma update_tasks_busy d c :
  busy_exact c -> in_s32 d -> in_u32 (ws_active_tasks_count c) ->
  0 <= ws_active_tasks_count c + d < 2 ^ 32 -> busy_exact (vom_worker_state_update_tasks d c).
Proof.
  intros Hb Hd Hu Hs. pose proof (update_tasks_count d c Hd Hu (proj2 Hs)) as Hn.
  rewrite Z.max_r in Hn by lia. unfold busy_exact. rewrite Hn. unfold vom_worker_state_update_tasks.
  unfold in_s32, in_u32 in *.
  destruct (0 <? d) eqn:E1; [|destruct (d <? 0) eqn:E2]; bprop.
  - left. destruct Hb as [[-> ?]|[-> ?]]; cbn [ws_set ws_current_state]; (split; [done|lia]).
  - destruct Hb as [[Hb ?]|[_ ?]]; [|lia]. rewrite Hb. cbn [ws_set ws_current_state].
    rewrite u_delta_exact by (unfold in_s32; lia).
    destruct (- d <=? ws_active_tasks_count c) eqn:E3; bprop; [|lia].
    rewrite u32_id by (unfold in_u32; lia).
    destruct (ws_active_tasks_count c - - d =? 0) eqn:E4; bprop; [right|left]; (split; [done|lia]).
  - replace (ws_active_tasks_count c + d) with (ws_active_tasks_count c) by lia. exact Hb.
Qed.

(** Task counting is exact: after any sequence of start and finish
    reports that never finishes a task twice, a joined worker's count is what
    it was plus the sum of the reports, and it is RUNNING exactly if the count
    is positive and REGISTERED otherwise. *)
Theorem worker_tasks_counted (c : vom_worker_state) (ds : list Z) :
  busy_exact c -> in_u32 (ws_active_tasks_count c) -> reports_ok (ws_active_tasks_count c) ds ->
  let c' := run_tasks ds c in
  ws_active_tasks_count c' = ws_active_tasks_count c + sumZ id ds /\
  ws_current_state c' = (if 0 <? ws_active_tasks_count c' then WRK_STATE_RUNNING else WRK_STATE_REGISTERED).
Proof.
  cbv zeta. revert c. induction ds as [|d ds IH]; intros c Hb Hu Hr.
  - cbn. split; [unfold sumZ; cbn; lia|]. destruct Hb as [[-> H]|[-> ->]]; [|done].
    destruct (0 <? ws_active_tasks_count c) eqn:E; [done|bprop; lia].
  - destruct Hr as (Hd & Hs & Hr). pose proof (update_tasks_count d c Hd Hu (proj2 Hs)) as Hn.
    rewrite Z.max_r in Hn by lia. cbn [run_tasks foldl]. fold (run_tasks ds (vom_worker_state_update_tasks d c)).
    rewrite sumZ_cons. destruct (IH (vom_worker_state_update_tasks d c)) as [I1 I2].
    + by apply update_tasks_busy.
    + unfold in_u32. lia.
    + by rewrite Hn.
    + split; [rewrite I1, Hn; unfold id; lia|exact I2].
Qed.

Definition joined_worker : vom_worker_state :=
  {| ws_current_state := WRK_STATE_REGISTERED; ws_last_transition_ms := 1100;
     ws_active_tasks_count := 0; ws_master_endpoint := "tcp://127.0.0.1:5555" |}.

Lemma worker_tasks_counted_witness :
  ws_active_tasks_count (run_tasks [2; -1; 3; -4] joined_worker) = 0 /\
  ws_current_state (run_tasks [2; -1; 3] joined_worker) = WRK_STATE_RUNNING.
Proof.
  destruct (worker_tasks_counted joined_worker [2; -1; 3; -4]) as [H _].
  - right. done.
  - split; [done|reflexivity].
  - cbn. unfold in_s32. lia.
  - split; [rewrite H; reflexivity|reflexivity].
Defined.

(** Leaving a drain with tasks still running: the worker shows REGISTERED. *)
Example stop_drain_forgets_running :
  let c := vom_worker_state_update_tasks 2 joined_worker in
  let c := (vom_worker_state_transition WRK_EVENT_START_DRAIN 1200 NULL c).2 in
  let c := (vom_worker_state_transition WRK_EVENT_STOP_DRAIN 1300 NULL c).2 in
  ws_current_state c = WRK_STATE_REGISTERED /\ ws_active_tasks_count c = 2.
Proof. by split. Qed.
