(* ===== verification/Discovery.v ===== *)
(** Discovery of the master ([worker/src/discovery.c]) and its refinement of a
    two-state description: either no endpoint is in use, or one is. *)
From S2P Require Import Prelude.

(** * The component *)

Definition DISCOVERY_ENDPOINT_MAX : nat := 128.

Inductive VomDiscoveryStatus :=
  DISCOVERY_STATUS_IDLE | DISCOVERY_STATUS_SEARCHING | DISCOVERY_STATUS_FOUND
| DISCOVERY_STATUS_FALLBACK | DISCOVERY_STATUS_LOST.

#[export] Instance VomDiscoveryStatus_eq_dec : EqDecision VomDiscoveryStatus.
Proof. solve_decision. Defined.

(** Callbacks and their data are known by numbers. *)
Record vom_worker_discovery_context := {
  dc_cached_endpoint : string;
  dc_fallback_endpoint : string;
  dc_max_retry_backoff_ms : Z;
  dc_status : VomDiscoveryStatus;
  dc_change_cb : ptr nat;
  dc_user_data : ptr nat;
  dc_m_dns_enabled : bool
}.

(** [calloc_ok]: whether the allocation succeeds. *)
Definition vom_worker_discovery_create (calloc_ok : bool) : ptr vom_worker_discovery_context :=
  if calloc_ok then
    Some {| dc_cached_endpoint := ""; dc_fallback_endpoint := ""; dc_max_retry_backoff_ms := 0;
            dc_status := DISCOVERY_STATUS_IDLE; dc_change_cb := NULL; dc_user_data := NULL; dc_m_dns_enabled := false |}
  else NULL.

Definition vom_worker_discovery_configure (fallback_endpoint : ptr string) (max_retry_backoff_ms : Z)
    (c : vom_worker_discovery_context) : Z * vom_worker_discovery_context :=
  match fallback_endpoint with
  | NULL => (-1, c)
  | Some f =>
      (0, {| dc_cached_endpoint := dc_cached_endpoint c; dc_fallback_endpoint := strncpy (DISCOVERY_ENDPOINT_MAX - 1) f;
             dc_max_retry_backoff_ms := max_retry_backoff_ms; dc_status := dc_status c; dc_change_cb := dc_change_cb c;
             dc_user_data := dc_user_data c; dc_m_dns_enabled := dc_m_dns_enabled c |})
  end.

Definition vom_worker_discovery_enable_mdns (enable : bool) (c : vom_worker_discovery_context) :
    vom_worker_discovery_context :=
  {| dc_cached_endpoint := dc_cached_endpoint c; dc_fallback_endpoint := dc_fallback_endpoint c;
     dc_max_retry_backoff_ms := dc_max_retry_backoff_ms c; dc_status := dc_status c; dc_change_cb := dc_change_cb c;
     dc_user_data := dc_user_data c; dc_m_dns_enabled := enable |}.

(** A call of the callback: its number, its data and the endpoint. *)
Abbreviation discovery_call := (nat * ptr nat * string)%type.

Definition vom_worker_discovery_start (cb user_data : ptr nat) (c : vom_worker_discovery_context) :
    Z * list discovery_call * vom_worker_discovery_context :=
  let '(endpoint, status) :=
    if dc_m_dns_enabled c
    then (strncpy (DISCOVERY_ENDPOINT_MAX - 1) "tcp://discovered-master.local:5555", DISCOVERY_STATUS_FOUND)
    else (strncpy (DISCOVERY_ENDPOINT_MAX - 1) (dc_fallback_endpoint c), DISCOVERY_STATUS_FALLBACK) in
  (0, match cb with Some f => [(f, user_data, endpoint)] | NULL => [] end,
   {| dc_cached_endpoint := endpoint; dc_fallback_endpoint := dc_fallback_endpoint c;
      dc_max_retry_backoff_ms := dc_max_retry_backoff_ms c; dc_status := status; dc_change_cb := cb;
      dc_user_data := user_data; dc_m_dns_enabled := dc_m_dns_enabled c |}).

Definition vom_worker_discovery_stop (c : vom_worker_discovery_context) : vom_worker_discovery_context :=
  {| dc_cached_endpoint := dc_cached_endpoint c; dc_fallback_endpoint := dc_fallback_endpoint c;
     dc_max_retry_backoff_ms := dc_max_retry_backoff_ms c; dc_status := DISCOVERY_STATUS_IDLE; dc_change_cb := NULL;
     dc_user_data := NULL; dc_m_dns_enabled := dc_m_dns_enabled c |}.

(** [out_endpoint] before and after, with its size [cap]. *)
Definition vom_worker_discovery_current (out_endpoint : ptr string) (cap : nat) (c : vom_worker_discovery_context) :
    Z * ptr string :=
  match out_endpoint with
  | NULL => (-1, NULL)
  | Some o =>
      if (cap =? 0)%nat then (-1, Some o)
      else if negb (bool_decide (dc_status c = DISCOVERY_STATUS_FOUND)) &&
              negb (bool_decide (dc_status c = DISCOVERY_STATUS_FALLBACK)) then (-1, Some o)
      else (0, Some (strncpy (cap - 1) (dc_cached_endpoint c)))
  end.

(** [ctx] may be [NULL] here. *)
Definition vom_worker_discovery_get_status (ctx : ptr vom_worker_discovery_context) : VomDiscoveryStatus :=
  match ctx with
  | NULL => DISCOVERY_STATUS_IDLE
  | Some c => dc_status c
  end.

(** * Operations and their meaning *)

Inductive discovery_op :=
| DoConfigure (fallback : ptr string) (backoff : Z)
| DoMdns (enable : bool)
| DoStart (cb data : ptr nat)
| DoStop.

Definition discovery_step (op : discovery_op) (c : vom_worker_discovery_context) :
    list discovery_call * vom_worker_discovery_context :=
  match op with
  | DoConfigure f b => ([], (vom_worker_discovery_configure f b c).2)
  | DoMdns b => ([], vom_worker_discovery_enable_mdns b c)
  | DoStart cb data => let '(_, calls, c) := vom_worker_discovery_start cb data c in (calls, c)
  | DoStop => ([], vom_worker_discovery_stop c)
  end.

Fixpoint discovery_run (ops : list discovery_op) (c : vom_worker_discovery_context) :
    list discovery_call * vom_worker_discovery_context :=
  match ops with
  | [] => ([], c)
  | op :: ops => let '(calls, c) := discovery_step op c in
                 let '(calls', c) := discovery_run ops c in (calls ++ calls', c)
  end.

(** The abstract state: the configured fallback, whether multicast is on, and
    the endpoint in use. *)
Record discovery_spec := { sp_fallback : string; sp_mdns : bool; sp_endpoint : option string }.

Definition spec_step (op : discovery_op) (s : discovery_spec) : list discovery_call * discovery_spec :=
  match op with
  | DoConfigure (Some f) _ => ([], {| sp_fallback := strncpy 127 f; sp_mdns := sp_mdns s; sp_endpoint := sp_endpoint s |})
  | DoConfigure NULL _ => ([], s)
  | DoMdns b => ([], {| sp_fallback := sp_fallback s; sp_mdns := b; sp_endpoint := sp_endpoint s |})
  | DoStart cb data =>
      let ep := if sp_mdns s then "tcp://discovered-master.local:5555"%string else sp_fallback s in
      (match cb with Some f => [(f, data, ep)] | NULL => [] end,
       {| sp_fallback := sp_fallback s; sp_mdns := sp_mdns s; sp_endpoint := Some ep |})
  | DoStop => ([], {| sp_fallback := sp_fallback s; sp_mdns := sp_mdns s; sp_endpoint := None |})
  end.

Fixpoint spec_run (ops : list discovery_op) (s : discovery_spec) : list discovery_call * discovery_spec :=
  match ops with
  | [] => ([], s)
  | op :: ops => let '(calls, s) := spec_step op s in let '(calls', s) := spec_run ops s in (calls ++ calls', s)
  end.

(** The simulation. *)
Definition represents (c : vom_worker_discovery_context) (s : discovery_spec) : Prop :=
  dc_fallback_endpoint c = sp_fallback s /\ dc_m_dns_enabled c = sp_mdns s /\
  (String.length (sp_fallback s) <= 127)%nat /\
  match sp_endpoint s with
  | Some ep => (dc_status c = DISCOVERY_STATUS_FOUND \/ dc_status c = DISCOVERY_STATUS_FALLBACK) /\
               dc_cached_endpoint c = ep /\ (String.length ep <= 127)%nat
  | None => dc_status c = DISCOVERY_STATUS_IDLE /\ dc_change_cb c = NULL
  end.

Lemma step_refines op c s : represents c s ->
  (discovery_step op c).1 = (spec_step op s).1 /\ represents (discovery_step op c).2 (spec_step op s).2.
Proof.
  intros (H1 & H2 & H3 & H4). destruct op as [[f|] b|b|cb data|].
  - split; [done|]. split_and!; try done. cbn. rewrite strncpy_length. lia.
  - split; [done|]. by split_and!.
  - split; [done|]. by split_and!.
  - unfold discovery_step, vom_worker_discovery_start, spec_step, DISCOVERY_ENDPOINT_MAX. rewrite H1, H2.
    assert (String.length "tcp://discovered-master.local:5555" <= 127)%nat as Hl by (cbn; lia).
    destruct (sp_mdns s) eqn:M; rewrite strncpy_short by done; cbn [fst snd]; (split; [done|]).
    + unfold represents. cbn. auto 8.
    + unfold represents. cbn. auto 8.
  - split; [done|]. split_and!; try done.
Qed.

Lemma run_refines ops : forall c s, represents c s ->
  (discovery_run ops c).1 = (spec_run ops s).1 /\ represents (discovery_run ops c).2 (spec_run ops s).2.
Proof.
  induction ops as [|op ops IH]; intros c s R; [done|]. cbn [discovery_run spec_run].
  destruct (step_refines op c s R) as [E R']. destruct (discovery_step op c) as [calls c1], (spec_step op s) as [calls' s1].
  cbn [fst snd] in *. destruct (IH c1 s1 R') as [E2 R2].
  destruct (discovery_run ops c1) as [k c2], (spec_run ops s1) as [k' s2]. cbn [fst snd] in *. by subst.
Qed.

(** Discovery does what it describes: after any sequence of operations on
    a new context the callbacks made so far are exactly those of the abstract
    component (one per start that gave a callback, with the endpoint then in
    use: the multicast one if enabled, the configured fallback otherwise), and
    a query succeeds exactly while an endpoint is in use and then returns it,
    cut to the caller's buffer; the states SEARCHING and LOST are never seen. *)
Theorem discovery_refines (ops : list discovery_op) (c : vom_worker_discovery_context) (out : string) (cap : nat) :
  vom_worker_discovery_create true = Some c ->
  let '(calls, c') := discovery_run ops c in
  let '(calls', s') := spec_run ops {| sp_fallback := ""; sp_mdns := false; sp_endpoint := None |} in
  calls = calls' /\
  vom_worker_discovery_current (Some out) cap c' =
    match sp_endpoint s', cap with
    | Some ep, S n => (0, Some (strncpy n ep))
    | _, _ => (-1, Some out)
    end /\
  vom_worker_discovery_get_status (Some c') ∈ [DISCOVERY_STATUS_IDLE; DISCOVERY_STATUS_FOUND; DISCOVERY_STATUS_FALLBACK].
Proof.
  intros [= <-]. set (c0 := {| dc_cached_endpoint := "" |}). set (s0 := {| sp_fallback := "" |}).
  destruct (run_refines ops c0 s0) as [E R]; [by split_and!; cbn; try lia|].
  destruct (discovery_run ops c0) as [calls c'], (spec_run ops s0) as [calls' s']. cbn [fst snd] in *.
  destruct R as (_ & _ & _ & R). split; [done|]. unfold vom_worker_discovery_current, vom_worker_discovery_get_status.
  destruct (sp_endpoint s') as [ep|].
  - destruct R as (Hs & -> & _). destruct cap as [|n]; [split; [done|]; destruct Hs as [->| ->]; set_solver|].
    cbn [Nat.eqb]. rewrite Nat.sub_succ, Nat.sub_0_r. destruct Hs as [->| ->]; (split; [done|set_solver]).
  - destruct R as [-> _]. destruct cap; (split; [done|set_solver]).
Qed.

(** The source's test. *)
Lemma discovery_refines_witness : exists c,
  vom_worker_discovery_create true = Some c /\
  let '(calls, c') := discovery_run [DoConfigure (Some "tcp://192.168.1.50:5555"%string) 5000; DoStart (Some 1%nat) NULL] c in
  calls = [(1%nat, NULL, "tcp://192.168.1.50:5555"%string)] /\
  vom_worker_discovery_current (Some ""%string) 128 c' = (0, Some "tcp://192.168.1.50:5555"%string).
Proof.
  eexists. split; [reflexivity|].
  pose proof (discovery_refines [DoConfigure (Some "tcp://192.168.1.50:5555"%string) 5000; DoStart (Some 1%nat) NULL]
    _ "" 128 eq_refl) as H.
  destruct (discovery_run _ _) as [calls c']. destruct H as (H1 & H2 & _). split; [exact H1|exact H2].
Defined.

(** A fallback configured after the start is not used until the next start. *)
Example late_fallback_not_used :
  match vom_worker_discovery_create true with
  | Some c => vom_worker_discovery_current (Some ""%string) 128
                (discovery_run [DoStart NULL NULL; DoConfigure (Some "tcp://late:1"%string) 1] c).2
  | NULL => (-1, NULL)
  end = (0, Some ""%string).
Proof. vm_compute. reflexivity. Qed.
