(* ===== verification/DisplayBridge.v ===== *)
(** The worker's display bridge ([worker/src/display_bridge.c]): displays and
    their modes, callbacks, privacy switches and the isolated fault. *)
From S2P Require Import Prelude.

(** * The component *)

Definition BRIDGE_STRING_MAX : nat := 64.
Definition FIXTURE_COUNT : nat := 3.

Inductive VomUiMode := UI_MODE_DISABLED | UI_MODE_LOCAL_STATUS | UI_MODE_MASTER_DIRECTED | UI_MODE_INTERACTIVE_SURFACE.

Inductive VomPeripheralEventKind := DEVICE_ATTACHED | DEVICE_DETACHED | DEVICE_CONFIGURATION_CHANGED.

Inductive VomInputKind := INPUT_KEY_PRESS | INPUT_POINTER_MOVE | INPUT_TOUCH_DOWN | INPUT_TOUCH_UP.

Record vom_input_data := {
  in_key_code : Z;
  in_pointer_x : Z;
  in_pointer_y : Z;
  in_touch_id : Z;
  in_event_timestamp_ms : Z
}.

Record vom_ui_input_event := { ev_kind : VomInputKind; ev_data : vom_input_data }.

Record vom_display_descriptor := {
  dd_display_index : Z;
  dd_width_pixels : Z;
  dd_height_pixels : Z;
  dd_color_depth_bits : Z;
  dd_is_interactive : bool;
  dd_driver_identifier : string
}.

(** Callbacks and their data are known by numbers. *)
Record vom_display_bridge_context := {
  db_active_mode : list VomUiMode;
  db_block_remote_input : bool;
  db_obscure_sensitive_workloads : bool;
  db_peripheral_cb : ptr nat;
  db_input_cb : ptr nat;
  db_user_data : ptr nat;
  db_simulation_fault_triggered : bool
}.

Definition vom_display_bridge_create (calloc_ok : bool) : ptr vom_display_bridge_context :=
  if calloc_ok then
    Some {| db_active_mode := replicate FIXTURE_COUNT UI_MODE_LOCAL_STATUS; db_block_remote_input := false;
            db_obscure_sensitive_workloads := false; db_peripheral_cb := NULL; db_input_cb := NULL;
            db_user_data := NULL; db_simulation_fault_triggered := false |}
  else NULL.

(** The three displays. *)
Definition display_fixtures : list vom_display_descriptor :=
  [Build_vom_display_descriptor 0 1920 1080 24 true "NATIVE_PANEL_0";
   Build_vom_display_descriptor 1 3840 2160 32 true "EXTERNAL_DP_1";
   Build_vom_display_descriptor 2 800 480 16 false "LOW_POWER_MATRIX_2"].

(** [out_list]: the caller's array before and after. *)
Definition vom_display_bridge_enumerate (out_list : ptr (list vom_display_descriptor)) (max_entries : Z)
    (c : vom_display_bridge_context) : Z * ptr (list vom_display_descriptor) :=
  match out_list with
  | NULL => (-1, NULL)
  | Some l =>
      if max_entries <=? 0 then (-1, Some l)
      else if db_simulation_fault_triggered c then (-2, Some l)
      else
        let count := if max_entries <? Z.of_nat FIXTURE_COUNT then max_entries else Z.of_nat FIXTURE_COUNT in
        (count, Some (take (Z.to_nat count) display_fixtures ++ drop (Z.to_nat count) l))
  end.

Definition db_set (modes : list VomUiMode) (block obscure : bool) (pcb icb ud : ptr nat) (fault : bool) :
    vom_display_bridge_context :=
  {| db_active_mode := modes; db_block_remote_input := block; db_obscure_sensitive_workloads := obscure;
     db_peripheral_cb := pcb; db_input_cb := icb; db_user_data := ud; db_simulation_fault_triggered := fault |}.

Definition vom_display_bridge_set_mode (display_index : Z) (mode : VomUiMode) (c : vom_display_bridge_context) :
    Z * vom_display_bridge_context :=
  if display_index >=? Z.of_nat FIXTURE_COUNT then (-1, c)
  else if db_simulation_fault_triggered c then (-2, c)
  else (0, db_set (<[Z.to_nat display_index := mode]> (db_active_mode c)) (db_block_remote_input c)
             (db_obscure_sensitive_workloads c) (db_peripheral_cb c) (db_input_cb c) (db_user_data c)
             (db_simulation_fault_triggered c)).

Definition vom_display_bridge_register_callbacks (peripheral_cb input_cb user_data : ptr nat)
    (c : vom_display_bridge_context) : Z * vom_display_bridge_context :=
  (0, db_set (db_active_mode c) (db_block_remote_input c) (db_obscure_sensitive_workloads c)
        peripheral_cb input_cb user_data (db_simulation_fault_triggered c)).

(** [frame_buffer]: whether the pointer is valid. *)
Definition vom_display_bridge_render_frame (display_index : Z) (frame_buffer : ptr (list Z)) (buffer_size : Z)
    (c : vom_display_bridge_context) : Z :=
  match frame_buffer with
  | NULL => -1
  | Some _ =>
      if buffer_size =? 0 then -1
      else if display_index >=? Z.of_nat FIXTURE_COUNT then -1
      else if db_simulation_fault_triggered c then -2
      else 0
  end.

Definition vom_display_bridge_configure_privacy (block_remote_input obscure_sensitive_workloads : bool)
    (c : vom_display_bridge_context) : Z * vom_display_bridge_context :=
  (0, db_set (db_active_mode c) block_remote_input obscure_sensitive_workloads (db_peripheral_cb c) (db_input_cb c)
        (db_user_data c) (db_simulation_fault_triggered c)).

(** The call it makes: the callback, the event and the data; the fields of the
    event that are not set keep what is on the stack. *)
Definition vom_display_bridge_poll_events (stack : vom_input_data) (c : vom_display_bridge_context) :
    Z * option (nat * vom_ui_input_event * ptr nat) :=
  if db_simulation_fault_triggered c then (-2, None)
  else
    (0, match db_input_cb c with
        | NULL => None
        | Some cb =>
            Some (cb, {| ev_kind := INPUT_POINTER_MOVE;
                         ev_data := {| in_key_code := in_key_code stack; in_pointer_x := 100; in_pointer_y := 200;
                                       in_touch_id := in_touch_id stack; in_event_timestamp_ms := 1718900000 |} |},
                  db_user_data c)
        end).

Definition vom_display_bridge_trigger_isolated_fault (trigger : bool) (c : vom_display_bridge_context) :
    vom_display_bridge_context :=
  db_set (db_active_mode c) (db_block_remote_input c) (db_obscure_sensitive_workloads c) (db_peripheral_cb c)
    (db_input_cb c) (db_user_data c) trigger.

(** * Runs *)

Inductive bridge_op :=
| BrSetMode (display_index : Z) (mode : VomUiMode)
| BrRegister (peripheral_cb input_cb user_data : ptr nat)
| BrPrivacy (block obscure : bool)
| BrFault (trigger : bool).

Definition bridge_step (op : bridge_op) (c : vom_display_bridge_context) : vom_display_bridge_context :=
  match op with
  | BrSetMode i m => (vom_display_bridge_set_mode i m c).2
  | BrRegister p i u => (vom_display_bridge_register_callbacks p i u c).2
  | BrPrivacy b o => (vom_display_bridge_configure_privacy b o c).2
  | BrFault t => vom_display_bridge_trigger_isolated_fault t c
  end.

Definition bridge_run (ops : list bridge_op) (c : vom_display_bridge_context) : vom_display_bridge_context :=
  foldl (fun c op => bridge_step op c) c ops.

(** The mode of display [i] by the history: the last one set while no fault was
    in force. *)
Definition mode_event (i : Z) (s : bool * VomUiMode) (op : bridge_op) : bool * VomUiMode :=
  match op with
  | BrSetMode j m => if negb s.1 && (j =? i) then (s.1, m) else s
  | BrFault t => (t, s.2)
  | _ => s
  end.
Definition mode_of (i : Z) (ops : list bridge_op) : bool * VomUiMode :=
  foldl (mode_event i) (false, UI_MODE_LOCAL_STATUS) ops.

Lemma bridge_modes ops c0 : vom_display_bridge_create true = Some c0 -> 
  Forall (fun op => match op with BrSetMode i _ => 0 <= i | _ => True end) ops ->
  let c := bridge_run ops c0 in
  length (db_active_mode c) = FIXTURE_COUNT /\
  forall i, (i < FIXTURE_COUNT)%nat ->
    db_simulation_fault_triggered c = (mode_of (Z.of_nat i) ops).1 /\
    db_active_mode c !! i = Some (mode_of (Z.of_nat i) ops).2.
Proof.
  intros [= <-] F. induction ops as [|op ops IH] using rev_ind; cbv zeta.
  { split; [done|]. intros i Hi. split; [done|]. do 3 (destruct i as [|i]; [done|]). unfold FIXTURE_COUNT in Hi. lia. }
  apply Forall_app in F as [F Fo]. apply Forall_cons in Fo as [Fo _]. specialize (IH F). cbv zeta in IH.
  unfold bridge_run, mode_of in *. rewrite foldl_app. cbn [foldl].
  set (c := foldl _ _ ops) in *. destruct IH as [Hl IH].
  assert (forall i, foldl (mode_event i) (false, UI_MODE_LOCAL_STATUS) (ops ++ [op]) =
                    mode_event i (foldl (mode_event i) (false, UI_MODE_LOCAL_STATUS) ops) op) as Hm
    by (intros i; by rewrite foldl_app).
  setoid_rewrite Hm. destruct op as [j m|p k u|b o|t]; cbn [bridge_step]; try (by split).
  2: { split; [done|]. intros i Hi. destruct (IH i Hi) as [H1 H2]. done. }
  unfold vom_display_bridge_set_mode. destruct (Z.geb_spec j (Z.of_nat FIXTURE_COUNT)) as [G|G].
  { split; [done|]. intros i Hi. cbn [mode_event]. rewrite (proj2 (Z.eqb_neq j (Z.of_nat i))) by lia.
    rewrite andb_false_r. by apply IH. }
  destruct (db_simulation_fault_triggered c) eqn:Ft; cbn [snd db_set db_active_mode db_simulation_fault_triggered].
  - split; [done|]. intros i Hi. destruct (IH i Hi) as [H1 H2]. cbn [mode_event]. rewrite <- H1. cbn [negb andb]. by rewrite Ft.
  - rewrite length_insert. split; [done|]. intros i Hi. destruct (IH i Hi) as [H1 H2]. cbn [mode_event].
    rewrite <- H1. cbn [negb andb]. destruct (Z.eqb_spec j (Z.of_nat i)) as [->|Hne]; cbn [fst snd].
    + rewrite Nat2Z.id. split; [done|]. apply list_lookup_insert_eq. lia.
    + split; [done|]. by rewrite list_lookup_insert_ne by lia.
Qed.

(** A fault of the display bridge stays inside it: after any operations,
    the mode of every display is the last one that was set for it while no
    fault was in force; while a fault is in force, listing, rendering, setting
    a mode and polling are refused with -2, make no callback and change
    nothing, and when it is lifted every display is as it was before. *)
Theorem display_fault_isolated (ops : list bridge_op) (c0 : vom_display_bridge_context) (i : nat) (m : VomUiMode)
    (l : list vom_display_descriptor) (n : Z) (frame : list Z) (size : Z) (stack : vom_input_data) :
  vom_display_bridge_create true = Some c0 ->
  Forall (fun op => match op with BrSetMode j _ => 0 <= j | _ => True end) ops ->
  (i < FIXTURE_COUNT)%nat -> 0 < n -> size <> 0 ->
  let c := bridge_run ops c0 in
  let f := vom_display_bridge_trigger_isolated_fault true c in
  db_active_mode c !! i = Some (mode_of (Z.of_nat i) ops).2 /\
  vom_display_bridge_enumerate (Some l) n f = (-2, Some l) /\
  vom_display_bridge_render_frame (Z.of_nat i) (Some frame) size f = -2 /\
  vom_display_bridge_set_mode (Z.of_nat i) m f = (-2, f) /\
  vom_display_bridge_poll_events stack f = (-2, None) /\
  ((mode_of (Z.of_nat i) ops).1 = false -> vom_display_bridge_trigger_isolated_fault false f = c).
Proof.
  intros Hc F Hi Hn Hs c f. destruct (bridge_modes ops c0 Hc F) as [_ H]. destruct (H i Hi) as [H1 H2]. fold c in H1, H2.
  split; [done|]. unfold vom_display_bridge_enumerate, vom_display_bridge_render_frame, vom_display_bridge_set_mode.
  rewrite (proj2 (Z.leb_gt _ _)), (proj2 (Z.eqb_neq _ _)) by lia.
  rewrite !Z.geb_leb, (proj2 (Z.leb_gt _ _)) by lia. split_and!; try done.
  intros E. rewrite <- H1 in E. destruct c. cbn in E. by subst.
Qed.

Lemma display_fault_isolated_witness :
  let c0 := db_set (replicate 3 UI_MODE_LOCAL_STATUS) false false NULL NULL NULL false in
  db_active_mode (bridge_run [BrSetMode 1 UI_MODE_DISABLED; BrFault true; BrSetMode 1 UI_MODE_MASTER_DIRECTED] c0) !! 1%nat =
  Some UI_MODE_DISABLED.
Proof.
  cbv zeta.
  refine (proj1 (display_fault_isolated [BrSetMode 1 UI_MODE_DISABLED; BrFault true; BrSetMode 1 UI_MODE_MASTER_DIRECTED]
    _ 1 UI_MODE_DISABLED [] 1 [] 1 (Build_vom_input_data 0 0 0 0 0) _ _ _ _ _)).
  - reflexivity.
  - repeat (apply Forall_cons; split; [done || lia|]). apply Forall_nil_2.
  - apply Nat.ltb_lt. reflexivity.
  - lia.
  - lia.
Defined.

(** The privacy switch does not stop input events. *)
Example blocked_input_is_delivered (stack : vom_input_data) :
  let c := bridge_run [BrRegister NULL (Some 7%nat) NULL; BrPrivacy true true]
             (db_set (replicate 3 UI_MODE_LOCAL_STATUS) false false NULL NULL NULL false) in
  db_block_remote_input c = true /\ exists ev, vom_display_bridge_poll_events stack c = (0, Some (7%nat, ev, NULL)).
Proof. split; [reflexivity|]. eexists. reflexivity. Qed.

(** A display that is disabled still renders. *)
Example disabled_display_renders :
  vom_display_bridge_render_frame 0 (Some [1]) 1
    (bridge_run [BrSetMode 0 UI_MODE_DISABLED] (db_set (replicate 3 UI_MODE_LOCAL_STATUS) false false NULL NULL NULL false)) = 0.
Proof. reflexivity. Qed.
