(* ===== verification/Capabilities.v ===== *)
(** Worker capabilities ([worker/src/capabilities.c]): the static and dynamic
    records of the three fixtures and the payloads built from them, which are
    the images of the C structures (natural alignment, little-endian, padding
    cleared by the [memset] before); and what the master's join handler reads
    out of such a payload. *)
From S2P Require Import Prelude CFloat Envelope ClusterState MasterMain.

(** * Records *)

Definition CAP_STRING_MAX : nat := 64.

Inductive VomCapArchitecture := CAP_ARCH_X86_64 | CAP_ARCH_AARCH64 | CAP_ARCH_ARMV7 | CAP_ARCH_RISCV64.
Inductive VomCapAbi := CAP_ABI_SYSV | CAP_ABI_EABI | CAP_ABI_MUSL | CAP_ABI_WIN64.
Inductive VomCapAccelerator := CAP_ACCEL_NONE | CAP_ACCEL_CUDA | CAP_ACCEL_OPENCL | CAP_ACCEL_METAL | CAP_ACCEL_NPU.
Inductive VomCapThermal := CAP_THERMAL_NOMINAL | CAP_THERMAL_THROTTLED | CAP_THERMAL_CRITICAL.

Definition CAP_RUN_NATIVE : Z := 1.
Definition CAP_RUN_WASM : Z := 2.
Definition CAP_RUN_CONTAINER : Z := 4.

Definition arch_value (a : VomCapArchitecture) : Z :=
  match a with CAP_ARCH_X86_64 => 0 | CAP_ARCH_AARCH64 => 1 | CAP_ARCH_ARMV7 => 2 | CAP_ARCH_RISCV64 => 3 end.
Definition abi_value (a : VomCapAbi) : Z :=
  match a with CAP_ABI_SYSV => 0 | CAP_ABI_EABI => 1 | CAP_ABI_MUSL => 2 | CAP_ABI_WIN64 => 3 end.
Definition accel_value (a : VomCapAccelerator) : Z :=
  match a with CAP_ACCEL_NONE => 0 | CAP_ACCEL_CUDA => 1 | CAP_ACCEL_OPENCL => 2 | CAP_ACCEL_METAL => 3 | CAP_ACCEL_NPU => 4 end.
Definition thermal_value (t : VomCapThermal) : Z :=
  match t with CAP_THERMAL_NOMINAL => 0 | CAP_THERMAL_THROTTLED => 1 | CAP_THERMAL_CRITICAL => 2 end.

Record vom_cpu_features := {
  cf_instruction_set_extensions_bitmask : Z;
  cf_has_hardware_virtualization : bool;
  cf_has_secure_sandbox_support : bool
}.

Record vom_peripheral_spec := {
  ps_resolution_width : Z;
  ps_resolution_height : Z;
  ps_refresh_rate_hz : Z;
  ps_touch_input_supported : bool;
  ps_keyboard_attached : bool;
  ps_pointer_attached : bool
}.

Record vom_worker_static_capabilities := {
  sc_capability_protocol_version : Z;
  sc_architecture : VomCapArchitecture;
  sc_abi : VomCapAbi;
  sc_supported_runtimes_bitmask : Z;
  sc_cpu_extensions : vom_cpu_features;
  sc_physical_cores_total : Z;
  sc_physical_ram_bytes_total : Z;
  sc_storage_capacity_bytes_total : Z;
  sc_accelerator_type : VomCapAccelerator;
  sc_accelerator_memory_bytes_total : Z;
  sc_display_count : Z;
  sc_primary_display : vom_peripheral_spec;
  sc_hardware_model_fingerprint : string
}.

Record vom_worker_dynamic_resources := {
  dr_timestamp_ms : Z;
  dr_physical_cores_currently_online : Z;
  dr_physical_ram_bytes_currently_free : Z;
  dr_storage_bytes_currently_free : Z;
  dr_accelerator_memory_bytes_currently_free : Z;
  dr_current_network_link_bandwidth_bps : Z;
  dr_current_network_latency_us : Z;
  dr_battery_charge_percentage : cfloat;
  dr_is_charging : bool;
  dr_is_docked : bool;
  dr_thermal_state : VomCapThermal;
  dr_active_local_reservations_count : Z
}.

Record vom_capabilities_manager := {
  cm_platform_fixture_id : Z;
  cm_cached_static : vom_worker_static_capabilities
}.

(** * Operations *)

Definition no_features : vom_cpu_features := Build_vom_cpu_features 0 false false.
Definition no_display : vom_peripheral_spec := Build_vom_peripheral_spec 0 0 0 false false false.

(** After the [memset]. *)
Definition static_zero : vom_worker_static_capabilities :=
  {| sc_capability_protocol_version := 0; sc_architecture := CAP_ARCH_X86_64; sc_abi := CAP_ABI_SYSV;
     sc_supported_runtimes_bitmask := 0; sc_cpu_extensions := no_features; sc_physical_cores_total := 0;
     sc_physical_ram_bytes_total := 0; sc_storage_capacity_bytes_total := 0; sc_accelerator_type := CAP_ACCEL_NONE;
     sc_accelerator_memory_bytes_total := 0; sc_display_count := 0; sc_primary_display := no_display;
     sc_hardware_model_fingerprint := "" |}.

Definition vom_capabilities_manager_create (calloc_ok : bool) : ptr vom_capabilities_manager :=
  if calloc_ok then Some {| cm_platform_fixture_id := 0; cm_cached_static := static_zero |} else NULL.

Definition vom_capabilities_manager_set_fixture (fixture_id : Z) (c : vom_capabilities_manager) : vom_capabilities_manager :=
  {| cm_platform_fixture_id := fixture_id; cm_cached_static := cm_cached_static c |}.

(** The record of a fixture. *)
Definition static_of (fixture : Z) : vom_worker_static_capabilities :=
  let z := static_zero in
  let name := strncpy (CAP_STRING_MAX - 1) in
  if fixture =? 0 then
    {| sc_capability_protocol_version := 1; sc_architecture := CAP_ARCH_X86_64; sc_abi := CAP_ABI_SYSV;
       sc_supported_runtimes_bitmask := Z.lor (Z.lor CAP_RUN_NATIVE CAP_RUN_WASM) CAP_RUN_CONTAINER;
       sc_cpu_extensions := no_features; sc_physical_cores_total := 16; sc_physical_ram_bytes_total := 34359738368;
       sc_storage_capacity_bytes_total := 1000204886016; sc_accelerator_type := CAP_ACCEL_CUDA;
       sc_accelerator_memory_bytes_total := 17179869184; sc_display_count := 2;
       sc_primary_display := Build_vom_peripheral_spec 3840 2160 144 false false false;
       sc_hardware_model_fingerprint := name "linux-workstation-x86_64"%string |}
  else if fixture =? 1 then
    {| sc_capability_protocol_version := 1; sc_architecture := CAP_ARCH_AARCH64; sc_abi := CAP_ABI_EABI;
       sc_supported_runtimes_bitmask := Z.lor CAP_RUN_NATIVE CAP_RUN_WASM;
       sc_cpu_extensions := no_features; sc_physical_cores_total := 8; sc_physical_ram_bytes_total := 8589934592;
       sc_storage_capacity_bytes_total := 256102424576; sc_accelerator_type := CAP_ACCEL_NPU;
       sc_accelerator_memory_bytes_total := 2147483648; sc_display_count := 1;
       sc_primary_display := Build_vom_peripheral_spec 2400 1080 120 true false false;
       sc_hardware_model_fingerprint := name "android-mobile-arm64"%string |}
  else if fixture =? 2 then
    {| sc_capability_protocol_version := 1; sc_architecture := CAP_ARCH_ARMV7; sc_abi := CAP_ABI_EABI;
       sc_supported_runtimes_bitmask := CAP_RUN_WASM;
       sc_cpu_extensions := no_features; sc_physical_cores_total := 2; sc_physical_ram_bytes_total := 536870912;
       sc_storage_capacity_bytes_total := 16106127360; sc_accelerator_type := CAP_ACCEL_NONE;
       sc_accelerator_memory_bytes_total := 0; sc_display_count := 0; sc_primary_display := no_display;
       sc_hardware_model_fingerprint := name "lowpower-iot-displayless"%string |}
  else
    {| sc_capability_protocol_version := 1; sc_architecture := sc_architecture z; sc_abi := sc_abi z;
       sc_supported_runtimes_bitmask := sc_supported_runtimes_bitmask z; sc_cpu_extensions := sc_cpu_extensions z;
       sc_physical_cores_total := sc_physical_cores_total z; sc_physical_ram_bytes_total := sc_physical_ram_bytes_total z;
       sc_storage_capacity_bytes_total := sc_storage_capacity_bytes_total z; sc_accelerator_type := sc_accelerator_type z;
       sc_accelerator_memory_bytes_total := sc_accelerator_memory_bytes_total z; sc_display_count := sc_display_count z;
       sc_primary_display := sc_primary_display z; sc_hardware_model_fingerprint := sc_hardware_model_fingerprint z |}.

(** [out_static] before and after. *)
Definition vom_capabilities_collect_static (out_static : ptr vom_worker_static_capabilities) (c : vom_capabilities_manager) :
    Z * ptr vom_worker_static_capabilities * vom_capabilities_manager :=
  match out_static with
  | NULL => (-1, NULL, c)
  | Some _ =>
      let s := static_of (cm_platform_fixture_id c) in
      (0, Some s, {| cm_platform_fixture_id := cm_platform_fixture_id c; cm_cached_static := s |})
  end.

(** The [float] constants 100, 74.5 and 15.2. *)
Definition dynamic_of (fixture : Z) : vom_worker_dynamic_resources :=
  let mk cores ram storage accel bps lat battery charging docked thermal :=
    {| dr_timestamp_ms := 1718900000; dr_physical_cores_currently_online := cores;
       dr_physical_ram_bytes_currently_free := ram; dr_storage_bytes_currently_free := storage;
       dr_accelerator_memory_bytes_currently_free := accel; dr_current_network_link_bandwidth_bps := bps;
       dr_current_network_latency_us := lat; dr_battery_charge_percentage := battery; dr_is_charging := charging;
       dr_is_docked := docked; dr_thermal_state := thermal; dr_active_local_reservations_count := 0 |} in
  if fixture =? 0 then
    mk 16 17179869184 500102443008 8589934592 1000000000 150 (float_of_Z 100) true true CAP_THERMAL_NOMINAL
  else if fixture =? 1 then
    mk 8 3221225472 64424509440 1073741824 150000000 45000 (fdiv (float_of_Z 745) (float_of_Z 10)) false false CAP_THERMAL_THROTTLED
  else if fixture =? 2 then
    mk 2 134217728 4294967296 0 10000000 12000 (fdiv (float_of_Z 152) (float_of_Z 10)) false false CAP_THERMAL_CRITICAL
  else mk 0 0 0 0 0 0 (S754_zero false) false false CAP_THERMAL_NOMINAL.

Definition vom_capabilities_collect_dynamic (out_dynamic : ptr vom_worker_dynamic_resources) (c : vom_capabilities_manager) :
    Z * ptr vom_worker_dynamic_resources :=
  match out_dynamic with
  | NULL => (-1, NULL)
  | Some _ => (0, Some (dynamic_of (cm_platform_fixture_id c)))
  end.

(** * Images *)

Definition bool_byte (b : bool) : list Z := [if b then 1 else 0].
Definition pad (n : nat) : list Z := replicate n 0.

(** A [char] array of [n] bytes that holds a string. *)
Definition char_array (n : nat) (s : string) : list Z :=
  take n (bytes_of_string s) ++ pad (n - length (bytes_of_string s)).

(** The bits of a non-negative [float] of full precision. *)
Definition float_bits (x : cfloat) : Z :=
  match x with
  | S754_finite false m e => (e + 150) * 2 ^ 23 + (Zpos m - 2 ^ 23)
  | _ => 0
  end.

(** [sizeof (vom_worker_static_capabilities_t)] *)
Definition STATIC_SIZE : nat := 152.
Definition DYNAMIC_SIZE : nat := 72.

Definition static_image (s : vom_worker_static_capabilities) : list Z :=
  le_bytes 2 (sc_capability_protocol_version s) ++ pad 2 ++
  le_bytes 4 (arch_value (sc_architecture s)) ++ le_bytes 4 (abi_value (sc_abi s)) ++
  le_bytes 4 (sc_supported_runtimes_bitmask s) ++
  le_bytes 4 (cf_instruction_set_extensions_bitmask (sc_cpu_extensions s)) ++
  bool_byte (cf_has_hardware_virtualization (sc_cpu_extensions s)) ++
  bool_byte (cf_has_secure_sandbox_support (sc_cpu_extensions s)) ++ pad 2 ++
  le_bytes 4 (sc_physical_cores_total s) ++ pad 4 ++
  le_bytes 8 (sc_physical_ram_bytes_total s) ++ le_bytes 8 (sc_storage_capacity_bytes_total s) ++
  le_bytes 4 (accel_value (sc_accelerator_type s)) ++ pad 4 ++
  le_bytes 8 (sc_accelerator_memory_bytes_total s) ++ le_bytes 4 (sc_display_count s) ++
  le_bytes 4 (ps_resolution_width (sc_primary_display s)) ++ le_bytes 4 (ps_resolution_height (sc_primary_display s)) ++
  le_bytes 4 (ps_refresh_rate_hz (sc_primary_display s)) ++
  bool_byte (ps_touch_input_supported (sc_primary_display s)) ++ bool_byte (ps_keyboard_attached (sc_primary_display s)) ++
  bool_byte (ps_pointer_attached (sc_primary_display s)) ++ pad 1 ++
  char_array CAP_STRING_MAX (sc_hardware_model_fingerprint s) ++ pad 4.

Definition dynamic_image (d : vom_worker_dynamic_resources) : list Z :=
  le_bytes 8 (dr_timestamp_ms d) ++ le_bytes 4 (dr_physical_cores_currently_online d) ++ pad 4 ++
  le_bytes 8 (dr_physical_ram_bytes_currently_free d) ++ le_bytes 8 (dr_storage_bytes_currently_free d) ++
  le_bytes 8 (dr_accelerator_memory_bytes_currently_free d) ++ le_bytes 8 (dr_current_network_link_bandwidth_bps d) ++
  le_bytes 4 (dr_current_network_latency_us d) ++ le_bytes 4 (float_bits (dr_battery_charge_percentage d)) ++
  bool_byte (dr_is_charging d) ++ bool_byte (dr_is_docked d) ++ pad 2 ++
  le_bytes 4 (thermal_value (dr_thermal_state d)) ++ le_bytes 4 (dr_active_local_reservations_count d) ++ pad 4.

(** [out_payload_buffer] before and after; [max_bytes] is its size. *)
Definition vom_capabilities_build_join_request (out : ptr (list Z)) (max_bytes : Z) (c : vom_capabilities_manager) :
    Z * ptr (list Z) * vom_capabilities_manager :=
  match out with
  | NULL => (-1, NULL, c)
  | Some buf =>
      if max_bytes <? Z.of_nat STATIC_SIZE then (-1, Some buf, c)
      else
        match vom_capabilities_collect_static (Some static_zero) c with
        | (0, Some s, c) => (Z.of_nat STATIC_SIZE, Some (static_image s ++ drop STATIC_SIZE buf), c)
        | (_, _, c) => (-1, Some buf, c)
        end
  end.

Definition vom_capabilities_build_heartbeat (out : ptr (list Z)) (max_bytes : Z) (c : vom_capabilities_manager) :
    Z * ptr (list Z) :=
  match out with
  | NULL => (-1, NULL)
  | Some buf =>
      if max_bytes <? Z.of_nat DYNAMIC_SIZE then (-1, Some buf)
      else
        match vom_capabilities_collect_dynamic (Some (dynamic_of 3)) c with
        | (0, Some d) => (Z.of_nat DYNAMIC_SIZE, Some (dynamic_image d ++ drop DYNAMIC_SIZE buf))
        | (_, _) => (-1, Some buf)
        end
  end.

(** * Properties *)

Lemma static_image_length s : length (static_image s) = STATIC_SIZE.
Proof.
  unfold static_image, char_array, pad, bool_byte, CAP_STRING_MAX, STATIC_SIZE.
  rewrite !length_app, !le_bytes_length, !length_replicate, length_take. cbn [length]. lia.
Qed.

Lemma dynamic_image_length d : length (dynamic_image d) = DYNAMIC_SIZE.
Proof.
  unfold dynamic_image, pad, bool_byte, DYNAMIC_SIZE.
  rewrite !length_app, !le_bytes_length, !length_replicate. cbn [length]. lia.
Qed.

(** The number in bytes [off] to [off + n] of a payload. *)
Definition field (off n : nat) (bs : list Z) : Z := le_value (take n (drop off bs)).

(** The join request a worker builds is the whole image of its record, in
    every buffer of at least 152 bytes and none smaller, whatever the fixture:
    its processor count stands at byte 24 and its memory at byte 32.  The
    master's join handler looks elsewhere: from that payload it always
    registers one core (the protocol version) and, for memory, the
    architecture and ABI codes. *)
Theorem capabilities_join_payload (c : vom_capabilities_manager) (buf id_buf : list Z) (env : envelope) (now : Z) :
  (STATIC_SIZE <= length buf)%nat -> env_payload_length env = Z.of_nat STATIC_SIZE ->
  let s := static_of (cm_platform_fixture_id c) in
  exists payload c',
  vom_capabilities_build_join_request (Some buf) (Z.of_nat (length buf)) c = (152, Some payload, c') /\
  cm_cached_static c' = s /\ length payload = length buf /\
  field 24 4 payload = sc_physical_cores_total s /\ field 32 8 payload = sc_physical_ram_bytes_total s /\
  wr_total_cores (wm_resources (join_member id_buf env payload now)) = 1 /\
  wr_total_memory_bytes (wm_resources (join_member id_buf env payload now)) =
    arch_value (sc_architecture s) + 2 ^ 32 * abi_value (sc_abi s) /\
  (forall m, m < Z.of_nat STATIC_SIZE -> vom_capabilities_build_join_request (Some buf) m c = (-1, Some buf, c)).
Proof.
  intros Hl He s. unfold vom_capabilities_build_join_request. cbn [vom_capabilities_collect_static].
  rewrite (proj2 (Z.ltb_ge _ _)) by lia. eexists _, _. split; [reflexivity|]. split; [reflexivity|]. fold s.
  split; [rewrite length_app, static_image_length, length_drop; lia|].
  assert (s ∈ [static_of 0; static_of 1; static_of 2; static_of 3]) as Hs.
  { unfold s, static_of. destruct (_ =? 0); [set_solver|]. destruct (_ =? 1); [set_solver|]. destruct (_ =? 2); set_solver. }
  assert (forall a n, (a + n <= STATIC_SIZE)%nat ->
    take n (drop a (static_image s ++ drop STATIC_SIZE buf)) = take n (drop a (static_image s))) as Ht.
  { intros a n H. rewrite drop_app_le by (rewrite static_image_length; lia).
    apply take_app_le. rewrite length_drop, static_image_length. lia. }
  unfold field, join_member. rewrite He. change (Z.of_nat STATIC_SIZE >=? 24) with true. cbv iota.
  cbn [wm_resources wr_total_cores wr_total_memory_bytes].
  rewrite <- (drop_0 (static_image s ++ drop STATIC_SIZE buf)) at 3.
  rewrite !Ht by (unfold STATIC_SIZE; lia).
  split_and!; [..|intros m Hm; by rewrite (proj2 (Z.ltb_lt _ _))].
  all: repeat (apply elem_of_cons in Hs as [Hs|Hs]); [..|by apply elem_of_nil in Hs]; rewrite Hs; vm_compute; reflexivity.
Qed.

Lemma capabilities_join_payload_witness : exists payload c',
  vom_capabilities_build_join_request (Some (replicate 200 7)) 200
    {| cm_platform_fixture_id := 0; cm_cached_static := static_zero |} = (152, Some payload, c') /\
  field 24 4 payload = 16 /\
  wr_total_cores (wm_resources (join_member [] (join_env 152) payload 0)) = 1.
Proof.
  destruct (capabilities_join_payload {| cm_platform_fixture_id := 0; cm_cached_static := static_zero |} (replicate 200 7)
    [] (join_env 152) 0) as (p & c' & H1 & _ & _ & H2 & _ & H3 & _).
  - apply Nat.leb_le. reflexivity.
  - reflexivity.
  - exists p, c'. split; [exact H1|]. split; [exact H2|exact H3].
Defined.

(** The heartbeat payload is the image of the dynamic record. *)
Theorem capabilities_heartbeat_payload (c : vom_capabilities_manager) (buf : list Z) :
  (DYNAMIC_SIZE <= length buf)%nat ->
  exists payload, vom_capabilities_build_heartbeat (Some buf) (Z.of_nat (length buf)) c = (72, Some payload) /\
    take DYNAMIC_SIZE payload = dynamic_image (dynamic_of (cm_platform_fixture_id c)) /\ length payload = length buf.
Proof.
  intros Hl. unfold vom_capabilities_build_heartbeat. cbn [vom_capabilities_collect_dynamic].
  rewrite (proj2 (Z.ltb_ge _ _)) by lia. eexists. split; [reflexivity|].
  split; [apply take_app_length'; by rewrite dynamic_image_length|].
  rewrite length_app, dynamic_image_length, length_drop. lia.
Qed.

(** 15.2 as the processor stores it. *)
Example battery_bits : float_bits (dr_battery_charge_percentage (dynamic_of 2)) = 1098068787.
Proof. vm_compute. reflexivity. Qed.
