(* ===== verification/CapImages.v ===== *)
(** The payloads of [worker/src/capabilities.c] as images of the declared
    structures: what [Capabilities] writes out byte by byte is what the layout of
    [Layout] gives the declarations of [Declarations]. *)
From S2P Require Import Prelude CFloat Envelope Layout Declarations Router WireProps MasterMain WalImage Capabilities.

(** * Values of the structures *)

Definition bool_val (b : bool) : cval := VInt (if b then 1 else 0).
Definition static_val (s : vom_worker_static_capabilities) : cval :=
  let c := sc_cpu_extensions s in
  let d := sc_primary_display s in
  VSeq [VInt (sc_capability_protocol_version s); VInt (arch_value (sc_architecture s)); VInt (abi_value (sc_abi s));
        VInt (sc_supported_runtimes_bitmask s);
        VSeq [VInt (cf_instruction_set_extensions_bitmask c); bool_val (cf_has_hardware_virtualization c);
              bool_val (cf_has_secure_sandbox_support c)];
        VInt (sc_physical_cores_total s); VInt (sc_physical_ram_bytes_total s); VInt (sc_storage_capacity_bytes_total s);
        VInt (accel_value (sc_accelerator_type s)); VInt (sc_accelerator_memory_bytes_total s); VInt (sc_display_count s);
        VSeq [VInt (ps_resolution_width d); VInt (ps_resolution_height d); VInt (ps_refresh_rate_hz d);
              bool_val (ps_touch_input_supported d); bool_val (ps_keyboard_attached d); bool_val (ps_pointer_attached d)];
        chars_val cpc_CAP_STRING_MAX (sc_hardware_model_fingerprint s)].

Definition dynamic_val (d : vom_worker_dynamic_resources) : cval :=
  VSeq [VInt (dr_timestamp_ms d); VInt (dr_physical_cores_currently_online d); VInt (dr_physical_ram_bytes_currently_free d);
        VInt (dr_storage_bytes_currently_free d); VInt (dr_accelerator_memory_bytes_currently_free d);
        VInt (dr_current_network_link_bandwidth_bps d); VInt (dr_current_network_latency_us d);
        VInt (bits_of_float (dr_battery_charge_percentage d)); bool_val (dr_is_charging d); bool_val (dr_is_docked d);
        VInt (thermal_value (dr_thermal_state d)); VInt (dr_active_local_reservations_count d)].

Lemma dynamic_is_store d : float_bits (dr_battery_charge_percentage d) = bits_of_float (dr_battery_charge_percentage d) ->
  dynamic_image d = store cpc_vom_worker_dynamic_resources_t (dynamic_val d).
Proof. unfold dynamic_image, dynamic_val. intros ->. destruct d as [? ? ? ? ? ? ? ? [] [] ? ?]; reflexivity. Qed.

(** A string in its array. *)
Lemma chars_store n s : (String.length s <= n)%nat -> store (Array n (Scalar Char)) (chars_val n s) = char_array n s.
Proof.
  intros H. unfold chars_val, char_array, pad, pad_to. cbn [store]. rewrite <- list_fmap_compose, bytes_of_string_length.
  rewrite take_ge by (rewrite bytes_of_string_length; lia). rewrite fmap_app, concat_app. f_equal.
  - pose proof (bytes_of_string_range s) as R. induction R as [|b l Hb _ IH]; [done|]. cbn. f_equal; [by rewrite Z.mod_small|done].
  - induction (n - String.length s)%nat as [|k IH]; [done|]. cbn. f_equal. done.
Qed.

Lemma static_is_store s : (String.length (sc_hardware_model_fingerprint s) < CAP_STRING_MAX)%nat ->
  static_image s = store cpc_vom_worker_static_capabilities_t (static_val s).
Proof.
  intros H. assert (length (store (Array 64 (Scalar Char)) (chars_val 64 (sc_hardware_model_fingerprint s))) = 64)%nat as L
    by (apply (store_length (Array 64 (Scalar Char)) eq_refl); by apply chars_typed).
  unfold static_image. rewrite <- (chars_store CAP_STRING_MAX) by lia.
  destruct s as [? ? ? ? [? b1 b2] ? ? ? ? ? ? [? ? ? b3 b4 b5] f]. cbn [sc_hardware_model_fingerprint] in *.
  unfold cpc_vom_worker_static_capabilities_t, static_val. rewrite store_struct. cbn [store_fields snd].
  unfold CAP_STRING_MAX, cpc_CAP_STRING_MAX in *. cbn [sc_hardware_model_fingerprint].
  generalize dependent (store (Array 64 (Scalar Char)) (chars_val 64 f)). intros X L.
  do 64 (destruct X as [|? X]; [discriminate|]). destruct X; [|discriminate].
  destruct b1, b2, b3, b4, b5; reflexivity.
Qed.

(** Whatever fixture is selected, the join request and the heartbeat are the
    images of the declared structures, of exactly their sizes. *)
Theorem payloads_are_images (c : vom_capabilities_manager) (buf : list Z) (max : Z) :
  STATIC_SIZE = sizeof cpc_vom_worker_static_capabilities_t /\ DYNAMIC_SIZE = sizeof cpc_vom_worker_dynamic_resources_t /\
  (Z.of_nat STATIC_SIZE <= max -> exists s c',
     vom_capabilities_collect_static (Some static_zero) c = (0, Some s, c') /\
     vom_capabilities_build_join_request (Some buf) max c =
       (Z.of_nat STATIC_SIZE, Some (store cpc_vom_worker_static_capabilities_t (static_val s) ++ drop STATIC_SIZE buf), c')) /\
  (Z.of_nat DYNAMIC_SIZE <= max ->
     vom_capabilities_build_heartbeat (Some buf) max c =
       (Z.of_nat DYNAMIC_SIZE,
        Some (store cpc_vom_worker_dynamic_resources_t (dynamic_val (dynamic_of (cm_platform_fixture_id c))) ++ drop DYNAMIC_SIZE buf))).
Proof.
  split; [reflexivity|]. split; [reflexivity|]. split; intros H.
  - do 2 eexists. split; [reflexivity|]. unfold vom_capabilities_build_join_request.
    rewrite (proj2 (Z.ltb_ge _ _) H). cbn [vom_capabilities_collect_static]. rewrite static_is_store; [done|].
    unfold static_of. destruct (cm_platform_fixture_id c =? 0), (cm_platform_fixture_id c =? 1), (cm_platform_fixture_id c =? 2);
      vm_compute; lia.
  - unfold vom_capabilities_build_heartbeat. rewrite (proj2 (Z.ltb_ge _ _) H). cbn [vom_capabilities_collect_dynamic].
    rewrite dynamic_is_store; [done|]. unfold dynamic_of.
    destruct (cm_platform_fixture_id c =? 0), (cm_platform_fixture_id c =? 1), (cm_platform_fixture_id c =? 2); vm_compute; reflexivity.
Qed.
