(* ===== verification/WorkerRecovery.v ===== *)
(** The worker's lease book ([worker/src/recovery.c]): leases accepted from the
    master, revocations, reconciliation after a reconnect and the claim of
    finished results. *)
From S2P Require Import Prelude.

Definition WORKER_MAX_ACTIVE_LEASES : nat := 16.

(** * Data *)

Inductive WorkerChunkState := CHUNK_RUNNING | CHUNK_REVOKED | CHUNK_COMPLETED | CHUNK_RECONCILED.

#[export] Instance WorkerChunkState_eq_dec : EqDecision WorkerChunkState.
Proof. solve_decision. Defined.

Record worker_active_lease := {
  wl_lease_id : Z;
  wl_chunk_id : Z;
  wl_state : WorkerChunkState;
  wl_output_checksum : string;
  wl_partial_output_preserved : bool;
  wl_policy_discard_on_cancel : bool
}.

(** [active_leases] up to [active_lease_count]. *)
Record vom_worker_recovery_context := {
  wr_active_leases : list worker_active_lease;
  wr_is_draining : bool;
  wr_is_connected_to_master : bool
}.

Definition wr_set_leases (ls : list worker_active_lease) (c : vom_worker_recovery_context) :
    vom_worker_recovery_context :=
  {| wr_active_leases := ls; wr_is_draining := wr_is_draining c;
     wr_is_connected_to_master := wr_is_connected_to_master c |}.

Definition wr_set_connected (b : bool) (c : vom_worker_recovery_context) : vom_worker_recovery_context :=
  {| wr_active_leases := wr_active_leases c; wr_is_draining := wr_is_draining c;
     wr_is_connected_to_master := b |}.

(** * Operations *)

Definition vom_worker_recovery_init (alloc : bool) : ptr vom_worker_recovery_context :=
  if alloc then
    Some {| wr_active_leases := []; wr_is_draining := false; wr_is_connected_to_master := true |}
  else NULL.

Definition vom_worker_recovery_set_drain (drain_active : bool) (c : vom_worker_recovery_context) :
    vom_worker_recovery_context :=
  {| wr_active_leases := wr_active_leases c; wr_is_draining := drain_active;
     wr_is_connected_to_master := wr_is_connected_to_master c |}.

Definition vom_worker_recovery_accept_new_chunk (lease_id chunk_id : Z) (discard_policy : bool)
    (c : vom_worker_recovery_context) : bool * vom_worker_recovery_context :=
  if wr_is_draining c then (false, c)
  else if (WORKER_MAX_ACTIVE_LEASES <=? length (wr_active_leases c))%nat then (false, c)
  else
    let l := {| wl_lease_id := lease_id; wl_chunk_id := chunk_id; wl_state := CHUNK_RUNNING;
                wl_output_checksum := ""; wl_partial_output_preserved := false;
                wl_policy_discard_on_cancel := discard_policy |} in
    (true, wr_set_leases (wr_active_leases c ++ [l]) c).

Definition wl_revoke (l : worker_active_lease) : worker_active_lease :=
  {| wl_lease_id := wl_lease_id l; wl_chunk_id := wl_chunk_id l; wl_state := CHUNK_REVOKED;
     wl_output_checksum := wl_output_checksum l;
     wl_partial_output_preserved := negb (wl_policy_discard_on_cancel l);
     wl_policy_discard_on_cancel := wl_policy_discard_on_cancel l |}.

Definition wl_finish (st : WorkerChunkState) (checksum : string) (l : worker_active_lease) :
    worker_active_lease :=
  {| wl_lease_id := wl_lease_id l; wl_chunk_id := wl_chunk_id l; wl_state := st;
     wl_output_checksum := checksum;
     wl_partial_output_preserved := wl_partial_output_preserved l;
     wl_policy_discard_on_cancel := wl_policy_discard_on_cancel l |}.

Definition vom_worker_recovery_handle_revocation (lease_id : Z) (c : vom_worker_recovery_context) :
    vom_worker_recovery_context :=
  match find_idx (fun l => wl_lease_id l =? lease_id) (wr_active_leases c) with
  | Some i => wr_set_leases (alter wl_revoke i (wr_active_leases c)) c
  | None => c
  end.

Definition vom_worker_recovery_on_disconnect (c : vom_worker_recovery_context) :
    vom_worker_recovery_context := wr_set_connected false c.

(** The search of [authoritative_leases]. *)
Definition matched (auth : list Z) (l : worker_active_lease) : bool :=
  match find_idx (fun a => a =? wl_lease_id l) auth with Some _ => true | None => false end.

(** One iteration's verdict on the lease at [i]: what it becomes, and whether
    it stays ([i++]) or is removed ([continue] after the [memmove]). *)
Definition reconcile_lease (auth : list Z) (l : worker_active_lease) : bool * worker_active_lease :=
  if negb (matched auth l) then
    let l := match wl_state l with CHUNK_RUNNING => wl_revoke l | _ => l end in
    match wl_state l with
    | CHUNK_REVOKED => (true, l)
    | _ => (false, l)
    end
  else
    match wl_state l with
    | CHUNK_COMPLETED => (true, wl_finish CHUNK_RECONCILED (wl_output_checksum l) l)
    | _ => (true, l)
    end.

(** The [while] loop; [None] if the fuel runs out before the loop ends. *)
Fixpoint reconcile_loop (fuel : nat) (auth : list Z) (i : nat) (ls : list worker_active_lease) :
    option (list worker_active_lease) :=
  match ls !! i with
  | None => Some ls
  | Some l =>
      match fuel with
      | O => None
      | S fuel =>
          let '(keep, l') := reconcile_lease auth l in
          if keep then reconcile_loop fuel auth (i + 1) (<[i := l']> ls)
          else reconcile_loop fuel auth i (delete i ls)
      end
  end.

(** Each iteration raises [i] or lowers the count: as many as there are leases. *)
Definition vom_worker_recovery_reconnect_reconcile (authoritative_leases : list Z)
    (c : vom_worker_recovery_context) : option vom_worker_recovery_context :=
  let c := wr_set_connected true c in
  match reconcile_loop (length (wr_active_leases c)) authoritative_leases 0 (wr_active_leases c) with
  | Some ls => Some (wr_set_leases ls c)
  | None => None
  end.

(** [out_checksum] is the caller's buffer: the string it holds before and after. *)
Definition vom_worker_recovery_claim_result (lease_id : Z) (out_checksum : ptr string)
    (c : vom_worker_recovery_context) : bool * ptr string :=
  match out_checksum with
  | NULL => (false, NULL)
  | Some _ =>
      match find_idx (fun l => wl_lease_id l =? lease_id) (wr_active_leases c) with
      | Some i =>
          match wr_active_leases c !! i with
          | Some l =>
              match wl_state l with
              | CHUNK_RECONCILED | CHUNK_COMPLETED => (true, Some (strncpy 63 (wl_output_checksum l)))
              | _ => (false, out_checksum)
              end
          | None => (false, out_checksum)
          end
      | None => (false, out_checksum)
      end
  end.

Definition vom_worker_recovery_complete_chunk (lease_id : Z) (checksum : ptr string)
    (c : vom_worker_recovery_context) : vom_worker_recovery_context :=
  match checksum with
  | NULL => c
  | Some s =>
      match find_idx (fun l => (wl_lease_id l =? lease_id) && bool_decide (wl_state l = CHUNK_RUNNING))
                     (wr_active_leases c) with
      | Some i => wr_set_leases (alter (wl_finish CHUNK_COMPLETED (strncpy 63 s)) i (wr_active_leases c)) c
      | None => c
      end
  end.

(** * Reconciliation as a list function *)

Definition reconciled (auth : list Z) (ls : list worker_active_lease) : list worker_active_lease :=
  omap (fun l => let '(keep, l') := reconcile_lease auth l in if keep then Some l' else None) ls.

Lemma matched_spec auth l : matched auth l = bool_decide (wl_lease_id l ∈ auth).
Proof.
  unfold matched. destruct (find_idx _ auth) as [i|] eqn:F.
  - find_idx_inv F. bprop. subst. symmetry. apply bool_decide_eq_true. by eapply list_elem_of_lookup_2.
  - symmetry. apply bool_decide_eq_false. intros Hin. rewrite find_idx_None, Forall_forall in F.
    specialize (F _ Hin). cbv beta in F. bprop. done.
Qed.

Lemma reconcile_loop_spec auth n done_ ls :
  (length ls <= n)%nat -> reconcile_loop n auth (length done_) (done_ ++ ls) = Some (done_ ++ reconciled auth ls).
Proof.
  revert done_ ls. induction n as [|n IH]; intros done_ ls Hn.
  - destruct ls; [|cbn in Hn; lia]. cbn [reconcile_loop]. rewrite app_nil_r.
    rewrite (lookup_ge_None_2 done_) by lia. cbn. by rewrite app_nil_r.
  - destruct ls as [|l ls]; cbn [reconcile_loop].
    { rewrite app_nil_r, (lookup_ge_None_2 done_) by lia. cbn. by rewrite app_nil_r. }
    rewrite list_lookup_middle by done. cbn [reconciled omap list_omap].
    destruct (reconcile_lease auth l) as [[|] l'] eqn:E; cbn in Hn.
    + rewrite insert_app_r_alt, Nat.sub_diag by lia. cbn [insert list_insert].
      replace (done_ ++ l' :: ls) with ((done_ ++ [l']) ++ ls) by by rewrite <- app_assoc.
      replace (length done_ + 1)%nat with (length (done_ ++ [l'])) by (rewrite length_app; done).
      rewrite IH by lia. rewrite <- app_assoc. done.
    + rewrite (delete_middle done_). rewrite IH by lia. done.
Qed.

Lemma reconcile_spec auth c :
  vom_worker_recovery_reconnect_reconcile auth c =
  Some {| wr_active_leases := reconciled auth (wr_active_leases c);
          wr_is_draining := wr_is_draining c; wr_is_connected_to_master := true |}.
Proof.
  unfold vom_worker_recovery_reconnect_reconcile. cbn [wr_active_leases wr_set_connected].
  by rewrite (reconcile_loop_spec auth _ [] (wr_active_leases c)).
Qed.

(** * Invariant *)

(** A lease's flags follow from its state. *)
Record wl_ok (l : worker_active_lease) : Prop := {
  wlo_preserved : wl_partial_output_preserved l =
                  bool_decide (wl_state l = CHUNK_REVOKED) && negb (wl_policy_discard_on_cancel l);
  wlo_running : wl_state l = CHUNK_RUNNING -> wl_output_checksum l = "";
  wlo_checksum : (String.length (wl_output_checksum l) <= 63)%nat
}.

Inductive wr_reachable : vom_worker_recovery_context -> Prop :=
| WR_init c : vom_worker_recovery_init true = Some c -> wr_reachable c
| WR_drain b c : wr_reachable c -> wr_reachable (vom_worker_recovery_set_drain b c)
| WR_accept lease chunk d c : wr_reachable c ->
    wr_reachable (vom_worker_recovery_accept_new_chunk lease chunk d c).2
| WR_revoke lease c : wr_reachable c -> wr_reachable (vom_worker_recovery_handle_revocation lease c)
| WR_disconnect c : wr_reachable c -> wr_reachable (vom_worker_recovery_on_disconnect c)
| WR_reconcile auth c c' : wr_reachable c ->
    vom_worker_recovery_reconnect_reconcile auth c = Some c' -> wr_reachable c'
| WR_complete lease s c : wr_reachable c -> wr_reachable (vom_worker_recovery_complete_chunk lease s c).

Lemma wl_revoke_ok l : wl_ok l -> wl_ok (wl_revoke l).
Proof. intros [H1 H2 H3]. by split. Qed.

Lemma wl_complete_ok s l :
  wl_state l = CHUNK_RUNNING -> wl_ok l -> wl_ok (wl_finish CHUNK_COMPLETED (strncpy 63 s) l).
Proof.
  intros E [H1 H2 H3]. split; cbn; [|done|rewrite strncpy_length; lia]. rewrite H1, E. done.
Qed.

Lemma reconcile_lease_ok auth l b l' : wl_ok l -> reconcile_lease auth l = (b, l') -> wl_ok l'.
Proof.
  intros Hl. unfold reconcile_lease. destruct (matched auth l); cbn [negb].
  - destruct (wl_state l) eqn:E; intros [= <- <-]; try done.
    destruct Hl as [H1 H2 H3]. split; cbn; [|done|done]. rewrite H1, E. done.
  - destruct (wl_state l) eqn:E; cbn [wl_state wl_revoke]; rewrite ?E; intros [= <- <-]; try done.
    by apply wl_revoke_ok.
Qed.

Lemma reconciled_ok auth ls : Forall wl_ok ls -> Forall wl_ok (reconciled auth ls).
Proof.
  rewrite !Forall_forall. intros H x (l & Hl & E)%list_elem_of_omap.
  destruct (reconcile_lease auth l) as [[|] l'] eqn:F; [|done]. injection E as <-.
  eapply reconcile_lease_ok; [|exact F]. by apply H.
Qed.

Lemma reconciled_length auth ls : (length (reconciled auth ls) <= length ls)%nat.
Proof.
  unfold reconciled. induction ls as [|l ls IH]; cbn; [done|].
  destruct (reconcile_lease auth l) as [[|] l']; cbn; lia.
Qed.

Lemma wr_reachable_ok c :
  wr_reachable c ->
  (length (wr_active_leases c) <= WORKER_MAX_ACTIVE_LEASES)%nat /\ Forall wl_ok (wr_active_leases c).
Proof.
  induction 1 as [c E|b c _ IH|lease chunk d c _ [IHn IHl]|lease c _ [IHn IHl]|c _ IH
                 |auth c c' _ [IHn IHl] E|lease s c _ [IHn IHl]]; try done.
  - injection E as <-. cbn. split; [lia|constructor].
  - unfold vom_worker_recovery_accept_new_chunk. destruct (wr_is_draining c); [done|].
    destruct (_ <=? _)%nat eqn:L; [done|]. apply Nat.leb_gt in L.
    cbn [snd wr_active_leases wr_set_leases]. rewrite length_app. cbn. split; [lia|].
    rewrite Forall_app. split; [done|]. constructor; [|done]. split; cbn; [done|done|lia].
  - unfold vom_worker_recovery_handle_revocation. destruct (find_idx _ _) as [i|]; [|done].
    cbn [wr_active_leases wr_set_leases]. rewrite length_alter. split; [done|].
    apply Forall_alter_one; [done|]. intros x _. apply wl_revoke_ok.
  - rewrite reconcile_spec in E. injection E as <-. cbn [wr_active_leases].
    split; [|by apply reconciled_ok]. pose proof (reconciled_length auth (wr_active_leases c)). lia.
  - unfold vom_worker_recovery_complete_chunk. destruct s as [s|]; [|done].
    destruct (find_idx _ _) as [i|] eqn:F; [|done]. cbn [wr_active_leases wr_set_leases].
    rewrite length_alter. split; [done|]. apply Forall_alter_one; [done|].
    intros x Hx. find_idx_inv F. rewrite Hx in Hx0. injection Hx0 as <-.
    apply andb_true_iff in Hp as [_ Hp%bool_decide_eq_true]. by apply wl_complete_ok.
Qed.

(** * Properties *)

(** In every reachable lease book there are at most 16 leases, partial
    output is kept exactly for revoked leases whose policy allows it, running
    leases have no checksum yet, and a new chunk is accepted exactly when the
    worker is not draining and a slot is free. *)
Theorem worker_leases_reachable_ok (c : vom_worker_recovery_context) :
  wr_reachable c ->
  (length (wr_active_leases c) <= WORKER_MAX_ACTIVE_LEASES)%nat /\
  (forall l, l ∈ wr_active_leases c ->
     (wl_partial_output_preserved l = true <->
      wl_state l = CHUNK_REVOKED /\ wl_policy_discard_on_cancel l = false) /\
     (wl_state l = CHUNK_RUNNING -> wl_output_checksum l = "")) /\
  (forall lease chunk d,
     (vom_worker_recovery_accept_new_chunk lease chunk d c).1 = true <->
     wr_is_draining c = false /\ (length (wr_active_leases c) < WORKER_MAX_ACTIVE_LEASES)%nat).
Proof.
  intros R. destruct (wr_reachable_ok c R) as [Hn Hl]. split; [done|]. split.
  - intros l Hin. destruct (proj1 (Forall_forall _ _) Hl l Hin) as [H1 H2 _]. split; [|done].
    rewrite H1, andb_true_iff, bool_decide_eq_true, negb_true_iff. done.
  - intros lease chunk d. unfold vom_worker_recovery_accept_new_chunk.
    destruct (wr_is_draining c); [split; [done|by intros []]|].
    destruct (_ <=? _)%nat eqn:L; cbn [fst].
    + apply Nat.leb_le in L. split; [done|]. intros []. lia.
    + apply Nat.leb_gt in L. done.
Qed.

(** A worker with one revoked, one completed and one running lease. *)
Definition sample_book : vom_worker_recovery_context :=
  let c := {| wr_active_leases := []; wr_is_draining := false; wr_is_connected_to_master := true |} in
  let c := (vom_worker_recovery_accept_new_chunk 9003 103 false c).2 in
  let c := vom_worker_recovery_handle_revocation 9003 c in
  let c := (vom_worker_recovery_accept_new_chunk 9004 104 true c).2 in
  let c := vom_worker_recovery_complete_chunk 9004 (Some "sha256-verified-output") c in
  (vom_worker_recovery_accept_new_chunk 9005 105 true c).2.

Lemma sample_book_reachable : wr_reachable sample_book.
Proof. unfold sample_book. apply WR_accept, WR_complete, WR_accept, WR_revoke, WR_accept. by apply WR_init. Qed.

Lemma worker_leases_reachable_ok_witness :
  wl_state <$> wr_active_leases sample_book = [CHUNK_REVOKED; CHUNK_COMPLETED; CHUNK_RUNNING] /\
  (vom_worker_recovery_accept_new_chunk 9006 106 true sample_book).1 = true.
Proof.
  split; [reflexivity|].
  destruct (worker_leases_reachable_ok sample_book sample_book_reachable) as (_ & _ & H).
  apply H. split; [reflexivity|]. by apply Nat.ltb_lt.
Defined.

(** Reconciliation is its specification: the loop that removes leases
    while it walks the array always ends, and the result is, in order, every
    lease judged once: one the master still lists stays, its state RECONCILED
    if it was COMPLETED; one the master no longer lists stays only as REVOKED
    (a RUNNING lease is revoked, with its output kept unless the policy
    discards it), and finished ones are dropped. *)
Theorem worker_reconcile_spec (auth : list Z) (c : vom_worker_recovery_context) :
  vom_worker_recovery_reconnect_reconcile auth c =
  Some {| wr_active_leases :=
            omap (fun l =>
                    if bool_decide (wl_lease_id l ∈ auth) then
                      Some (if bool_decide (wl_state l = CHUNK_COMPLETED)
                            then wl_finish CHUNK_RECONCILED (wl_output_checksum l) l else l)
                    else match wl_state l with
                         | CHUNK_RUNNING => Some (wl_revoke l)
                         | CHUNK_REVOKED => Some l
                         | CHUNK_COMPLETED | CHUNK_RECONCILED => None
                         end) (wr_active_leases c);
          wr_is_draining := wr_is_draining c; wr_is_connected_to_master := true |}.
Proof.
  rewrite reconcile_spec. do 2 f_equal. unfold reconciled. apply list_omap_ext.
  apply Forall_Forall2_diag, Forall_true. intros l. unfold reconcile_lease. rewrite matched_spec.
  destruct (bool_decide (wl_lease_id l ∈ auth)); cbn [negb];
    destruct (wl_state l) eqn:E; cbn [wl_state wl_revoke]; rewrite ?E; done.
Qed.

(** The first lease with an id that does not occur before. *)
Lemma find_fresh (ls : list worker_active_lease) (l : worker_active_lease) (p : worker_active_lease -> bool) :
  wl_lease_id l ∉ wl_lease_id <$> ls -> p l = true ->
  find_idx (fun x => (wl_lease_id x =? wl_lease_id l) && p x) (ls ++ [l]) = Some (length ls).
Proof.
  intros Hf Hp. apply (find_idx_first _ _ _ l).
  - by apply list_lookup_middle.
  - by rewrite Z.eqb_refl, Hp.
  - intros j y Hj Hy. rewrite lookup_app_l in Hy by done. apply andb_false_iff. left.
    apply Z.eqb_neq. intros E. apply Hf. rewrite <- E. apply list_elem_of_fmap_2.
    by eapply list_elem_of_lookup_2.
Qed.

(** Reconciling a book whose last lease is completed and listed, or not. *)
Lemma reconciled_snoc auth ls l :
  wl_state l = CHUNK_COMPLETED ->
  reconciled auth (ls ++ [l]) =
  reconciled auth ls ++
    if bool_decide (wl_lease_id l ∈ auth) then [wl_finish CHUNK_RECONCILED (wl_output_checksum l) l] else [].
Proof.
  intros E. unfold reconciled. rewrite omap_app. f_equal. cbn. unfold reconcile_lease.
  rewrite matched_spec. destruct (bool_decide (wl_lease_id l ∈ auth)); cbn [negb]; rewrite E; [done|by rewrite E].
Qed.

Lemma reconciled_ids auth ls k : k ∈ wl_lease_id <$> reconciled auth ls -> k ∈ wl_lease_id <$> ls.
Proof.
  intros (l' & -> & (l & Hl & E)%list_elem_of_omap)%list_elem_of_fmap.
  apply list_elem_of_fmap. exists l. split; [|done].
  unfold reconcile_lease in E. destruct (matched auth l), (wl_state l) eqn:S;
    cbn [negb wl_state wl_revoke] in E; rewrite ?S in E; try discriminate E; by injection E as <-.
Qed.

(** A finished result survives a lost connection exactly if the master
    still knows its lease: for a lease accepted under an id not in the book
    and completed, after a disconnection and a reconciliation the claim hands
    out the checksum (its first 63 characters) if the master lists the lease,
    and otherwise fails with the buffer untouched. *)
Theorem worker_result_survives_reconnect (c c1 c2 : vom_worker_recovery_context) (lease chunk : Z)
    (d : bool) (checksum buf : string) (auth : list Z) :
  lease ∉ wl_lease_id <$> wr_active_leases c ->
  vom_worker_recovery_accept_new_chunk lease chunk d c = (true, c1) ->
  vom_worker_recovery_reconnect_reconcile auth
    (vom_worker_recovery_on_disconnect (vom_worker_recovery_complete_chunk lease (Some checksum) c1)) = Some c2 ->
  vom_worker_recovery_claim_result lease (Some buf) c2 =
    (if bool_decide (lease ∈ auth) then (true, Some (strncpy 63 checksum)) else (false, Some buf)).
Proof.
  intros Hf HA HR. unfold vom_worker_recovery_accept_new_chunk in HA.
  destruct (wr_is_draining c); [done|]. destruct (_ <=? _)%nat; [done|].
  set (l := {| wl_lease_id := lease |}) in HA. injection HA as <-.
  rewrite reconcile_spec in HR. injection HR as <-.
  unfold vom_worker_recovery_complete_chunk. cbn [wr_active_leases wr_set_leases].
  rewrite (find_fresh _ l (fun x => bool_decide (wl_state x = CHUNK_RUNNING))) by done.
  cbn [wr_active_leases wr_set_leases vom_worker_recovery_on_disconnect wr_set_connected].
  rewrite alter_app_r_alt, Nat.sub_diag by done. cbn [alter list_alter].
  set (l1 := wl_finish CHUNK_COMPLETED (strncpy 63 checksum) l).
  rewrite (reconciled_snoc auth _ l1) by done. change (wl_lease_id l1) with lease.
  assert (lease ∉ wl_lease_id <$> reconciled auth (wr_active_leases c)) as Hf2
    by (intros H; by apply Hf, (reconciled_ids auth)).
  unfold vom_worker_recovery_claim_result. cbn [wr_active_leases].
  destruct (bool_decide (lease ∈ auth)).
  - set (l2 := wl_finish CHUNK_RECONCILED (wl_output_checksum l1) l1).
    pose proof (find_fresh (reconciled auth (wr_active_leases c)) l2 (fun _ => true)) as F.
    rewrite (find_idx_ext _ (fun x => (wl_lease_id x =? wl_lease_id l2) && true)), F; [|done|done|].
    + rewrite list_lookup_middle by done. cbn. by rewrite strncpy_idemp.
    + intros x _. by rewrite andb_true_r.
  - rewrite app_nil_r. destruct (find_idx _ _) as [i|] eqn:F; [|done].
    find_idx_inv F. bprop. exfalso. apply Hf2. rewrite <- Hp. apply list_elem_of_fmap_2.
    by eapply list_elem_of_lookup_2.
Qed.

Lemma worker_result_survives_reconnect_witness :
  exists c1 c2, vom_worker_recovery_accept_new_chunk 9010 110 true sample_book = (true, c1) /\
  vom_worker_recovery_reconnect_reconcile [9010; 9005]
    (vom_worker_recovery_on_disconnect
       (vom_worker_recovery_complete_chunk 9010 (Some "sha256-done") c1)) = Some c2 /\
  vom_worker_recovery_claim_result 9010 (Some "") c2 = (true, Some "sha256-done") /\
  wl_state <$> wr_active_leases c2 = [CHUNK_REVOKED; CHUNK_RUNNING; CHUNK_RECONCILED].
Proof.
  eexists _, _. split; [reflexivity|]. split; [reflexivity|]. split; [|reflexivity].
  erewrite (worker_result_survives_reconnect sample_book _ _ 9010 110 true "sha256-done" "" [9010; 9005]);
    [reflexivity| |reflexivity|reflexivity].
  cbn. set_solver by lia.
Defined.

(** Nothing stops the master's lease id from being accepted twice; a claim then
    only ever looks at the first. *)
Example duplicate_lease_hides_result :
  let c := (vom_worker_recovery_accept_new_chunk 9003 120 true sample_book).2 in
  let c := vom_worker_recovery_complete_chunk 9003 (Some "sha256-second") c in
  wl_state <$> wr_active_leases c = [CHUNK_REVOKED; CHUNK_COMPLETED; CHUNK_RUNNING; CHUNK_COMPLETED] /\
  (vom_worker_recovery_claim_result 9003 (Some "") c).1 = false.
Proof. by split. Qed.
