(* ===== verification/ResourceMonitor.v ===== *)
(** The worker's resource monitor ([worker/src/resource_monitor.c]): a ring of
    ten samples, the probe with its cooldown and the staleness check. *)
From Stdlib Require Import ZifyNat.
From S2P Require Import Prelude CFloat.

Definition MAX_SAMPLES : nat := 10.
Definition PROBE_COOLDOWN_MS : Z := 2000.
Definition STALE_THRESHOLD_MS : Z := 10000.

(** * Data *)

Inductive SampleFreshness := SAMPLE_FRESH | SAMPLE_STALE | SAMPLE_UNAVAILABLE.
Inductive ThermalTier := THERMAL_NOMINAL | THERMAL_THROTTLED | THERMAL_CRITICAL.

#[export] Instance SampleFreshness_eq_dec : EqDecision SampleFreshness.
Proof. solve_decision. Defined.

Record ResourceSample := {
  rs_timestamp_ms : Z;
  rs_status : SampleFreshness;
  rs_cpu_utilization_pct : cfloat;
  rs_effective_cpu_units_available : Z;
  rs_free_ram_mb : Z;
  rs_reclaimable_ram_mb : Z;
  rs_free_storage_mb : Z;
  rs_current_io_read_mbps : Z;
  rs_battery_percentage : cfloat;
  rs_thermal_state : ThermalTier
}.

(** [{0}] *)
Definition zero_sample : ResourceSample :=
  {| rs_timestamp_ms := 0; rs_status := SAMPLE_FRESH; rs_cpu_utilization_pct := S754_zero false;
     rs_effective_cpu_units_available := 0; rs_free_ram_mb := 0; rs_reclaimable_ram_mb := 0;
     rs_free_storage_mb := 0; rs_current_io_read_mbps := 0;
     rs_battery_percentage := S754_zero false; rs_thermal_state := THERMAL_NOMINAL |}.

Definition rs_set_status (st : SampleFreshness) (s : ResourceSample) : ResourceSample :=
  {| rs_timestamp_ms := rs_timestamp_ms s; rs_status := st;
     rs_cpu_utilization_pct := rs_cpu_utilization_pct s;
     rs_effective_cpu_units_available := rs_effective_cpu_units_available s;
     rs_free_ram_mb := rs_free_ram_mb s; rs_reclaimable_ram_mb := rs_reclaimable_ram_mb s;
     rs_free_storage_mb := rs_free_storage_mb s; rs_current_io_read_mbps := rs_current_io_read_mbps s;
     rs_battery_percentage := rs_battery_percentage s; rs_thermal_state := rs_thermal_state s |}.

(** [history] is the whole array of [MAX_SAMPLES] entries. *)
Record vom_monitor_context := {
  mon_history : list ResourceSample;
  mon_head_idx : nat;
  mon_sample_count : nat;
  mon_reserved_cpu_units : Z;
  mon_reserved_memory_mb : Z;
  mon_last_heavy_probe_timestamp_ms : Z
}.

(** * Operations *)

Definition vom_monitor_init (alloc : bool) : ptr vom_monitor_context :=
  if alloc then
    Some {| mon_history := replicate MAX_SAMPLES zero_sample; mon_head_idx := 0; mon_sample_count := 0;
            mon_reserved_cpu_units := 0; mon_reserved_memory_mb := 0;
            mon_last_heavy_probe_timestamp_ms := 0 |}
  else NULL.

(** The measurement the probe reports: 22.5 % load, 88 % battery and the
    constants of the source. *)
Definition measured : ResourceSample :=
  {| rs_timestamp_ms := 0; rs_status := SAMPLE_FRESH;
     rs_cpu_utilization_pct := fdiv (float_of_Z 45) (float_of_Z 2);
     rs_effective_cpu_units_available := 0; rs_free_ram_mb := 4096; rs_reclaimable_ram_mb := 512;
     rs_free_storage_mb := 250000; rs_current_io_read_mbps := 45;
     rs_battery_percentage := float_of_Z 88; rs_thermal_state := THERMAL_NOMINAL |}.

(** The index before [head_idx] in the ring. *)
Definition prev_idx (head : nat) : nat := if (0 <? head)%nat then head - 1 else MAX_SAMPLES - 1.

(** The common tail of the probe: reservations deducted, time and status set. *)
Definition deduct (reserved_cpu reserved_mem now_ms : Z) (m : ResourceSample) : ResourceSample :=
  let physical_cores_free := 4 in
  {| rs_timestamp_ms := now_ms; rs_status := SAMPLE_FRESH;
     rs_cpu_utilization_pct := rs_cpu_utilization_pct m;
     rs_effective_cpu_units_available :=
       if physical_cores_free >? reserved_cpu then u32 (physical_cores_free - reserved_cpu) else 0;
     rs_free_ram_mb := if rs_free_ram_mb m >? reserved_mem then u64 (rs_free_ram_mb m - reserved_mem) else 0;
     rs_reclaimable_ram_mb := rs_reclaimable_ram_mb m; rs_free_storage_mb := rs_free_storage_mb m;
     rs_current_io_read_mbps := rs_current_io_read_mbps m;
     rs_battery_percentage := rs_battery_percentage m; rs_thermal_state := rs_thermal_state m |}.

(** The sample filled in (from [{0}]) and the time of the last heavy probe. *)
Definition execute_hardware_metrics_probe (c : vom_monitor_context) (now_ms : Z) : ResourceSample * Z :=
  let fill := deduct (mon_reserved_cpu_units c) (mon_reserved_memory_mb c) now_ms in
  if u64 (now_ms - mon_last_heavy_probe_timestamp_ms c) >=? PROBE_COOLDOWN_MS then
    (fill measured, now_ms)
  else if (0 <? mon_sample_count c)%nat then
    let last := nth (prev_idx (mon_head_idx c)) (mon_history c) zero_sample in
    (fill last, mon_last_heavy_probe_timestamp_ms c)
  else (rs_set_status SAMPLE_UNAVAILABLE zero_sample, mon_last_heavy_probe_timestamp_ms c).

Definition vom_monitor_record_sample (now_ms : Z) (c : vom_monitor_context) : vom_monitor_context :=
  let '(sample, probe) := execute_hardware_metrics_probe c now_ms in
  {| mon_history := <[mon_head_idx c := sample]> (mon_history c);
     mon_head_idx := ((mon_head_idx c + 1) mod MAX_SAMPLES)%nat;
     mon_sample_count := if (mon_sample_count c <? MAX_SAMPLES)%nat
                         then (mon_sample_count c + 1)%nat else mon_sample_count c;
     mon_reserved_cpu_units := mon_reserved_cpu_units c;
     mon_reserved_memory_mb := mon_reserved_memory_mb c;
     mon_last_heavy_probe_timestamp_ms := probe |}.

Definition vom_monitor_update_reservations (cpu_units memory_mb : Z) (c : vom_monitor_context) :
    vom_monitor_context :=
  {| mon_history := mon_history c; mon_head_idx := mon_head_idx c; mon_sample_count := mon_sample_count c;
     mon_reserved_cpu_units := cpu_units; mon_reserved_memory_mb := memory_mb;
     mon_last_heavy_probe_timestamp_ms := mon_last_heavy_probe_timestamp_ms c |}.

(** The verdict on a sample read at [now_ms]. *)
Definition judge (now_ms : Z) (s : ResourceSample) : ResourceSample :=
  if u64 (now_ms - rs_timestamp_ms s) >? STALE_THRESHOLD_MS then rs_set_status SAMPLE_STALE s else s.

(** [out_result]: the caller's sample before and after the call. *)
Definition vom_monitor_get_latest_availability (now_ms : Z) (out_result : ptr ResourceSample)
    (c : vom_monitor_context) : bool * ptr ResourceSample :=
  match out_result with
  | NULL => (false, NULL)
  | Some out =>
      if (mon_sample_count c =? 0)%nat then (false, Some (rs_set_status SAMPLE_UNAVAILABLE out))
      else
        let out := judge now_ms (nth (prev_idx (mon_head_idx c)) (mon_history c) zero_sample) in
        (bool_decide (rs_status out = SAMPLE_FRESH), Some out)
  end.

(** * The log of samples

    The specification keeps every sample; the ring keeps the last ten.  One
    recording appends what the probe yields on the last logged sample. *)

Record monitor_log := {
  ml_samples : list ResourceSample;
  ml_reserved_cpu : Z;
  ml_reserved_mem : Z;
  ml_last_probe : Z
}.

Definition log_init : monitor_log :=
  {| ml_samples := []; ml_reserved_cpu := 0; ml_reserved_mem := 0; ml_last_probe := 0 |}.

(** A new measurement, or the last sample once more, or nothing to offer. *)
Definition log_record (now : Z) (m : monitor_log) : monitor_log :=
  let fill := deduct (ml_reserved_cpu m) (ml_reserved_mem m) now in
  let heavy := u64 (now - ml_last_probe m) >=? PROBE_COOLDOWN_MS in
  let s := if heavy then fill measured
           else match last (ml_samples m) with
                | Some l => fill l
                | None => rs_set_status SAMPLE_UNAVAILABLE zero_sample
                end in
  {| ml_samples := ml_samples m ++ [s]; ml_reserved_cpu := ml_reserved_cpu m;
     ml_reserved_mem := ml_reserved_mem m; ml_last_probe := if heavy then now else ml_last_probe m |}.

Definition log_reserve (cpu mem : Z) (m : monitor_log) : monitor_log :=
  {| ml_samples := ml_samples m; ml_reserved_cpu := cpu; ml_reserved_mem := mem;
     ml_last_probe := ml_last_probe m |}.

Definition log_latest (now : Z) (out : ResourceSample) (m : monitor_log) : bool * ptr ResourceSample :=
  match last (ml_samples m) with
  | None => (false, Some (rs_set_status SAMPLE_UNAVAILABLE out))
  | Some s => (bool_decide (rs_status (judge now s) = SAMPLE_FRESH), Some (judge now s))
  end.

(** Runs of the monitor beside runs of the specification. *)
Inductive mon_run : vom_monitor_context -> monitor_log -> Prop :=
| MR_init c : vom_monitor_init true = Some c -> mon_run c log_init
| MR_record now c m : mon_run c m -> in_u64 now ->
    mon_run (vom_monitor_record_sample now c) (log_record now m)
| MR_reserve cpu mem c m : mon_run c m -> in_u32 cpu -> in_u64 mem ->
    mon_run (vom_monitor_update_reservations cpu mem c) (log_reserve cpu mem m).

(** * The ring holds the end of the log *)

Record ring_ok (c : vom_monitor_context) (m : monitor_log) : Prop := {
  ro_length : length (mon_history c) = MAX_SAMPLES;
  ro_head : mon_head_idx c = (length (ml_samples m) mod MAX_SAMPLES)%nat;
  ro_count : mon_sample_count c = Nat.min MAX_SAMPLES (length (ml_samples m));
  ro_ring : forall i s, ml_samples m !! i = Some s -> (length (ml_samples m) <= i + MAX_SAMPLES)%nat ->
            mon_history c !! (i mod MAX_SAMPLES)%nat = Some s;
  ro_cpu : mon_reserved_cpu_units c = ml_reserved_cpu m;
  ro_mem : mon_reserved_memory_mb c = ml_reserved_mem m;
  ro_probe : mon_last_heavy_probe_timestamp_ms c = ml_last_probe m
}.

Ltac mod_lia := zify; Z.to_euclidean_division_equations; lia.

Lemma prev_idx_mod n : (0 < n)%nat -> prev_idx (n mod MAX_SAMPLES) = ((n - 1) mod MAX_SAMPLES)%nat.
Proof. unfold prev_idx, MAX_SAMPLES. intros H. destruct (Nat.ltb_spec 0 (n mod 10)); mod_lia. Qed.

(** What the code reads at [prev_idx] is the last logged sample. *)
Lemma ring_last c m s :
  ring_ok c m -> last (ml_samples m) = Some s ->
  nth (prev_idx (mon_head_idx c)) (mon_history c) zero_sample = s.
Proof.
  intros [H1 H2 _ H4 _ _ _] Hl. rewrite last_lookup in Hl.
  assert (0 < length (ml_samples m))%nat as Hp by (apply lookup_lt_Some in Hl; lia).
  rewrite H2, prev_idx_mod by done. rewrite nth_lookup.
  rewrite <- Nat.sub_1_r in Hl. rewrite (H4 _ _ Hl); [done|]. unfold MAX_SAMPLES. lia.
Qed.

Lemma ring_empty c m : ring_ok c m -> (mon_sample_count c =? 0)%nat = bool_decide (last (ml_samples m) = None).
Proof.
  intros [_ _ H3 _ _ _ _]. rewrite H3. symmetry. destruct (ml_samples m) as [|x l] eqn:E; [done|].
  rewrite bool_decide_eq_false_2; [done|]. by rewrite last_None.
Qed.

Lemma probe_log c m now :
  ring_ok c m ->
  let '(s, p) := execute_hardware_metrics_probe c now in
  ml_samples (log_record now m) = ml_samples m ++ [s] /\ ml_last_probe (log_record now m) = p.
Proof.
  intros R. pose proof (ring_empty c m R) as He. pose proof (ring_last c m) as Hl.
  unfold execute_hardware_metrics_probe, log_record. cbn [ml_samples ml_last_probe].
  rewrite (ro_cpu c m R), (ro_mem c m R), (ro_probe c m R).
  destruct (u64 (now - ml_last_probe m) >=? PROBE_COOLDOWN_MS); [done|].
  destruct (last (ml_samples m)) as [s|]; [rewrite bool_decide_eq_false_2 in He by done
                                          |rewrite bool_decide_eq_true_2 in He by done].
  - apply Nat.eqb_neq in He. assert ((0 <? mon_sample_count c)%nat = true) as -> by (apply Nat.ltb_lt; lia).
    by rewrite (Hl s).
  - apply Nat.eqb_eq in He. by rewrite He.
Qed.

Lemma record_ring_ok now c m :
  ring_ok c m -> ring_ok (vom_monitor_record_sample now c) (log_record now m).
Proof.
  intros R. pose proof (probe_log c m now R) as Hp. unfold vom_monitor_record_sample.
  destruct (execute_hardware_metrics_probe c now) as [s p]. destruct Hp as [Hs Hp].
  destruct R as [H1 H2 H3 H4 H5 H6 _].
  split; cbn [mon_history mon_head_idx mon_sample_count mon_reserved_cpu_units
              mon_reserved_memory_mb mon_last_heavy_probe_timestamp_ms]; rewrite ?Hs; try done.
  - by rewrite length_insert.
  - rewrite H2, length_app. cbn [length]. unfold MAX_SAMPLES. mod_lia.
  - rewrite H3, length_app. cbn [length]. destruct (Nat.ltb_spec (Nat.min MAX_SAMPLES (length (ml_samples m))) MAX_SAMPLES); lia.
  - rewrite length_app. cbn [length]. intros i x Hx Hi.
    destruct (decide (i = length (ml_samples m))) as [->|Hne].
    + rewrite list_lookup_middle in Hx by done. injection Hx as <-.
      rewrite H2. apply list_lookup_insert_eq. rewrite H1. unfold MAX_SAMPLES. mod_lia.
    + assert (i < length (ml_samples m))%nat as Hlt.
      { apply lookup_lt_Some in Hx. rewrite length_app in Hx. cbn [length] in Hx. lia. }
      rewrite lookup_app_l in Hx by done. rewrite list_lookup_insert_ne.
      * apply H4; [done|lia].
      * rewrite H2. unfold MAX_SAMPLES in *. mod_lia.
Qed.

(** The latest sample read through the ring is the log's. *)
Lemma ring_latest c m now out : ring_ok c m -> vom_monitor_get_latest_availability now (Some out) c = log_latest now out m.
Proof.
  intros H. unfold vom_monitor_get_latest_availability, log_latest. rewrite (ring_empty c m H).
  destruct (last (ml_samples m)) as [s|] eqn:L.
  - rewrite bool_decide_eq_false_2 by done. by rewrite (ring_last c m s H L).
  - by rewrite bool_decide_eq_true_2.
Qed.

(** What is logged stays within the machine. *)
Definition sample_bounded (s : ResourceSample) : Prop :=
  0 <= rs_effective_cpu_units_available s <= 4 /\ 0 <= rs_free_ram_mb s <= 4096.

Lemma deduct_bounded cpu mem now s :
  in_u32 cpu -> in_u64 mem -> 0 <= rs_free_ram_mb s <= 4096 -> sample_bounded (deduct cpu mem now s).
Proof.
  unfold in_u32, in_u64. intros Hc Hm Hs. unfold sample_bounded, deduct.
  cbn [rs_effective_cpu_units_available rs_free_ram_mb]. split.
  - destruct (4 >? cpu) eqn:E; bprop; [|lia]. rewrite u32_id by (unfold in_u32; lia). lia.
  - destruct (rs_free_ram_mb s >? mem) eqn:E; bprop; [|lia]. rewrite u64_id by (unfold in_u64; lia). lia.
Qed.

Lemma last_elem {A} (l : list A) x : last l = Some x -> x ∈ l.
Proof. rewrite last_lookup. apply list_elem_of_lookup_2. Qed.

Lemma mon_run_ok c m :
  mon_run c m ->
  ring_ok c m /\ in_u32 (ml_reserved_cpu m) /\ in_u64 (ml_reserved_mem m) /\
  Forall sample_bounded (ml_samples m).
Proof.
  induction 1 as [c E|now c m _ (IH & Hc & Hm & Hs) Hn|cpu mem c m _ (IH & Hc & Hm & Hs) H1 H2].
  - injection E as <-. split; [by split|]. split; [done|]. split; [done|constructor].
  - split; [by apply record_ring_ok|]. split; [done|]. split; [done|].
    unfold log_record. cbn [ml_samples]. rewrite Forall_app. split; [done|]. constructor; [|done].
    destruct (_ >=? _); [by apply deduct_bounded|].
    destruct (last (ml_samples m)) as [l|] eqn:L; [|done].
    apply deduct_bounded; try done. apply (proj1 (Forall_forall _ _) Hs l (last_elem _ _ L)).
  - split; [|by split_and!]. by destruct IH.
Qed.

(** * Properties *)

(** C31: The monitor's ring implements its log: after any recordings (at any
    times, clocks running backwards included) and reservation updates the
    latest availability read through the ring is that of the full log of
    samples, the ring holds the last ten samples and its indices are in
    bounds, every sample offers at most 4 CPU units and 4096 MB, and a sample
    is offered as fresh only if it was recorded as fresh at most 10 s before. *)
Theorem monitor_refines_log (c : vom_monitor_context) (m : monitor_log) :
  mon_run c m ->
  (forall now out, vom_monitor_get_latest_availability now (Some out) c = log_latest now out m) /\
  (forall i s, ml_samples m !! i = Some s -> (length (ml_samples m) <= i + MAX_SAMPLES)%nat ->
     mon_history c !! (i mod MAX_SAMPLES)%nat = Some s) /\
  length (mon_history c) = MAX_SAMPLES /\ (mon_head_idx c < MAX_SAMPLES)%nat /\
  (mon_sample_count c <= MAX_SAMPLES)%nat /\
  (forall now out s, vom_monitor_get_latest_availability now (Some out) c = (true, Some s) ->
     last (ml_samples m) = Some s /\ rs_status s = SAMPLE_FRESH /\
     u64 (now - rs_timestamp_ms s) <= STALE_THRESHOLD_MS /\
     0 <= rs_effective_cpu_units_available s <= 4 /\ 0 <= rs_free_ram_mb s <= 4096).
Proof.
  intros R. destruct (mon_run_ok c m R) as (H & _ & _ & Hs). pose proof (fun now out => ring_latest c m now out H) as HL.
  pose proof H as [H1 H2 H3 H4 _ _ _]. split; [done|]. split; [done|]. split; [done|].
  split; [rewrite H2; unfold MAX_SAMPLES; mod_lia|]. split; [lia|].
  intros now out s. rewrite HL. unfold log_latest, judge.
  destruct (last (ml_samples m)) as [l|] eqn:L; [|done]. intros [= Hf <-].
  apply bool_decide_eq_true in Hf. destruct (_ >? _) eqn:E; [done|]. bprop.
  do 3 (split; [done|]). apply (proj1 (Forall_forall _ _) Hs l (last_elem _ _ L)).
Qed.

(** The run of the source's own test: a capture, a reservation, a second
    capture within the cooldown. *)
Definition monitor_demo : vom_monitor_context :=
  vom_monitor_record_sample 5500
    (vom_monitor_update_reservations 2 1024
      (vom_monitor_record_sample 5000
        {| mon_history := replicate MAX_SAMPLES zero_sample; mon_head_idx := 0; mon_sample_count := 0;
           mon_reserved_cpu_units := 0; mon_reserved_memory_mb := 0;
           mon_last_heavy_probe_timestamp_ms := 0 |})).

Lemma monitor_refines_log_witness : exists m s,
  mon_run monitor_demo m /\ last (ml_samples m) = Some s /\
  vom_monitor_get_latest_availability 5500 (Some zero_sample) monitor_demo = (true, Some s) /\
  rs_effective_cpu_units_available s = 2 /\ rs_free_ram_mb s = 3072 /\
  (vom_monitor_get_latest_availability 20500 (Some zero_sample) monitor_demo).1 = false.
Proof.
  assert (mon_run monitor_demo
            (log_record 5500 (log_reserve 2 1024 (log_record 5000 log_init)))) as R.
  { apply MR_record; [apply MR_reserve; [apply MR_record; [by apply MR_init|]| |]|]; by split. }
  destruct (monitor_refines_log _ _ R) as (H & _).
  eexists _, _. split; [exact R|]. split; [reflexivity|].
  split; [rewrite H; vm_compute; reflexivity|]. by split_and!; vm_compute.
Defined.

(** Within the cooldown the reservation is deducted again from the sample that
    already had it deducted: with 1024 MB reserved throughout, three captures
    offer 3072, 2048 and 1024 MB. *)
Example cooldown_deducts_again :
  let c := vom_monitor_record_sample 6000 monitor_demo in
  let c' := vom_monitor_record_sample 6500 c in
  (rs_free_ram_mb <$> (vom_monitor_get_latest_availability 5500 (Some zero_sample) monitor_demo).2,
   rs_free_ram_mb <$> (vom_monitor_get_latest_availability 6000 (Some zero_sample) c).2,
   rs_free_ram_mb <$> (vom_monitor_get_latest_availability 6500 (Some zero_sample) c').2) =
  (Some 3072, Some 2048, Some 1024).
Proof. vm_compute. reflexivity. Qed.

(** In the first two seconds of the clock there is no measurement: the first
    sample is UNAVAILABLE, and the second, copied from it, passes as FRESH
    with no memory at all. *)
Example unavailable_becomes_fresh :
  exists c, vom_monitor_init true = Some c /\
  let c := vom_monitor_record_sample 200 (vom_monitor_record_sample 100 c) in
  (vom_monitor_get_latest_availability 200 (Some zero_sample) c).1 = true /\
  rs_free_ram_mb <$> (vom_monitor_get_latest_availability 200 (Some zero_sample) c).2 = Some 0.
Proof. eexists. split; [reflexivity|]. by split; vm_compute. Qed.
