(* ===== verification/WorkerThreads.v ===== *)
(** The worker's state machine ([worker/src/worker_state.c]) and its resource
    monitor ([worker/src/resource_monitor.c]) as several threads run them: every
    operation is a program of single accesses to its context, under the
    context's lock.  The link automaton of [WorkerState] and the log of samples
    of [ResourceMonitor] are shown to be what the threads see. *)
From S2P Require Import Prelude CFloat Threads Tables WorkerState ResourceMonitor.

(** A program that does, from every state, what the function does. *)
Definition computes {S A} (p : prog S A) (f : S -> A * S) : Prop := forall s, run p s = f s.

(** * The state machine *)

Definition put_state (x : WorkerState) (c : vom_worker_state) : vom_worker_state :=
  {| ws_current_state := x; ws_last_transition_ms := ws_last_transition_ms c; ws_active_tasks_count := ws_active_tasks_count c;
     ws_master_endpoint := ws_master_endpoint c |}.
Definition put_transition_ms (x : Z) (c : vom_worker_state) : vom_worker_state :=
  {| ws_current_state := ws_current_state c; ws_last_transition_ms := x; ws_active_tasks_count := ws_active_tasks_count c;
     ws_master_endpoint := ws_master_endpoint c |}.
Definition put_tasks (x : Z) (c : vom_worker_state) : vom_worker_state :=
  {| ws_current_state := ws_current_state c; ws_last_transition_ms := ws_last_transition_ms c; ws_active_tasks_count := x;
     ws_master_endpoint := ws_master_endpoint c |}.
Definition put_endpoint (x : string) (c : vom_worker_state) : vom_worker_state :=
  {| ws_current_state := ws_current_state c; ws_last_transition_ms := ws_last_transition_ms c;
     ws_active_tasks_count := ws_active_tasks_count c; ws_master_endpoint := x |}.

Abbreviation scode A := (prog vom_worker_state A).

Definition transition_code (event : WorkerEvent) (now_ms : Z) (endpoint : ptr string) : scode bool :=
  s ← read ws_current_state;
  match next_state s event with
  | Some next =>
      (match s, event, endpoint with
       | WRK_STATE_OFFLINE, WRK_EVENT_CONNECT, Some e => write (put_endpoint (strncpy 127 e))
       | _, _, _ => mret tt
       end) ;;
      write (put_state next) ;;
      write (put_transition_ms now_ms) ;;
      mret true
  | None => mret false
  end.

Definition update_tasks_code (delta : Z) : scode unit :=
  if 0 <? delta then
    n ← read ws_active_tasks_count;
    write (put_tasks (u32 (n + u32 delta))) ;;
    s ← read ws_current_state;
    if decide (s = WRK_STATE_REGISTERED) then write (put_state WRK_STATE_RUNNING) else mret tt
  else if delta <? 0 then
    let u_delta := u32 (s32 (- delta)) in
    n ← read ws_active_tasks_count;
    (if u_delta <=? n then n ← read ws_active_tasks_count; write (put_tasks (u32 (n - u_delta))) else write (put_tasks 0)) ;;
    n ← read ws_active_tasks_count;
    if n =? 0 then
      s ← read ws_current_state;
      if decide (s = WRK_STATE_RUNNING) then write (put_state WRK_STATE_REGISTERED) else mret tt
    else mret tt
  else mret tt.

Lemma transition_computes e now ep : computes (transition_code e now ep) (vom_worker_state_transition e now ep).
Proof.
  intros s. unfold transition_code, vom_worker_state_transition. run_prog.
  destruct (next_state (ws_current_state s) e) as [n|] eqn:N; run_prog; [|done].
  destruct (ws_current_state s) eqn:C, e; try done; by destruct ep.
Qed.

Lemma tasks_computes d : computes (update_tasks_code d) (fun c => (tt, vom_worker_state_update_tasks d c)).
Proof.
  intros [st t n ep]. unfold update_tasks_code, vom_worker_state_update_tasks.
  destruct (0 <? d); [run_prog; by destruct st|]. destruct (d <? 0); [|done]. cbv zeta.
  cbn [ws_active_tasks_count ws_current_state]. run_prog. cbn [ws_active_tasks_count].
  destruct (_ <=? n); run_prog; cbn [ws_active_tasks_count put_tasks]; destr_if; run_prog; by destruct st.
Qed.

Inductive state_call :=
| StGet
| StTransition (event : WorkerEvent) (now_ms : Z) (endpoint : ptr string)
| StTasks (delta : Z).
Inductive state_result := StState (s : WorkerState) | StBool (b : bool) | StVoid.

#[export] Instance state_result_eq_dec : EqDecision state_result.
Proof. solve_decision. Defined.

Definition state_enter (c : state_call) : state_result + prog vom_worker_state state_result :=
  match c with
  | StGet => inr (s ← read ws_current_state; mret (StState s))
  | StTransition e now ep => inr (b ← transition_code e now ep; mret (StBool b))
  | StTasks d => inr (update_tasks_code d ;; mret StVoid)
  end.

(** The call as one step of the model. *)
Definition state_apply (c : state_call) (x : vom_worker_state) : state_result * vom_worker_state :=
  match c with
  | StGet => (StState (vom_worker_state_get x), x)
  | StTransition e now ep => let '(b, y) := vom_worker_state_transition e now ep x in (StBool b, y)
  | StTasks d => (StVoid, vom_worker_state_update_tasks d x)
  end.

Lemma state_exec c s : True -> True /\ state_apply c s = ((exec state_enter c s).1, (exec state_enter c s).2).
Proof.
  intros _. split; [done|]. unfold exec. destruct c as [|e now ep|d]; cbn [state_enter state_apply]; [done| |]; rewrite run_bind.
  - rewrite transition_computes. by destruct (vom_worker_state_transition _ _ _ _).
  - by rewrite tasks_computes.
Qed.

#[export] Instance state_locked : Locked state_enter state_apply := {| lk_ok := fun _ => True; lk_abs := id; lk_exec := state_exec |}.

(** The accepted events of a history. *)
Definition moves (h : list (nat * state_call * state_result)) : list WorkerEvent :=
  omap (fun e => match e with (_, StTransition ev _ _, StBool true) => Some ev | _ => None end) h.

(** An event is refused only where the link has no such move. *)
Definition refusals_just (h : list (nat * state_call * state_result)) : Prop :=
  forall h1 h2 t e now ep, h = h1 ++ (t, StTransition e now ep, StBool false) :: h2 ->
    exists l, link_run (moves h1) l /\ forall l', ~ link_step l e l'.

Definition start_state : vom_worker_state :=
  {| ws_current_state := WRK_STATE_OFFLINE; ws_last_transition_ms := 0; ws_active_tasks_count := 0; ws_master_endpoint := "" |}.

Lemma start_state_init : vom_worker_state_init true = Some start_state.
Proof. done. Qed.

Lemma replay_moves h : forall x, replay state_apply start_state h = Some x -> link_run (moves h) (link_of (ws_current_state x)).
Proof.
  induction h as [|[[t c] r] h IH] using rev_ind; intros x; [by intros [= <-]|].
  intros (y & E & A)%replay_snoc_Some. specialize (IH y E). unfold moves in *. rewrite omap_app.
  destruct c as [|e now ep|d]; cbn [state_apply] in A.
  - injection A as <- <-. by rewrite app_nil_r.
  - unfold vom_worker_state_transition in A. destruct (next_state _ e) as [n|] eqn:N; injection A as <- <-; cbn.
    + eapply LR_step; [exact IH|]. by apply next_state_sound.
    + by rewrite app_nil_r.
  - injection A as <- <-. cbn. rewrite app_nil_r. by rewrite (proj1 (update_tasks_stutter d y)).
Qed.

Lemma replay_refusals h x : replay state_apply start_state h = Some x -> refusals_just h.
Proof.
  intros Rp h1 h2 t e now ep ->. rewrite replay_app in Rp. destruct (replay state_apply start_state h1) as [y|] eqn:E; [|done].
  exists (link_of (ws_current_state y)). split; [by apply replay_moves|]. cbn in Rp. unfold vom_worker_state_transition in Rp.
  destruct (next_state (ws_current_state y) e) as [n|] eqn:N; [done|]. intros l (s & Hs & _)%next_state_complete. congruence.
Qed.

(** C30: However threads interleave at the accesses of the worker's state, the
    accepted events, in the order of their returns, are a run of the link
    automaton, an event is refused only where the automaton has no such move,
    and whenever the lock is free the state is the one the run ends in (whatever
    task counts were reported meanwhile); the calls return what the one-step
    model returns, and all return. *)
Theorem worker_threads_follow_link (programs : list (list state_call)) m :
  threads_reach state_enter start_state programs m ->
  linearized state_enter state_apply id (fun _ => True) start_state programs m /\
  refusals_just (returned m) /\
  exists l, link_run (moves (returned m)) l /\ (mutex m = None -> link_of (ws_current_state (shared m)) = l).
Proof.
  intros R.
  assert (linearized state_enter state_apply id (fun _ => True) start_state programs m) as Lz.
  { refine (locked_linearized state_enter state_apply (fun _ => True) _ start_state programs m _ _ _ _ R); try done.
    apply Forall_true. intros. by apply Forall_true. }
  split; [exact Lz|]. destruct (lz_replay _ _ _ _ _ _ _ Lz) as (x & Rp & _ & Eq). split; [by eapply replay_refusals|].
  exists (link_of (ws_current_state x)). split; [by apply replay_moves|]. intros M. by rewrite <- (Eq M).
Qed.

(** Two threads: the transport connects, joins and drains, the executor reports
    tasks and tries to terminate. *)
Definition state_programs : list (list state_call) :=
  [[StTransition WRK_EVENT_CONNECT 1000 (Some "tcp://m:1"); StTransition WRK_EVENT_REGISTER_SUCCESS 1100 NULL; StTransition WRK_EVENT_START_DRAIN 1200 NULL];
   [StTransition WRK_EVENT_TERMINATE 1050 NULL; StGet; StTasks 2; StTasks (-2); StTransition WRK_EVENT_DISCONNECT 1300 NULL]].
Definition state_machine : machine :=
  schedule state_enter (concat (replicate 60 [0; 1]%nat)) (spawn start_state state_programs).

Lemma worker_threads_follow_link_witness :
  moves (returned state_machine) = [WRK_EVENT_CONNECT; WRK_EVENT_REGISTER_SUCCESS; WRK_EVENT_START_DRAIN; WRK_EVENT_DISCONNECT] /\
  ws_current_state (shared state_machine) = WRK_STATE_OFFLINE /\
  link_run (moves (returned state_machine)) Off.
Proof.
  assert (ws_current_state (shared state_machine) = WRK_STATE_OFFLINE) as E by (vm_compute; reflexivity).
  split; [vm_compute; reflexivity|]. split; [exact E|].
  destruct (worker_threads_follow_link state_programs state_machine) as (_ & _ & l & Rn & El).
  - apply schedule_reach, reach_spawn.
  - rewrite <- (El ltac:(vm_compute; reflexivity)), E in Rn. exact Rn.
Defined.

(** * The resource monitor *)

Abbreviation mcode A := (prog vom_monitor_context A).

Definition put_history (f : list ResourceSample -> list ResourceSample) (c : vom_monitor_context) : vom_monitor_context :=
  {| mon_history := f (mon_history c); mon_head_idx := mon_head_idx c; mon_sample_count := mon_sample_count c;
     mon_reserved_cpu_units := mon_reserved_cpu_units c; mon_reserved_memory_mb := mon_reserved_memory_mb c;
     mon_last_heavy_probe_timestamp_ms := mon_last_heavy_probe_timestamp_ms c |}.
Definition put_head (x : nat) (c : vom_monitor_context) : vom_monitor_context :=
  {| mon_history := mon_history c; mon_head_idx := x; mon_sample_count := mon_sample_count c;
     mon_reserved_cpu_units := mon_reserved_cpu_units c; mon_reserved_memory_mb := mon_reserved_memory_mb c;
     mon_last_heavy_probe_timestamp_ms := mon_last_heavy_probe_timestamp_ms c |}.
Definition put_sample_count (x : nat) (c : vom_monitor_context) : vom_monitor_context :=
  {| mon_history := mon_history c; mon_head_idx := mon_head_idx c; mon_sample_count := x;
     mon_reserved_cpu_units := mon_reserved_cpu_units c; mon_reserved_memory_mb := mon_reserved_memory_mb c;
     mon_last_heavy_probe_timestamp_ms := mon_last_heavy_probe_timestamp_ms c |}.
Definition put_reserved_cpu (x : Z) (c : vom_monitor_context) : vom_monitor_context :=
  {| mon_history := mon_history c; mon_head_idx := mon_head_idx c; mon_sample_count := mon_sample_count c;
     mon_reserved_cpu_units := x; mon_reserved_memory_mb := mon_reserved_memory_mb c;
     mon_last_heavy_probe_timestamp_ms := mon_last_heavy_probe_timestamp_ms c |}.
Definition put_reserved_mem (x : Z) (c : vom_monitor_context) : vom_monitor_context :=
  {| mon_history := mon_history c; mon_head_idx := mon_head_idx c; mon_sample_count := mon_sample_count c;
     mon_reserved_cpu_units := mon_reserved_cpu_units c; mon_reserved_memory_mb := x;
     mon_last_heavy_probe_timestamp_ms := mon_last_heavy_probe_timestamp_ms c |}.
Definition put_last_probe (x : Z) (c : vom_monitor_context) : vom_monitor_context :=
  {| mon_history := mon_history c; mon_head_idx := mon_head_idx c; mon_sample_count := mon_sample_count c;
     mon_reserved_cpu_units := mon_reserved_cpu_units c; mon_reserved_memory_mb := mon_reserved_memory_mb c;
     mon_last_heavy_probe_timestamp_ms := x |}.

(** Member [n] of a sample, taken from [x]. *)
Definition sample_member (n : nat) (x y : ResourceSample) : ResourceSample :=
  let pick {A} (k : nat) (f : ResourceSample -> A) := f (if (k =? n)%nat then x else y) in
  {| rs_timestamp_ms := pick 0%nat rs_timestamp_ms; rs_status := pick 1%nat rs_status;
     rs_cpu_utilization_pct := pick 2%nat rs_cpu_utilization_pct;
     rs_effective_cpu_units_available := pick 3%nat rs_effective_cpu_units_available; rs_free_ram_mb := pick 4%nat rs_free_ram_mb;
     rs_reclaimable_ram_mb := pick 5%nat rs_reclaimable_ram_mb; rs_free_storage_mb := pick 6%nat rs_free_storage_mb;
     rs_current_io_read_mbps := pick 7%nat rs_current_io_read_mbps; rs_battery_percentage := pick 8%nat rs_battery_percentage;
     rs_thermal_state := pick 9%nat rs_thermal_state |}.

(** The members [ns] of [history[i]], read into [out] one after the other; the
    caller's sample is not shared. *)
Fixpoint read_members (i : nat) (ns : list nat) (out : ResourceSample) : mcode ResourceSample :=
  match ns with
  | [] => mret out
  | n :: ns =>
      out ← read (fun c => sample_member n (nth i (mon_history c) zero_sample) out);
      read_members i ns out
  end.

(** [history[i] = sample], member by member. *)
Fixpoint write_members (i : nat) (ns : list nat) (sample : ResourceSample) : mcode unit :=
  match ns with
  | [] => mret tt
  | n :: ns => write (put_history (alter (sample_member n sample) i)) ;; write_members i ns sample
  end.

Definition previous_code : mcode nat :=
  head ← read mon_head_idx;
  if (0 <? head)%nat then head ← read mon_head_idx; mret (head - 1)%nat else mret (MAX_SAMPLES - 1)%nat.

(** What the probe leaves in [*out_sample], which starts as [{0}]. *)
Definition probe_code (now_ms : Z) : mcode ResourceSample :=
  let finish (m : ResourceSample) : mcode ResourceSample :=
    cpu ← read mon_reserved_cpu_units;
    mem ← read mon_reserved_memory_mb;
    mret (deduct cpu mem now_ms m) in
  last_probe ← read mon_last_heavy_probe_timestamp_ms;
  if u64 (now_ms - last_probe) >=? PROBE_COOLDOWN_MS then
    write (put_last_probe now_ms) ;;
    finish measured
  else
    prev_idx ← previous_code;
    n ← read mon_sample_count;
    if (0 <? n)%nat then
      m ← read_members prev_idx [2; 4; 5; 6; 7; 8; 9]%nat zero_sample;
      finish m
    else mret (rs_set_status SAMPLE_UNAVAILABLE zero_sample).

Definition record_sample_code (now_ms : Z) : mcode unit :=
  sample ← probe_code now_ms;
  head ← read mon_head_idx;
  write_members head (seq 0 10) sample ;;
  head ← read mon_head_idx;
  write (put_head ((head + 1) mod MAX_SAMPLES)%nat) ;;
  n ← read mon_sample_count;
  if (n <? MAX_SAMPLES)%nat then n ← read mon_sample_count; write (put_sample_count (n + 1)) else mret tt.

Definition reservations_code (cpu_units memory_mb : Z) : mcode unit :=
  write (put_reserved_cpu cpu_units) ;;
  write (put_reserved_mem memory_mb).

(** The caller's sample and the verdict on it. *)
Definition availability_code (now_ms : Z) (out_result : ResourceSample) : mcode (bool * ptr ResourceSample) :=
  n ← read mon_sample_count;
  if (n =? 0)%nat then mret (false, Some (rs_set_status SAMPLE_UNAVAILABLE out_result))
  else
    latest_idx ← previous_code;
    out_result ← read_members latest_idx (seq 0 10) out_result;
    let out_result := judge now_ms out_result in
    mret (bool_decide (rs_status out_result = SAMPLE_FRESH), Some out_result).

(** ** Each program does what its function does *)

Lemma run_previous c : run previous_code c = (prev_idx (mon_head_idx c), c).
Proof. unfold previous_code, prev_idx. run_prog. by destr_if. Qed.

Lemma run_read_members i ns out c :
  run (read_members i ns out) c = (foldl (fun out n => sample_member n (nth i (mon_history c) zero_sample) out) out ns, c).
Proof. revert out. induction ns as [|n ns IH]; intros out; cbn [read_members]; run_prog; [done|]. by rewrite IH. Qed.

Lemma run_write_members i ns s c :
  run (write_members i ns s) c = (tt, put_history (alter (fun x => foldl (fun x n => sample_member n s x) x ns) i) c).
Proof.
  revert c. induction ns as [|n ns IH]; intros c; cbn [write_members]; run_prog.
  - destruct c as [h ? ? ? ? ?]. unfold put_history. cbn. by rewrite list_alter_id.
  - rewrite IH. unfold put_history. cbn. by rewrite alter_alter.
Qed.

Lemma members_complete s x : foldl (fun x n => sample_member n s x) x (seq 0 10) = s.
Proof. by destruct s, x. Qed.

(** A measurement takes over all members but the clock, the status and the free
    units, which come after. *)
Lemma deduct_members cpu mem now s :
  deduct cpu mem now (foldl (fun out n => sample_member n s out) zero_sample [2; 4; 5; 6; 7; 8; 9]%nat) = deduct cpu mem now s.
Proof. done. Qed.

Lemma run_probe now c : run (probe_code now) c =
  ((execute_hardware_metrics_probe c now).1, put_last_probe (execute_hardware_metrics_probe c now).2 c).
Proof.
  unfold probe_code, execute_hardware_metrics_probe. run_prog. destr_if; run_prog; [done|].
  rewrite run_previous. run_prog. destr_if; run_prog; [|by destruct c].
  rewrite run_read_members. run_prog. by destruct c.
Qed.

Lemma record_computes now : computes (record_sample_code now) (fun c => (tt, vom_monitor_record_sample now c)).
Proof.
  intros c. unfold record_sample_code, vom_monitor_record_sample. run_prog. rewrite run_probe. run_prog.
  destruct (execute_hardware_metrics_probe c now) as [s p]. cbn [fst snd]. rewrite run_write_members. run_prog.
  destruct c as [h i n rc rm lp]. unfold put_history, put_last_probe, put_head. cbn.
  erewrite alter_const by (intros; apply members_complete). by destruct (n <=? 9)%nat.
Qed.

Lemma reservations_computes cpu mem : computes (reservations_code cpu mem) (fun c => (tt, vom_monitor_update_reservations cpu mem c)).
Proof. done. Qed.

Lemma availability_computes now out : computes (availability_code now out) (fun c => (vom_monitor_get_latest_availability now (Some out) c, c)).
Proof.
  intros c. unfold availability_code, vom_monitor_get_latest_availability. run_prog. destr_if; run_prog; [done|].
  rewrite run_previous. run_prog. rewrite run_read_members, members_complete. by run_prog.
Qed.

Inductive monitor_call :=
| MonRecord (now_ms : Z)
| MonReserve (cpu_units memory_mb : Z)
| MonLatest (now_ms : Z) (out_result : ptr ResourceSample).
Inductive monitor_result := MonVoid | MonAnswer (fresh : bool) (out_result : ptr ResourceSample).

#[export] Instance thermal_eq_dec : EqDecision ThermalTier.
Proof. solve_decision. Defined.
#[export] Instance sample_eq_dec : EqDecision ResourceSample.
Proof. solve_decision. Defined.
#[export] Instance monitor_result_eq_dec : EqDecision monitor_result.
Proof. solve_decision. Defined.

Definition monitor_enter (c : monitor_call) : monitor_result + prog vom_monitor_context monitor_result :=
  match c with
  | MonRecord now => inr (record_sample_code now ;; mret MonVoid)
  | MonReserve cpu mem => inr (reservations_code cpu mem ;; mret MonVoid)
  | MonLatest now NULL => inl (MonAnswer false NULL)
  | MonLatest now (Some out) => inr ('(b, out) ← availability_code now out; mret (MonAnswer b out))
  end.

(** The call as one step of the specification: the log of all samples. *)
Definition log_apply (c : monitor_call) (m : monitor_log) : monitor_result * monitor_log :=
  match c with
  | MonRecord now => (MonVoid, log_record now m)
  | MonReserve cpu mem => (MonVoid, log_reserve cpu mem m)
  | MonLatest now NULL => (MonAnswer false NULL, m)
  | MonLatest now (Some out) => (MonAnswer (log_latest now out m).1 (log_latest now out m).2, m)
  end.

(** The call as one step of the model. *)
Definition monitor_apply (c : monitor_call) (x : vom_monitor_context) : monitor_result * vom_monitor_context :=
  match c with
  | MonRecord now => (MonVoid, vom_monitor_record_sample now x)
  | MonReserve cpu mem => (MonVoid, vom_monitor_update_reservations cpu mem x)
  | MonLatest now out => let '(b, out) := vom_monitor_get_latest_availability now out x in (MonAnswer b out, x)
  end.

Lemma monitor_exec c s : True -> True /\ monitor_apply c s = ((exec monitor_enter c s).1, (exec monitor_enter c s).2).
Proof.
  intros _. split; [done|]. unfold exec. destruct c as [now|cpu mem|now [out|]]; cbn [monitor_enter monitor_apply]; [..|done]; rewrite run_bind.
  - by rewrite record_computes.
  - by rewrite reservations_computes.
  - rewrite availability_computes. by destruct (vom_monitor_get_latest_availability _ _ _).
Qed.

#[export] Instance monitor_locked : Locked monitor_enter monitor_apply :=
  {| lk_ok := fun _ => True; lk_abs := id; lk_exec := monitor_exec |}.

Definition monitor_start : vom_monitor_context :=
  {| mon_history := replicate MAX_SAMPLES zero_sample; mon_head_idx := 0; mon_sample_count := 0; mon_reserved_cpu_units := 0;
     mon_reserved_memory_mb := 0; mon_last_heavy_probe_timestamp_ms := 0 |}.

Lemma monitor_start_init : vom_monitor_init true = Some monitor_start.
Proof. done. Qed.

(** Arguments within their types. *)
Definition monitor_valid (c : monitor_call) : Prop :=
  match c with
  | MonRecord now => in_u64 now
  | MonReserve cpu mem => in_u32 cpu /\ in_u64 mem
  | MonLatest _ _ => True
  end.

(** What the ring answers is what the log answers. *)
Lemma replay_log h : forall x, Forall (fun e => monitor_valid e.1.2) h -> replay monitor_apply monitor_start h = Some x ->
  exists m, replay log_apply log_init h = Some m /\ mon_run x m.
Proof.
  induction h as [|[[t c] r] h IH] using rev_ind; intros x V.
  - intros [= <-]. exists log_init. split; [done|]. by apply MR_init.
  - apply Forall_app in V as [V Vc]. rewrite Forall_singleton in Vc. intros (y & Ey & A)%replay_snoc_Some.
    destruct (IH y V Ey) as (m & Em & Rn). setoid_rewrite replay_snoc_Some.
    destruct c as [now|cpu mem|now [out|]]; cbn [monitor_apply] in A.
    + injection A as <- <-. exists (log_record now m). split; [by exists m|]. by apply (MR_record now y m Rn Vc).
    + injection A as <- <-. exists (log_reserve cpu mem m). split; [by exists m|]. by apply (MR_reserve cpu mem y m Rn (proj1 Vc) (proj2 Vc)).
    + rewrite (ring_latest y m now out (proj1 (mon_run_ok y m Rn))) in A. exists m.
      destruct (log_latest now out m) as [b o] eqn:E. injection A as <- <-. split; [|done]. exists m. split; [done|]. cbn. by rewrite E.
    + injection A as <- <-. exists m. split; [by exists m|done].
Qed.

(** However threads interleave at the accesses of recordings, reservation
    updates and readings of the monitor, every reading returns what it would
    return from the log of all samples recorded before it, in the order of the
    returns, although the monitor keeps ten; and every call returns. *)
Theorem monitor_threads_follow_log (programs : list (list monitor_call)) m :
  Forall (Forall monitor_valid) programs -> threads_reach monitor_enter monitor_start programs m ->
  linearized monitor_enter monitor_apply id (fun _ => True) monitor_start programs m /\
  exists l, replay log_apply log_init (returned m) = Some l /\ (mutex m = None -> mon_run (shared m) l).
Proof.
  intros V R.
  assert (linearized monitor_enter monitor_apply id (fun _ => True) monitor_start programs m) as Lz.
  { by refine (locked_linearized monitor_enter monitor_apply monitor_valid _ monitor_start programs m _ _ _ V R). }
  split; [exact Lz|]. destruct (lz_replay _ _ _ _ _ _ _ Lz) as (x & Rp & _ & Eq).
  destruct (replay_log _ _ (proj2 (all_valid_reach _ _ _ _ _ V R)) Rp) as (l & Rl & Rn). exists l. split; [done|].
  intros M. by rewrite <- (Eq M) in Rn.
Qed.

(** Two threads: one samples every half second, the other takes 2 units and 1 GB
    and reads. *)
Definition monitor_programs : list (list monitor_call) :=
  [[MonRecord 5000; MonRecord 5500; MonRecord 6000];
   [MonLatest 4000 NULL; MonReserve 2 1024; MonLatest 5600 (Some zero_sample); MonLatest 90000 (Some zero_sample)]].
Definition monitor_machine : machine :=
  schedule monitor_enter (concat (replicate 150 [0; 1]%nat)) (spawn monitor_start monitor_programs).

Lemma monitor_threads_follow_log_witness :
  returned monitor_machine !! 6%nat =
    Some (1%nat, MonLatest 90000 (Some zero_sample), MonAnswer false (Some (rs_set_status SAMPLE_STALE (deduct 2 1024 6000 (deduct 2 1024 5500 measured))))) /\
  exists l, replay log_apply log_init (returned monitor_machine) = Some l /\ mon_run (shared monitor_machine) l.
Proof.
  split; [vm_compute; reflexivity|].
  destruct (monitor_threads_follow_log monitor_programs monitor_machine) as (_ & l & H1 & H2).
  - repeat constructor; cbn; unfold in_u64, in_u32; lia.
  - apply schedule_reach, reach_spawn.
  - exists l. split; [exact H1|]. apply H2. vm_compute. reflexivity.
Defined.
