(* ===== verification/Executor.v ===== *)
(** The worker's executor ([worker/src/executor.c]): validation of an
    assignment, the reservation of cores and memory shared by all executions,
    the monitoring loop of the child process and the status callbacks.

    The operating system is an argument: whether the binary may be executed,
    whether [pipe] and [fork] succeed, and for every iteration of the
    monitoring loop the clock, the cancellation flag, the outcome of [read]
    and that of [waitpid]. *)
From stdpp Require Import pretty.
From S2P Require Import Prelude CFloat Registry Workload.

(** * Data *)

Inductive ExecState :=
  EXEC_STATE_IDLE | EXEC_STATE_ACCEPTED | EXEC_STATE_STARTED | EXEC_STATE_PROGRESS
| EXEC_STATE_COMPLETED | EXEC_STATE_FAILED | EXEC_STATE_CANCELLED.

#[export] Instance ExecState_eq_dec : EqDecision ExecState.
Proof. solve_decision. Defined.

Record ChunkAssignment := {
  ca_chunk_id : Z;
  ca_workload_id : Z;
  ca_runtime_type : string;
  ca_binary_path : string;
  ca_required_cores : Z;
  ca_required_memory_bytes : Z;
  ca_timeout_seconds : Z;
  ca_is_idempotent : bool;
  ca_expected_input_sha256 : string
}.

Record ChunkExecStatus := {
  es_chunk_id : Z;
  es_state : ExecState;
  es_progress_percentage : cfloat;
  es_exit_code : Z;
  es_result_sha256 : string;
  es_error_message : string
}.

(** The two globals under [g_resource_mutex]. *)
Record reservations := { g_reserved_cores : Z; g_reserved_memory_bytes : Z }.

Definition es_set_state (st : ExecState) (s : ChunkExecStatus) : ChunkExecStatus :=
  {| es_chunk_id := es_chunk_id s; es_state := st; es_progress_percentage := es_progress_percentage s;
     es_exit_code := es_exit_code s; es_result_sha256 := es_result_sha256 s;
     es_error_message := es_error_message s |}.

Definition es_set_progress (p : cfloat) (s : ChunkExecStatus) : ChunkExecStatus :=
  {| es_chunk_id := es_chunk_id s; es_state := es_state s; es_progress_percentage := p;
     es_exit_code := es_exit_code s; es_result_sha256 := es_result_sha256 s;
     es_error_message := es_error_message s |}.

Definition es_set_exit (code : Z) (s : ChunkExecStatus) : ChunkExecStatus :=
  {| es_chunk_id := es_chunk_id s; es_state := es_state s;
     es_progress_percentage := es_progress_percentage s; es_exit_code := code;
     es_result_sha256 := es_result_sha256 s; es_error_message := es_error_message s |}.

Definition es_set_hash (h : string) (s : ChunkExecStatus) : ChunkExecStatus :=
  {| es_chunk_id := es_chunk_id s; es_state := es_state s;
     es_progress_percentage := es_progress_percentage s; es_exit_code := es_exit_code s;
     es_result_sha256 := h; es_error_message := es_error_message s |}.

(** FAILED with a message ([strncpy] into the 128-byte buffer). *)
Definition es_fail (msg : string) (s : ChunkExecStatus) : ChunkExecStatus :=
  {| es_chunk_id := es_chunk_id s; es_state := EXEC_STATE_FAILED;
     es_progress_percentage := es_progress_percentage s; es_exit_code := es_exit_code s;
     es_result_sha256 := es_result_sha256 s; es_error_message := strncpy 127 msg |}.

(** * Validation and reservation *)

(** The executor's own [vom_sys_info_collect]: [out] is the caller's structure. *)
Definition vom_sys_info_collect (out : ptr vom_worker_capabilities) : bool * ptr vom_worker_capabilities :=
  match out with
  | NULL => (false, NULL)
  | Some o =>
      (true, Some {| cap_arch := cap_arch o; cap_cores_online := 8; cap_cores_total := cap_cores_total o;
                     cap_feature_bitmap := cap_feature_bitmap o; cap_ram_total_mb := 16384;
                     cap_ram_free_mb := cap_ram_free_mb o; cap_battery_percent := cap_battery_percent o;
                     cap_is_charging := cap_is_charging o; cap_is_ac_online := cap_is_ac_online o;
                     cap_display_attached := cap_display_attached o;
                     cap_display_width := cap_display_width o; cap_display_height := cap_display_height o;
                     cap_touch_supported := cap_touch_supported o;
                     cap_network_link_type := cap_network_link_type o;
                     cap_network_bandwidth_kbps := cap_network_bandwidth_kbps o |})
  end.

Definition host_memory (host_caps : vom_worker_capabilities) : Z :=
  u64 (u64 (cap_ram_total_mb host_caps * 1024) * 1024).

(** [access_ok path]: [access (path, X_OK) == 0]. *)
Definition vom_executor_validate (access_ok : string -> bool) (assignment : ptr ChunkAssignment)
    (host_caps : ptr vom_worker_capabilities) : bool :=
  match assignment, host_caps with
  | Some a, Some h =>
      if negb (strcmp_eq (ca_runtime_type a) "posix_subproc") then false
      else if ca_required_cores a >? cap_cores_online h then false
      else if ca_required_memory_bytes a >? host_memory h then false
      else if negb (access_ok (ca_binary_path a)) then false
      else true
  | _, _ => false
  end.

Definition reserve_local_resources (a : ChunkAssignment) (host_caps : vom_worker_capabilities)
    (g : reservations) : bool * reservations :=
  if (u32 (g_reserved_cores g + ca_required_cores a) >? cap_cores_online host_caps)
     || (u64 (g_reserved_memory_bytes g + ca_required_memory_bytes a) >? host_memory host_caps)
  then (false, g)
  else (true, {| g_reserved_cores := u32 (g_reserved_cores g + ca_required_cores a);
                 g_reserved_memory_bytes := u64 (g_reserved_memory_bytes g + ca_required_memory_bytes a) |}).

Definition release_local_resources (a : ChunkAssignment) (g : reservations) : reservations :=
  {| g_reserved_cores :=
       if g_reserved_cores g >=? ca_required_cores a
       then u32 (g_reserved_cores g - ca_required_cores a) else g_reserved_cores g;
     g_reserved_memory_bytes :=
       if g_reserved_memory_bytes g >=? ca_required_memory_bytes a
       then u64 (g_reserved_memory_bytes g - ca_required_memory_bytes a) else g_reserved_memory_bytes g |}.

(** * The integrity hash *)

(** [contents]: the bytes [fgetc] yields, [None] if [fopen] fails. *)
Definition compute_deterministic_integrity (contents : option (list Z)) : string :=
  let step h b := (u64 (Z.lxor h.1 (u8 b) * 0x100000001b3), u64 (Z.lxor h.2 (u8 b) * 0xcbf29ce484222325)) in
  let '(hash1, hash2) := foldl step (0xcbf29ce484222325, 0x517cc1b727220a95) (default [] contents) in
  hex_digits 16 hash1
    (hex_digits 16 hash2 (hex_digits 16 (Z.lxor hash1 hash2) (hex_digits 16 (u64 (hash1 + hash2)) ""))).

(** * The monitoring loop *)

(** What [waitpid (pid, &flags, WNOHANG)] reports: the child still runs, has
    exited with a status, was ended by a signal; or an error, [ECHILD] or not. *)
Inductive wait_result := StillRunning | Exited (code : Z) | Signalled | WaitError (echild : bool).

Record iteration := {
  it_sec : Z;              (** [current_time.tv_sec] *)
  it_cancel : bool;        (** [cancel_flag && *cancel_flag] *)
  it_bytes_read : Z;       (** the result of [read] *)
  it_wait : wait_result
}.

(** How one iteration ends: out of the loop or on with it, and the statuses
    passed to the callback. *)
Definition loop_body (cb : bool) (a : ChunkAssignment) (start_sec : Z) (it : iteration)
    (s : ChunkExecStatus) : bool * ChunkExecStatus * list ChunkExecStatus :=
  let elapsed_seconds := u32 (it_sec it - start_sec) in
  if it_cancel it then (false, es_set_state EXEC_STATE_CANCELLED s, [])
  else if elapsed_seconds >=? ca_timeout_seconds a then (false, es_fail "Execution timeout exceeded" s, [])
  else
    let '(s, calls) :=
      if it_bytes_read it >? 0 then
        let s := if fltb (es_progress_percentage s) (float_of_Z 90)
                 then es_set_progress (fadd (es_progress_percentage s) (float_of_Z 10)) s else s in
        (s, if cb then [s] else [])
      else (s, []) in
    match it_wait it with
    | Exited code =>
        let s := es_set_exit code s in
        if code =? 0 then (false, es_set_progress (float_of_Z 100) (es_set_state EXEC_STATE_COMPLETED s), calls)
        else (false, es_fail ("Runtime error code: " +:+ pretty code) s, calls)
    | Signalled => (false, es_fail "Sub-process terminated abnormally" s, calls)
    | WaitError false => (false, es_set_state EXEC_STATE_FAILED s, calls)
    | WaitError true | StillRunning => (true, s, calls)
    end.

(** The loop from its [n]-th iteration; [None] if it is still running after
    [fuel] iterations. *)
Fixpoint exec_loop (fuel : nat) (cb : bool) (a : ChunkAssignment) (start_sec : Z)
    (world : nat -> iteration) (n : nat) (s : ChunkExecStatus) :
    option (ChunkExecStatus * list ChunkExecStatus) :=
  match fuel with
  | O => None
  | S fuel =>
      let '(active, s, calls) := loop_body cb a start_sec (world n) s in
      if active then
        '(s', calls') ← exec_loop fuel cb a start_sec world (n + 1)%nat s;
        Some (s', calls ++ calls')
      else Some (s, calls)
  end.

(** * A whole execution *)

(** The operating system as one execution meets it: [os_caps] is the
    uninitialised [host_caps], [os_fork] whether [fork] succeeds. *)
Record os := {
  os_caps : vom_worker_capabilities;
  os_access : string -> bool;
  os_pipe : bool;
  os_fork : bool;
  os_start_sec : Z;
  os_world : nat -> iteration;
  os_files : string -> option (list Z)
}.

(** The result, the statuses passed to the callback in order, and the globals;
    no other execution runs meanwhile (interleavings are treated below). *)
Definition vom_executor_run (fuel : nat) (w : os) (a : ChunkAssignment) (cb : bool) (g : reservations) :
    option (bool * list ChunkExecStatus * reservations) :=
  let notify s := if cb then [s] else [] in
  let host_caps := default (os_caps w) (vom_sys_info_collect (Some (os_caps w))).2 in
  let status := {| es_chunk_id := ca_chunk_id a; es_state := EXEC_STATE_IDLE;
                   es_progress_percentage := S754_zero false; es_exit_code := 0;
                   es_result_sha256 := ""; es_error_message := "" |} in
  if negb (vom_executor_validate (os_access w) (Some a) (Some host_caps)) then
    Some (false, notify (es_fail "Validation failed" status), g)
  else
    let status := es_set_state EXEC_STATE_ACCEPTED status in
    let accepted := notify status in
    let '(reserved, g) := reserve_local_resources a host_caps g in
    if negb reserved then
      Some (false, accepted ++ notify (es_fail "Resource reservation rejected" status), g)
    else if negb (os_pipe w) then
      Some (false, accepted ++ notify (es_fail "Pipe generation failed" status), release_local_resources a g)
    else
      let status := es_set_state EXEC_STATE_STARTED status in
      let started := accepted ++ notify status in
      if negb (os_fork w) then Some (false, started, release_local_resources a g)
      else
        let status := es_set_state EXEC_STATE_PROGRESS status in
        '(status, calls) ← exec_loop fuel cb a (os_start_sec w) (os_world w) 0 status;
        let status := match es_state status with
                      | EXEC_STATE_COMPLETED =>
                          es_set_hash (compute_deterministic_integrity (os_files w "/dev/null")) status
                      | _ => status
                      end in
        Some (bool_decide (es_state status = EXEC_STATE_COMPLETED),
              started ++ calls ++ notify status, release_local_resources a g).
