(* ===== verification/ExecutorProps.v ===== *)
(** Properties of the executor: the shared reservations under concurrent
    executions, and the outcome of one execution. *)
From stdpp Require Import pretty.
From S2P Require Import Prelude CFloat Registry Workload Executor.

(** * Reservations *)

Definition CORES : Z := 8.
Definition MEMORY : Z := 16384 * 1024 * 1024.

(** An assignment whose fields have the values of their C types. *)
Definition assignment_ok (a : ChunkAssignment) : Prop :=
  in_u32 (ca_required_cores a) /\ in_u64 (ca_required_memory_bytes a) /\ in_u32 (ca_timeout_seconds a).

Definition reservations_ok (g : reservations) : Prop :=
  0 <= g_reserved_cores g <= CORES /\ 0 <= g_reserved_memory_bytes g <= MEMORY.

(** The capabilities an execution works with. *)
Definition host (stack : vom_worker_capabilities) : vom_worker_capabilities :=
  default stack (vom_sys_info_collect (Some stack)).2.

Lemma host_cores c : cap_cores_online (host c) = CORES.
Proof. done. Qed.
Lemma host_mem c : host_memory (host c) = MEMORY.
Proof. done. Qed.

Lemma validate_fits acc a c :
  vom_executor_validate acc (Some a) (Some (host c)) = true ->
  ca_required_cores a <= CORES /\ ca_required_memory_bytes a <= MEMORY.
Proof.
  unfold vom_executor_validate. rewrite host_cores, host_mem.
  destruct (negb (strcmp_eq _ _)); [done|].
  destruct (_ >? CORES) eqn:E1; [done|]. destruct (_ >? MEMORY) eqn:E2; [done|]. bprop. done.
Qed.

(** For a validated assignment the checks and updates do not wrap. *)
Lemma reserve_local_exact a c g :
  reservations_ok g -> 0 <= ca_required_cores a <= CORES -> 0 <= ca_required_memory_bytes a <= MEMORY ->
  reserve_local_resources a (host c) g =
    if (g_reserved_cores g + ca_required_cores a <=? CORES) &&
       (g_reserved_memory_bytes g + ca_required_memory_bytes a <=? MEMORY)
    then (true, {| g_reserved_cores := g_reserved_cores g + ca_required_cores a;
                   g_reserved_memory_bytes := g_reserved_memory_bytes g + ca_required_memory_bytes a |})
    else (false, g).
Proof.
  intros [Hc Hm] Ha Hb. unfold reserve_local_resources. rewrite host_cores, host_mem.
  rewrite u32_id by (unfold in_u32, CORES in *; lia).
  rewrite u64_id by (unfold in_u64, MEMORY in *; lia). rewrite !Z.gtb_ltb, !Z.ltb_antisym.
  destruct (_ <=? CORES), (_ <=? MEMORY); done.
Qed.

Lemma release_local_exact a g :
  reservations_ok g -> 0 <= ca_required_cores a <= g_reserved_cores g ->
  0 <= ca_required_memory_bytes a <= g_reserved_memory_bytes g ->
  release_local_resources a g =
    {| g_reserved_cores := g_reserved_cores g - ca_required_cores a;
       g_reserved_memory_bytes := g_reserved_memory_bytes g - ca_required_memory_bytes a |}.
Proof.
  unfold reservations_ok, CORES, MEMORY. intros [Hc Hm] Ha Hb. unfold release_local_resources.
  rewrite !Z.geb_leb, !(proj2 (Z.leb_le _ _)) by lia.
  rewrite u32_id by (unfold in_u32; lia). by rewrite u64_id by (unfold in_u64; lia).
Qed.

(** Executions in parallel: every call of an execution that touches the shared
    globals is a step; [act] are the executions holding a reservation. *)
Inductive exec_system : reservations -> list ChunkAssignment -> Prop :=
| XS_init : exec_system {| g_reserved_cores := 0; g_reserved_memory_bytes := 0 |} []
| XS_reserve g act a acc stack ok g' :
    exec_system g act -> assignment_ok a -> vom_executor_validate acc (Some a) (Some (host stack)) = true ->
    reserve_local_resources a (host stack) g = (ok, g') ->
    exec_system g' (if ok then a :: act else act)
| XS_release g act a k :
    exec_system g act -> act !! k = Some a -> exec_system (release_local_resources a g) (delete k act).

Record books_ok (g : reservations) (act : list ChunkAssignment) : Prop := {
  bo_cores : g_reserved_cores g = sumZ ca_required_cores act;
  bo_memory : g_reserved_memory_bytes g = sumZ ca_required_memory_bytes act;
  bo_range : reservations_ok g;
  bo_demands : Forall (fun a => 0 <= ca_required_cores a /\ 0 <= ca_required_memory_bytes a) act
}.

Lemma sumZ_delete {A} (f : A -> Z) l k x : l !! k = Some x -> sumZ f (delete k l) = sumZ f l - f x.
Proof.
  revert k. induction l as [|y l IH]; intros [|k] H; [done..| |].
  - injection H as ->. rewrite sumZ_cons. cbn. lia.
  - change (delete (S k) (y :: l)) with (y :: delete k l). rewrite !sumZ_cons, (IH k H). lia.
Qed.

Lemma reserve_books a c ok g g' act :
  books_ok g act -> 0 <= ca_required_cores a <= CORES -> 0 <= ca_required_memory_bytes a <= MEMORY ->
  reserve_local_resources a (host c) g = (ok, g') -> books_ok g' (if ok then a :: act else act).
Proof.
  intros [H1 H2 [H3 H4] H5] Ha Hb. rewrite reserve_local_exact by done.
  destruct (_ && _) eqn:E; intros [= <- <-]; [|by split]. bprop.
  split; cbn [g_reserved_cores g_reserved_memory_bytes]; rewrite ?sumZ_cons; [lia|lia| |].
  - unfold reservations_ok. cbn. lia.
  - constructor; [lia|done].
Qed.

Lemma release_books a k g act :
  books_ok g act -> act !! k = Some a -> books_ok (release_local_resources a g) (delete k act).
Proof.
  intros [H1 H2 H3 H4] Hk. pose proof (proj1 (Forall_forall _ _) H4) as H4'.
  destruct (H4' a) as [Ha Hb]; [by eapply list_elem_of_lookup_2|].
  assert (ca_required_cores a <= g_reserved_cores g) as Lc.
  { rewrite H1. eapply sumZ_lookup_le; [|exact Hk]. intros y Hy. apply (H4' y Hy). }
  assert (ca_required_memory_bytes a <= g_reserved_memory_bytes g) as Lm.
  { rewrite H2. eapply sumZ_lookup_le; [|exact Hk]. intros y Hy. apply (H4' y Hy). }
  rewrite release_local_exact by (done || lia). destruct H3 as [R1 R2].
  split; cbn [g_reserved_cores g_reserved_memory_bytes]; rewrite ?(sumZ_delete _ _ _ _ Hk); [lia|lia| |].
  - unfold reservations_ok. cbn. lia.
  - by apply Forall_delete.
Qed.

Lemma exec_system_ok g act : exec_system g act -> books_ok g act.
Proof.
  induction 1 as [|g act a acc st ok g' _ IH Ha V R|g act a k _ IH Hk].
  - by split.
  - destruct Ha as (A1 & A2 & _). destruct (validate_fits _ _ _ V) as [F1 F2].
    unfold in_u32, in_u64 in *. eapply reserve_books; [exact IH|lia|lia|exact R].
  - by apply release_books.
Qed.

(** C32: Under any interleaving of executions the shared reservations are
    exactly the sums of the demands of the executions holding one, never more
    than the 8 cores and 16 GiB of the host; and a validated assignment is
    reserved exactly if it still fits, a refusal changing nothing. *)
Theorem executor_reservations_balance (g : reservations) (act : list ChunkAssignment) :
  exec_system g act ->
  g_reserved_cores g = sumZ ca_required_cores act /\
  g_reserved_memory_bytes g = sumZ ca_required_memory_bytes act /\
  sumZ ca_required_cores act <= CORES /\ sumZ ca_required_memory_bytes act <= MEMORY /\
  forall a acc stack, assignment_ok a -> vom_executor_validate acc (Some a) (Some (host stack)) = true ->
    let '(ok, g') := reserve_local_resources a (host stack) g in
    (ok = true <-> sumZ ca_required_cores (a :: act) <= CORES /\
                   sumZ ca_required_memory_bytes (a :: act) <= MEMORY) /\
    (ok = false -> g' = g).
Proof.
  intros R. destruct (exec_system_ok g act R) as [H1 H2 H3 H4]. pose proof H3 as [R1 R2].
  split; [done|]. split; [done|]. split; [lia|]. split; [lia|].
  intros a acc stack (A1 & A2 & _) V. destruct (validate_fits _ _ _ V) as [F1 F2].
  unfold in_u32, in_u64 in *. rewrite reserve_local_exact by (done || lia). rewrite !sumZ_cons, <- H1, <- H2.
  destruct (_ && _) eqn:E; split; try done.
  - bprop. split; [lia|done].
  - apply andb_false_iff in E. split; [done|]. destruct E; bprop; lia.
Qed.

(** * A whole execution *)

(** An execution of four cores and a GiB, and the caller's uninitialised
    capabilities. *)
Definition demo_assignment : ChunkAssignment :=
  {| ca_chunk_id := 77; ca_workload_id := 1001; ca_runtime_type := "posix_subproc";
     ca_binary_path := "/bin/true"; ca_required_cores := 4; ca_required_memory_bytes := 2 ^ 30;
     ca_timeout_seconds := 60; ca_is_idempotent := true; ca_expected_input_sha256 := "" |}.

Definition demo_caps : vom_worker_capabilities :=
  {| cap_arch := VOM_ARCH_X86_64; cap_cores_online := 0; cap_cores_total := 0; cap_feature_bitmap := 0;
     cap_ram_total_mb := 0; cap_ram_free_mb := 0; cap_battery_percent := 0; cap_is_charging := false;
     cap_is_ac_online := false; cap_display_attached := false; cap_display_width := 0;
     cap_display_height := 0; cap_touch_supported := false; cap_network_link_type := VOM_LINK_ETH;
     cap_network_bandwidth_kbps := 0 |}.

Lemma executor_reservations_balance_witness : exists g act,
  exec_system g act /\ length act = 2%nat /\ g_reserved_cores g = sumZ ca_required_cores act /\
  g_reserved_cores g = 8.
Proof.
  assert (exec_system {| g_reserved_cores := 8; g_reserved_memory_bytes := 2 ^ 31 |}
                      [demo_assignment; demo_assignment]) as R.
  { eapply (XS_reserve _ [demo_assignment] demo_assignment (fun _ => true) demo_caps true);
      [eapply (XS_reserve _ [] demo_assignment (fun _ => true) demo_caps true);
         [apply XS_init|..]|..]; try reflexivity; unfold assignment_ok, in_u32, in_u64; cbn; lia. }
  eexists _, _. split; [exact R|]. split; [reflexivity|].
  split; [exact (proj1 (executor_reservations_balance _ _ R))|reflexivity].
Defined.

(** ** The monitoring loop *)

(** The progress after [k] chunks of output. *)
Definition progress (k : nat) : cfloat := float_of_Z (10 * Z.of_nat (Nat.min 9 k)).

Lemma progress_step k :
  (if fltb (progress k) (float_of_Z 90) then fadd (progress k) (float_of_Z 10) else progress k) =
  progress (S k).
Proof. do 10 (destruct k as [|k]; [vm_compute; reflexivity|]). vm_compute. reflexivity. Qed.

Section Loop.
Context (a : ChunkAssignment) (start : Z) (world : nat -> iteration).

(** The iteration ends the execution before it looks at the child. *)
Definition cut (n : nat) : bool :=
  it_cancel (world n) || (u32 (it_sec (world n) - start) >=? ca_timeout_seconds a).

(** The child is neither finished nor lost. *)
Definition goes_on (n : nat) : Prop :=
  it_wait (world n) = StillRunning \/ it_wait (world n) = WaitError true.

(** The first decisive event from iteration [n] on is an exit with status 0. *)
Definition completes (n : nat) : Prop :=
  exists i, (n <= i)%nat /\ it_wait (world i) = Exited 0 /\
  (forall j, (n <= j <= i)%nat -> cut j = false) /\ (forall j, (n <= j < i)%nat -> goes_on j).

Lemma completes_cut n : cut n = true -> ~ completes n.
Proof. intros H (i & Hi & _ & Hc & _). rewrite Hc in H by lia. done. Qed.

Lemma completes_step n : cut n = false -> goes_on n -> completes n <-> completes (n + 1).
Proof.
  intros Hc Hg. split; intros (i & Hi & Hw & H1 & H2).
  - assert (i <> n) by (intros ->; destruct Hg; congruence).
    exists i. split; [lia|]. split; [done|]. split; intros j Hj; [apply H1|apply H2]; lia.
  - exists i. split; [lia|]. split; [done|].
    split; intros j Hj; (destruct (decide (j = n)) as [->|]; [done|]); [apply H1|apply H2]; lia.
Qed.

Lemma completes_now n : cut n = false -> it_wait (world n) = Exited 0 -> completes n.
Proof.
  intros Hc Hw. exists n. split; [done|]. split; [done|]. split; intros j Hj; [|lia].
  assert (j = n) as -> by lia. done.
Qed.

Lemma completes_not n : ~ goes_on n -> it_wait (world n) <> Exited 0 -> ~ completes n.
Proof.
  intros Hg Hw (i & Hi & Hx & _ & H2). destruct (decide (i = n)) as [->|]; [done|]. apply Hg, H2. lia.
Qed.

Definition terminal (st : ExecState) : Prop :=
  st = EXEC_STATE_COMPLETED \/ st = EXEC_STATE_FAILED \/ st = EXEC_STATE_CANCELLED.

(** One iteration: what a status that has seen [k] outputs becomes. *)
Lemma loop_body_spec n k s :
  es_state s = EXEC_STATE_PROGRESS -> es_progress_percentage s = progress k ->
  let '(active, s', calls) := loop_body true a start (world n) s in
  es_chunk_id s' = es_chunk_id s /\
  (calls = [] \/ exists s1, calls = [s1] /\ es_chunk_id s1 = es_chunk_id s /\
     es_state s1 = EXEC_STATE_PROGRESS /\ es_progress_percentage s1 = progress (S k)) /\
  if active then
    cut n = false /\ goes_on n /\ es_state s' = EXEC_STATE_PROGRESS /\
    es_progress_percentage s' = progress (length calls + k)
  else
    terminal (es_state s') /\
    (es_state s' = EXEC_STATE_COMPLETED <-> completes n) /\
    (es_state s' = EXEC_STATE_COMPLETED -> es_progress_percentage s' = float_of_Z 100 /\ es_exit_code s' = 0).
Proof.
  intros Hst Hp. unfold loop_body. destruct (it_cancel (world n)) eqn:C.
  { assert (cut n = true) as Hc by (unfold cut; by rewrite C). apply completes_cut in Hc.
    cbn. split; [done|]. split; [by left|]. unfold terminal. split; [by auto|]. by split. }
  destruct (_ >=? _) eqn:T.
  { assert (cut n = true) as Hc by (unfold cut; by rewrite C, T). apply completes_cut in Hc.
    cbn. split; [done|]. split; [by left|]. unfold terminal. split; [by auto|]. by split. }
  assert (cut n = false) as Hc by (unfold cut; by rewrite C, T).
  set (r := if it_bytes_read (world n) >? 0 then _ else _).
  assert (exists s1 calls, r = (s1, calls) /\ es_chunk_id s1 = es_chunk_id s /\
            es_state s1 = EXEC_STATE_PROGRESS /\ es_progress_percentage s1 = progress (length calls + k) /\
            (calls = [] \/ calls = [s1])) as (s1 & calls & -> & E1 & E2 & E3 & E4).
  { subst r. destruct (it_bytes_read (world n) >? 0).
    - eexists _, _. split; [reflexivity|]. cbn [length].
      rewrite Hp, <- progress_step.
      destruct (fltb (progress k) (float_of_Z 90)); by auto.
    - exists s, []. split_and!; by auto. }
  assert (calls = [] \/ exists s2, calls = [s2] /\ es_chunk_id s2 = es_chunk_id s /\
    es_state s2 = EXEC_STATE_PROGRESS /\ es_progress_percentage s2 = progress (S k)) as E5.
  { destruct E4 as [->| ->]; [by left|right]. exists s1. by split_and!. }
  unfold terminal. destruct (it_wait (world n)) as [|code| |[]] eqn:W.
  - split; [done|]. split; [done|]. split; [done|]. split; [by left|done].
  - destruct (code =? 0) eqn:Z0; bprop; cbn.
    + subst code. pose proof (completes_now n Hc W). split; [done|]. split; [done|]. split; [by auto|]. by split.
    + assert (~ completes n) by (apply completes_not; [intros []; congruence|congruence]).
      split; [done|]. split; [done|]. split; [by auto|]. by split.
  - assert (~ completes n) by (apply completes_not; [intros []; congruence|congruence]). cbn.
    split; [done|]. split; [done|]. split; [by auto|]. by split.
  - split; [done|]. split; [done|]. split; [done|]. split; [by right|done].
  - assert (~ completes n) by (apply completes_not; [intros []; congruence|congruence]). cbn.
    split; [done|]. split; [done|]. split; [by auto|]. by split.
Qed.

(** The loop ends once the clock has passed the timeout, with a terminal
    status, COMPLETED exactly if the child completes first. *)
Lemma exec_loop_spec m fuel n k s :
  cut m = true -> (n <= m)%nat -> (m - n < fuel)%nat ->
  es_state s = EXEC_STATE_PROGRESS -> es_progress_percentage s = progress k ->
  exists s' calls, exec_loop fuel true a start world n s = Some (s', calls) /\
  es_chunk_id s' = es_chunk_id s /\ terminal (es_state s') /\
  (es_state s' = EXEC_STATE_COMPLETED <-> completes n) /\
  (es_state s' = EXEC_STATE_COMPLETED -> es_progress_percentage s' = float_of_Z 100 /\ es_exit_code s' = 0) /\
  forall i x, calls !! i = Some x -> es_chunk_id x = es_chunk_id s /\
    es_state x = EXEC_STATE_PROGRESS /\ es_progress_percentage x = progress (S (i + k)).
Proof.
  intros Hm. revert n k s. induction fuel as [|fuel IH]; intros n k s Hn Hf Hst Hp; [lia|].
  cbn [exec_loop]. pose proof (loop_body_spec n k s Hst Hp) as B.
  destruct (loop_body true a start (world n) s) as [[[|] s1] calls]. 
  - destruct B as (B1 & B2 & B3 & B4 & B5 & B6).
    assert (n <> m) by congruence.
    destruct (IH (n + 1)%nat (length calls + k)%nat s1) as (s' & calls' & E & I1 & I2 & I3 & I4 & I5);
      [lia|lia|done|done|].
    rewrite E. eexists _, _. split; [reflexivity|]. split; [congruence|]. split; [done|].
    split; [rewrite I3; symmetry; by apply completes_step|]. split; [done|].
    destruct B2 as [->|(x1 & -> & X1 & X2 & X3)]; cbn [length app].
    + intros i x Hx. destruct (I5 i x Hx) as (Y1 & Y2 & Y3). split; [congruence|]. done.
    + intros [|i] x Hx; cbn in Hx; [injection Hx as <-; done|].
      destruct (I5 i x Hx) as (Y1 & Y2 & Y3). split; [congruence|]. split; [done|].
      rewrite Y3. f_equal. cbn [length]. lia.
  - destruct B as (B1 & B2 & B3 & B4 & B5). eexists _, _. split; [reflexivity|].
    do 4 (split; [done|]). destruct B2 as [->|(x1 & -> & X1 & X2 & X3)]; [done|].
    intros [|i] x Hx; cbn in Hx; [injection Hx as <-; done|done].
Qed.

End Loop.

(** ** The outcome *)

(** The sequences of states a caller can be told, with the value returned. *)
Inductive told : bool -> list ExecState -> Prop :=
| T_invalid : told false [EXEC_STATE_FAILED]
| T_refused : told false [EXEC_STATE_ACCEPTED; EXEC_STATE_FAILED]
| T_nofork : told false [EXEC_STATE_ACCEPTED; EXEC_STATE_STARTED]
| T_ran k st : terminal st ->
    told (bool_decide (st = EXEC_STATE_COMPLETED))
         ([EXEC_STATE_ACCEPTED; EXEC_STATE_STARTED] ++ replicate k EXEC_STATE_PROGRESS ++ [st]).

(** A reservation that is released leaves the globals as they were. *)
Lemma reserve_release a c acc g g' :
  assignment_ok a -> reservations_ok g -> vom_executor_validate acc (Some a) (Some (host c)) = true ->
  reserve_local_resources a (host c) g = (true, g') -> release_local_resources a g' = g.
Proof.
  intros (A1 & A2 & _) Hg V. destruct (validate_fits _ _ _ V) as [F1 F2]. unfold in_u32, in_u64 in *.
  pose proof Hg as [G1 G2]. rewrite reserve_local_exact by (done || lia).
  destruct (_ && _) eqn:E; intros [= <-]. bprop.
  rewrite release_local_exact; cbn [g_reserved_cores g_reserved_memory_bytes].
  - destruct g as [c0 m0]. cbn in *. f_equal; lia.
  - unfold reservations_ok. cbn. lia.
  - lia.
  - lia.
Qed.

Lemma map_state_progress (calls : list ChunkExecStatus) :
  (forall i x, calls !! i = Some x -> es_state x = EXEC_STATE_PROGRESS) ->
  es_state <$> calls = replicate (length calls) EXEC_STATE_PROGRESS.
Proof.
  intros H. induction calls as [|x l IH]; [done|]. cbn. rewrite (H 0%nat x) by done.
  f_equal. apply IH. intros i y Hy. apply (H (S i) y Hy).
Qed.

(** Whether the execution gets as far as its child process. *)
Definition launches (w : os) (a : ChunkAssignment) (g : reservations) : bool :=
  vom_executor_validate (os_access w) (Some a) (Some (host (os_caps w))) &&
  (reserve_local_resources a (host (os_caps w)) g).1 && os_pipe w && os_fork w.

(** The last notification of an execution that reached its child. *)
Definition finish (w : os) (s : ChunkExecStatus) : ChunkExecStatus :=
  match es_state s with
  | EXEC_STATE_COMPLETED => es_set_hash (compute_deterministic_integrity (os_files w "/dev/null")) s
  | _ => s
  end.

Lemma finish_state w s : es_state (finish w s) = es_state s /\ es_chunk_id (finish w s) = es_chunk_id s.
Proof. unfold finish. by destruct (es_state s) eqn:E. Qed.
#[local] Opaque exec_loop.

Lemma run_not_launched w a g fuel :
  assignment_ok a -> reservations_ok g -> launches w a g = false ->
  exists trace, vom_executor_run fuel w a true g = Some (false, trace, g) /\ told false (es_state <$> trace) /\
  Forall (fun s => es_chunk_id s = ca_chunk_id a) trace /\ (length trace <= 2)%nat.
Proof.
  intros Ha Hg. unfold launches, vom_executor_run. fold (host (os_caps w)).
  destruct (vom_executor_validate _ _ _) eqn:V; cbn [negb andb].
  2: { intros _. eexists. split; [reflexivity|]. split; [constructor|]. split; [by repeat constructor|cbn; lia]. }
  destruct (reserve_local_resources a (host (os_caps w)) g) as [[|] g'] eqn:R; cbn [fst negb andb].
  - rewrite <- (reserve_release a _ _ g g' Ha Hg V R). destruct (os_pipe w); cbn [negb andb].
    + intros ->. cbn [negb]. eexists. split; [reflexivity|]. split; [constructor|]. split; [by repeat constructor|cbn; lia].
    + intros _. eexists. split; [reflexivity|]. split; [constructor|]. split; [by repeat constructor|cbn; lia].
  - intros _. rewrite reserve_local_exact in R.
    + destruct (_ && _); [done|]. injection R as <-.
      eexists. split; [reflexivity|]. split; [constructor|]. split; [by repeat constructor|cbn; lia].
    + done.
    + destruct (validate_fits _ _ _ V), Ha as (A1 & A2 & _). unfold in_u32 in *. lia.
    + destruct (validate_fits _ _ _ V), Ha as (A1 & A2 & _). unfold in_u64 in *. lia.
Qed.

(** The status before any output. *)
Definition fresh_status (a : ChunkAssignment) (st : ExecState) : ChunkExecStatus :=
  {| es_chunk_id := ca_chunk_id a; es_state := st; es_progress_percentage := S754_zero false;
     es_exit_code := 0; es_result_sha256 := ""; es_error_message := "" |}.

Lemma run_launched w a g fuel :
  assignment_ok a -> reservations_ok g -> launches w a g = true ->
  vom_executor_run fuel w a true g =
    ('(s, calls) ← exec_loop fuel true a (os_start_sec w) (os_world w) 0 (fresh_status a EXEC_STATE_PROGRESS);
     Some (bool_decide (es_state s = EXEC_STATE_COMPLETED),
           [fresh_status a EXEC_STATE_ACCEPTED; fresh_status a EXEC_STATE_STARTED] ++ calls ++ [finish w s], g)).
Proof.
  intros Ha Hg. unfold launches, vom_executor_run. fold (host (os_caps w)).
  destruct (vom_executor_validate _ _ _) eqn:V; cbn [negb andb]; [|done].
  destruct (reserve_local_resources a (host (os_caps w)) g) as [[|] g'] eqn:R; cbn [fst negb andb]; [|done].
  rewrite (reserve_release a _ _ g g' Ha Hg V R). destruct (os_pipe w); cbn [negb andb]; [|done].
  intros ->. cbn [negb]. unfold es_set_state. cbn [es_chunk_id es_progress_percentage es_exit_code
    es_result_sha256 es_error_message]. fold (fresh_status a EXEC_STATE_PROGRESS).
  destruct (exec_loop _ _ _ _ _ _ _) as [[s calls]|]; [|done].
  change (mbind (M := option) ?f (Some ?x)) with (f x). cbv beta iota. fold (finish w s).
  by rewrite (proj1 (finish_state w s)).
Qed.

(** C33: Every execution ends and tells its caller a sensible story.  Once
    the clock passes the timeout at some iteration [m], more than [m]
    iterations of fuel give a result; the shared reservations are then what
    they were; the statuses told are one of four sequences, all for this
    chunk, and end in a final state, except when [fork] fails; the k-th
    progress report shows 10 k percent, at most 90; and the execution returns
    true exactly if it reaches its child and the child exits with status 0
    before a cancellation, a timeout or an error, in which case the last
    status is COMPLETED with exit code 0 at 100 percent. *)
Theorem executor_run_outcome (w : os) (a : ChunkAssignment) (g : reservations) (m fuel : nat) :
  assignment_ok a -> reservations_ok g -> (m < fuel)%nat ->
  ca_timeout_seconds a <= u32 (it_sec (os_world w m) - os_start_sec w) ->
  exists ok trace,
  vom_executor_run fuel w a true g = Some (ok, trace, g) /\
  told ok (es_state <$> trace) /\ Forall (fun s => es_chunk_id s = ca_chunk_id a) trace /\
  (forall i s, trace !! S (S i) = Some s -> es_state s = EXEC_STATE_PROGRESS ->
     es_progress_percentage s = float_of_Z (10 * Z.of_nat (Nat.min 9 (S i)))) /\
  (ok = true <-> launches w a g = true /\ completes a (os_start_sec w) (os_world w) 0) /\
  (ok = true -> exists s, last trace = Some s /\ es_state s = EXEC_STATE_COMPLETED /\
     es_exit_code s = 0 /\ es_progress_percentage s = float_of_Z 100).
Proof.
  intros Ha Hg Hf Ht. destruct (launches w a g) eqn:L.
  2: { destruct (run_not_launched w a g fuel Ha Hg L) as (tr & E & HT & HF & HL). exists false, tr.
       do 3 (split; [done|]). split; [|split; [split; [done|by intros []]|done]].
       intros i s Hs _. apply lookup_lt_Some in Hs. lia. }
  assert (cut a (os_start_sec w) (os_world w) m = true) as Hc.
  { unfold cut. rewrite Z.geb_leb, (proj2 (Z.leb_le _ _)) by done. apply orb_true_r. }
  destruct (exec_loop_spec a (os_start_sec w) (os_world w) m fuel 0 0 (fresh_status a EXEC_STATE_PROGRESS))
    as (s & calls & E & I1 & I2 & I3 & I4 & I5); [done|lia|lia|done|done|].
  destruct (finish_state w s) as [F1 F2]. cbn [es_chunk_id fresh_status] in I1, I5.
  rewrite (run_launched w a g fuel Ha Hg L), E. eexists _, _. split; [reflexivity|].
  split; [|split; [|split; [|split]]].
  - rewrite !fmap_app, (map_state_progress calls) by (intros i x Hx; apply (I5 i x Hx)).
    cbn [fmap list_fmap fresh_status es_state]. rewrite F1. by apply (T_ran (length calls)).
  - rewrite !Forall_app. split; [by repeat constructor|]. split; [|constructor; [congruence|done]].
    apply Forall_lookup. intros i x Hx. apply (I5 i x Hx).
  - intros i x Hx Hp. cbn [app lookup list_lookup] in Hx.
    apply lookup_app_Some in Hx as [Hx|[_ Hx]].
    + destruct (I5 i x Hx) as (_ & _ & Y). rewrite Y. unfold progress. do 4 f_equal. lia.
    + apply list_lookup_singleton_Some in Hx as [_ <-]. rewrite F1 in Hp. unfold terminal in I2.
      rewrite Hp in I2. by destruct I2 as [|[|]].
  - rewrite bool_decide_eq_true, I3. split; [done|by intros []].
  - intros Hok%bool_decide_eq_true. destruct (I4 Hok) as [J1 J2]. exists (finish w s).
    rewrite last_app. cbn [last]. rewrite last_app. split; [done|]. split; [congruence|].
    unfold finish. by rewrite Hok.
Qed.

(** A machine whose child writes twice and then exits with status 0. *)
Definition demo_os : os :=
  {| os_caps := demo_caps; os_access := fun _ => true; os_pipe := true; os_fork := true;
     os_start_sec := 1000;
     os_world := fun n => {| it_sec := 1000 + Z.of_nat n; it_cancel := false;
                             it_bytes_read := if (n <? 2)%nat then 12 else 0;
                             it_wait := if (n <? 3)%nat then StillRunning else Exited 0 |};
     os_files := fun _ => Some [] |}.

Definition no_reservations : reservations := {| g_reserved_cores := 0; g_reserved_memory_bytes := 0 |}.

Lemma executor_run_outcome_witness : exists trace,
  vom_executor_run 61 demo_os demo_assignment true no_reservations = Some (true, trace, no_reservations) /\
  told true (es_state <$> trace) /\ length trace = 5%nat.
Proof.
  destruct (executor_run_outcome demo_os demo_assignment no_reservations 60 61)
    as (ok & trace & E & HT & _).
  - unfold assignment_ok, in_u32, in_u64. cbn. lia.
  - unfold reservations_ok, CORES, MEMORY. cbn. lia.
  - lia.
  - vm_compute. discriminate.
  - assert (ok = true /\ length trace = 5%nat) as [-> HL].
    { vm_compute in E. injection E as <- <-. by split. }
    exists trace. by split_and!.
Defined.

(** Every completed chunk gets the same result hash: the file hashed is
    [/dev/null], whose contents are empty, whatever the chunk computed. *)
Example result_hash_is_constant w s :
  os_files w "/dev/null" = Some [] -> es_state s = EXEC_STATE_COMPLETED ->
  es_result_sha256 (finish w s) = "cbf29ce484222325517cc1b727220a959a8e5d53a30029b01d6f5e9bab442dba".
Proof. intros H E. unfold finish. rewrite E, H. vm_compute. reflexivity. Qed.
