(* ===== verification/Config.v ===== *)
(** The configuration file ([common/src/config.c]): the line reader, trimming
    and comment stripping, sections and entries.

    Text is a list of bytes here, because the parser works on the bytes of a
    line buffer: a C string in a buffer is the list of bytes before its NUL. *)
From S2P Require Import Prelude.

Definition MAX_LINE_LEN : nat := 256.
Definition MAX_NAME_LEN : nat := 64.
Definition CONFIG_STR_MAX : nat := 128.

Abbreviation bytes := (list Z) (only parsing).

(** A string constant of the source. *)
Definition str (s : string) : bytes := bytes_of_string s.

Record vom_config := {
  cfg_cluster_name : bytes;
  cfg_master_endpoint : bytes;
  cfg_worker_id : bytes;
  cfg_heartbeat_interval_sec : Z;
  cfg_advertised_capabilities : bytes;
  cfg_log_level : bytes
}.

(** * C library *)

(** [strchr]: the offset of the first [c] before the terminator. *)
Definition strchr (s : bytes) (c : Z) : option nat := find_idx (Z.eqb c) s.

(** The C string in a buffer. *)
Fixpoint cstring (buf : bytes) : bytes :=
  match buf with
  | [] => []
  | b :: buf => if b =? 0 then [] else b :: cstring buf
  end.

(** [fgets (line, n + 1, file)]: at most [n] bytes up to and including a
    newline, and what remains of the file. *)
Fixpoint fgets (n : nat) (file : bytes) : bytes * bytes :=
  match n, file with
  | S n, b :: rest =>
      if b =? 10 then ([b], rest) else let '(l, r) := fgets n rest in (b :: l, r)
  | _, _ => ([], file)
  end.

(** [strtoul (s, NULL, 10)] with 64-bit [unsigned long]. *)
Definition strtoul10 (s : bytes) : Z :=
  let value l := digits_val 0 l in
  match skip_space s with
  | 45 :: l => if value l >? 2 ^ 64 - 1 then 2 ^ 64 - 1 else u64 (- value l)
  | 43 :: l => Z.min (2 ^ 64 - 1) (value l)
  | l => Z.min (2 ^ 64 - 1) (value l)
  end.

Definition strncpy_bytes (n : nat) (s : bytes) : bytes := take n s.

(** * The parser *)

(** The second loop: the end moves back over white space. *)
Definition trim_end (s : bytes) : bytes := rev (skip_space (rev s)).

Definition trim_whitespace (s : bytes) : bytes :=
  match skip_space s with
  | [] => []
  | s => trim_end s
  end.

Definition strip_comment (s : bytes) : bytes :=
  match strchr s 35, strchr s 59 with
  | Some hash, Some semi => take (if (hash <? semi)%nat then hash else semi) s
  | Some hash, None => take hash s
  | None, Some semi => take semi s
  | None, None => s
  end.

Definition bytes_eqb (s t : bytes) : bool := bool_decide (s = t).

Definition set_config_entry (section key val : bytes) (c : vom_config) : vom_config :=
  let at_ s k := bytes_eqb section (str s) && bytes_eqb key (str k) in
  let v := strncpy_bytes (CONFIG_STR_MAX - 1) val in
  let '{| cfg_cluster_name := cn; cfg_master_endpoint := me; cfg_worker_id := wi;
          cfg_heartbeat_interval_sec := hb; cfg_advertised_capabilities := ac;
          cfg_log_level := ll |} := c in
  if at_ "cluster" "name" then Build_vom_config v me wi hb ac ll
  else if at_ "master" "endpoint" then Build_vom_config cn v wi hb ac ll
  else if at_ "worker" "id" then Build_vom_config cn me v hb ac ll
  else if at_ "worker" "heartbeat_interval" then Build_vom_config cn me wi (u32 (strtoul10 val)) ac ll
  else if at_ "worker" "capabilities" then Build_vom_config cn me wi hb v ll
  else if at_ "logging" "level" then Build_vom_config cn me wi hb ac v
  else c.

Definition vom_config_defaults : vom_config :=
  {| cfg_cluster_name := str "vom-default-cluster"; cfg_master_endpoint := str "tcp://127.0.0.1:5555";
     cfg_worker_id := str "worker-default"; cfg_heartbeat_interval_sec := 5;
     cfg_advertised_capabilities := []; cfg_log_level := str "info" |}.

(** The body of the [while] loop on one line. *)
Definition config_line (line : bytes) (section : bytes) (c : vom_config) : bytes * vom_config :=
  let s := trim_whitespace (strip_comment (cstring line)) in
  match s with
  | [] => (section, c)
  | b :: tl =>
      if b =? 91 then
        match strchr s 93 with
        | Some e => (strncpy_bytes (MAX_NAME_LEN - 1) (trim_whitespace (drop 1 (take e s))), c)
        | None => (section, c)
        end
      else
        match strchr s 61 with
        | None => (section, c)
        | Some eq =>
            let k := trim_whitespace (take eq s) in
            let v := trim_whitespace (drop (eq + 1) s) in
            (section, set_config_entry section k v c)
        end
  end.

(** The loop over the file; [None] if the fuel runs out. *)
Fixpoint config_loop (fuel : nat) (file section : bytes) (c : vom_config) : option vom_config :=
  match file with
  | [] => Some c
  | _ =>
      match fuel with
      | O => None
      | S fuel =>
          let '(line, rest) := fgets (MAX_LINE_LEN - 1) file in
          let '(section, c) := config_line line section c in
          config_loop fuel rest section c
      end
  end.

(** [file] is the contents of the file, [None] if [fopen] fails; [out] is the
    caller's structure before and after.  Every line takes at least one byte:
    as many iterations as bytes are enough. *)
Definition vom_config_load (filename : ptr string) (file : option bytes) (out : ptr vom_config) :
    option (bool * ptr vom_config) :=
  match filename, out with
  | Some _, Some _ =>
      match file with
      | None => Some (false, Some vom_config_defaults)
      | Some f => c ← config_loop (length f) f [] vom_config_defaults; Some (true, Some c)
      end
  | _, _ => Some (false, out)
  end.

(** * Trimming and cutting *)

Definition space (b : Z) : Prop := isspace b = true.
Definition spaces (l : bytes) : Prop := Forall space l.

(** No white space at either end. *)
Definition trimmed (l : bytes) : Prop := skip_space l = l /\ skip_space (rev l) = rev l.

Lemma skip_spaces p l : spaces p -> skip_space (p ++ l) = skip_space l.
Proof. induction 1 as [|b p Hb _ IH]; [done|]. cbn. unfold space in Hb. by rewrite Hb. Qed.

Lemma skip_all p : spaces p -> skip_space p = [].
Proof. intros H. rewrite <- (app_nil_r p), skip_spaces by done. done. Qed.

Lemma skip_stop l b r : isspace b = false -> skip_space (l ++ b :: r) = skip_space l ++ b :: r \/ spaces l.
Proof.
  intros Hb. induction l as [|x l IH]; [right; constructor|]. cbn. destruct (isspace x) eqn:E; [|by left].
  destruct IH as [->|H]; [by left|right]. by constructor.
Qed.

Lemma trim_end_spaces l q : spaces q -> trim_end (l ++ q) = trim_end l.
Proof.
  intros H. unfold trim_end. rewrite rev_app_distr, skip_spaces; [done|].
  by apply List.Forall_rev.
Qed.

(** A byte that is not white space shields everything before it. *)
Lemma trim_end_after l b r : isspace b = false -> trim_end (l ++ b :: r) = l ++ b :: trim_end r.
Proof.
  intros Hb. unfold trim_end. rewrite rev_app_distr. cbn. rewrite <- app_assoc. cbn.
  destruct (skip_stop (rev r) b (rev l) Hb) as [->|H].
  - rewrite rev_app_distr. cbn. by rewrite rev_involutive, <- app_assoc.
  - rewrite (skip_all (rev r)) by done. rewrite skip_spaces by done. cbn. rewrite Hb. cbn.
    by rewrite rev_involutive.
Qed.

Lemma trim_end_trimmed l : trimmed l -> trim_end l = l.
Proof. intros [_ H]. unfold trim_end. by rewrite H, rev_involutive. Qed.

Lemma skip_head b l : skip_space (b :: l) = b :: l -> isspace b = false.
Proof.
  intros E. cbn in E. destruct (isspace b); [|done]. exfalso.
  assert (length (skip_space l) <= length l)%nat as L.
  { clear. induction l as [|x l IH]; cbn; [done|]. destruct (isspace x); cbn; lia. }
  rewrite E in L. cbn in L. lia.
Qed.

Lemma trim_start p b l :
  spaces p -> isspace b = false -> trim_whitespace (p ++ b :: l) = trim_end (b :: l).
Proof. intros Hp Hb. unfold trim_whitespace. rewrite skip_spaces by done. cbn [skip_space]. by rewrite Hb. Qed.

(** Trimming takes the padding off. *)
Lemma trim_padded p l q : spaces p -> spaces q -> trimmed l -> trim_whitespace (p ++ l ++ q) = l.
Proof.
  intros Hp Hq Hl. unfold trim_whitespace. rewrite skip_spaces by done.
  destruct l as [|b l]; [by rewrite skip_all|]. pose proof (skip_head b l (proj1 Hl)) as Hb.
  cbn [app skip_space]. rewrite Hb. rewrite app_comm_cons, trim_end_spaces by done.
  by apply trim_end_trimmed.
Qed.

(** ** Lines *)

(** The file's text as the parser sees it: bytes of one line. *)
Definition plain (b : Z) : Prop := b <> 0 /\ b <> 10.
(** Bytes that do not start a comment either. *)
Definition bare (b : Z) : Prop := plain b /\ b <> 35 /\ b <> 59.

Lemma fgets_line n l rest :
  Forall plain l -> (length l < n)%nat -> fgets n (l ++ 10 :: rest) = (l ++ [10], rest).
Proof.
  revert n. induction l as [|b l IH]; intros [|n] H Hn; cbn in *; try lia; [done|].
  apply Forall_cons in H as [[_ Hb] H]. rewrite (proj2 (Z.eqb_neq b 10)) by done.
  rewrite IH by (done || lia). done.
Qed.

Lemma fgets_progress n file l rest :
  fgets (S n) file = (l, rest) -> file <> [] -> (length rest < length file)%nat.
Proof.
  destruct file as [|b file]; [done|]. intros E _. cbn in E.
  destruct (b =? 10); [injection E as <- <-; cbn; lia|].
  assert (forall n f l r, fgets n f = (l, r) -> (length r <= length f)%nat) as Hle.
  { clear. induction n as [|n IH]; intros [|b f] l r E; cbn in E; try (injection E as <- <-; cbn; lia).
    destruct (b =? 10); [injection E as <- <-; cbn; lia|].
    destruct (fgets n f) as [l' r'] eqn:F. injection E as <- <-. apply IH in F. cbn. lia. }
  destruct (fgets n file) as [l' r'] eqn:F. injection E as <- <-. apply Hle in F. cbn. lia.
Qed.

Lemma config_loop_total n file section c :
  (length file <= n)%nat -> exists c', config_loop n file section c = Some c'.
Proof.
  revert file section c. induction n as [|n IH]; intros file section c Hn.
  - destruct file; [by eexists|cbn in Hn; lia].
  - cbn [config_loop]. destruct file as [|b file]; [by eexists|].
    destruct (fgets (MAX_LINE_LEN - 1) (b :: file)) as [line rest] eqn:F.
    destruct (config_line line section c) as [section' c'].
    apply IH. apply fgets_progress in F; [|done]. cbn in Hn, F |- *. lia.
Qed.

Lemma cstring_plain l r : Forall plain l -> cstring (l ++ r) = l ++ cstring r.
Proof.
  induction 1 as [|b l [Hb _] _ IH]; [done|]. cbn. rewrite (proj2 (Z.eqb_neq b 0)) by done. by rewrite IH.
Qed.

(** [strchr] on text without the character up to its first occurrence. *)
Lemma strchr_first l c r : Forall (fun b => b <> c) l -> strchr (l ++ c :: r) c = Some (length l).
Proof.
  intros H. apply (find_idx_first _ _ _ c); [by apply list_lookup_middle|apply Z.eqb_refl|].
  intros j y Hj Hy. rewrite lookup_app_l in Hy by done.
  apply Z.eqb_neq. intros ->. by apply (Forall_lookup_1 _ _ _ _ H Hy).
Qed.

Lemma strchr_none l c : Forall (fun b => b <> c) l -> strchr l c = None.
Proof.
  intros H. apply find_idx_None. eapply Forall_impl; [exact H|]. intros b Hb. cbv beta in *.
  apply Z.eqb_neq. congruence.
Qed.

Lemma strchr_app_ge l r c : Forall (fun b => b <> c) l ->
  strchr (l ++ r) c = (fun i => (length l + i)%nat) <$> strchr r c.
Proof.
  unfold strchr. induction 1 as [|b l Hb _ IH]; cbn; [by destruct (find_idx _ r)|].
  rewrite (proj2 (Z.eqb_neq c b)) by congruence. rewrite IH. by destruct (find_idx (Z.eqb c) r).
Qed.

(** A trailing comment is cut, whatever it contains. *)
Lemma strip_comment_spec l r :
  Forall (fun b => b <> 35 /\ b <> 59) l -> (r = [] \/ exists c r', r = c :: r' /\ (c = 35 \/ c = 59)) -> strip_comment (l ++ r) = l.
Proof.
  intros Hl Hr. assert (Forall (fun b => b <> 35) l) as H1 by (eapply Forall_impl; [exact Hl|]; by intros b (? & _)).
  assert (Forall (fun b => b <> 59) l) as H2 by (eapply Forall_impl; [exact Hl|]; by intros b (_ & ?)).
  unfold strip_comment. destruct Hr as [->|(c & r' & -> & Hc)].
  - rewrite app_nil_r, !strchr_none by done. done.
  - destruct Hc as [-> | ->].
    + rewrite (strchr_first l 35), (strchr_app_ge l _ 59) by done.
      change (strchr (35 :: r') 59) with (S <$> strchr r' 59).
      destruct (strchr r' 59) as [i|]; cbn [fmap option_fmap option_map]; [|by apply take_app_length].
      rewrite (proj2 (Nat.ltb_lt _ _)) by lia. by apply take_app_length.
    + rewrite (strchr_first l 59), (strchr_app_ge l _ 35) by done.
      destruct (strchr (59 :: r') 35) as [i|]; cbn [fmap option_fmap option_map]; [|by apply take_app_length].
      rewrite (proj2 (Nat.ltb_ge _ _)) by lia. by apply take_app_length.
Qed.

(** * The file format

    What a configuration file means, independently of how it is laid out: a
    sequence of section headers, entries and blank lines, each with any white
    space around its parts and possibly a comment at its end. *)

Inductive item := ISection (name : bytes) | IEntry (key val : bytes) | IBlank.

Record layout := { lead : bytes; pad1 : bytes; pad2 : bytes; trail : bytes; comment : bytes }.

Definition render_item (y : layout) (x : item) : bytes :=
  match x with
  | ISection n => lead y ++ [91] ++ pad1 y ++ n ++ pad2 y ++ [93] ++ trail y
  | IEntry k v => lead y ++ k ++ pad1 y ++ [61] ++ pad2 y ++ v ++ trail y
  | IBlank => lead y
  end.

Definition render_line (xy : item * layout) : bytes := render_item xy.2 xy.1 ++ comment xy.2 ++ [10].

Definition render (f : list (item * layout)) : bytes := concat (render_line <$> f).

Definition layout_ok (y : layout) : Prop :=
  (spaces (lead y) /\ spaces (pad1 y) /\ spaces (pad2 y) /\ spaces (trail y)) /\
  Forall bare (lead y ++ pad1 y ++ pad2 y ++ trail y) /\
  Forall plain (comment y) /\
  (comment y = [] \/ exists c r, comment y = c :: r /\ (c = 35 \/ c = 59)).

Definition item_ok (x : item) : Prop :=
  match x with
  | ISection n => trimmed n /\ Forall (fun b => bare b /\ b <> 93) n
  | IEntry k v =>
      trimmed k /\ trimmed v /\ Forall bare v /\ Forall (fun b => bare b /\ b <> 61) k /\
      exists b k', k = b :: k' /\ b <> 91
  | IBlank => True
  end.

(** The meaning: entries act on the configuration under the current section. *)
Definition meaning (xs : list item) (section : bytes) (c : vom_config) : vom_config :=
  (foldl (fun sc x => match x with
                      | ISection n => (strncpy_bytes (MAX_NAME_LEN - 1) n, sc.2)
                      | IEntry k v => (sc.1, set_config_entry sc.1 k v sc.2)
                      | IBlank => sc
                      end) (section, c) xs).2.

Lemma bare_plain l : Forall bare l -> Forall plain l.
Proof. intros H. eapply Forall_impl; [exact H|]. by intros b [? _]. Qed.

Lemma bare_nospace_split y : layout_ok y ->
  Forall bare (lead y) /\ Forall bare (pad1 y) /\ Forall bare (pad2 y) /\ Forall bare (trail y).
Proof. intros (_ & H & _). by rewrite !Forall_app in H. Qed.

Lemma bare_const c : c <> 0 -> c <> 10 -> c <> 35 -> c <> 59 -> Forall bare [c].
Proof. intros. constructor; [|done]. by repeat split. Qed.

Lemma render_bare y x : layout_ok y -> item_ok x -> Forall bare (render_item y x).
Proof.
  intros (B1 & B2 & B3 & B4)%bare_nospace_split Hx.
  destruct x as [n|k v|]; cbn [render_item]; rewrite ?Forall_app; [| |done].
  - destruct Hx as [_ Hn]. assert (Forall bare n) by (eapply Forall_impl; [exact Hn|]; by intros b []).
    repeat split; try done; by apply bare_const.
  - destruct Hx as (_ & _ & Hv & Hk & _).
    assert (Forall bare k) by (eapply Forall_impl; [exact Hk|]; by intros b []).
    repeat split; try done; by apply bare_const.
Qed.

(** The text of a rendered line after its comment is cut. *)
Lemma line_text y x :
  layout_ok y -> item_ok x ->
  exists q, spaces q /\ strip_comment (cstring (render_line (x, y))) = render_item y x ++ q.
Proof.
  intros Hy Hx. pose proof (render_bare y x Hy Hx) as Hb. destruct Hy as (_ & _ & Hc & Hd).
  assert (Forall (fun b => b <> 35 /\ b <> 59) (render_item y x)) as Hu
    by (eapply Forall_impl; [exact Hb|]; by intros b [_ ?]).
  unfold render_line. cbn [fst snd]. rewrite cstring_plain by by apply bare_plain.
  rewrite cstring_plain by done. change (cstring [10]) with [10].
  destruct Hd as [-> | (c & r & -> & Hc')].
  - exists [10]. split; [by repeat constructor|]. cbn [app].
    rewrite <- (app_nil_r (render_item y x ++ [10])) at 1. apply strip_comment_spec; [|by left].
    rewrite Forall_app. split; [done|]. constructor; [lia|done].
  - exists []. split; [constructor|]. rewrite app_nil_r. apply strip_comment_spec; [done|].
    right. cbn. eauto.
Qed.

(** Trimming twice, the second time in front only. *)
Lemma trim_trim_end p l q : spaces p -> spaces q -> trimmed l -> trim_whitespace (trim_end (p ++ l ++ q)) = l.
Proof.
  intros Hp Hq Hl. rewrite app_assoc, trim_end_spaces by done.
  destruct (rev l) as [|b r] eqn:E.
  - assert (l = []) as -> by (rewrite <- (rev_involutive l), E; done).
    rewrite app_nil_r. unfold trim_end. rewrite skip_all; [done|]. by apply List.Forall_rev.
  - assert (l = rev r ++ [b]) as Hlr by (rewrite <- (rev_involutive l), E; done).
    assert (isspace b = false) as Hb by (apply (skip_head b r); rewrite <- E; apply Hl).
    rewrite Hlr at 1. rewrite app_assoc, trim_end_after by done. change (trim_end []) with (@nil Z).
    rewrite <- app_assoc, <- Hlr.
    pose proof (trim_padded p l [] Hp ltac:(constructor) Hl) as H. by rewrite app_nil_r in H.
Qed.

Lemma spaces_ne c l : isspace c = false -> spaces l -> Forall (fun b => b <> c) l.
Proof. intros Hc H. eapply Forall_impl; [exact H|]. intros b Hb ->. unfold space in Hb. congruence. Qed.

(** The parser reads a rendered line as the item it renders. *)
Lemma config_line_section y n section c :
  layout_ok y -> item_ok (ISection n) ->
  config_line (render_line (ISection n, y)) section c = (strncpy_bytes (MAX_NAME_LEN - 1) n, c).
Proof.
  intros Hy Hx. destruct (line_text y _ Hy Hx) as (q & Hq & E). unfold config_line. rewrite E. clear E.
  destruct Hy as ((S1 & S2 & S3 & S4) & _), Hx as [Tn Hn].
  assert (trim_whitespace (render_item y (ISection n) ++ q) = 91 :: (pad1 y ++ n ++ pad2 y) ++ [93]) as ->.
  { cbn [render_item]. rewrite <- app_assoc. cbn [app]. rewrite trim_start by done.
    replace (91 :: _) with ((91 :: pad1 y ++ n ++ pad2 y) ++ 93 :: (trail y ++ q))
      by (cbn; rewrite <- !app_assoc; cbn; done).
    rewrite trim_end_after by done. rewrite <- (app_nil_l (trail y ++ q)), trim_end_spaces; [done|].
    unfold spaces. by rewrite Forall_app. }
  change (91 =? 91) with true. cbv iota.
  assert (Forall (fun b => b <> 93) (91 :: pad1 y ++ n ++ pad2 y)) as H93.
  { constructor; [done|]. rewrite !Forall_app. split; [by apply spaces_ne|]. split; [|by apply spaces_ne].
    eapply Forall_impl; [exact Hn|]. by intros b []. }
  rewrite app_comm_cons, (strchr_first _ 93 []) by done. rewrite take_app_length.
  change (drop 1 (91 :: pad1 y ++ n ++ pad2 y)) with (pad1 y ++ n ++ pad2 y). by rewrite trim_padded.
Qed.

Lemma config_line_entry y k v section c :
  layout_ok y -> item_ok (IEntry k v) ->
  config_line (render_line (IEntry k v, y)) section c = (section, set_config_entry section k v c).
Proof.
  intros Hy Hx. destruct (line_text y _ Hy Hx) as (q & Hq & E). unfold config_line. rewrite E. clear E.
  destruct Hy as ((S1 & S2 & S3 & S4) & _), Hx as (Tk & Tv & _ & Hk & (b & k' & Ek & Hb)).
  assert (isspace b = false) as Hs by (apply (skip_head b k'); rewrite <- Ek; apply Tk).
  assert (trim_whitespace (render_item y (IEntry k v) ++ q) =
          (k ++ pad1 y) ++ 61 :: trim_end (pad2 y ++ v ++ trail y ++ q)) as ->.
  { cbn [render_item]. rewrite <- app_assoc. rewrite Ek at 1. cbn [app].
    rewrite trim_start by done. rewrite !app_comm_cons, <- Ek.
    transitivity (trim_end ((k ++ pad1 y) ++ 61 :: (pad2 y ++ v ++ trail y ++ q)));
      [by rewrite <- !app_assoc|by apply trim_end_after]. }
  assert (Forall (fun b => b <> 61) (k ++ pad1 y)) as H61.
  { rewrite Forall_app. split; [|by apply spaces_ne]. eapply Forall_impl; [exact Hk|]. by intros x []. }
  rewrite (strchr_first _ 61) by done. rewrite take_app_length.
  replace (drop (length (k ++ pad1 y) + 1) _) with (trim_end (pad2 y ++ v ++ trail y ++ q)).
  2: { by rewrite <- drop_drop, drop_app_length. }
  rewrite trim_trim_end by (done || (unfold spaces; by rewrite Forall_app)).
  pose proof (trim_padded [] k (pad1 y) ltac:(constructor) S2 Tk) as HT. cbn [app] in HT. rewrite HT.
  rewrite Ek at 1. cbn [app]. by rewrite (proj2 (Z.eqb_neq b 91)).
Qed.

Lemma config_line_blank y section c :
  layout_ok y -> config_line (render_line (IBlank, y)) section c = (section, c).
Proof.
  intros Hy. destruct (line_text y IBlank Hy I) as (q & Hq & E). unfold config_line. rewrite E.
  destruct Hy as ((S1 & _) & _). cbn [render_item]. unfold trim_whitespace.
  by rewrite skip_spaces, skip_all.
Qed.

(** * Properties *)

Definition line_ok (xy : item * layout) : Prop :=
  item_ok xy.1 /\ layout_ok xy.2 /\ (length (render_line xy) <= MAX_LINE_LEN - 1)%nat.

Lemma render_line_fgets xy rest :
  line_ok xy -> fgets (MAX_LINE_LEN - 1) (render_line xy ++ rest) = (render_line xy, rest).
Proof.
  intros (Hx & Hy & HL). destruct xy as [x y]. unfold render_line in *. cbn [fst snd] in *.
  rewrite !length_app in HL. cbn [length] in HL.
  rewrite !(app_assoc (render_item y x)). rewrite <- !(app_assoc (render_item y x ++ comment y)).
  cbn [app]. apply fgets_line; [|rewrite length_app; lia].
  rewrite Forall_app. split; [by apply bare_plain, render_bare|apply Hy].
Qed.

Lemma config_loop_render f n section c :
  Forall line_ok f -> (length (render f) <= n)%nat ->
  config_loop n (render f) section c = Some (meaning (f.*1) section c).
Proof.
  intros H. revert n section c. induction H as [|[x y] f Hxy H IH]; intros n section c Hn; [by destruct n|].
  change (render ((x, y) :: f)) with (render_line (x, y) ++ render f) in *.
  pose proof (render_line_fgets (x, y) (render f) Hxy) as F. destruct Hxy as (Hx & Hy & _).
  cbn [fst snd] in Hx, Hy. rewrite length_app in Hn.
  assert (0 < length (render_line (x, y)))%nat as Hp by (unfold render_line; rewrite !length_app; cbn; lia).
  destruct n as [|n]; [lia|]. cbn [config_loop].
  destruct (render_line (x, y) ++ render f) as [|b rest] eqn:E.
  { apply (f_equal length) in E. rewrite length_app in E. cbn in E. lia. }
  rewrite F. cbn [fmap list_fmap fst]. unfold meaning. cbn [foldl].
  destruct x as [nm|k v|]; [rewrite config_line_section by done|rewrite config_line_entry by done
                           |rewrite config_line_blank by done];
    apply IH; lia.
Qed.

(** The configuration parser always ends, falls back to the defaults when
    the file cannot be opened, and reads the format it should: a file of
    section headers, entries and blank lines, with any white space around
    their parts, any trailing comments and no line over 255 bytes, gives the
    defaults changed by its entries in order, each under the last section. *)
Theorem config_load_spec (name : string) (out : vom_config) (contents : list Z) (f : list (item * layout)) :
  Forall line_ok f ->
  vom_config_load (Some name) (Some (render f)) (Some out) =
    Some (true, Some (meaning (f.*1) [] vom_config_defaults)) /\
  vom_config_load (Some name) None (Some out) = Some (false, Some vom_config_defaults) /\
  exists c, vom_config_load (Some name) (Some contents) (Some out) = Some (true, Some c).
Proof.
  intros H. unfold vom_config_load. rewrite config_loop_render by done. split; [done|]. split; [done|].
  destruct (config_loop_total (length contents) contents [] vom_config_defaults) as [c ->]; [done|].
  by exists c.
Qed.

(** A file with padding, a section comment and an overridden entry. *)
Definition demo_file : list (item * layout) :=
  [(ISection (str "worker"), {| lead := [32]; pad1 := [32]; pad2 := []; trail := [9]; comment := str "; who" |});
   (IBlank, {| lead := []; pad1 := []; pad2 := []; trail := []; comment := str "# [master]" |});
   (IEntry (str "id") (str "w 7"), {| lead := []; pad1 := [32]; pad2 := [32; 32]; trail := [32]; comment := [] |});
   (IEntry (str "heartbeat_interval") (str "30"),
    {| lead := [9]; pad1 := []; pad2 := []; trail := []; comment := str "#s" |});
   (IEntry (str "id") (str "w=8"), {| lead := []; pad1 := []; pad2 := []; trail := []; comment := [] |})].

Lemma config_load_spec_witness :
  exists c, vom_config_load (Some "vom.conf") (Some (render demo_file)) (Some vom_config_defaults) =
            Some (true, Some c) /\
  cfg_worker_id c = str "w=8" /\ cfg_heartbeat_interval_sec c = 30 /\ cfg_log_level c = str "info".
Proof.
  exists (meaning (demo_file.*1) [] vom_config_defaults).
  split; [|by split_and!; vm_compute].
  apply (config_load_spec "vom.conf" vom_config_defaults [] demo_file).
  unfold demo_file, line_ok, layout_ok, item_ok, trimmed, spaces, space, bare, plain.
  repeat first [apply Forall_nil_2 | apply Forall_cons_2]; cbn [fst snd lead pad1 pad2 trail comment app];
    repeat match goal with
           | |- _ /\ _ => split
           | |- Forall _ _ => vm_compute; repeat constructor; discriminate
           | |- (_ <= _)%nat => apply Nat.leb_le; vm_compute; reflexivity
           | |- _ = _ => vm_compute; reflexivity
           | |- True => exact I
           | |- exists b k', _ = _ :: _ /\ _ => eexists _, _; split; [reflexivity|discriminate]
           | |- _ \/ _ => first [left; reflexivity
                                |right; eexists _, _; split; [reflexivity|first [left; reflexivity|right; reflexivity]]]
           end.
Defined.

(** A comment longer than the line buffer: what is left of it after 255 bytes
    is read as a line of its own, here as an entry. *)
Example long_comment_is_parsed :
  let file := str "[worker]" ++ [10] ++ str "#" ++ replicate 254 45 ++ str "id = intruder" ++ [10] in
  (cfg_worker_id <$> (vom_config_load (Some "f") (Some file) (Some vom_config_defaults) ≫= (fun r => r.2))) =
  Some (str "intruder").
Proof. vm_compute. reflexivity. Qed.
