(* ===== verification/Log.v ===== *)
(** The logger ([common/src/log.c]): threshold, target stream, colours, the
    lines it prints and the post-mortem ring file behind them. *)
From S2P Require Import Prelude Scanf.

(** * State *)

Inductive VomLogLevel :=
  VOM_LOG_LEVEL_TRACE | VOM_LOG_LEVEL_DEBUG | VOM_LOG_LEVEL_INFO | VOM_LOG_LEVEL_WARN
| VOM_LOG_LEVEL_ERROR | VOM_LOG_LEVEL_FATAL | VOM_LOG_LEVEL_NONE.

Definition level_value (l : VomLogLevel) : nat :=
  match l with
  | VOM_LOG_LEVEL_TRACE => 0 | VOM_LOG_LEVEL_DEBUG => 1 | VOM_LOG_LEVEL_INFO => 2 | VOM_LOG_LEVEL_WARN => 3
  | VOM_LOG_LEVEL_ERROR => 4 | VOM_LOG_LEVEL_FATAL => 5 | VOM_LOG_LEVEL_NONE => 6
  end.

(** The streams a caller can pass. *)
Inductive log_stream := Stdout | Stderr | OtherStream (n : nat).

(** The ring file: its bytes and the position of its stream. *)
Record ring_file := { rf_bytes : list Z; rf_pos : nat }.

Record logger := {
  g_current_level : VomLogLevel;
  g_target_stream : ptr log_stream;
  g_colors_enabled : bool;
  g_ring_file : ptr ring_file;
  g_ring_max_size : Z;
  (** What was printed on the streams, in order. *)
  lg_printed : list (log_stream * list Z)
}.

Definition logger_init : logger :=
  {| g_current_level := VOM_LOG_LEVEL_INFO; g_target_stream := NULL; g_colors_enabled := true;
     g_ring_file := NULL; g_ring_max_size := 0; lg_printed := [] |}.

Definition ESC : string := String (Ascii.ascii_of_nat 27) "".

Definition g_level_colors : list string :=
  [(ESC ++ "[35m")%string; (ESC ++ "[36m")%string; (ESC ++ "[32m")%string; (ESC ++ "[33m")%string;
   (ESC ++ "[31m")%string; (ESC ++ "[41m" ++ ESC ++ "[37m")%string].

Definition g_level_tags : list string := ["TRACE"; "DEBUG"; "INFO"; "WARN"; "ERROR"; "FATAL"]%string.

(** * Settings *)

Definition vom_log_set_level (level : VomLogLevel) (g : logger) : logger :=
  {| g_current_level := level; g_target_stream := g_target_stream g; g_colors_enabled := g_colors_enabled g;
     g_ring_file := g_ring_file g; g_ring_max_size := g_ring_max_size g; lg_printed := lg_printed g |}.

Definition vom_log_set_stream (stream : ptr log_stream) (g : logger) : logger :=
  {| g_current_level := g_current_level g; g_target_stream := stream; g_colors_enabled := g_colors_enabled g;
     g_ring_file := g_ring_file g; g_ring_max_size := g_ring_max_size g; lg_printed := lg_printed g |}.

Definition vom_log_enable_colors (enable : bool) (g : logger) : logger :=
  {| g_current_level := g_current_level g; g_target_stream := g_target_stream g; g_colors_enabled := enable;
     g_ring_file := g_ring_file g; g_ring_max_size := g_ring_max_size g; lg_printed := lg_printed g |}.

Definition set_ring (f : ptr ring_file) (max : Z) (g : logger) : logger :=
  {| g_current_level := g_current_level g; g_target_stream := g_target_stream g; g_colors_enabled := g_colors_enabled g;
     g_ring_file := f; g_ring_max_size := max; lg_printed := lg_printed g |}.

(** [size_t] to [long]. *)
Definition s64 (z : Z) : Z := (z + 2 ^ 63) mod 2 ^ 64 - 2 ^ 63.

(** [open_ok]: whether [fopen (file_path, "wb+")] succeeds; it empties the file. *)
Definition vom_log_init_postmortem_ring_buffer (open_ok : bool) (max_file_size_bytes : Z) (g : logger) : bool * logger :=
  if open_ok
  then (true, set_ring (Some {| rf_bytes := []; rf_pos := 0 |}) (s64 max_file_size_bytes) g)
  else (false, set_ring NULL (g_ring_max_size g) g).

(** * The ring *)

(** [fwrite] at the position of the stream. *)
Definition file_write (buf : list Z) (f : ring_file) : ring_file :=
  {| rf_bytes := take (rf_pos f) (rf_bytes f) ++ buf ++ drop (rf_pos f + length buf) (rf_bytes f);
     rf_pos := rf_pos f + length buf |}.

Definition write_to_ring_buffer (buf : list Z) (g : logger) : logger :=
  match g_ring_file g with
  | NULL => g
  | Some f =>
      let curr := Z.of_nat (rf_pos f) in
      let f := if curr + Z.of_nat (length buf) >? g_ring_max_size g
               then {| rf_bytes := rf_bytes f; rf_pos := 0 |} else f in
      set_ring (Some (file_write buf f)) (g_ring_max_size g) g
  end.

(** * Lines *)

(** [%06d] of the microseconds. *)
Definition fmt_06d (n : Z) : string :=
  let s := fmt_d n in
  (String.concat "" (replicate (6 - String.length s) "0"%string) ++ s)%string.

(** A slash or a backslash. *)
Definition is_separator (c : Ascii.ascii) : bool :=
  Ascii.eqb c (Ascii.ascii_of_nat 47) || Ascii.eqb c (Ascii.ascii_of_nat 92).

(** What follows the last separator. *)
Fixpoint short_file_from (best rest : string) : string :=
  match rest with
  | EmptyString => best
  | String c s => if is_separator c then short_file_from s s else short_file_from best s
  end.
Definition short_file (file : string) : string := short_file_from file file.

(** The line's metadata, with the colours around the tag or without. *)
Definition log_meta (time_str : string) (usec : Z) (before tag after : string) (file : string) (line : Z) : string :=
  (time_str ++ "." ++ fmt_06d usec ++ " " ++ before ++ "[" ++ tag ++ "]" ++ after ++ " [" ++ short_file file ++ ":" ++
   fmt_d line ++ "] ")%string.

(** [len] bytes read from an array of [cap] bytes that [snprintf] filled with
    [text], [len] being the length of [text]; [None] past the array's end. *)
Definition buffer_bytes (cap : nat) (text : list Z) : option (list Z) :=
  if (length text <=? cap)%nat then Some (take (length text) (take (cap - 1) text ++ [0])) else None.

(** What a call of [vom_log_emit] is given and what it gets from the system: the
    text of the time, the microseconds, and the formatted message ([None] when
    the formatting fails). *)
Record log_call := {
  lc_level : VomLogLevel;
  lc_file : string;
  lc_line : Z;
  lc_time_str : string;
  lc_usec : Z;
  lc_message : option (list Z)
}.

(** The printed line. *)
Definition log_text (stream : log_stream) (colors : bool) (color tag : string) (c : log_call) : list Z :=
  let '(before, after) :=
    if colors && (match stream with OtherStream _ => false | _ => true end)
    then (color, (ESC ++ "[0m")%string) else (""%string, ""%string) in
  bytes_of_string (log_meta (lc_time_str c) (lc_usec c) before tag after (lc_file c) (lc_line c)) ++
  default [] (lc_message c) ++ [10].

(** What is done under the lock.  [None]: an access outside an array (the tables
    at level NONE, or a buffer). *)
Definition emit_locked (c : log_call) (g : logger) : option logger :=
  let stream := default Stderr (g_target_stream g) in
  color ← g_level_colors !! level_value (lc_level c);
  tag ← g_level_tags !! level_value (lc_level c);
  let g := {| g_current_level := g_current_level g; g_target_stream := g_target_stream g;
              g_colors_enabled := g_colors_enabled g; g_ring_file := g_ring_file g;
              g_ring_max_size := g_ring_max_size g;
              lg_printed := lg_printed g ++ [(stream, log_text stream (g_colors_enabled g) color tag c)] |} in
  match g_ring_file g with
  | NULL => Some g
  | Some _ =>
      let meta := bytes_of_string (log_meta (lc_time_str c) (lc_usec c) "" tag "" (lc_file c) (lc_line c)) in
      meta_buf ← buffer_bytes 256 meta;
      let g := if (0 <? length meta)%nat then write_to_ring_buffer meta_buf g else g in
      match lc_message c with
      | None => Some g
      | Some m =>
          msg_buf ← buffer_bytes 1024 m;
          Some (if (0 <? length m)%nat then write_to_ring_buffer [10] (write_to_ring_buffer msg_buf g) else g)
      end
  end.

(** The threshold is read before the lock is taken. *)
Definition vom_log_emit (c : log_call) (g : logger) : option logger :=
  if (level_value (lc_level c) <? level_value (g_current_level g))%nat ||
     bool_decide (level_value (g_current_level g) = level_value VOM_LOG_LEVEL_NONE)
  then Some g
  else emit_locked c g.

(** ** The macros of [log.h] *)

(** [__FILE__], [__LINE__], the time and the message of a macro's use. *)
Record log_site := { ls_file : string; ls_line : Z; ls_time_str : string; ls_usec : Z; ls_message : option (list Z) }.

Definition log_at (l : VomLogLevel) (s : log_site) : log_call :=
  {| lc_level := l; lc_file := ls_file s; lc_line := ls_line s; lc_time_str := ls_time_str s; lc_usec := ls_usec s;
     lc_message := ls_message s |}.

Definition VOM_LOG_TRACE (s : log_site) : logger -> option logger := vom_log_emit (log_at VOM_LOG_LEVEL_TRACE s).
Definition VOM_LOG_DEBUG (s : log_site) : logger -> option logger := vom_log_emit (log_at VOM_LOG_LEVEL_DEBUG s).
Definition VOM_LOG_INFO (s : log_site) : logger -> option logger := vom_log_emit (log_at VOM_LOG_LEVEL_INFO s).
Definition VOM_LOG_WARN (s : log_site) : logger -> option logger := vom_log_emit (log_at VOM_LOG_LEVEL_WARN s).
Definition VOM_LOG_ERROR (s : log_site) : logger -> option logger := vom_log_emit (log_at VOM_LOG_LEVEL_ERROR s).
Definition VOM_LOG_FATAL (s : log_site) : logger -> option logger := vom_log_emit (log_at VOM_LOG_LEVEL_FATAL s).

(** * Runs *)

Inductive log_op :=
| OpLevel (l : VomLogLevel)
| OpStream (s : ptr log_stream)
| OpColors (b : bool)
| OpRing (open_ok : bool) (max : Z)
| OpEmit (c : log_call).

Definition log_step (op : log_op) (g : logger) : option logger :=
  match op with
  | OpLevel l => Some (vom_log_set_level l g)
  | OpStream s => Some (vom_log_set_stream s g)
  | OpColors b => Some (vom_log_enable_colors b g)
  | OpRing ok max => Some (vom_log_init_postmortem_ring_buffer ok max g).2
  | OpEmit c => vom_log_emit c g
  end.

Fixpoint log_run (ops : list log_op) (g : logger) : option logger :=
  match ops with
  | [] => Some g
  | op :: ops => g ← log_step op g; log_run ops g
  end.

(** * Properties *)

(** The ring file fits its size. *)
Definition ring_ok (g : logger) : Prop :=
  match g_ring_file g with
  | NULL => True
  | Some f => (rf_pos f <= length (rf_bytes f))%nat /\ Z.of_nat (length (rf_bytes f)) <= g_ring_max_size g /\
              1024 <= g_ring_max_size g
  end.

Lemma file_write_length buf f : (rf_pos f <= length (rf_bytes f))%nat ->
  length (rf_bytes (file_write buf f)) = Nat.max (length (rf_bytes f)) (rf_pos f + length buf).
Proof. intros H. cbn. rewrite !length_app, length_take, length_drop. lia. Qed.

(** What was written stands in front of the position. *)
Lemma file_write_content buf f : (rf_pos f <= length (rf_bytes f))%nat ->
  take (length buf) (drop (rf_pos f) (rf_bytes (file_write buf f))) = buf.
Proof.
  intros H. cbn. rewrite drop_app_length' by (rewrite length_take; lia). by rewrite take_app_length.
Qed.

Lemma write_ring_ok buf g : (length buf <= 1024)%nat -> ring_ok g ->
  ring_ok (write_to_ring_buffer buf g) /\
  (g_ring_file g <> NULL -> exists f, g_ring_file (write_to_ring_buffer buf g) = Some f /\
     (length buf <= rf_pos f)%nat /\ take (length buf) (drop (rf_pos f - length buf) (rf_bytes f)) = buf).
Proof.
  intros Hb. unfold ring_ok, write_to_ring_buffer. destruct (g_ring_file g) as [f|] eqn:E; [|by rewrite E].
  intros (H1 & H2 & H3). cbn [set_ring g_ring_file g_ring_max_size].
  set (f' := if _ >? _ then _ else f).
  assert ((rf_pos f' <= length (rf_bytes f'))%nat /\ length (rf_bytes f') = length (rf_bytes f) /\
    Z.of_nat (rf_pos f' + length buf) <= g_ring_max_size g) as (A & B & C).
  { unfold f'. destruct (Z.gtb_spec (Z.of_nat (rf_pos f) + Z.of_nat (length buf)) (g_ring_max_size g));
      cbn [rf_pos rf_bytes]; lia. }
  split.
  - rewrite file_write_length by done. cbn [file_write rf_pos]. lia.
  - intros _. eexists. split; [reflexivity|]. split; [cbn; lia|].
    replace (rf_pos (file_write buf f') - length buf)%nat with (rf_pos f') by (cbn; lia).
    by apply file_write_content.
Qed.

Lemma buffer_bytes_ok cap text : (length text < cap)%nat -> buffer_bytes cap text = Some text.
Proof.
  intros H. unfold buffer_bytes. rewrite (proj2 (Nat.leb_le _ _)) by lia.
  rewrite (take_ge text) by lia. by rewrite take_app_length.
Qed.

(** A call that stays within the tables and buffers. *)
Definition call_ok (c : log_call) : Prop :=
  lc_level c <> VOM_LOG_LEVEL_NONE /\
  (forall tag, tag ∈ g_level_tags ->
     String.length (log_meta (lc_time_str c) (lc_usec c) "" tag "" (lc_file c) (lc_line c)) < 256)%nat /\
  (length (default [] (lc_message c)) < 1024)%nat.

Definition op_ok (op : log_op) : Prop :=
  match op with
  | OpRing _ max => 1024 <= max < 2 ^ 63
  | OpEmit c => call_ok c
  | _ => True
  end.

(** Whether a call passes the threshold. *)
Definition passes (l : VomLogLevel) (c : log_call) : bool :=
  (level_value l <=? level_value (lc_level c))%nat && negb (level_value l =? level_value VOM_LOG_LEVEL_NONE)%nat.

Lemma write_printed buf g : lg_printed (write_to_ring_buffer buf g) = lg_printed g /\
  g_current_level (write_to_ring_buffer buf g) = g_current_level g.
Proof. unfold write_to_ring_buffer. by destruct (g_ring_file g). Qed.

Lemma bytes_length s : length (bytes_of_string s) = String.length s.
Proof. induction s as [|c s IH]; cbn; congruence. Qed.

(** The line is the text of the call, on the stream in force. *)
Definition line_of (c : log_call) (line : log_stream * list Z) : Prop :=
  exists colors color tag, g_level_colors !! level_value (lc_level c) = Some color /\
    g_level_tags !! level_value (lc_level c) = Some tag /\ line.2 = log_text line.1 colors color tag c.

(** Under the lock: one line, and the ring stays within its size. *)
Lemma emit_locked_spec c g : call_ok c -> ring_ok g ->
  exists g', emit_locked c g = Some g' /\ ring_ok g' /\ g_current_level g' = g_current_level g /\
    exists text, lg_printed g' = lg_printed g ++ [(default Stderr (g_target_stream g), text)] /\
      line_of c (default Stderr (g_target_stream g), text).
Proof.
  intros (Hl & Hm & Hmsg) Hr. unfold emit_locked.
  assert (exists color tag, g_level_colors !! level_value (lc_level c) = Some color /\
    g_level_tags !! level_value (lc_level c) = Some tag) as (color & tag & C & T)
    by (destruct (lc_level c); try done; eexists _, _; split; reflexivity).
  set (text := log_text (default Stderr (g_target_stream g)) (g_colors_enabled g) color tag c).
  assert (line_of c (default Stderr (g_target_stream g), text)) as Ln by (by exists (g_colors_enabled g), color, tag).
  rewrite C, T. cbn [mbind option_bind]. fold text. set (g1 := {| g_current_level := _ |}).
  assert (ring_ok g1) as Hr1 by done. change (g_ring_file g1) with (g_ring_file g).
  destruct (g_ring_file g) as [f|] eqn:F; [|exists g1; split_and!; eauto].
  apply list_elem_of_lookup_2 in T. specialize (Hm tag T).
  rewrite buffer_bytes_ok by (by rewrite bytes_length). cbn [mbind option_bind].
  set (meta := bytes_of_string _) in *. assert (length meta < 256)%nat as Hlm by (unfold meta; by rewrite bytes_length).
  set (g2 := if (0 <? length meta)%nat then _ else g1).
  assert (ring_ok g2 /\ lg_printed g2 = lg_printed g1 /\ g_current_level g2 = g_current_level g1) as (R2 & P2 & C2).
  { unfold g2. destruct (0 <? length meta)%nat; [|done]. split; [apply write_ring_ok; [lia|done]|apply write_printed]. }
  destruct (lc_message c) as [m|]; [|exists g2; split_and!; rewrite ?P2, ?C2; eauto].
  cbn [default] in Hmsg. rewrite buffer_bytes_ok by done. cbn [mbind option_bind].
  destruct (0 <? length m)%nat; [|exists g2; split_and!; rewrite ?P2, ?C2; eauto].
  eexists. split; [reflexivity|]. split; [|split].
  - apply write_ring_ok; [cbn; lia|]. apply write_ring_ok; [unfold id in *; lia|done].
  - by rewrite !(proj2 (write_printed _ _)).
  - rewrite !(proj1 (write_printed _ _)), P2. by exists text.
Qed.

(** One call: nothing below the threshold, one line above it. *)
Lemma emit_spec c g : call_ok c -> ring_ok g ->
  exists g', vom_log_emit c g = Some g' /\ ring_ok g' /\ g_current_level g' = g_current_level g /\
    if passes (g_current_level g) c
    then exists text, lg_printed g' = lg_printed g ++ [(default Stderr (g_target_stream g), text)]
    else g' = g.
Proof.
  intros Hc Hr. unfold vom_log_emit, passes.
  destruct (Nat.ltb_spec (level_value (lc_level c)) (level_value (g_current_level g))) as [L|L].
  { rewrite (proj2 (Nat.leb_gt _ _)) by lia. cbn [orb andb]. by exists g. }
  rewrite (proj2 (Nat.leb_le _ _)) by lia. cbn [orb andb].
  destruct (Nat.eqb_spec (level_value (g_current_level g)) (level_value VOM_LOG_LEVEL_NONE)) as [N|N].
  { rewrite bool_decide_eq_true_2 by done. by exists g. }
  rewrite bool_decide_eq_false_2 by done. cbn [negb].
  destruct (emit_locked_spec c g Hc Hr) as (g' & E & R & C & text & P & _). exists g'. split_and!; eauto.
Qed.

(** The number of lines a run prints: the calls that pass the threshold in
    force. *)
Fixpoint lines_of (l : VomLogLevel) (ops : list log_op) : nat :=
  match ops with
  | [] => 0
  | OpLevel l' :: ops => lines_of l' ops
  | OpEmit c :: ops => (if passes l c then 1 else 0) + lines_of l ops
  | _ :: ops => lines_of l ops
  end.

Lemma log_run_ok ops : forall g, Forall op_ok ops -> ring_ok g ->
  exists g', log_run ops g = Some g' /\ ring_ok g' /\
    length (lg_printed g') = (length (lg_printed g) + lines_of (g_current_level g) ops)%nat.
Proof.
  induction ops as [|op ops IH]; intros g Hops Hr; cbn [log_run lines_of]; [exists g; split_and!; try done; lia|].
  apply Forall_cons in Hops as [Ho Hops].
  destruct op as [l|s|b|ok max|c]; cbn [log_step mbind option_bind].
  - by apply (IH (vom_log_set_level l g)).
  - by apply (IH (vom_log_set_stream s g)).
  - by apply (IH (vom_log_enable_colors b g)).
  - replace (lg_printed g) with (lg_printed (vom_log_init_postmortem_ring_buffer ok max g).2) by (by destruct ok).
    replace (g_current_level g) with (g_current_level (vom_log_init_postmortem_ring_buffer ok max g).2) by (by destruct ok).
    apply IH; [done|]. destruct ok; [|done]. cbn in Ho. unfold ring_ok. cbn.
    assert (s64 max = max) as -> by (unfold s64; rewrite Z.mod_small; lia). lia.
  - destruct (emit_spec c g Ho Hr) as (g' & -> & R & C & P). cbn [mbind option_bind].
    destruct (IH g' Hops R) as (g'' & -> & R2 & N). exists g''. split; [done|]. split; [done|]. rewrite N, C.
    destruct (passes _ c); [destruct P as [t ->]; rewrite length_app; cbn; lia|subst; lia].
Qed.

(** The logger keeps its ring file within its size: for any sequence of
    settings, ring initialisations (of 1 KiB or more) and log calls whose lines
    fit the buffers, no array is overrun, every call prints one line exactly if
    it passes the threshold in force (level NONE silences all), and the ring
    file never exceeds the size it was given, with its position inside it. *)
Theorem log_ring_bounded (ops : list log_op) :
  Forall op_ok ops ->
  exists g, log_run ops logger_init = Some g /\
    length (lg_printed g) = lines_of VOM_LOG_LEVEL_INFO ops /\
    match g_ring_file g with
    | NULL => True
    | Some f => Z.of_nat (length (rf_bytes f)) <= g_ring_max_size g /\ (rf_pos f <= length (rf_bytes f))%nat
    end.
Proof.
  intros H. destruct (log_run_ok ops logger_init H I) as (g & E & R & N). exists g. split; [done|]. split; [done|].
  unfold ring_ok in R. destruct (g_ring_file g); [|done]. split; apply R.
Qed.

Definition demo_call (l : VomLogLevel) (msg : list Z) : log_call :=
  {| lc_level := l; lc_file := "/src/a/main.c"; lc_line := 42; lc_time_str := "2024-01-02 03:04:05"; lc_usec := 67;
     lc_message := Some msg |}.

Definition demo_log_ops : list log_op :=
  [OpRing true 1030; OpEmit (demo_call VOM_LOG_LEVEL_ERROR (replicate 1000 65)); OpEmit (demo_call VOM_LOG_LEVEL_DEBUG [66]);
   OpEmit (demo_call VOM_LOG_LEVEL_WARN [67; 68])].

Lemma demo_call_ok l msg : l <> VOM_LOG_LEVEL_NONE -> (length msg < 1024)%nat -> call_ok (demo_call l msg).
Proof.
  intros Hl Hm. split; [done|]. split; [|done]. intros tag Ht. unfold g_level_tags in Ht.
  repeat (apply elem_of_cons in Ht as [->|Ht]; [vm_compute; lia|]). by apply elem_of_nil in Ht.
Qed.

Lemma log_ring_bounded_witness : exists g f,
  log_run demo_log_ops logger_init = Some g /\ g_ring_file g = Some f /\ (length (rf_bytes f) <= 1030)%nat /\
  length (lg_printed g) = 2%nat.
Proof.
  destruct (log_ring_bounded demo_log_ops) as (g & E & N & R).
  - apply Forall_cons. split; [cbn; lia|].
    repeat (apply Forall_cons; split; [apply demo_call_ok; [discriminate|apply Nat.ltb_lt; reflexivity]|]).
    apply Forall_nil_2.
  - exists g. assert (match log_run demo_log_ops logger_init with
                      | Some g => (match g_ring_file g with Some _ => true | NULL => false end, g_ring_max_size g)
                      | None => (false, 0) end = (true, 1030)) as H by (vm_compute; reflexivity).
    rewrite E in H. destruct (g_ring_file g) as [f|]; [|discriminate H]. exists f.
    assert (g_ring_max_size g = 1030) as M by congruence. rewrite M in R.
    split; [exact E|]. split; [reflexivity|]. split; [lia|]. rewrite N. vm_compute. reflexivity.
Defined.

(** A line longer than its buffer is read past the buffer's end, and so is the
    table of tags for a call at level NONE. *)
Example long_message_overruns : vom_log_emit (demo_call VOM_LOG_LEVEL_WARN (replicate 1025 65))
  (vom_log_init_postmortem_ring_buffer true 4096 logger_init).2 = None.
Proof. vm_compute. reflexivity. Qed.

Example level_none_overruns : vom_log_emit (demo_call VOM_LOG_LEVEL_NONE []) logger_init = None.
Proof. vm_compute. reflexivity. Qed.

(** A fresh logger prints what the macros from INFO on are given, and drops TRACE
    and DEBUG. *)
Example macros_on_fresh_logger :
  let s := {| ls_file := "a/b.c"; ls_line := 7; ls_time_str := "2024-01-02 03:04:05"; ls_usec := 67; ls_message := Some [72] |} in
  let printed (emit : logger -> option logger) :=
    match emit logger_init with Some g => Some (length (lg_printed g)) | None => None end in
  map printed
    [VOM_LOG_TRACE s; VOM_LOG_DEBUG s; VOM_LOG_INFO s; VOM_LOG_WARN s; VOM_LOG_ERROR s; VOM_LOG_FATAL s] =
  [Some 0; Some 0; Some 1; Some 1; Some 1; Some 1]%nat.
Proof. vm_compute. reflexivity. Qed.

(** A ring smaller than its records does not bound the file. *)
Example small_ring_exceeded :
  match log_run [OpRing true 10; OpEmit (demo_call VOM_LOG_LEVEL_WARN (replicate 40 65))] logger_init with
  | Some g => match g_ring_file g with Some f => length (rf_bytes f) | NULL => 0%nat end
  | None => 0%nat
  end = 46%nat.
Proof. vm_compute. reflexivity. Qed.
