(* ===== verification/LogThreads.v ===== *)
(** The logger ([common/src/log.c]) as several threads use it.  [vom_log_emit]
    compares the threshold before it takes [g_log_mutex], with two reads that
    other threads' settings may come between; everything else runs under the
    lock.  The file shows what holds all the same. *)
From S2P Require Import Prelude Log.

(** * Threads *)

(** Where a thread is in [vom_log_emit]: before the second read of the
    threshold, or waiting for the lock. *)
Inductive log_pc := LogIdle | LogSecondRead (c : log_call) | LogEntering (c : log_call).

Record log_thread := { lt_todo : list log_op; lt_pc : log_pc }.

(** [lm_levels] records the levels that were in force so far, oldest first,
    [lm_lines] and [lm_dropped] the calls that printed and the calls that
    returned at the threshold. *)
Record log_machine := {
  lm_logger : option logger;
  lm_threads : list log_thread;
  lm_levels : list VomLogLevel;
  lm_lines : list log_call;
  lm_dropped : list log_call
}.

Definition log_spawn (programs : list (list log_op)) : log_machine :=
  {| lm_logger := Some logger_init; lm_threads := (fun ops => {| lt_todo := ops; lt_pc := LogIdle |}) <$> programs;
     lm_levels := [g_current_level logger_init]; lm_lines := []; lm_dropped := [] |}.

Definition log_set_thread (t : nat) (ops : list log_op) (pc : log_pc) (m : log_machine) : log_machine :=
  {| lm_logger := lm_logger m; lm_threads := <[t := {| lt_todo := ops; lt_pc := pc |}]> (lm_threads m);
     lm_levels := lm_levels m; lm_lines := lm_lines m; lm_dropped := lm_dropped m |}.
Definition log_set_logger (g : option logger) (m : log_machine) : log_machine :=
  {| lm_logger := g; lm_threads := lm_threads m; lm_levels := lm_levels m; lm_lines := lm_lines m; lm_dropped := lm_dropped m |}.
Definition log_line (c : log_call) (m : log_machine) : log_machine :=
  {| lm_logger := lm_logger m; lm_threads := lm_threads m; lm_levels := lm_levels m; lm_lines := lm_lines m ++ [c];
     lm_dropped := lm_dropped m |}.
Definition log_drop (c : log_call) (m : log_machine) : log_machine :=
  {| lm_logger := lm_logger m; lm_threads := lm_threads m; lm_levels := lm_levels m; lm_lines := lm_lines m;
     lm_dropped := lm_dropped m ++ [c] |}.
(** A level comes into force. *)
Definition log_levels (ls : list VomLogLevel) (m : log_machine) : log_machine :=
  {| lm_logger := lm_logger m; lm_threads := lm_threads m; lm_levels := lm_levels m ++ ls; lm_lines := lm_lines m;
     lm_dropped := lm_dropped m |}.

Definition level_set (op : log_op) : list VomLogLevel := match op with OpLevel l => [l] | _ => [] end.

(** The next step of thread [t]: one read of the threshold, or one critical
    section.  [None] at the end of the thread, and once an array was overrun. *)
Definition log_exec (t : nat) (m : log_machine) : option log_machine :=
  th ← lm_threads m !! t;
  g ← lm_logger m;
  match lt_pc th, lt_todo th with
  | LogIdle, [] => None
  | LogIdle, OpEmit c :: ops =>
      if (level_value (lc_level c) <? level_value (g_current_level g))%nat
      then Some (log_drop c (log_set_thread t ops LogIdle m))
      else Some (log_set_thread t ops (LogSecondRead c) m)
  | LogIdle, op :: ops => Some (log_levels (level_set op) (log_set_logger (log_step op g) (log_set_thread t ops LogIdle m)))
  | LogSecondRead c, ops =>
      if (level_value (g_current_level g) =? level_value VOM_LOG_LEVEL_NONE)%nat
      then Some (log_drop c (log_set_thread t ops LogIdle m))
      else Some (log_set_thread t ops (LogEntering c) m)
  | LogEntering c, ops => Some (log_line c (log_set_logger (emit_locked c g) (log_set_thread t ops LogIdle m)))
  end.

Definition log_schedule (ts : list nat) (m : log_machine) : log_machine := foldl (fun m t => default m (log_exec t m)) m ts.

Inductive log_reach (programs : list (list log_op)) : log_machine -> Prop :=
| log_reach_start : log_reach programs (log_spawn programs)
| log_reach_step m t m' : log_reach programs m -> log_exec t m = Some m' -> log_reach programs m'.

Lemma log_schedule_reach programs ts : forall m, log_reach programs m -> log_reach programs (log_schedule ts m).
Proof.
  induction ts as [|t ts IH]; intros m R; [done|]. cbn. apply IH. destruct (log_exec t m) as [m'|] eqn:E; cbn; [|done].
  by eapply log_reach_step.
Qed.

(** The log calls of a program, and the ones a thread has still to finish. *)
Definition emits (ops : list log_op) : list log_call := omap (fun op => match op with OpEmit c => Some c | _ => None end) ops.
Definition unfinished (th : log_thread) : list log_call :=
  match lt_pc th with LogIdle => [] | LogSecondRead c | LogEntering c => [c] end ++ emits (lt_todo th).

(** * The invariant *)

(** A ring that holds the longest record. *)
Definition ring_size_ok (op : log_op) : Prop := match op with OpRing _ max => 1024 <= max < 2 ^ 63 | _ => True end.

(** A level that was in force lets the call through the first test. *)
Definition let_through (levels : list VomLogLevel) (c : log_call) : Prop :=
  exists i l, levels !! i = Some l /\ (level_value l <= level_value (lc_level c))%nat.
(** And at the same time or later one lets it through the second. *)
Definition let_print (levels : list VomLogLevel) (c : log_call) : Prop :=
  exists i j l l', (i <= j)%nat /\ levels !! i = Some l /\ levels !! j = Some l' /\
    (level_value l <= level_value (lc_level c))%nat /\ l' <> VOM_LOG_LEVEL_NONE.
(** A level that was in force stops the call. *)
Definition stopped (levels : list VomLogLevel) (c : log_call) : Prop := exists i l, levels !! i = Some l /\ passes l c = false.

Lemma let_through_app levels ls c : let_through levels c -> let_through (levels ++ ls) c.
Proof. intros (i & l & Hi & H). exists i, l. split; [by apply lookup_app_l_Some|done]. Qed.
Lemma let_print_app levels ls c : let_print levels c -> let_print (levels ++ ls) c.
Proof. intros (i & j & l & l' & L & Hi & Hj & H). exists i, j, l, l'. split_and!; [done|by apply lookup_app_l_Some..|apply H|apply H]. Qed.
Lemma stopped_app levels ls c : stopped levels c -> stopped (levels ++ ls) c.
Proof. intros (i & l & Hi & H). exists i, l. split; [by apply lookup_app_l_Some|done]. Qed.

(** Under the lock, whatever the call: one line, a ring that stays within its
    size, and an overrun only for a call that does not fit. *)
Lemma buffer_bytes_le cap text buf : buffer_bytes cap text = Some buf -> (length buf <= cap)%nat.
Proof. unfold buffer_bytes. destruct (Nat.leb_spec (length text) cap); [|done]. intros [= <-]. rewrite length_take. lia. Qed.

Lemma emit_locked_any c g : match emit_locked c g with
  | None => ~ call_ok c
  | Some g' => g_current_level g' = g_current_level g /\ (ring_ok g -> ring_ok g') /\
      exists line, lg_printed g' = lg_printed g ++ [line] /\ line_of c line
  end.
Proof.
  destruct (emit_locked c g) as [g'|] eqn:E.
  2: { intros (Hl & Hm & Hmsg). unfold emit_locked in E.
    assert (exists color tag, g_level_colors !! level_value (lc_level c) = Some color /\
      g_level_tags !! level_value (lc_level c) = Some tag) as (color & tag & C & T)
      by (destruct (lc_level c); try done; eexists _, _; split; reflexivity).
    rewrite C, T in E. cbn [mbind option_bind g_ring_file] in E. destruct (g_ring_file g) as [f|]; [|done].
    apply list_elem_of_lookup_2 in T. rewrite buffer_bytes_ok in E by (rewrite bytes_length; by apply Hm).
    cbn [mbind option_bind] in E. destruct (lc_message c) as [t|]; [|done]. cbn [default id] in Hmsg.
    by rewrite buffer_bytes_ok in E. }
  unfold emit_locked in E. destruct (g_level_colors !! _) as [color|] eqn:C; [|done]. cbn [mbind option_bind] in E.
  destruct (g_level_tags !! _) as [tag|] eqn:T; [|done]. cbn [mbind option_bind] in E.
  set (stream := default Stderr (g_target_stream g)) in *. set (text := log_text _ _ _ _ _) in E.
  set (g1 := {| g_current_level := _ |}) in E.
  assert (line_of c (stream, text)) as Ln by (by exists (g_colors_enabled g), color, tag).
  assert (forall g', lg_printed g' = lg_printed g1 -> g_current_level g' = g_current_level g1 -> (ring_ok g1 -> ring_ok g') ->
    g_current_level g' = g_current_level g /\ (ring_ok g -> ring_ok g') /\
    exists line, lg_printed g' = lg_printed g ++ [line] /\ line_of c line) as K.
  { intros x P L R. split; [done|]. split; [exact R|]. by exists (stream, text). }
  clearbody text. change (g_ring_file g1) with (g_ring_file g) in E. destruct (g_ring_file g) as [f|]; [|injection E as <-; by apply K].
  destruct (buffer_bytes 256 _) as [mb|] eqn:M; [|done]. cbn [mbind option_bind] in E. apply buffer_bytes_le in M.
  set (g2 := if (0 <? _)%nat then _ else g1) in E.
  assert ((ring_ok g1 -> ring_ok g2) /\ lg_printed g2 = lg_printed g1 /\ g_current_level g2 = g_current_level g1) as (R2 & P2 & C2).
  { unfold g2. destruct (0 <? _)%nat; [|done]. split; [intros ?; apply write_ring_ok; [lia|done]|apply write_printed]. }
  destruct (lc_message c) as [t|]; [|injection E as <-; by apply K].
  destruct (buffer_bytes 1024 t) as [tb|] eqn:B; [|done]. cbn [mbind option_bind] in E. injection E as <-. apply buffer_bytes_le in B.
  destruct (0 <? length t)%nat; [|by apply K]. apply K.
  - by rewrite !(proj1 (write_printed _ _)).
  - by rewrite !(proj2 (write_printed _ _)).
  - intros R. apply write_ring_ok; [cbn; lia|]. apply write_ring_ok; [lia|by apply R2].
Qed.

Section Invariant.
Variable programs : list (list log_op).

Definition pc_ok (levels : list VomLogLevel) (pc : log_pc) : Prop :=
  match pc with
  | LogIdle => True
  | LogSecondRead c => let_through levels c
  | LogEntering c => let_print levels c
  end.

(** No ring of the programs is smaller than a record. *)
Definition rings_ok : Prop := Forall (Forall ring_size_ok) programs.

Record log_inv (m : log_machine) : Prop := {
  li_logger : match lm_logger m with
    | Some g => last (lm_levels m) = Some (g_current_level g) /\ (rings_ok -> ring_ok g) /\ Forall2 line_of (lm_lines m) (lg_printed g)
    | None => exists c, last (lm_lines m) = Some c /\ ~ call_ok c
    end;
  li_levels : forall l, l ∈ lm_levels m -> l = VOM_LOG_LEVEL_INFO \/ OpLevel l ∈ concat programs;
  li_todo : Forall (fun th => forall op, op ∈ lt_todo th -> op ∈ concat programs) (lm_threads m);
  li_pc : Forall (fun th => pc_ok (lm_levels m) (lt_pc th)) (lm_threads m);
  li_lines : Forall (let_print (lm_levels m)) (lm_lines m);
  li_dropped : Forall (stopped (lm_levels m)) (lm_dropped m);
  li_all : lm_lines m ++ lm_dropped m ++ concat (unfinished <$> lm_threads m) ≡ₚ concat (emits <$> programs)
}.

Lemma log_spawn_inv : log_inv (log_spawn programs).
Proof.
  constructor; cbn; [| | | |done|done|].
  - by split_and!; [| |constructor].
  - intros l ->%list_elem_of_singleton. by left.
  - apply Forall_fmap, Forall_forall. intros ops Hin op Hop. cbn in Hop. apply list_elem_of_In, in_concat. exists ops.
    by rewrite <- !list_elem_of_In.
  - apply Forall_fmap, Forall_true. done.
  - rewrite <- list_fmap_compose. done.
Qed.

(** A thread goes on: the calls it finishes leave its list. *)
Lemma unfinished_insert (ths : list log_thread) t th th' : ths !! t = Some th ->
  unfinished th ++ concat (unfinished <$> <[t := th']> ths) ≡ₚ unfinished th' ++ concat (unfinished <$> ths).
Proof.
  intros H. rewrite insert_take_drop by (by eapply lookup_lt_Some). rewrite <- (take_drop_middle ths t th H) at 3.
  rewrite !fmap_app, !fmap_cons, !concat_app. cbn [concat].
  rewrite (Permutation_app_swap_app _ (unfinished th')). rewrite (Permutation_app_swap_app _ (unfinished th')).
  f_equiv. apply Permutation_app_swap_app.
Qed.

(** A thread's step: its calls, finished or not, stay the same, and what held
    of the levels in force holds with more of them. *)
Lemma log_inv_thread m t th ops pc ls lines dropped g : log_inv m -> lm_threads m !! t = Some th ->
  match g with
  | Some g => last (lm_levels m ++ ls) = Some (g_current_level g) /\ (rings_ok -> ring_ok g) /\
              Forall2 line_of (lm_lines m ++ lines) (lg_printed g)
  | None => exists c, last (lm_lines m ++ lines) = Some c /\ ~ call_ok c
  end ->
  (forall l, l ∈ ls -> OpLevel l ∈ concat programs) -> (forall op, op ∈ ops -> op ∈ lt_todo th) ->
  pc_ok (lm_levels m ++ ls) pc -> Forall (let_print (lm_levels m ++ ls)) lines -> Forall (stopped (lm_levels m ++ ls)) dropped ->
  unfinished th = lines ++ dropped ++ unfinished {| lt_todo := ops; lt_pc := pc |} ->
  log_inv {| lm_logger := g; lm_threads := <[t := {| lt_todo := ops; lt_pc := pc |}]> (lm_threads m);
             lm_levels := lm_levels m ++ ls; lm_lines := lm_lines m ++ lines; lm_dropped := lm_dropped m ++ dropped |}.
Proof.
  intros [_ I1 I2 I3 I4 I5 I6] Ht Hg Hls Hops Hpc Hlines Hdrop U. constructor; cbn.
  - done.
  - intros l [Hl|Hl]%elem_of_app; [by apply I1|right; by apply Hls].
  - apply Forall_insert; [done|]. cbn. intros op Hop. apply (Forall_lookup_1 _ _ _ _ I2 Ht). by apply Hops.
  - apply Forall_insert; [|done]. eapply Forall_impl; [exact I3|]. intros x. unfold pc_ok.
    destruct (lt_pc x); [done|apply let_through_app|apply let_print_app].
  - apply Forall_app. split; [|done]. eapply Forall_impl; [exact I4|]. intros x. apply let_print_app.
  - apply Forall_app. split; [|done]. eapply Forall_impl; [exact I5|]. intros x. apply stopped_app.
  - rewrite <- I6. set (th' := {| lt_todo := ops; lt_pc := pc |}) in *. pose proof (unfinished_insert _ t th th' Ht) as P.
    rewrite U in P. revert P. generalize (concat (unfinished <$> <[t := th']> (lm_threads m))) as X.
    generalize (concat (unfinished <$> lm_threads m)) as Y. generalize (unfinished th') as u. intros u Y X P.
    assert (lines ++ dropped ++ X ≡ₚ Y) as <-.
    { apply (Permutation_app_inv_l u). rewrite <- P, <- !app_assoc. rewrite (Permutation_app_swap_app u), (Permutation_app_swap_app u). done. }
    rewrite <- !app_assoc. f_equiv. apply Permutation_app_swap_app.
Qed.

(** A setting leaves the lines alone, and puts its level, if any, in force. *)
Lemma setting_step op g : (forall c, op <> OpEmit c) -> exists g', log_step op g = Some g' /\
  lg_printed g' = lg_printed g /\ g_current_level g' = List.last (level_set op) (g_current_level g) /\
  (ring_size_ok op -> ring_ok g -> ring_ok g').
Proof.
  intros N. destruct op as [l|s|b|ok max|c]; [..|by destruct (N c)]; (eexists; split; [reflexivity|]); try done.
  destruct ok; [|done]. split_and!; [done..|]. intros Hs _. unfold ring_ok. cbn in *.
  assert (s64 max = max) as -> by (unfold s64; rewrite Z.mod_small; lia). lia.
Qed.

Lemma log_setting_inv m t op ops g : log_inv m -> lm_threads m !! t = Some {| lt_todo := op :: ops; lt_pc := LogIdle |} ->
  lm_logger m = Some g -> (forall c, op <> OpEmit c) ->
  log_inv (log_levels (level_set op) (log_set_logger (log_step op g) (log_set_thread t ops LogIdle m))).
Proof.
  intros I Ht Hg N. pose proof I as [L I1 I2 _ _ _ _]. rewrite Hg in L. destruct L as (Hl & Hr & Hp).
  destruct (setting_step op g N) as (g' & -> & P & C & R).
  assert (op ∈ concat programs) as Hop by (apply (Forall_lookup_1 _ _ _ _ I2 Ht); left).
  pose proof (log_inv_thread m t _ ops LogIdle (level_set op) [] [] (Some g') I Ht) as K. rewrite !app_nil_r in K. apply K.
  - split_and!; [| |by rewrite P].
    + rewrite C. destruct op; cbn [level_set List.last]; rewrite ?app_nil_r; try done. apply last_snoc.
    + intros RS. apply R; [|by apply Hr]. apply list_elem_of_In, in_concat in Hop as (p & Hp1%list_elem_of_In & Hp2%list_elem_of_In).
      unfold rings_ok in RS. rewrite Forall_forall in RS.
      specialize (RS p Hp1). rewrite Forall_forall in RS. by apply RS.
  - destruct op; cbn; try (intros ? Hx; by apply elem_of_nil in Hx). by intros ? ->%list_elem_of_singleton.
  - intros o Ho. by right.
  - done.
  - done.
  - done.
  - unfold unfinished, emits. cbn. destruct op; done || by destruct (N c).
Qed.

Lemma log_exec_inv m t m' : log_inv m -> log_exec t m = Some m' -> log_inv m'.
Proof.
  intros I E. unfold log_exec in E. destruct (lm_threads m !! t) as [[ops pc]|] eqn:Ht; [|done].
  destruct (lm_logger m) as [g|] eqn:Hg; [|done]. cbn [mbind option_bind lt_pc lt_todo] in E.
  pose proof I as [L I1 I2 I3 _ _ _]. rewrite Hg in L. destruct L as (Hl & Hr & Hp).
  pose proof (Forall_lookup_1 _ _ _ _ I3 Ht) as Hpc. cbn [lt_pc] in Hpc.
  assert (exists i, lm_levels m !! i = Some (g_current_level g) /\ forall j l, lm_levels m !! j = Some l -> (j <= i)%nat) as (cur & Hcur & Hmax).
  { rewrite last_lookup in Hl. exists (pred (length (lm_levels m))). split; [done|]. intros j l Hj%lookup_lt_Some. lia. }
  assert (forall ops' pc' lines dropped, (forall op, op ∈ ops' -> op ∈ ops) ->
    Forall2 line_of (lm_lines m ++ lines) (lg_printed g) ->
    pc_ok (lm_levels m) pc' -> Forall (let_print (lm_levels m)) lines -> Forall (stopped (lm_levels m)) dropped ->
    unfinished {| lt_todo := ops; lt_pc := pc |} = lines ++ dropped ++ unfinished {| lt_todo := ops'; lt_pc := pc' |} ->
    log_inv {| lm_logger := lm_logger m; lm_threads := <[t := {| lt_todo := ops'; lt_pc := pc' |}]> (lm_threads m);
               lm_levels := lm_levels m; lm_lines := lm_lines m ++ lines; lm_dropped := lm_dropped m ++ dropped |}) as Same.
  { intros ops' pc' lines dropped Ho Hp' H1 H2 H3 H4. pose proof (log_inv_thread m t _ ops' pc' [] lines dropped (Some g) I Ht) as K.
    rewrite app_nil_r in K. rewrite Hg. apply K; try done. by intros l ?%elem_of_nil. }
  destruct pc as [|c|c].
  - destruct ops as [|op ops]; [done|]. destruct op as [l|s|b|ok max|c];
      try (pose proof (log_setting_inv m t _ ops g I Ht Hg) as K; injection E as <-; by apply K).
    destruct (Nat.ltb_spec (level_value (lc_level c)) (level_value (g_current_level g))) as [B|B]; injection E as <-.
    + specialize (Same ops LogIdle [] [c]). rewrite app_nil_r in Same. apply Same; try done; [by right|].
      apply Forall_singleton. exists cur, (g_current_level g). split; [done|]. unfold passes. by rewrite (proj2 (Nat.leb_gt _ _)).
    + specialize (Same ops (LogSecondRead c) [] []). rewrite !app_nil_r in Same. apply Same; try done; [by right|].
      by exists cur, (g_current_level g).
  - destruct (Nat.eqb_spec (level_value (g_current_level g)) (level_value VOM_LOG_LEVEL_NONE)) as [B|B]; injection E as <-.
    + specialize (Same ops LogIdle [] [c]). rewrite app_nil_r in Same. apply Same; try done.
      apply Forall_singleton. exists cur, (g_current_level g). split; [done|]. unfold passes.
      rewrite (proj2 (Nat.eqb_eq _ _)) by done. by rewrite andb_false_r.
    + specialize (Same ops (LogEntering c) [] []). rewrite !app_nil_r in Same. apply Same; try done.
      destruct Hpc as (i & l & Hi & Hle). exists i, cur, l, (g_current_level g). split_and!; try done; [by eapply Hmax|intros X; by rewrite X in B].
  - injection E as <-. pose proof (emit_locked_any c g) as A.
    pose proof (log_inv_thread m t _ ops LogIdle [] [c] [] (emit_locked c g) I Ht) as K. rewrite !app_nil_r in K. apply K; try done.
    + destruct (emit_locked c g) as [g'|]; [|exists c; by rewrite last_snoc].
      destruct A as (C & R & line & P & Ln). rewrite C, P. split_and!; [done|auto|]. apply Forall2_app; [done|]. by repeat constructor.
    + by intros ? ?%elem_of_nil.
    + by apply Forall_singleton.
Qed.
End Invariant.

Lemma log_reach_inv programs m : log_reach programs m -> log_inv programs m.
Proof. induction 1 as [|m t m' _ IH E]; [by apply log_spawn_inv|by eapply log_exec_inv]. Qed.

(** ** Every schedule ends *)

Definition log_work (th : log_thread) : nat :=
  3 * length (lt_todo th) + match lt_pc th with LogIdle => 0 | LogSecondRead _ => 2 | LogEntering _ => 1 end.

Lemma sum_insert (ths : list log_thread) t th th' : ths !! t = Some th ->
  (sum_list (log_work <$> <[t := th']> ths) + log_work th = sum_list (log_work <$> ths) + log_work th')%nat.
Proof.
  intros H. rewrite insert_take_drop by (by eapply lookup_lt_Some). rewrite <- (take_drop_middle ths t th H) at 3.
  rewrite !fmap_app, !fmap_cons, !sum_list_with_app. cbn. lia.
Qed.

Lemma log_exec_work t m m' : log_exec t m = Some m' ->
  (sum_list (log_work <$> lm_threads m') < sum_list (log_work <$> lm_threads m))%nat.
Proof.
  unfold log_exec. destruct (lm_threads m !! t) as [[ops pc]|] eqn:Ht; [|done]. destruct (lm_logger m) as [g|]; [|done].
  cbn [mbind option_bind lt_pc lt_todo]. intros E.
  assert (exists ops' pc', lm_threads m' = <[t := {| lt_todo := ops'; lt_pc := pc' |}]> (lm_threads m) /\
    (log_work {| lt_todo := ops'; lt_pc := pc' |} < log_work {| lt_todo := ops; lt_pc := pc |})%nat) as (ops' & pc' & -> & L).
  { destruct pc as [|c|c]; [destruct ops as [|[l|s|b|ok max|c] ops]; [done|..]|..]; repeat case_match; simplify_eq;
      eexists _, _; (split; [reflexivity|]); cbn; lia. }
  pose proof (sum_insert _ t _ {| lt_todo := ops'; lt_pc := pc' |} Ht). lia.
Qed.

Definition log_finished (m : log_machine) : Prop := Forall (fun th => lt_todo th = [] /\ lt_pc th = LogIdle) (lm_threads m).

Lemma log_progress m g : lm_logger m = Some g -> log_finished m \/ exists t m', log_exec t m = Some m'.
Proof.
  intros Hg. unfold log_finished. destruct (decide (Exists (fun th => log_work th <> 0%nat) (lm_threads m))) as [H|H].
  - right. apply Exists_exists in H as (th & Hin & W). apply list_elem_of_lookup in Hin as [t Ht]. exists t.
    unfold log_exec. rewrite Ht, Hg. cbn [mbind option_bind]. destruct th as [[|[] ops] []]; cbn in *; try lia; repeat case_match; eauto.
  - left. apply Forall_Exists_neg in H. eapply Forall_impl; [exact H|]. intros [[|op ops] pc] W; cbn in W; [|destruct pc; lia].
    destruct pc; [done|lia..].
Qed.

Lemma log_acc m : Acc (fun m2 m1 => exists t, log_exec t m1 = Some m2) m.
Proof.
  remember (sum_list (log_work <$> lm_threads m)) as n eqn:N. revert m N. induction (lt_wf n) as [n _ IH]. intros m ->.
  constructor. intros m' [t E]. eapply IH; [by eapply log_exec_work|done].
Qed.

Lemma finished_none m : log_finished m -> concat (unfinished <$> lm_threads m) = [].
Proof.
  unfold log_finished. intros F. induction F as [|[ops pc] ths [H1 H2] F IH]; [done|]. cbn in H1, H2. subst.
  rewrite fmap_cons. cbn. exact IH.
Qed.

(** C34: However threads interleave between the two unlocked reads of the threshold
    and the critical sections of settings and log calls: the printed lines are
    exactly the texts of the calls that printed, whole and in their order.  An
    array is overrun only by a call at level NONE or with a text longer than the
    buffers, and the run ends there; the ring file keeps within its size if no
    ring is smaller than 1 KiB.  The levels in force are the initial INFO and
    those that were set; a call prints only if one of them let it through the
    first test and the same or a later one was not NONE at the second, and is
    dropped only if one of them stopped it.  Every schedule ends, and unless an
    array is overrun with every call printed or dropped once. *)
Theorem log_threads_whole_lines (programs : list (list log_op)) m :
  log_reach programs m ->
  match lm_logger m with
  | Some g => Forall2 line_of (lm_lines m) (lg_printed g) /\ last (lm_levels m) = Some (g_current_level g) /\
      (Forall (Forall ring_size_ok) programs ->
       match g_ring_file g with
       | NULL => True
       | Some f => Z.of_nat (length (rf_bytes f)) <= g_ring_max_size g /\ (rf_pos f <= length (rf_bytes f))%nat
       end)
  | None => exists c, last (lm_lines m) = Some c /\ ~ call_ok c
  end /\
  (forall l, l ∈ lm_levels m -> l = VOM_LOG_LEVEL_INFO \/ OpLevel l ∈ concat programs) /\
  (forall c, c ∈ lm_lines m -> exists i j l l', (i <= j)%nat /\ lm_levels m !! i = Some l /\ lm_levels m !! j = Some l' /\
     (level_value l <= level_value (lc_level c))%nat /\ l' <> VOM_LOG_LEVEL_NONE) /\
  (forall c, c ∈ lm_dropped m -> exists i l, lm_levels m !! i = Some l /\ passes l c = false) /\
  (lm_logger m = None \/ log_finished m \/ exists t m', log_exec t m = Some m') /\
  Acc (fun m2 m1 => exists t, log_exec t m1 = Some m2) m /\
  (log_finished m -> lm_lines m ++ lm_dropped m ≡ₚ concat (emits <$> programs)).
Proof.
  intros R. pose proof (log_reach_inv programs m R) as [L I1 _ _ I3 I4 I5]. split_and!.
  - destruct (lm_logger m) as [g|]; [|done]. destruct L as (Hl & Hr & Hp). split_and!; [done..|]. intros RS.
    specialize (Hr RS). unfold ring_ok in Hr. destruct (g_ring_file g); [|done]. split; apply Hr.
  - done.
  - intros c Hc. by apply (proj1 (Forall_forall _ _) I3).
  - intros c Hc. by apply (proj1 (Forall_forall _ _) I4).
  - destruct (lm_logger m) as [g|] eqn:Hg; [right|by left]. by eapply log_progress.
  - by apply log_acc.
  - intros F. rewrite <- I5. f_equiv. by rewrite finished_none, app_nil_r.
Qed.

Definition late_programs : list (list log_op) :=
  [[OpEmit (demo_call VOM_LOG_LEVEL_WARN [72; 105])];
   [OpRing true 1024; OpLevel VOM_LOG_LEVEL_NONE; OpEmit (demo_call VOM_LOG_LEVEL_FATAL [66])]].
Definition late_machine : log_machine := log_schedule [0; 0; 1; 1; 0; 1; 1]%nat (log_spawn late_programs).

Lemma log_threads_whole_lines_witness :
  lc_message <$> lm_lines late_machine = [Some [72; 105]] /\ lc_message <$> lm_dropped late_machine = [Some [66]] /\
  lm_lines late_machine ++ lm_dropped late_machine ≡ₚ concat (emits <$> late_programs).
Proof.
  split; [vm_compute; reflexivity|]. split; [vm_compute; reflexivity|].
  apply (log_threads_whole_lines late_programs late_machine).
  - apply log_schedule_reach, log_reach_start.
  - vm_compute. repeat constructor.
Defined.

(** A call that passed the threshold prints after another thread has silenced
    the logger. *)
Example line_after_silence :
  (fun g => (g_current_level g, length (lg_printed g))) <$> lm_logger late_machine = Some (VOM_LOG_LEVEL_NONE, 1%nat).
Proof. vm_compute. reflexivity. Qed.

(** The two reads see different thresholds: a DEBUG line is printed although the
    level was raised to FATAL between them. *)
Example torn_threshold_read :
  let m := log_schedule [1; 0; 1; 0; 0]%nat (log_spawn
    [[OpEmit (demo_call VOM_LOG_LEVEL_DEBUG [72])]; [OpLevel VOM_LOG_LEVEL_TRACE; OpLevel VOM_LOG_LEVEL_FATAL]]) in
  length (lm_lines m) = 1%nat /\ g_current_level <$> lm_logger m = Some VOM_LOG_LEVEL_FATAL.
Proof. vm_compute. split; reflexivity. Qed.
