(* ===== verification/ZmqContext.v ===== *)
(** The process-wide messaging context ([common/src/zmq_context.c]) and the
    socket helpers over it ([common/src/zmq_sockets.c]).

    A context is known by a number.  Every process has its own copy of the
    globals: a child starts with its parent's values. *)
From stdpp Require Import gmap.
From S2P Require Import Prelude.

(** * The context *)

Record zmq_globals := {
  g_zmq_context : ptr nat;
  g_context_ref_count : Z;
  g_context_owner_pid : Z
}.

Definition zmq_globals_init : zmq_globals :=
  {| g_zmq_context := NULL; g_context_ref_count := 0; g_context_owner_pid := 0 |}.

(** [created]: the result of [zmq_ctx_new], should it be called. *)
Definition vom_zmq_context (current_pid : Z) (created : ptr nat) (z : zmq_globals) : ptr nat * zmq_globals :=
  let z :=
    match g_zmq_context z with
    | Some _ =>
        if negb (current_pid =? g_context_owner_pid z)
        then {| g_zmq_context := NULL; g_context_ref_count := 0; g_context_owner_pid := g_context_owner_pid z |}
        else z
    | NULL => z
    end in
  let z :=
    match g_zmq_context z with
    | NULL =>
        match created with
        | Some c => {| g_zmq_context := Some c; g_context_ref_count := 1; g_context_owner_pid := current_pid |}
        | NULL => z
        end
    | Some c =>
        {| g_zmq_context := Some c; g_context_ref_count := s32 (g_context_ref_count z + 1);
           g_context_owner_pid := g_context_owner_pid z |}
    end in
  (g_zmq_context z, z).

(** The context handed to [zmq_ctx_term], and the globals. *)
Definition vom_zmq_context_term (current_pid : Z) (z : zmq_globals) : option nat * zmq_globals :=
  match g_zmq_context z with
  | Some c =>
      if current_pid =? g_context_owner_pid z then
        let n := s32 (g_context_ref_count z - 1) in
        if n <=? 0 then (Some c, zmq_globals_init)
        else (None, {| g_zmq_context := Some c; g_context_ref_count := n; g_context_owner_pid := g_context_owner_pid z |})
      else (None, z)
  | NULL => (None, z)
  end.

(** * Processes *)

Abbreviation pid_map := (gmap Z zmq_globals).
Abbreviation ctx_map := (gmap nat Z).

(** The processes with their globals, and the contexts that exist with the
    process that created them. *)
Record zmq_world := {
  zw_procs : pid_map;
  zw_live : ctx_map;
  (** Numbers of contexts are not used again. *)
  zw_next : nat
}.

Inductive zmq_event :=
| EvAcquire (pid : Z) (got : ptr nat)
| EvTerm (pid : Z) (terminated : option nat)
| EvFork (parent child : Z).

(** One call in some process, or a fork. *)
Inductive zmq_step : zmq_world -> zmq_event -> zmq_world -> Prop :=
| ZAcquire pid z w ok got z' :
    zw_procs w !! pid = Some z ->
    vom_zmq_context pid (if ok : bool then Some (zw_next w) else NULL) z = (got, z') ->
    zmq_step w (EvAcquire pid got)
      {| zw_procs := <[pid := z']> (zw_procs w);
         zw_live := if bool_decide (got = Some (zw_next w)) then <[zw_next w := pid]> (zw_live w) else zw_live w;
         zw_next := S (zw_next w) |}
| ZTerm pid z w t z' :
    zw_procs w !! pid = Some z ->
    vom_zmq_context_term pid z = (t, z') ->
    zmq_step w (EvTerm pid t)
      {| zw_procs := <[pid := z']> (zw_procs w);
         zw_live := match t with Some c => delete c (zw_live w) | None => zw_live w end;
         zw_next := zw_next w |}
| ZFork parent child z w :
    zw_procs w !! parent = Some z -> zw_procs w !! child = None -> 0 < child ->
    zmq_step w (EvFork parent child)
      {| zw_procs := <[child := z]> (zw_procs w); zw_live := zw_live w; zw_next := zw_next w |}.

(** Runs from one process, with their events. *)
Inductive zmq_run (p0 : Z) : list zmq_event -> zmq_world -> Prop :=
| ZStart : 0 < p0 -> zmq_run p0 [] {| zw_procs := {[p0 := zmq_globals_init]}; zw_live := ∅; zw_next := 0 |}
| ZStep tr w e w' : zmq_run p0 tr w -> zmq_step w e w' -> zmq_run p0 (tr ++ [e]) w'.

(** ** The abstract counter

    The references process [p] holds: every successful acquisition adds one,
    every release takes one away while there is one, a fork starts at none. *)
Definition ref_event (p : Z) (n : Z) (e : zmq_event) : Z :=
  match e with
  | EvAcquire q (Some _) => if q =? p then n + 1 else n
  | EvTerm q _ => if q =? p then Z.max 0 (n - 1) else n
  | EvFork _ c => if c =? p then 0 else n
  | _ => n
  end.
Definition refs (p : Z) (tr : list zmq_event) : Z := foldl (ref_event p) 0 tr.

(** * Sockets *)

Inductive sock_option :=
  VOM_ZMQ_IDENTITY | VOM_ZMQ_LINGER | VOM_ZMQ_SNDHWM | VOM_ZMQ_RCVHWM
| VOM_ZMQ_CURVE_SERVER | VOM_ZMQ_CURVE_PUBLICKEY | VOM_ZMQ_CURVE_SECRETKEY | VOM_ZMQ_CURVE_SERVERKEY.

(** The value of an option: an [int] or a string. *)
Inductive opt_value := OptInt (n : Z) | OptStr (s : string).

(** What is done to a socket. *)
Inductive sock_call :=
| CallSet (o : sock_option) (v : opt_value)
| CallBind (endpoint : string)
| CallConnect (endpoint : string)
| CallClose.

(** [sock]: the result of [zmq_socket]; [status]: that of [zmq_bind] or
    [zmq_connect]. *)
Definition vom_zmq_make_socket (pid : Z) (created sock : ptr nat) (status : Z) (endpoint : ptr string) (is_bind : bool)
    (z : zmq_globals) : ptr nat * list sock_call * zmq_globals :=
  let '(local_ctx, z) := vom_zmq_context pid created z in
  match local_ctx, endpoint, sock with
  | Some _, Some ep, Some s =>
      let calls := [CallSet VOM_ZMQ_LINGER (OptInt 1000); CallSet VOM_ZMQ_SNDHWM (OptInt 5000);
                    CallSet VOM_ZMQ_RCVHWM (OptInt 5000); if is_bind then CallBind ep else CallConnect ep] in
      if negb (status =? 0) then (NULL, calls ++ [CallClose], z) else (Some s, calls, z)
  | _, _, _ => (NULL, [], z)
  end.

(** Options set one after the other until one fails; [rc] is the result of
    [zmq_setsockopt] for an option. *)
Fixpoint set_options (rc : sock_option -> Z) (l : list (sock_option * opt_value)) : bool * list sock_call :=
  match l with
  | [] => (true, [])
  | (o, v) :: l =>
      if negb (rc o =? 0) then (false, [CallSet o v])
      else let (ok, calls) := set_options rc l in (ok, CallSet o v :: calls)
  end.

Definition vom_zmq_apply_curve_security (rc : sock_option -> Z) (sock : ptr nat)
    (server_public_key client_public_key client_secret_key : ptr string) : bool * list sock_call :=
  match sock, server_public_key with
  | Some _, Some spk =>
      set_options rc
        (match client_public_key, client_secret_key with
         | Some cpk, Some csk =>
             [(VOM_ZMQ_CURVE_SERVER, OptInt 1); (VOM_ZMQ_CURVE_PUBLICKEY, OptStr cpk); (VOM_ZMQ_CURVE_SECRETKEY, OptStr csk)]
         | _, _ => [(VOM_ZMQ_CURVE_SERVER, OptInt 1)]
         end ++ [(VOM_ZMQ_CURVE_SERVERKEY, OptStr spk)])
  | _, _ => (false, [])
  end.

Definition vom_zmq_set_identity (rc : sock_option -> Z) (sock : ptr nat) (id : ptr string) : bool * list sock_call :=
  match sock, id with
  | Some _, Some id =>
      if (255 <? String.length id)%nat then (false, [])
      else (rc VOM_ZMQ_IDENTITY =? 0, [CallSet VOM_ZMQ_IDENTITY (OptStr id)])
  | _, _ => (false, [])
  end.

(** [recv]: the frame [zmq_msg_recv] got, [None] on failure; [rcvmore]: what
    [zmq_getsockopt] stores, 0 when it fails.  The result and [out]. *)
Definition vom_zmq_recv_identity (sock : ptr nat) (init_ok : bool) (recv : option (list Z)) (rcvmore : Z)
    (out : ptr (list Z)) (cap : nat) : Z * ptr (list Z) :=
  match sock, out with
  | Some _, Some o =>
      if (cap =? 0)%nat then (-1, out)
      else if negb init_ok then (-1, out)
      else
        match recv with
        | None => (-1, out)
        | Some frame =>
            let copy_bytes := if (length frame <? cap - 1)%nat then length frame else (cap - 1)%nat in
            (rcvmore, Some (take copy_bytes frame ++ [0] ++ drop (S copy_bytes) o))
        end
  | _, _ => (-1, out)
  end.

(** * The invariant *)

(** The globals [z] of process [p], which holds [n] references. *)
Definition proc_ok (w : zmq_world) (p : Z) (n : Z) (z : zmq_globals) : Prop :=
  match g_zmq_context z with
  | NULL => n = 0
  | Some c =>
      is_Some (zw_procs w !! g_context_owner_pid z) /\
      if p =? g_context_owner_pid z
      then n = g_context_ref_count z /\ 1 <= n /\ zw_live w !! c = Some p
      else n = 0
  end.

Definition world_ok (tr : list zmq_event) (w : zmq_world) : Prop :=
  (forall p z, zw_procs w !! p = Some z -> proc_ok w p (refs p tr) z) /\
  (forall p, zw_procs w !! p = None -> refs p tr = 0) /\
  (forall c p, zw_live w !! c = Some p -> (c < zw_next w)%nat).

Lemma refs_snoc p tr e : refs p (tr ++ [e]) = ref_event p (refs p tr) e.
Proof. unfold refs. by rewrite foldl_app. Qed.

Lemma ref_event_other p q n e :
  p <> q -> match e with EvAcquire r _ | EvTerm r _ | EvFork _ r => r = q end -> ref_event p n e = n.
Proof.
  intros H E. destruct e as [r [c|]|r t|r c]; cbn in *; subst; rewrite ?(proj2 (Z.eqb_neq q p)) by congruence; done.
Qed.

Lemma refs_bound p tr : 0 <= refs p tr <= Z.of_nat (length tr).
Proof.
  induction tr as [|e tr IH] using rev_ind; [done|]. rewrite refs_snoc, length_app. cbn [length].
  destruct e as [q [c|]|q t|q c]; cbn; try destruct (_ =? _); lia.
Qed.

(** A change of one process leaves the others' globals right, if the contexts
    they own stay. *)
Lemma others_ok w w' q tr e z' :
  (forall p z, zw_procs w !! p = Some z -> proc_ok w p (refs p tr) z) ->
  match e with EvAcquire r _ | EvTerm r _ | EvFork _ r => r = q end ->
  zw_procs w' = <[q := z']> (zw_procs w) ->
  (forall c p, p <> q -> zw_live w !! c = Some p -> zw_live w' !! c = Some p) ->
  forall p z, p <> q -> zw_procs w' !! p = Some z -> proc_ok w' p (refs p (tr ++ [e])) z.
Proof.
  intros HI He HP HL p z Hne Hz. rewrite HP, lookup_insert_ne in Hz by done. specialize (HI p z Hz).
  rewrite refs_snoc, (ref_event_other p q) by done. unfold proc_ok in *. destruct (g_zmq_context z) as [c|]; [|done].
  destruct HI as [[zo Ho] HI]. split.
  - rewrite HP. destruct (decide (q = g_context_owner_pid z)) as [->|];
      [rewrite lookup_insert_eq; by eexists|rewrite lookup_insert_ne by done; by eexists].
  - destruct (p =? g_context_owner_pid z); [|done]. destruct HI as (H1 & H2 & H3). split_and!; try done. by apply HL.
Qed.

Lemma acquire_cases pid created z got z' n w :
  proc_ok w pid n z -> 0 <= n < 2 ^ 31 - 1 -> vom_zmq_context pid created z = (got, z') ->
  (exists c, g_zmq_context z = Some c /\ g_context_owner_pid z = pid /\ got = Some c /\
     z' = {| g_zmq_context := Some c; g_context_ref_count := n + 1; g_context_owner_pid := pid |} /\
     1 <= n /\ zw_live w !! c = Some pid) \/
  (n = 0 /\ got = created /\
   (forall c, created = Some c -> z' = {| g_zmq_context := Some c; g_context_ref_count := 1; g_context_owner_pid := pid |}) /\
   (created = NULL -> g_zmq_context z' = NULL)).
Proof.
  intros H Hn. unfold proc_ok, vom_zmq_context in *. destruct (g_zmq_context z) as [c|] eqn:E.
  - destruct H as [_ H]. destruct (Z.eqb_spec pid (g_context_owner_pid z)) as [->|Hne]; cbn [negb].
    + destruct H as (-> & H2 & H3). rewrite E. intros [= <- <-]. left. exists c. rewrite s32_id by (unfold in_s32; lia). done.
    + cbn [g_zmq_context]. destruct created as [c'|]; intros [= <- <-]; right; split_and!; try done; by intros ? [= <-].
  - rewrite E. destruct created as [c'|]; intros [= <- <-]; right; split_and!; try done; by intros ? [= <-].
Qed.

Lemma acquire_ok tr w pid z ok got z' :
  world_ok tr w -> Z.of_nat (length tr) < 2 ^ 31 - 1 -> zw_procs w !! pid = Some z ->
  vom_zmq_context pid (if ok : bool then Some (zw_next w) else NULL) z = (got, z') ->
  let w' := {| zw_procs := <[pid := z']> (zw_procs w);
               zw_live := if bool_decide (got = Some (zw_next w)) then <[zw_next w := pid]> (zw_live w) else zw_live w;
               zw_next := S (zw_next w) |} in
  world_ok (tr ++ [EvAcquire pid got]) w' /\ (forall c, got = Some c -> zw_live w' !! c = Some pid).
Proof.
  intros (I1 & I2 & I3) Hl Hp E w'. pose proof (refs_bound pid tr) as Rb.
  assert (forall c q, zw_live w !! c = Some q -> zw_live w' !! c = Some q) as HL.
  { intros c q Hc. pose proof (I3 _ _ Hc). cbn. destruct (bool_decide _); [|done]. rewrite lookup_insert_ne by lia. done. }
  assert (is_Some (zw_procs w' !! pid)) as Hown by (cbn; rewrite lookup_insert_eq; by eexists).
  assert (proc_ok w' pid (refs pid (tr ++ [EvAcquire pid got])) z' /\ (forall c, got = Some c -> zw_live w' !! c = Some pid)) as [Hme Hlive].
  { rewrite refs_snoc. unfold ref_event. rewrite Z.eqb_refl.
    destruct (acquire_cases _ _ _ _ _ _ _ (I1 _ _ Hp) ltac:(lia) E) as [(c & _ & _ & -> & -> & H1 & H2)|(Hn & Hg & H1 & H2)].
    - split; [|intros ? [= <-]; by apply HL]. unfold proc_ok. cbn [g_zmq_context g_context_owner_pid g_context_ref_count].
      split; [done|]. rewrite Z.eqb_refl. split_and!; [done|lia|by apply HL].
    - destruct ok; subst got.
      + rewrite (H1 _ eq_refl). assert (zw_live w' !! zw_next w = Some pid) as Hw
          by (cbn; rewrite bool_decide_eq_true_2 by done; apply lookup_insert_eq).
        split; [|by intros ? [= <-]]. unfold proc_ok. cbn [g_zmq_context g_context_owner_pid g_context_ref_count].
        split; [done|]. rewrite Z.eqb_refl. split_and!; [lia|lia|done].
      + split; [|done]. unfold proc_ok. by rewrite (H2 eq_refl). }
  split; [|done]. split; [|split].
  - intros p y Hy. destruct (decide (p = pid)) as [->|Hne].
    + cbn in Hy. rewrite lookup_insert_eq in Hy. injection Hy as <-. done.
    + eapply others_ok; eauto.
  - intros p Hnone. cbn in Hnone. apply lookup_insert_None in Hnone as [Hn Hne].
    rewrite refs_snoc, (ref_event_other p pid) by done. by apply I2.
  - intros c q Hc. cbn in Hc |- *. destruct (bool_decide _).
    + apply lookup_insert_Some in Hc as [[<- _]|[_ Hc]]; [lia|]. pose proof (I3 _ _ Hc). lia.
    + pose proof (I3 _ _ Hc). lia.
Qed.

Lemma term_cases pid z t z' n w :
  proc_ok w pid n z -> 0 <= n < 2 ^ 31 - 1 -> vom_zmq_context_term pid z = (t, z') ->
  (exists c, t = Some c /\ n = 1 /\ z' = zmq_globals_init /\ zw_live w !! c = Some pid) \/
  (t = None /\ n <> 1 /\ forall w', (forall c, zw_live w !! c = Some pid -> zw_live w' !! c = Some pid) ->
     (forall p, is_Some (zw_procs w !! p) -> is_Some (zw_procs w' !! p)) -> proc_ok w' pid (Z.max 0 (n - 1)) z').
Proof.
  intros H Hn. unfold proc_ok, vom_zmq_context_term in *. destruct (g_zmq_context z) as [c|] eqn:E.
  - destruct H as [Ho H]. destruct (Z.eqb_spec pid (g_context_owner_pid z)) as [Hp|Hne].
    + destruct H as (Hr & H2 & H3). rewrite <- Hr, s32_id by (unfold in_s32; lia). destruct (Z.leb_spec (n - 1) 0).
      * intros [= <- <-]. left. exists c. split_and!; try done. lia.
      * intros [= <- <-]. right. split; [done|]. split; [lia|]. intros w' HL HP.
        cbn [g_zmq_context g_context_owner_pid g_context_ref_count]. split; [by apply HP|].
        rewrite (proj2 (Z.eqb_eq _ _) Hp). split_and!; [lia|lia|by apply HL].
    + intros [= <- <-]. right. split; [done|]. split; [lia|]. intros w' HL HP. rewrite E. split; [by apply HP|].
      rewrite (proj2 (Z.eqb_neq _ _) Hne). lia.
  - intros [= <- <-]. right. split; [done|]. split; [lia|]. intros w' HL HP. rewrite E. lia.
Qed.

Lemma term_ok tr w pid z t z' :
  world_ok tr w -> Z.of_nat (length tr) < 2 ^ 31 - 1 -> zw_procs w !! pid = Some z ->
  vom_zmq_context_term pid z = (t, z') ->
  let w' := {| zw_procs := <[pid := z']> (zw_procs w);
               zw_live := match t with Some c => delete c (zw_live w) | None => zw_live w end;
               zw_next := zw_next w |} in
  world_ok (tr ++ [EvTerm pid t]) w' /\ (forall c, t = Some c -> zw_live w !! c = Some pid) /\
  (t <> None <-> refs pid tr = 1).
Proof.
  intros (I1 & I2 & I3) Hl Hp E w'. pose proof (refs_bound pid tr) as Rb.
  pose proof (term_cases _ _ _ _ _ _ (I1 _ _ Hp) ltac:(lia) E) as C.
  assert (forall c q, q <> pid -> zw_live w !! c = Some q -> zw_live w' !! c = Some q) as HL.
  { intros c q Hq Hc. cbn. destruct t as [d|]; [|done]. destruct C as [(d' & [= <-] & _ & _ & Hd)|[? _]]; [|done].
    rewrite lookup_delete_ne; [done|]. intros ->. congruence. }
  assert (forall p, is_Some (zw_procs w !! p) -> is_Some (zw_procs w' !! p)) as HP.
  { intros p Hs. cbn. destruct (decide (pid = p)) as [->|]; [rewrite lookup_insert_eq; by eexists|by rewrite lookup_insert_ne]. }
  split; [|destruct C as [(c & -> & Hn & _ & Hc)|(-> & Hn & _)]; split; try congruence; split; congruence || done].
  split; [|split].
  - intros p y Hy. destruct (decide (p = pid)) as [->|Hne]; [|by eapply others_ok; eauto].
    cbn in Hy. rewrite lookup_insert_eq in Hy. injection Hy as <-.
    rewrite refs_snoc. cbn [ref_event]. rewrite Z.eqb_refl.
    destruct C as [(c & -> & Hn & -> & Hc)|(-> & Hn & H)]; [unfold proc_ok; cbn; lia|]. by apply H.
  - intros p Hnone. cbn in Hnone. apply lookup_insert_None in Hnone as [Hn Hne].
    rewrite refs_snoc, (ref_event_other p pid) by done. by apply I2.
  - intros c q Hc. cbn in Hc |- *. destruct t; [apply lookup_delete_Some in Hc as [_ Hc]|]; by eapply I3.
Qed.

Lemma fork_ok tr w parent child z :
  world_ok tr w -> zw_procs w !! parent = Some z -> zw_procs w !! child = None ->
  world_ok (tr ++ [EvFork parent child])
    {| zw_procs := <[child := z]> (zw_procs w); zw_live := zw_live w; zw_next := zw_next w |}.
Proof.
  intros (I1 & I2 & I3) Hp Hc. split; [|split].
  - intros p y Hy. destruct (decide (p = child)) as [->|Hne]; [|by eapply others_ok; eauto].
    cbn in Hy. rewrite lookup_insert_eq in Hy. injection Hy as <-. rewrite refs_snoc. cbn [ref_event]. rewrite Z.eqb_refl.
    specialize (I1 _ _ Hp). unfold proc_ok in *. destruct (g_zmq_context z) as [c|]; [|done].
    destruct I1 as [[zo Ho] _]. assert (child <> g_context_owner_pid z) as Hn by congruence.
    cbn. rewrite lookup_insert_ne by done. split; [by eexists|]. by rewrite (proj2 (Z.eqb_neq _ _) Hn).
  - intros p Hnone. cbn in Hnone. apply lookup_insert_None in Hnone as [Hn Hne].
    rewrite refs_snoc, (ref_event_other p child) by done. by apply I2.
  - exact I3.
Qed.

Lemma zmq_run_ok p0 tr w : zmq_run p0 tr w -> Z.of_nat (length tr) < 2 ^ 31 - 1 -> world_ok tr w.
Proof.
  induction 1 as [Hp|tr w e w' R IH St]; intros Hl.
  - split; [|split].
    + intros p z Hz. cbn in Hz. apply lookup_singleton_Some in Hz as [_ <-]. done.
    + done.
    + intros c p Hc. cbn in Hc. by rewrite lookup_empty in Hc.
  - rewrite length_app in Hl. cbn in Hl. specialize (IH ltac:(lia)).
    destruct St as [pid z w ok got z' Hz E|pid z w t z' Hz E|parent child z w Hz Hc Hpos].
    + eapply acquire_ok; eauto. lia.
    + eapply term_ok; eauto. lia.
    + by apply fork_ok.
Qed.

(** C35: The shared messaging context is safe across threads and forks: however
    the processes' acquisitions, releases and forks interleave (up to 2^31 - 2
    events), a process has a context of its own exactly while it holds
    references, the count is exact, and that context exists and was created by
    it; an acquisition, also in a child that inherited its parent's globals,
    only ever returns a context its own process created; and a release
    terminates a context exactly when the last reference goes, one of the
    process's own, which no other process's calls ever terminate. *)
Theorem zmq_context_safe (p0 : Z) (tr : list zmq_event) (w : zmq_world) :
  zmq_run p0 tr w -> Z.of_nat (length tr) < 2 ^ 31 - 1 ->
  (forall p z, zw_procs w !! p = Some z ->
     (0 < refs p tr <-> exists c, g_zmq_context z = Some c /\ g_context_owner_pid z = p) /\
     (forall c, g_zmq_context z = Some c -> g_context_owner_pid z = p ->
        g_context_ref_count z = refs p tr /\ zw_live w !! c = Some p)) /\
  (forall e w', zmq_step w e w' ->
     match e with
     | EvAcquire p (Some c) => zw_live w' !! c = Some p
     | EvTerm p t => (forall c, t = Some c -> zw_live w !! c = Some p) /\ (t <> None <-> refs p tr = 1)
     | _ => True
     end).
Proof.
  intros R Hl. pose proof (zmq_run_ok _ _ _ R Hl) as W. split.
  - intros p z Hz. pose proof (proj1 W p z Hz) as H. unfold proc_ok in H. destruct (g_zmq_context z) as [c|].
    + destruct H as [_ H]. destruct (Z.eqb_spec p (g_context_owner_pid z)) as [->|Hne].
      * destruct H as (H1 & H2 & H3). split; [|by intros ? [= <-] _]. split; [by eexists|lia].
      * split; [|congruence]. split; [lia|]. intros (? & _ & E). congruence.
    + split; [|done]. split; [lia|]. by intros (? & ? & _).
  - intros e w' St. destruct St as [pid z w ok got z' Hz E|pid z w t z' Hz E|parent child z w Hz Hc Hpos]; [..|done].
    + destruct got as [c|]; [|done]. by apply (proj2 (acquire_ok _ _ _ _ _ _ _ W Hl Hz E)).
    + apply (proj2 (term_ok _ _ _ _ _ _ W Hl Hz E)).
Qed.

(** Two references in the parent; the child's release touches nothing, its
    acquisition gives a context of its own. *)
Definition demo_world : zmq_world :=
  {| zw_procs := {[10 := {| g_zmq_context := Some 0%nat; g_context_ref_count := 2; g_context_owner_pid := 10 |}]};
     zw_live := {[0%nat := 10]}; zw_next := 2 |}.

Definition demo_owned (n : Z) : zmq_globals :=
  {| g_zmq_context := Some 0%nat; g_context_ref_count := n; g_context_owner_pid := 10 |}.
Definition demo_world0 : zmq_world := {| zw_procs := {[10 := zmq_globals_init]}; zw_live := ∅; zw_next := 0 |}.
Definition demo_world1 : zmq_world := {| zw_procs := {[10 := demo_owned 1]}; zw_live := {[0%nat := 10]}; zw_next := 1 |}.

Lemma demo_world_run : zmq_run 10 [EvAcquire 10 (Some 0%nat); EvAcquire 10 (Some 0%nat)] demo_world.
Proof.
  assert (zmq_step demo_world0 (EvAcquire 10 (Some 0%nat)) demo_world1) as S1
    by exact (ZAcquire 10 zmq_globals_init demo_world0 true (Some 0%nat) (demo_owned 1) eq_refl eq_refl).
  assert (zmq_step demo_world1 (EvAcquire 10 (Some 0%nat)) demo_world) as S2
    by exact (ZAcquire 10 (demo_owned 1) demo_world1 true (Some 0%nat) (demo_owned 2) eq_refl eq_refl).
  exact (ZStep 10 [EvAcquire 10 (Some 0%nat)] _ _ _ (ZStep 10 [] _ _ _ (ZStart 10 eq_refl) S1) S2).
Qed.

Lemma zmq_context_safe_witness :
  zw_live demo_world !! 0%nat = Some 10 /\
  forall w', zmq_step demo_world (EvTerm 10 None) w' -> refs 10 [EvAcquire 10 (Some 0%nat); EvAcquire 10 (Some 0%nat)] <> 1.
Proof.
  destruct (zmq_context_safe 10 [EvAcquire 10 (Some 0%nat); EvAcquire 10 (Some 0%nat)] demo_world demo_world_run) as [H1 H2].
  - cbn. lia.
  - split.
    + apply (H1 10 {| g_zmq_context := Some 0%nat; g_context_ref_count := 2; g_context_owner_pid := 10 |}); reflexivity.
    + intros w' St. destruct (H2 _ _ St) as [_ H]. intros E. by apply H in E.
Defined.

(** ** The helpers *)

(** The identity always ends within its buffer, cut to fit. *)
Theorem recv_identity_fits (s cap : nat) (frame o : list Z) (more : Z) :
  (0 < cap)%nat -> length o = cap ->
  exists out, vom_zmq_recv_identity (Some s) true (Some frame) more (Some o) cap = (more, Some out) /\
    length out = cap /\ take (Nat.min (length frame) (cap - 1)) out = take (cap - 1) frame /\
    out !! Nat.min (length frame) (cap - 1) = Some 0.
Proof.
  intros Hc Ho. unfold vom_zmq_recv_identity. rewrite (proj2 (Nat.eqb_neq _ _)) by lia. cbn [negb].
  set (k := if (length frame <? cap - 1)%nat then _ else _).
  assert (k = Nat.min (length frame) (cap - 1)) as Hk by (unfold k; destruct (Nat.ltb_spec (length frame) (cap - 1)); lia).
  assert (length (take k frame) = k) as Hlk by (rewrite length_take; lia).
  rewrite <- Hk. eexists. split; [reflexivity|]. split; [|split].
  - rewrite !length_app, length_drop, Hlk. cbn [length]. lia.
  - rewrite take_app_length' by done. rewrite Hk. destruct (Nat.le_gt_cases (length frame) (cap - 1)).
    + rewrite Nat.min_l, !take_ge by lia. done.
    + by rewrite Nat.min_r by lia.
  - rewrite lookup_app_r by lia. by rewrite Hlk, Nat.sub_diag.
Qed.

(** A failed socket keeps the reference it took: no later number of releases by
    its caller accounts for it. *)
Example failed_socket_keeps_reference :
  let '(sock, calls, z) := vom_zmq_make_socket 10 (Some 3%nat) (Some 7%nat) (-1) (Some "tcp://x"%string) false zmq_globals_init in
  sock = NULL /\ g_context_ref_count z = 1.
Proof. vm_compute. split; reflexivity. Qed.

(** The client of an encrypted connection is set up as a server too. *)
Example curve_client_is_server :
  vom_zmq_apply_curve_security (fun _ => 0) (Some 1%nat) (Some "S"%string) (Some "P"%string) (Some "K"%string) =
  (true, [CallSet VOM_ZMQ_CURVE_SERVER (OptInt 1); CallSet VOM_ZMQ_CURVE_PUBLICKEY (OptStr "P");
          CallSet VOM_ZMQ_CURVE_SECRETKEY (OptStr "K"); CallSet VOM_ZMQ_CURVE_SERVERKEY (OptStr "S")]).
Proof. reflexivity. Qed.
