(* ===== verification/UiModel.v ===== *)
(** The view model of the user interface ([ui/src/model.c]): the transformation
    of a cluster snapshot into node and task records.

    The file has its own declarations of the snapshot's types, with more states
    than [master/src/cluster_state.c]; they are kept apart here too. *)
From S2P Require Import Prelude CFloat FloatBounds.

Definition UI_MAX_NODES : nat := 64.
Definition UI_MAX_ACTIVE_TASKS : nat := 256.
Definition UI_MAX_ACTIVE_LEASES : nat := 256.
Definition UI_SHORT_STRING_LEN : nat := 32.

(** * The snapshot *)

Inductive WorkerHealth :=
  WORKER_HEALTH_ONLINE | WORKER_HEALTH_DRAINING | WORKER_HEALTH_OFFLINE | WORKER_HEALTH_SUSPECT.

Inductive ClusterStatus :=
  CLUSTER_STATUS_BOOSTRAP | CLUSTER_STATUS_OPERATIONAL | CLUSTER_STATUS_DEGRADED
| CLUSTER_STATUS_MAINTENANCE | CLUSTER_STATUS_PANIC.

Inductive LeaseStatus :=
  LEASE_STATUS_IDLE | LEASE_STATUS_ASSIGNED | LEASE_STATUS_EXECUTING | LEASE_STATUS_COMMITTED
| LEASE_STATUS_TIMED_OUT | LEASE_STATUS_FAILED.

#[export] Instance WorkerHealth_eq_dec : EqDecision WorkerHealth.
Proof. solve_decision. Defined.
#[export] Instance LeaseStatus_eq_dec : EqDecision LeaseStatus.
Proof. solve_decision. Defined.

Record WorkerResources := {
  res_total_memory_bytes : Z;
  res_reserved_memory_bytes : Z;
  res_total_cores : Z;
  res_reserved_cores : Z
}.

Record WorkerMember := {
  wm_worker_id : Z;
  wm_hostname : string;
  wm_health : WorkerHealth;
  wm_last_heartbeat_monotonic_ms : Z;
  wm_resources : WorkerResources
}.

Record ChunkLease := {
  cl_chunk_id : Z;
  cl_workload_id : Z;
  cl_assigned_worker_id : Z;
  cl_status : LeaseStatus;
  cl_progress_percentage : cfloat;
  cl_failure_retry_count : Z
}.

Record ClusterMetrics := {
  met_aggregate_memory_bytes : Z;
  met_allocated_memory_bytes : Z;
  met_aggregate_cores : Z;
  met_allocated_cores : Z;
  met_active_worker_count : Z
}.

(** The live entries of [active_workers] (at most 32) and [active_leases] (at
    most 128). *)
Record ClusterStateSnapshot := {
  ss_cluster_uuid : string;
  ss_master_epoch : Z;
  ss_state_generation_version : Z;
  ss_global_status : ClusterStatus;
  ss_active_workers : list WorkerMember;
  ss_active_leases : list ChunkLease;
  ss_metrics : ClusterMetrics
}.

(** * The view model *)

Inductive UiHealthStatus := UI_HEALTH_UNKNOWN | UI_HEALTH_OK | UI_HEALTH_WARN | UI_HEALTH_CRIT.

Record UiNodeRecord := {
  un_node_id : Z;
  un_display_name : string;
  un_health : UiHealthStatus;
  un_memory_utilization_pct : cdouble;
  un_cpu_utilization_pct : cdouble;
  un_is_draining : bool;
  un_ms_since_last_heartbeat : Z
}.

Record UiTaskRecord := {
  ut_chunk_id : Z;
  ut_workload_id : Z;
  ut_assigned_node_id : Z;
  ut_status_text : string;
  ut_progress_normalized : cfloat;
  ut_requires_attention : bool
}.

Record UiLogicalDeviceViewModel := {
  vm_device_uuid : string;
  vm_logical_epoch : Z;
  vm_last_version_seen : Z;
  vm_summary_health : UiHealthStatus;
  vm_operational_status_text : string;
  vm_cluster_total_memory_gb : cdouble;
  vm_cluster_used_memory_gb : cdouble;
  vm_cluster_overall_cpu_pct : cdouble;
  vm_nodes : list UiNodeRecord;
  vm_tasks : list UiTaskRecord
}.

(** * The transformation *)

(** [strncpy (dst, text, UI_SHORT_STRING_LEN - 1)] *)
Definition short (text : string) : string := strncpy (UI_SHORT_STRING_LEN - 1) text.

Definition summary (st : ClusterStatus) : UiHealthStatus * string :=
  match st with
  | CLUSTER_STATUS_BOOSTRAP => (UI_HEALTH_WARN, short "RECOVERING/BOOT")
  | CLUSTER_STATUS_OPERATIONAL => (UI_HEALTH_OK, short "HEALTHY")
  | CLUSTER_STATUS_DEGRADED => (UI_HEALTH_WARN, short "DEGRADED")
  | CLUSTER_STATUS_MAINTENANCE => (UI_HEALTH_UNKNOWN, short "MAINTENANCE")
  | CLUSTER_STATUS_PANIC => (UI_HEALTH_CRIT, short "CRITICAL FAILURE")
  end.

(** [((double) part / (double) whole) * 100.0], left at 0 for an empty whole. *)
Definition percentage (part whole : Z) : cdouble :=
  if whole >? 0 then dmul (ddiv (double_of_Z part) (double_of_Z whole)) (double_of_Z 100)
  else S754_zero false.

Definition node_health (h : WorkerHealth) : UiHealthStatus :=
  match h with
  | WORKER_HEALTH_ONLINE => UI_HEALTH_OK
  | WORKER_HEALTH_SUSPECT => UI_HEALTH_WARN
  | WORKER_HEALTH_OFFLINE => UI_HEALTH_CRIT
  | WORKER_HEALTH_DRAINING => UI_HEALTH_WARN
  end.

Definition node_record (now : Z) (src : WorkerMember) : UiNodeRecord :=
  let r := wm_resources src in
  {| un_node_id := wm_worker_id src;
     un_display_name := short (wm_hostname src);
     un_health := node_health (wm_health src);
     un_memory_utilization_pct := percentage (res_reserved_memory_bytes r) (res_total_memory_bytes r);
     un_cpu_utilization_pct := percentage (res_reserved_cores r) (res_total_cores r);
     un_is_draining := bool_decide (wm_health src = WORKER_HEALTH_DRAINING);
     un_ms_since_last_heartbeat :=
       if now >=? wm_last_heartbeat_monotonic_ms src
       then u64 (now - wm_last_heartbeat_monotonic_ms src) else 0 |}.

Definition status_text (st : LeaseStatus) : string :=
  short match st with
        | LEASE_STATUS_IDLE => "QUEUED" | LEASE_STATUS_ASSIGNED => "DISPATCHED"
        | LEASE_STATUS_EXECUTING => "RUNNING" | LEASE_STATUS_COMMITTED => "FINISHED"
        | LEASE_STATUS_TIMED_OUT => "TIMEOUT" | LEASE_STATUS_FAILED => "FAILED"
        end.

Definition task_record (src : ChunkLease) : UiTaskRecord :=
  {| ut_chunk_id := cl_chunk_id src;
     ut_workload_id := cl_workload_id src;
     ut_assigned_node_id := cl_assigned_worker_id src;
     ut_status_text := status_text (cl_status src);
     ut_progress_normalized := fdiv (cl_progress_percentage src) (float_of_Z 100);
     ut_requires_attention := cl_failure_retry_count src >=? 3 |}.

(** The loop over the first [limit] workers, [nodes] being filled so far. *)
Fixpoint node_loop (now : Z) (limit : nat) (src : list WorkerMember) (nodes : list UiNodeRecord) :
    list UiNodeRecord :=
  match limit, src with
  | S limit, w :: src => node_loop now limit src (nodes ++ [node_record now w])
  | _, _ => nodes
  end.

(** The loop over the leases, with its early exit when the tasks are full. *)
Fixpoint task_loop (limit : nat) (src : list ChunkLease) (tasks : list UiTaskRecord) : list UiTaskRecord :=
  match limit, src with
  | S limit, l :: src =>
      if (UI_MAX_ACTIVE_TASKS <=? length tasks)%nat then tasks
      else task_loop limit src (tasks ++ [task_record l])
  | _, _ => tasks
  end.

Definition gb : cdouble := dmul (dmul (double_of_Z 1024) (double_of_Z 1024)) (double_of_Z 1024).

(** [out_model]: the caller's structure before and after. *)
Definition ui_model_transform_snapshot (snapshot : ptr ClusterStateSnapshot) (current_monotonic_ms : Z)
    (out_model : ptr UiLogicalDeviceViewModel) : ptr UiLogicalDeviceViewModel :=
  match snapshot, out_model with
  | Some s, Some _ =>
      let '(health, text) := summary (ss_global_status s) in
      let m := ss_metrics s in
      let limit_nodes := Nat.min (length (ss_active_workers s)) UI_MAX_NODES in
      let limit_leases := Nat.min (length (ss_active_leases s)) UI_MAX_ACTIVE_LEASES in
      Some {| vm_device_uuid := strncpy 63 (ss_cluster_uuid s);
              vm_logical_epoch := ss_master_epoch s;
              vm_last_version_seen := ss_state_generation_version s;
              vm_summary_health := health;
              vm_operational_status_text := text;
              vm_cluster_total_memory_gb := ddiv (double_of_Z (met_aggregate_memory_bytes m)) gb;
              vm_cluster_used_memory_gb := ddiv (double_of_Z (met_allocated_memory_bytes m)) gb;
              vm_cluster_overall_cpu_pct := percentage (met_allocated_cores m) (met_aggregate_cores m);
              vm_nodes := node_loop current_monotonic_ms limit_nodes (ss_active_workers s) [];
              vm_tasks := task_loop limit_leases (ss_active_leases s) [] |}
  | _, _ => out_model
  end.

(** * Lemmas *)

Lemma node_loop_map now n src acc :
  node_loop now n src acc = acc ++ (node_record now <$> take n src).
Proof.
  revert src acc. induction n as [|n IH]; intros [|w src] acc; cbn [node_loop take];
    try (cbn; by rewrite app_nil_r).
  rewrite IH, <- app_assoc. done.
Qed.

Lemma task_loop_map n src acc :
  (length acc + n <= UI_MAX_ACTIVE_TASKS)%nat ->
  task_loop n src acc = acc ++ (task_record <$> take n src).
Proof.
  revert src acc. induction n as [|n IH]; intros [|w src] acc Hn; cbn [task_loop take];
    try (cbn; by rewrite app_nil_r).
  rewrite (proj2 (Nat.leb_gt _ _)) by lia. rewrite IH by (rewrite length_app; cbn [length]; lia).
  by rewrite <- app_assoc.
Qed.

(** The six texts fit and are distinct. *)
Lemma status_text_inj a b : status_text a = status_text b -> a = b.
Proof. destruct a, b; vm_compute; congruence. Qed.

(** * Properties *)

(** The view model shows the whole cluster and nothing else: for a
    snapshot within its own array bounds, every worker and lease gets exactly
    one record, in order; a node is OK exactly if its worker is ONLINE, shows
    draining exactly if it is, and its heartbeat age is never negative; two
    tasks show the same status text exactly if their leases have the same
    status, and a task asks for attention exactly from three failures on; a
    missing snapshot leaves the model as it was. *)
Theorem ui_model_faithful (s : ClusterStateSnapshot) (now : Z) (old : UiLogicalDeviceViewModel) :
  (length (ss_active_workers s) <= 32)%nat -> (length (ss_active_leases s) <= 128)%nat -> in_u64 now ->
  (forall w, w ∈ ss_active_workers s -> in_u64 (wm_last_heartbeat_monotonic_ms w)) ->
  ui_model_transform_snapshot NULL now (Some old) = Some old /\
  exists m, ui_model_transform_snapshot (Some s) now (Some old) = Some m /\
  vm_last_version_seen m = ss_state_generation_version s /\
  (vm_summary_health m = UI_HEALTH_OK <-> ss_global_status s = CLUSTER_STATUS_OPERATIONAL) /\
  Forall2 (fun w n => un_node_id n = wm_worker_id w /\
     (un_health n = UI_HEALTH_OK <-> wm_health w = WORKER_HEALTH_ONLINE) /\
     (un_is_draining n = true <-> wm_health w = WORKER_HEALTH_DRAINING) /\
     un_ms_since_last_heartbeat n = Z.max 0 (now - wm_last_heartbeat_monotonic_ms w))
    (ss_active_workers s) (vm_nodes m) /\
  Forall2 (fun l t => ut_chunk_id t = cl_chunk_id l /\ ut_assigned_node_id t = cl_assigned_worker_id l /\
     (ut_requires_attention t = true <-> 3 <= cl_failure_retry_count l))
    (ss_active_leases s) (vm_tasks m) /\
  (forall i j l k t u, ss_active_leases s !! i = Some l -> ss_active_leases s !! j = Some k ->
     vm_tasks m !! i = Some t -> vm_tasks m !! j = Some u ->
     (ut_status_text t = ut_status_text u <-> cl_status l = cl_status k)).
Proof.
  intros Hw Hl Hn Hh. split; [done|]. unfold ui_model_transform_snapshot.
  destruct (summary (ss_global_status s)) as [h t] eqn:ES. eexists. split; [reflexivity|].
  cbn [vm_last_version_seen vm_summary_health vm_nodes vm_tasks].
  rewrite node_loop_map, task_loop_map by (cbn [length]; unfold UI_MAX_ACTIVE_TASKS, UI_MAX_ACTIVE_LEASES; lia).
  rewrite !take_ge by (unfold UI_MAX_NODES, UI_MAX_ACTIVE_LEASES; lia). cbn [app].
  split; [done|]. split; [|split; [|split]].
  - destruct (ss_global_status s); injection ES as <- _; split; congruence.
  - apply Forall2_fmap_r, Forall_Forall2_diag, Forall_forall. intros w Hin. specialize (Hh w Hin).
    cbn [compose node_record un_node_id un_health un_is_draining un_ms_since_last_heartbeat].
    split; [done|]. split; [destruct (wm_health w); cbn [node_health]; split; congruence|]. split; [by rewrite bool_decide_eq_true|].
    unfold in_u64 in *. destruct (now >=? _) eqn:E; bprop; [rewrite u64_id by (unfold in_u64; lia); lia|lia].
  - apply Forall2_fmap_r, Forall_Forall2_diag, Forall_forall. intros l Hin.
    cbn [compose task_record ut_chunk_id ut_assigned_node_id ut_requires_attention].
    rewrite Z.geb_leb, Z.leb_le. done.
  - intros i j l k x y Hi Hj. rewrite !list_lookup_fmap, Hi, Hj. intros [= <-] [= <-].
    cbn [task_record ut_status_text]. split; [apply status_text_inj|congruence].
Qed.

(** The source's second test. *)
Definition demo_snapshot : ClusterStateSnapshot :=
  {| ss_cluster_uuid := "NODE-CLUSTER-ONE"; ss_master_epoch := 1234567;
     ss_state_generation_version := 105; ss_global_status := CLUSTER_STATUS_OPERATIONAL;
     ss_active_workers :=
       [{| wm_worker_id := 101; wm_hostname := "worker-alpha"; wm_health := WORKER_HEALTH_ONLINE;
           wm_last_heartbeat_monotonic_ms := 4500;
           wm_resources := {| res_total_memory_bytes := 2 ^ 34; res_reserved_memory_bytes := 2 ^ 32;
                              res_total_cores := 8; res_reserved_cores := 2 |} |}];
     ss_active_leases :=
       [{| cl_chunk_id := 5001; cl_workload_id := 9001; cl_assigned_worker_id := 101;
           cl_status := LEASE_STATUS_EXECUTING; cl_progress_percentage := float_of_Z 75;
           cl_failure_retry_count := 0 |}];
     ss_metrics := {| met_aggregate_memory_bytes := 2 ^ 34; met_allocated_memory_bytes := 2 ^ 32;
                      met_aggregate_cores := 8; met_allocated_cores := 2; met_active_worker_count := 1 |} |}.

Definition empty_view : UiLogicalDeviceViewModel :=
  {| vm_device_uuid := ""; vm_logical_epoch := 0; vm_last_version_seen := 0;
     vm_summary_health := UI_HEALTH_UNKNOWN; vm_operational_status_text := "";
     vm_cluster_total_memory_gb := S754_zero false; vm_cluster_used_memory_gb := S754_zero false;
     vm_cluster_overall_cpu_pct := S754_zero false; vm_nodes := []; vm_tasks := [] |}.

Lemma ui_model_faithful_witness : exists m,
  ui_model_transform_snapshot (Some demo_snapshot) 5000 (Some empty_view) = Some m /\
  vm_last_version_seen m = 105 /\ vm_cluster_overall_cpu_pct m = double_of_Z 25 /\
  (un_ms_since_last_heartbeat <$> vm_nodes m) = [500] /\ (ut_status_text <$> vm_tasks m) = ["RUNNING"].
Proof.
  destruct (ui_model_faithful demo_snapshot 5000 empty_view) as (_ & m & E & V & _).
  - cbn. lia.
  - cbn. lia.
  - by split.
  - intros w Hw. cbn in Hw. apply list_elem_of_singleton in Hw. subst w. by split.
  - exists m. split; [exact E|]. split; [exact V|]. vm_compute in E. injection E as <-.
    by split_and!; vm_compute.
Defined.

(** ** Percentages *)

Lemma percentage_ok part whole : 0 <= part <= whole -> whole < 2 ^ 53 -> percent_ok (percentage part whole).
Proof.
  intros H1 H2. unfold percentage. destruct (Z.gtb_spec whole 0); [apply percent_bounds; lia|].
  vm_compute. split; reflexivity.
Qed.

(** No more is reserved than there is, in quantities a [double] counts exactly. *)
Definition resources_ok (w : WorkerMember) : Prop :=
  let r := wm_resources w in
  0 <= res_reserved_memory_bytes r <= res_total_memory_bytes r /\ res_total_memory_bytes r < 2 ^ 53 /\
  0 <= res_reserved_cores r <= res_total_cores r /\ res_total_cores r < 2 ^ 53.

(** The percentages of the view model are between 0 and 100 and never a
    NaN, for every snapshot, whatever its length, whose workers and metrics do
    not reserve more than they have (up to 2^53 bytes); a fully used cluster
    shows exactly 100 and one without cores 0. *)
Theorem ui_percentages_bounded (s : ClusterStateSnapshot) (now : Z) (old m : UiLogicalDeviceViewModel) :
  Forall resources_ok (ss_active_workers s) ->
  0 <= met_allocated_cores (ss_metrics s) <= met_aggregate_cores (ss_metrics s) ->
  met_aggregate_cores (ss_metrics s) < 2 ^ 53 ->
  ui_model_transform_snapshot (Some s) now (Some old) = Some m ->
  percent_ok (vm_cluster_overall_cpu_pct m) /\
  Forall (fun n => percent_ok (un_memory_utilization_pct n) /\ percent_ok (un_cpu_utilization_pct n)) (vm_nodes m) /\
  (met_allocated_cores (ss_metrics s) = met_aggregate_cores (ss_metrics s) ->
   vm_cluster_overall_cpu_pct m =
     if met_aggregate_cores (ss_metrics s) >? 0 then double_of_Z 100 else S754_zero false).
Proof.
  intros Hw Hc1 Hc2. unfold ui_model_transform_snapshot.
  destruct (summary (ss_global_status s)) as [h t]. intros [= <-]. cbn [vm_cluster_overall_cpu_pct vm_nodes].
  split; [by apply percentage_ok|]. split.
  - rewrite node_loop_map. cbn [app]. apply Forall_fmap, Forall_take. eapply Forall_impl; [exact Hw|].
    intros w (H1 & H2 & H3 & H4). cbn [compose node_record un_memory_utilization_pct un_cpu_utilization_pct].
    split; by apply percentage_ok.
  - intros ->. unfold percentage. destruct (Z.gtb_spec (met_aggregate_cores (ss_metrics s)) 0); [|done].
    apply percent_ends. lia.
Qed.

Lemma ui_percentages_bounded_witness : exists m,
  ui_model_transform_snapshot (Some demo_snapshot) 5000 (Some empty_view) = Some m /\
  percent_ok (vm_cluster_overall_cpu_pct m) /\ un_memory_utilization_pct <$> vm_nodes m = [double_of_Z 25].
Proof.
  destruct (ui_model_transform_snapshot (Some demo_snapshot) 5000 (Some empty_view)) as [m|] eqn:E; [|discriminate E].
  exists m. split; [reflexivity|].
  destruct (ui_percentages_bounded demo_snapshot 5000 empty_view m) as (H & _).
  - repeat constructor; cbn; lia.
  - cbn; lia.
  - cbn; lia.
  - exact E.
  - split; [exact H|]. vm_compute in E. injection E as <-. vm_compute. reflexivity.
Defined.

(** Without that condition they are not bounded. *)
Example percentage_above_hundred : percentage 3 2 = double_of_Z 150.
Proof. vm_compute. reflexivity. Qed.
