(* ===== verification/UiCoordinator.v ===== *)
(** The master's UI coordinator ([master/src/ui_coordinator.c]): the view it
    shows, its rendering into a caller's buffer and the check of a user's
    intents. *)
From S2P Require Import Prelude CFloat Scanf.

(** * Records *)

Definition UI_STR_MAX : nat := 64.

Inductive UIClusterHealth := UI_STATE_OK | UI_STATE_DEGRADED | UI_STATE_RECOVERING.
Inductive UIWorkerState := UI_WORKER_ONLINE | UI_WORKER_DRAINING | UI_WORKER_OFFLINE.
Inductive UILeaseState := UI_LEASE_RUNNING | UI_LEASE_COMPLETED | UI_LEASE_FAILED.

Record ui_worker_record := {
  uw_id : Z;
  uw_state : UIWorkerState;
  uw_memory_bytes : Z;
  uw_core_count : Z;
  uw_peripheral_capabilities : string
}.

Record ui_chunk_record := {
  uc_chunk_id : Z;
  uc_lease_id : Z;
  uc_state : UILeaseState;
  uc_progress : cfloat;
  uc_worker_id : Z
}.

(** The arrays with their counts are the lists of their live entries. *)
Record vom_cluster_view_model := {
  cv_cluster_uuid : string;
  cv_master_epoch : Z;
  cv_state_version : Z;
  cv_health : UIClusterHealth;
  cv_total_memory : Z;
  cv_used_memory : Z;
  cv_total_cores : Z;
  cv_used_cores : Z;
  cv_workers : list ui_worker_record;
  cv_chunks : list ui_chunk_record
}.

Record vom_ui_user_intent := {
  ui_command_type : Z;
  ui_target_id : Z;
  ui_text_arg : string
}.

Record vom_ui_coordinator := {
  uc_active_view : vom_cluster_view_model;
  uc_raw_ascii_mode : bool
}.

(** * Operations *)

Definition view_zero : vom_cluster_view_model :=
  {| cv_cluster_uuid := ""; cv_master_epoch := 0; cv_state_version := 0; cv_health := UI_STATE_OK;
     cv_total_memory := 0; cv_used_memory := 0; cv_total_cores := 0; cv_used_cores := 0; cv_workers := []; cv_chunks := [] |}.

Definition vom_ui_coordinator_create (calloc_ok raw_ascii : bool) : ptr vom_ui_coordinator :=
  if calloc_ok then Some {| uc_active_view := view_zero; uc_raw_ascii_mode := raw_ascii |} else NULL.

(** [opaque_snapshot_ptr]: only whether it is [NULL] matters. *)
Definition vom_ui_coordinator_synchronize {A} (opaque_snapshot_ptr : ptr A) (c : vom_ui_coordinator) : vom_ui_coordinator :=
  match opaque_snapshot_ptr with
  | NULL => c
  | Some _ =>
      {| uc_active_view :=
           {| cv_cluster_uuid := strncpy (UI_STR_MAX - 1) "vom-cluster-uuid-4f9e"; cv_master_epoch := 1718900000;
              cv_state_version := 42; cv_health := UI_STATE_DEGRADED; cv_total_memory := 34359738368;
              cv_used_memory := 17179869184; cv_total_cores := 16; cv_used_cores := 8;
              cv_workers := [Build_ui_worker_record 1 UI_WORKER_ONLINE 17179869184 8 "AVX2,DISPLAY_ATTACHED";
                             Build_ui_worker_record 2 UI_WORKER_DRAINING 17179869184 8 "TOUCH_SUPPORTED"];
              cv_chunks := [Build_ui_chunk_record 501 8001 UI_LEASE_RUNNING (fdiv (float_of_Z 655) (float_of_Z 10)) 1] |};
         uc_raw_ascii_mode := uc_raw_ascii_mode c |}
  end.

Definition health_str (h : UIClusterHealth) : string :=
  match h with UI_STATE_OK => "HEALTHY" | UI_STATE_DEGRADED => "DEGRADED" | UI_STATE_RECOVERING => "RECOVERING" end.

Definition newline : string := String (Ascii.ascii_of_nat 10) "".

(** The text before it is cut to the buffer. *)
Definition render_text (v : vom_cluster_view_model) : string :=
  "CLUSTER: " ++ cv_cluster_uuid v ++ " | VERSION: " ++ fmt_d (cv_state_version v) ++ " | STATE: " ++
  health_str (cv_health v) ++ newline ++
  "RESOURCE OVERVIEW: Cores [" ++ fmt_d (cv_used_cores v) ++ "/" ++ fmt_d (cv_total_cores v) ++ "] | Memory [" ++
  fmt_d (cv_used_memory v / 1024 / 1024) ++ "/" ++ fmt_d (cv_total_memory v / 1024 / 1024) ++ "] MB" ++ newline ++
  "CONNECTED WORKERS: " ++ fmt_d (Z.of_nat (length (cv_workers v))) ++ " | ACTIVE CHUNKS DISPATCHED: " ++
  fmt_d (Z.of_nat (length (cv_chunks v))) ++ newline.

(** [out_buf] before and after. *)
Definition vom_ui_coordinator_render_to_buffer (out_buf : ptr string) (max_len : nat) (c : vom_ui_coordinator) : ptr string :=
  match out_buf with
  | NULL => NULL
  | Some old => if (max_len =? 0)%nat then Some old else Some (strncpy (max_len - 1) (render_text (uc_active_view c)))
  end.

(** [out_master_cmd_payload]: whether the pointer is valid; nothing is stored. *)
Definition vom_ui_coordinator_validate_intent (intent : ptr vom_ui_user_intent) (out_master_cmd_payload : bool) : bool :=
  match intent with
  | NULL => false
  | Some i =>
      if negb out_master_cmd_payload then false
      else if ui_command_type i =? 1 then negb (ui_target_id i =? 0)
      else if ui_command_type i =? 2 then negb (String.length (ui_text_arg i) =? 0)%nat
      else false
  end.

(** * Properties *)

(** A rendering fits its buffer, is the whole text when that fits, and an intent
    is accepted exactly if it cancels a chunk that has a number or drains a
    worker that has a name. *)
Theorem ui_render_and_intents (c : vom_ui_coordinator) (old : string) (n : nat) (i : vom_ui_user_intent) :
  (exists out, vom_ui_coordinator_render_to_buffer (Some old) (S n) c = Some out /\ (String.length out <= n)%nat /\
     ((String.length (render_text (uc_active_view c)) <= n)%nat -> out = render_text (uc_active_view c))) /\
  (vom_ui_coordinator_validate_intent (Some i) true = true <->
   (ui_command_type i = 1 /\ ui_target_id i <> 0) \/ (ui_command_type i = 2 /\ ui_text_arg i <> ""%string)).
Proof.
  split.
  - unfold vom_ui_coordinator_render_to_buffer. cbn [Nat.eqb]. rewrite Nat.sub_succ, Nat.sub_0_r.
    eexists. split; [reflexivity|]. split; [rewrite strncpy_length; lia|apply strncpy_short].
  - unfold vom_ui_coordinator_validate_intent. cbn [negb].
    destruct (Z.eqb_spec (ui_command_type i) 1) as [->|N1].
    { destruct (Z.eqb_spec (ui_target_id i) 0); cbn; split; intros; try done; try lia; auto. }
    destruct (Z.eqb_spec (ui_command_type i) 2) as [->|N2]; [|split; [done|lia]].
    destruct (ui_text_arg i); cbn; split; intros H; try done; [destruct H as [[? _]|[_ ?]]; done|right; done].
Qed.

(** The view does not depend on the snapshot it is given. *)
Example synchronize_ignores_snapshot {A} (x y : A) (c : vom_ui_coordinator) :
  vom_ui_coordinator_synchronize (Some x) c = vom_ui_coordinator_synchronize (Some y) c.
Proof. reflexivity. Qed.

(** The source's test. *)
Example render_demo :
  match vom_ui_coordinator_create true true with
  | Some c => vom_ui_coordinator_render_to_buffer (Some ""%string) 30 (vom_ui_coordinator_synchronize (Some tt) c)
  | NULL => NULL
  end = Some "CLUSTER: vom-cluster-uuid-4f9"%string.
Proof. vm_compute. reflexivity. Qed.
