(* ===== verification/Agent.v ===== *)
(** The agent ([agent/src/heartbeat.c], [agent/src/capabilities.c]): the cached
    capabilities with their refresh thread, the sampling of [/proc/stat], the
    CPU percentage, and the event loop that emits heartbeats and watches the
    standard input. *)
From S2P Require Import Prelude CFloat FloatBounds Scanf.

(** * Capabilities *)

Inductive VomCpuArch := VOM_ARCH_X86_64 | VOM_ARCH_AARCH64 | VOM_ARCH_ARMV7 | VOM_ARCH_UNKNOWN.
Inductive VomLinkType := VOM_LINK_ETH | VOM_LINK_WIFI | VOM_LINK_CELLULAR | VOM_LINK_UNKNOWN.

Record vom_worker_capabilities := {
  vc_arch : VomCpuArch;
  vc_cores_online : Z;
  vc_cores_total : Z;
  vc_feature_bitmap : Z;
  vc_ram_total_mb : Z;
  vc_ram_free_mb : Z;
  vc_battery_percent : Z;
  vc_is_charging : bool;
  vc_is_ac_online : bool;
  vc_display_attached : bool;
  vc_display_width : Z;
  vc_display_height : Z;
  vc_touch_supported : bool;
  vc_network_link_type : VomLinkType;
  vc_network_bandwidth_kbps : Z
}.

(** [feature_bitmap] keeps what the structure held before. *)
Definition agent_sys_info_collect (out : ptr vom_worker_capabilities) : bool * ptr vom_worker_capabilities :=
  match out with
  | NULL => (false, NULL)
  | Some o =>
      (true, Some
        {| vc_arch := VOM_ARCH_X86_64; vc_cores_online := 8; vc_cores_total := 8;
           vc_feature_bitmap := vc_feature_bitmap o; vc_ram_total_mb := 16384; vc_ram_free_mb := 8192;
           vc_battery_percent := 95; vc_is_charging := true; vc_is_ac_online := true;
           vc_display_attached := true; vc_display_width := 1920; vc_display_height := 1080;
           vc_touch_supported := true; vc_network_link_type := VOM_LINK_ETH;
           vc_network_bandwidth_kbps := 1000000 |})
  end.

(** The globals; [ag_thread] tells whether a probe thread runs. *)
Record agent_caps := {
  g_cached_caps : vom_worker_capabilities;
  g_probe_thread_active : bool;
  ag_thread : bool
}.

(** One turn of the refresh thread up to its sleep, [stack] being the old
    contents of [fresh_caps]; the thread ends when the flag is down. *)
Definition vom_caps_refresh_turn (stack : vom_worker_capabilities) (a : agent_caps) : agent_caps :=
  if g_probe_thread_active a then
    match agent_sys_info_collect (Some stack) with
    | (true, Some fresh) =>
        {| g_cached_caps := fresh; g_probe_thread_active := g_probe_thread_active a; ag_thread := ag_thread a |}
    | _ => a
    end
  else {| g_cached_caps := g_cached_caps a; g_probe_thread_active := false; ag_thread := false |}.

(** [create_ok]: whether [pthread_create] succeeds. *)
Definition vom_caps_init (create_ok : bool) (a : agent_caps) : bool * agent_caps :=
  if g_probe_thread_active a then (true, a)
  else
    let caps := default (g_cached_caps a) (agent_sys_info_collect (Some (g_cached_caps a))).2 in
    if create_ok then (true, {| g_cached_caps := caps; g_probe_thread_active := true; ag_thread := true |})
    else (false, {| g_cached_caps := caps; g_probe_thread_active := false; ag_thread := ag_thread a |}).

Definition vom_caps_snapshot (a : agent_caps) : vom_worker_capabilities := g_cached_caps a.

(** [pthread_join] returns when the thread has seen the flag. *)
Definition vom_caps_deinit (a : agent_caps) : agent_caps :=
  if g_probe_thread_active a
  then {| g_cached_caps := g_cached_caps a; g_probe_thread_active := false; ag_thread := false |}
  else a.

(** What [vom_caps_build_join_req] puts on its line; nothing for a [NULL]. *)
Definition vom_caps_build_join_req (agent_id : ptr string) (out_proto_struct_ptr : bool) (a : agent_caps) :
    option (string * Z * Z) :=
  match agent_id with
  | Some id =>
      if out_proto_struct_ptr then
        let caps := vom_caps_snapshot a in Some (id, vc_cores_online caps, vc_ram_total_mb caps)
      else None
  | NULL => None
  end.

(** * CPU ticks *)

Record CpuTicks := {
  tk_user : Z; tk_nice : Z; tk_system : Z; tk_idle : Z;
  tk_iowait : Z; tk_irq : Z; tk_softirq : Z; tk_steal : Z
}.

(** The eight fields in the order of the [fscanf]. *)
Definition ticks_list (t : CpuTicks) : list Z :=
  [tk_user t; tk_nice t; tk_system t; tk_idle t; tk_iowait t; tk_irq t; tk_softirq t; tk_steal t].

Definition ticks_of_list (l : list Z) : CpuTicks :=
  {| tk_user := nth 0 l 0; tk_nice := nth 1 l 0; tk_system := nth 2 l 0; tk_idle := nth 3 l 0;
     tk_iowait := nth 4 l 0; tk_irq := nth 5 l 0; tk_softirq := nth 6 l 0; tk_steal := nth 7 l 0 |}.

(** [n] conversions [%llu] in a row: the values stored until one fails. *)
Fixpoint scan_u64s (n : nat) (l : list Z) : list Z :=
  match n with
  | O => []
  | S n => match scan_u64 l with None => [] | Some (v, l) => v :: scan_u64s n l end
  end.

(** The contents of [/proc/stat], [None] when it cannot be opened; fields that
    are not reached keep their old values. *)
Definition sample_cpu_ticks (stat : option (list Z)) (ticks : CpuTicks) : bool * CpuTicks :=
  match stat with
  | None => (false, ticks)
  | Some f =>
      match scan_word 15 f with
      | None => (false, ticks)
      | Some (_, l) =>
          let vs := scan_u64s 8 l in
          ((length vs =? 8)%nat, ticks_of_list (vs ++ drop (length vs) (ticks_list ticks)))
      end
  end.

Definition idle_of (t : CpuTicks) : Z := u64 (tk_idle t + tk_iowait t).
Definition non_idle_of (t : CpuTicks) : Z :=
  u64 (u64 (u64 (u64 (u64 (tk_user t + tk_nice t) + tk_system t) + tk_irq t) + tk_softirq t) + tk_steal t).

Definition calculate_cpu_percentage (prev curr : CpuTicks) : cdouble :=
  let prev_idle := idle_of prev in
  let curr_idle := idle_of curr in
  let prev_total := u64 (prev_idle + non_idle_of prev) in
  let curr_total := u64 (curr_idle + non_idle_of curr) in
  if curr_total <=? prev_total then S754_zero false
  else
    let total_delta := u64 (curr_total - prev_total) in
    let idle_delta := u64 (curr_idle - prev_idle) in
    dmul (ddiv (double_of_Z (u64 (total_delta - idle_delta))) (double_of_Z total_delta)) (double_of_Z 100).

(** * The event loop *)

Definition VOM_HEARTBEAT_INTERVAL_MS : Z := 5000.

(** [struct timeval] *)
Record timeval := { tv_sec : Z; tv_usec : Z }.

(** C's [/] truncates. *)
Definition elapsed_ms (current last : timeval) : Z :=
  (tv_sec current - tv_sec last) * 1000 + Z.quot (tv_usec current - tv_usec last) 1000.

Definition timeout_ms (current last : timeval) : Z :=
  let t := s32 (VOM_HEARTBEAT_INTERVAL_MS - s32 (elapsed_ms current last)) in
  if t <? 0 then 0 else t.

(** A line of output: the percentage and the free memory. *)
Record heartbeat_line := { hb_cpu_pct : cdouble; hb_ram_free_mb : Z }.

Definition vom_heartbeat_emit (cpu_pct : cdouble) (a : agent_caps) : heartbeat_line :=
  {| hb_cpu_pct := cpu_pct; hb_ram_free_mb := vc_ram_free_mb (vom_caps_snapshot a) |}.

Record agent_loop := {
  al_prev_ticks : CpuTicks;
  al_curr_ticks : CpuTicks;
  al_last_heartbeat : timeval;
  al_running : bool
}.

(** What [poll] reports. *)
Inductive poll_outcome :=
| PollError
| PollTimeout
| PollReady (pollin : bool) (length : Z).

(** What one turn finds: the clock, the outcome of [poll] with what a [read]
    would return, the statistics file, the clock after the heartbeat, and the
    capabilities at that moment. *)
Record agent_turn := {
  at_time : timeval;
  at_poll : Z -> poll_outcome;
  at_stat : option (list Z);
  at_time_after : timeval;
  at_caps : agent_caps
}.

(** One turn of the [while] loop: the line it emits, the state, and whether the
    loop was left by [break]. *)
Definition agent_step (t : agent_turn) (s : agent_loop) : list heartbeat_line * agent_loop * bool :=
  match at_poll t (timeout_ms (at_time t) (al_last_heartbeat s)) with
  | PollError => ([], s, true)
  | PollTimeout =>
      let '(ok, curr) := sample_cpu_ticks (at_stat t) (al_curr_ticks s) in
      let line := if ok then vom_heartbeat_emit (calculate_cpu_percentage (al_prev_ticks s) curr) (at_caps t)
                  else vom_heartbeat_emit (S754_zero false) (at_caps t) in
      ([line], {| al_prev_ticks := if ok then curr else al_prev_ticks s; al_curr_ticks := curr;
                  al_last_heartbeat := at_time_after t; al_running := al_running s |}, false)
  | PollReady pollin length =>
      ([], if pollin && (length >? 0)
           then {| al_prev_ticks := al_prev_ticks s; al_curr_ticks := al_curr_ticks s;
                   al_last_heartbeat := al_last_heartbeat s; al_running := false |}
           else s, false)
  end.

(** The loop over the turns the outside world offers. *)
Fixpoint agent_run (ts : list agent_turn) (s : agent_loop) : list heartbeat_line * agent_loop :=
  match ts with
  | [] => ([], s)
  | t :: ts =>
      if al_running s then
        let '(out, s, broke) := agent_step t s in
        if broke then (out, s) else let '(out', s) := agent_run ts s in (out ++ out', s)
      else ([], s)
  end.

(** [main] with its start-up: the result of [pthread_create], the first sample
    and the clock; the exit code, the lines and the capabilities at the end. *)
Definition agent_main (create_ok : bool) (stat : option (list Z)) (stack : CpuTicks * CpuTicks) (start : timeval)
    (ts : list agent_turn) (a : agent_caps) : Z * list heartbeat_line * agent_caps :=
  let '(ok, a) := vom_caps_init create_ok a in
  if negb ok then (1, [], a)
  else
    let prev := (sample_cpu_ticks stat stack.1).2 in
    let '(out, _) := agent_run ts {| al_prev_ticks := prev; al_curr_ticks := stack.2;
                                    al_last_heartbeat := start; al_running := true |} in
    (0, out, vom_caps_deinit a).

(** * Properties *)

(** ** Reading the statistics *)

(** A line of [/proc/stat]: a label and numbers, each behind spaces. *)
Definition stat_line (label : string) (gap : nat) (vs : list Z) : list Z :=
  bytes_of_string label ++ concat ((fun v => replicate (S gap) 32 ++ bytes_of_string (fmt_d v)) <$> vs).

Lemma scan_u64s_line gap vs t :
  Forall in_u64 vs -> match t with [] => True | c :: _ => isdigit c = false end ->
  scan_u64s (length vs) (concat ((fun v => replicate (S gap) 32 ++ bytes_of_string (fmt_d v)) <$> vs) ++ t) = vs.
Proof.
  intros F Ht. induction F as [|v vs Hv F IH]; [done|].
  cbn [length scan_u64s fmap list_fmap concat]. rewrite <- !app_assoc.
  rewrite scan_u64_fmt; [by rewrite IH|by apply Forall_replicate|done|].
  destruct vs; [done|]. done.
Qed.

Definition label_ok (label : string) : Prop :=
  Forall (fun c => isspace c = false) (bytes_of_string label) /\ (0 < String.length label <= 15)%nat.

Lemma sample_stat_line label gap t old rest :
  label_ok label -> Forall in_u64 (ticks_list t) -> match rest with [] => True | c :: _ => isdigit c = false end ->
  sample_cpu_ticks (Some (stat_line label gap (ticks_list t) ++ rest)) old = (true, t).
Proof.
  intros [Hs Hl] Ht Hr. unfold sample_cpu_ticks, stat_line. rewrite <- app_assoc.
  assert (length (bytes_of_string label) = String.length label) as Hlen
    by (clear; induction label as [|c s IH]; cbn; congruence).
  rewrite scan_word_start; [|done| |done|lia].
  2: { intros E. rewrite E in Hlen. cbn in Hlen. lia. }
  change 8%nat with (length (ticks_list t)). rewrite scan_u64s_line by done. cbn. by destruct t.
Qed.

(** ** The percentage *)

(** The counters only grow, and their sum stays below 2^53. *)
Definition ticks_grow (p c : CpuTicks) : Prop :=
  Forall2 (fun x y => 0 <= x <= y) (ticks_list p) (ticks_list c) /\ sumZ id (ticks_list c) < 2 ^ 53.

Definition busy (t : CpuTicks) : Z :=
  tk_user t + tk_nice t + tk_system t + tk_irq t + tk_softirq t + tk_steal t.

Lemma ticks_sums t : Forall (fun x => 0 <= x) (ticks_list t) -> sumZ id (ticks_list t) < 2 ^ 53 ->
  idle_of t = tk_idle t + tk_iowait t /\ non_idle_of t = busy t.
Proof.
  intros F S. unfold ticks_list, sumZ, id in *. cbn [foldr] in S.
  repeat (apply Forall_cons in F as [? F]). unfold idle_of, non_idle_of, busy.
  repeat (match goal with |- context [u64 ?x] =>
    lazymatch x with context [u64 _] => fail | _ => rewrite (u64_id x) by (unfold in_u64; lia) end end).
  done.
Qed.

(** The percentage of the time that was not idle. *)
Lemma cpu_percentage_eq p c : ticks_grow p c ->
  calculate_cpu_percentage p c =
  let total := sumZ id (ticks_list c) - sumZ id (ticks_list p) in
  if total <=? 0 then S754_zero false
  else dmul (ddiv (double_of_Z (busy c - busy p)) (double_of_Z total)) (double_of_Z 100).
Proof.
  intros [F S]. unfold ticks_list, sumZ, id in *. cbn [foldr] in *.
  repeat (apply Forall2_cons in F as [? F]).
  destruct (ticks_sums p) as [P1 P2]; [unfold ticks_list; rewrite !Forall_cons; split_and!; by apply Forall_nil_2 || lia|unfold sumZ, ticks_list, id; cbn [foldr]; lia|].
  destruct (ticks_sums c) as [C1 C2]; [unfold ticks_list; rewrite !Forall_cons; split_and!; by apply Forall_nil_2 || lia|unfold sumZ, ticks_list, id; cbn [foldr]; lia|].
  unfold calculate_cpu_percentage. rewrite P1, P2, C1, C2. unfold busy.
  rewrite !(u64_id (_ + _ + (_ + _))) by (unfold in_u64; lia). cbv zeta.
  match goal with |- (if ?a <=? ?b then _ else _) = (if ?x <=? 0 then _ else _) =>
    replace (x <=? 0) with (a <=? b) by (destruct (Z.leb_spec a b), (Z.leb_spec x 0); lia || done) end.
  destr_if; [done|]. bprop.
  repeat (match goal with |- context [u64 ?x] =>
    lazymatch x with context [u64 _] => fail | _ => rewrite (u64_id x) by (unfold in_u64; lia) end end).
  match goal with |- dmul (ddiv (double_of_Z ?a) (double_of_Z ?b)) _ = dmul (ddiv (double_of_Z ?x) (double_of_Z ?y)) _ =>
    replace a with x by lia; replace b with y by lia end. done.
Qed.

Lemma cpu_percentage_ok p c : ticks_grow p c -> percent_ok (calculate_cpu_percentage p c).
Proof.
  intros H. rewrite cpu_percentage_eq by done. destruct H as [F S]. unfold ticks_list, busy, sumZ, id in *. cbn [foldr] in *.
  repeat (apply Forall2_cons in F as [? F]). cbv zeta. destr_if; [vm_compute; split; reflexivity|]. bprop.
  apply percent_bounds; lia.
Qed.

(** ** Runs *)

Lemma ticks_grow_trans a b c : ticks_grow a b -> ticks_grow b c -> ticks_grow a c.
Proof.
  intros [F _] [G S]. split; [|done]. unfold ticks_list in *.
  repeat (apply Forall2_cons in F as [? F]). repeat (apply Forall2_cons in G as [? G]).
  repeat (apply Forall2_cons; split; [lia|]). done.
Qed.

Lemma ticks_grow_refl a b : ticks_grow a b -> ticks_grow b b.
Proof.
  intros [F S]. split; [|done]. unfold ticks_list in *. repeat (apply Forall2_cons in F as [? F]).
  repeat (apply Forall2_cons; split; [lia|]). done.
Qed.

(** What a statistics file shows, if it can be opened. *)
Definition stat_shows (f : option (list Z)) (t : CpuTicks) : Prop :=
  match f with
  | None => True
  | Some f => exists label gap rest, label_ok label /\ f = stat_line label gap (ticks_list t) ++ rest /\
                match rest with [] => True | c :: _ => isdigit c = false end
  end.

(** Over the turns the counters only grow. *)
Fixpoint stats_grow (p : CpuTicks) (ts : list agent_turn) : Prop :=
  match ts with
  | [] => True
  | t :: ts => exists c, ticks_grow p c /\ stat_shows (at_stat t) c /\ stats_grow c ts
  end.

Lemma ticks_grow_u64 p c : ticks_grow p c -> Forall in_u64 (ticks_list c).
Proof.
  intros [F S]. unfold ticks_list, sumZ, id in *. cbn [foldr] in S. repeat (apply Forall2_cons in F as [? F]).
  unfold in_u64. repeat (apply Forall_cons; split; [lia|]). by apply Forall_nil_2.
Qed.

Lemma sample_shows f c old p : ticks_grow p c -> stat_shows f c ->
  sample_cpu_ticks f old = match f with None => (false, old) | Some _ => (true, c) end.
Proof.
  intros G H. destruct f as [f|]; [|done]. destruct H as (l & g & r & Hl & -> & Hr).
  apply sample_stat_line; [done|by eapply ticks_grow_u64|done].
Qed.

Lemma agent_run_ok ts : forall s p, ticks_grow (al_prev_ticks s) p -> stats_grow p ts ->
  Forall (fun l => percent_ok (hb_cpu_pct l)) (agent_run ts s).1.
Proof.
  induction ts as [|t ts IH]; intros s p Hp Hs; cbn [agent_run]; [constructor|].
  destruct Hs as (c & Hc & Hsh & Hs). destruct (al_running s); [|constructor].
  pose proof (ticks_grow_trans _ _ _ Hp Hc) as Hpc. unfold agent_step. destruct (at_poll _ _) as [| |pin len].
  - constructor.
  - rewrite (sample_shows _ c _ _ Hpc Hsh). destruct (at_stat t) as [f|]; cbn iota;
      match goal with |- context [agent_run ts ?s'] => specialize (IH s' c); destruct (agent_run ts s') as [out s''] end;
      cbn [fst app al_prev_ticks] in *; constructor; cbn [vom_heartbeat_emit hb_cpu_pct].
    + by apply cpu_percentage_ok.
    + apply IH; [by eapply ticks_grow_refl|done].
    + vm_compute. split; reflexivity.
    + by apply IH.
  - match goal with |- context [agent_run ts ?s'] =>
      assert (al_prev_ticks s' = al_prev_ticks s) as E by (by destruct (_ && _));
      specialize (IH s' c); destruct (agent_run ts s') as [out s''] end.
    apply IH; [by rewrite E|done].
Qed.

(** With an unknown first sample, only the first line after a readable one can
    be out of range. *)
Lemma agent_run_any ts : forall s p, ticks_grow p p -> stats_grow p ts ->
  exists pre post, (agent_run ts s).1 = pre ++ post /\ Forall (fun l => percent_ok (hb_cpu_pct l)) pre /\
    Forall (fun l => percent_ok (hb_cpu_pct l)) (tail post).
Proof.
  induction ts as [|t ts IH]; intros s p Hp Hs; cbn [agent_run]; [by exists [], []|].
  destruct Hs as (c & Hc & Hsh & Hs). destruct (al_running s); [|by exists [], []].
  pose proof (ticks_grow_refl _ _ Hc) as Hcc. unfold agent_step. destruct (at_poll _ _) as [| |pin len].
  - by exists [], [].
  - rewrite (sample_shows _ c _ _ Hc Hsh). destruct (at_stat t) as [f|]; cbn iota;
      match goal with |- context [agent_run ts ?s'] =>
        pose proof (agent_run_ok ts s' c) as R; specialize (IH s' c Hcc Hs); destruct (agent_run ts s') as [out s''] end;
      cbn [fst app al_prev_ticks] in *.
    + eexists [], (_ :: out). split; [done|]. split; [done|]. by apply R.
    + destruct IH as (pre & post & -> & I1 & I2). eexists (_ :: pre), post. split; [done|]. split; [|done].
      constructor; [|done]. cbn [vom_heartbeat_emit hb_cpu_pct]. vm_compute. split; reflexivity.
  - match goal with |- context [agent_run ts ?s'] => specialize (IH s' c Hcc Hs); destruct (agent_run ts s') as [out s''] end.
    done.
Qed.

(** C37: The agent's numbers: let the kernel's counters only grow and stay below
    2^53, and every statistics file that can be opened show them.  Then every
    CPU percentage the agent emits is between 0 and 100 and never a NaN if the
    first file could be read, and otherwise (the first difference is then taken
    against what the stack held) every one but at most one.  And the time it waits in [poll]
    is what is left of the five seconds, 0 if the heartbeat is late, for every
    distance of the clock an [int] of milliseconds holds: it is never negative,
    and more than five seconds exactly if the clock has stepped back. *)
Theorem agent_percentages_bounded (create_ok : bool) (stat : option (list Z)) (stack : CpuTicks * CpuTicks) (start : timeval)
    (ts : list agent_turn) (a : agent_caps) (t0 : CpuTicks) :
  stat_shows stat t0 -> ticks_grow t0 t0 -> stats_grow t0 ts ->
  (let out := (agent_main create_ok stat stack start ts a).1.2 in
   exists pre post, out = pre ++ post /\ Forall (fun l => percent_ok (hb_cpu_pct l)) pre /\
     Forall (fun l => percent_ok (hb_cpu_pct l)) (if stat then post else tail post)) /\
  forall current last, 5000 - 2 ^ 31 < elapsed_ms current last < 2 ^ 31 ->
    timeout_ms current last = Z.max 0 (5000 - elapsed_ms current last) /\
    0 <= timeout_ms current last /\ (timeout_ms current last <= 5000 <-> 0 <= elapsed_ms current last).
Proof.
  intros H0 G0 Hs. split.
  - cbv zeta. unfold agent_main. destruct (vom_caps_init create_ok a) as [[] a']; [|exists [], []; by destruct stat]. cbn [negb].
    rewrite (sample_shows _ t0 _ _ G0 H0). destruct stat as [f|]; cbn [snd];
      match goal with |- context [agent_run ts ?s'] => pose proof (agent_run_ok ts s' t0 G0 Hs) as R || pose proof (agent_run_any ts s' t0 G0 Hs) as R;
        destruct (agent_run ts s') as [out s''] end; cbn [fst snd] in *; [|exact R].
    exists out, []. by rewrite app_nil_r.
  - intros cur last He. unfold timeout_ms. rewrite (s32_id (elapsed_ms cur last)) by (unfold in_s32; lia).
    unfold VOM_HEARTBEAT_INTERVAL_MS. rewrite s32_id by (unfold in_s32; lia). destr_if; bprop; lia.
Qed.

Definition demo_ticks (k : Z) : CpuTicks :=
  {| tk_user := 100 + 3 * k; tk_nice := 0; tk_system := 50; tk_idle := 1000 + k; tk_iowait := 7;
     tk_irq := 0; tk_softirq := 2; tk_steal := 0 |}.
Definition demo_stat (k : Z) : list Z := stat_line "cpu" 1 (ticks_list (demo_ticks k)) ++ bytes_of_string " 0 0".
Definition demo_caps : agent_caps :=
  {| g_cached_caps := {| vc_arch := VOM_ARCH_UNKNOWN; vc_cores_online := 0; vc_cores_total := 0; vc_feature_bitmap := 0;
       vc_ram_total_mb := 0; vc_ram_free_mb := 0; vc_battery_percent := 0; vc_is_charging := false; vc_is_ac_online := false;
       vc_display_attached := false; vc_display_width := 0; vc_display_height := 0; vc_touch_supported := false;
       vc_network_link_type := VOM_LINK_UNKNOWN; vc_network_bandwidth_kbps := 0 |};
     g_probe_thread_active := false; ag_thread := false |}.
Definition demo_agent_turn (k : Z) (o : poll_outcome) : agent_turn :=
  {| at_time := {| tv_sec := 5 * k; tv_usec := 0 |}; at_poll := fun _ => o; at_stat := Some (demo_stat k);
     at_time_after := {| tv_sec := 5 * k + 5; tv_usec := 0 |}; at_caps := (vom_caps_init true demo_caps).2 |}.

(** Three busy ticks in four. *)
Lemma agent_percentages_bounded_witness :
  let out := (agent_main true (Some (demo_stat 0)) (demo_ticks 0, demo_ticks 0) {| tv_sec := 0; tv_usec := 0 |}
                [demo_agent_turn 1 PollTimeout; demo_agent_turn 2 (PollReady true 3); demo_agent_turn 3 PollTimeout]
                demo_caps).1.2 in
  Forall (fun l => percent_ok (hb_cpu_pct l)) out /\
  out = [{| hb_cpu_pct := double_of_Z 75; hb_ram_free_mb := 8192 |}].
Proof.
  intros out.
  assert (forall j k, 0 <= j <= k -> k < 100 -> ticks_grow (demo_ticks j) (demo_ticks k)) as G.
  { intros j k H1 H2. split; [unfold ticks_list; cbn [demo_ticks tk_user tk_nice tk_system tk_idle tk_iowait tk_irq tk_softirq tk_steal];
      repeat (apply Forall2_cons; split; [lia|]); apply Forall2_nil; exact I|].
    unfold ticks_list, sumZ, id. cbn [foldr demo_ticks tk_user tk_nice tk_system tk_idle tk_iowait tk_irq tk_softirq tk_steal]. lia. }
  assert (forall k, stat_shows (Some (demo_stat k)) (demo_ticks k)) as W.
  { intros k. exists "cpu"%string, 1%nat, (bytes_of_string " 0 0"). split; [|split; reflexivity].
    split; [repeat constructor|cbn; lia]. }
  split; [|vm_compute; reflexivity].
  destruct (agent_percentages_bounded true (Some (demo_stat 0)) (demo_ticks 0, demo_ticks 0) {| tv_sec := 0; tv_usec := 0 |}
    [demo_agent_turn 1 PollTimeout; demo_agent_turn 2 (PollReady true 3); demo_agent_turn 3 PollTimeout]
    demo_caps (demo_ticks 0)) as [(pre & post & E & I1 & I2) _]; [| | |unfold out; rewrite E; by apply Forall_app].
  - apply W.
  - apply G; lia.
  - exists (demo_ticks 1). split; [apply G; lia|]. split; [apply W|].
    exists (demo_ticks 2). split; [apply G; lia|]. split; [apply W|].
    exists (demo_ticks 3). split; [apply G; lia|]. split; [apply W|exact I].
Defined.

(** The [iowait] counter may also fall; then the percentage leaves the range. *)
Example cpu_percentage_when_iowait_falls :
  calculate_cpu_percentage
    {| tk_user := 0; tk_nice := 0; tk_system := 0; tk_idle := 0; tk_iowait := 10; tk_irq := 0; tk_softirq := 0; tk_steal := 0 |}
    {| tk_user := 20; tk_nice := 0; tk_system := 0; tk_idle := 0; tk_iowait := 0; tk_irq := 0; tk_softirq := 0; tk_steal := 0 |}
  = double_of_Z 200.
Proof. vm_compute. reflexivity. Qed.

(** Standard input at its end is ready at once and reads nothing: as long as it
    is, the agent turns without ever emitting a heartbeat. *)
Theorem agent_silent_at_end_of_input (ts : list agent_turn) (s : agent_loop) :
  Forall (fun t => forall timeout, at_poll t timeout = PollReady true 0) ts -> agent_run ts s = ([], s).
Proof.
  induction 1 as [|t ts Ht _ IH]; cbn [agent_run]; [done|]. destruct (al_running s); [|done].
  unfold agent_step. rewrite Ht. cbn [andb Z.gtb Z.compare]. by rewrite IH.
Qed.

(** The probe thread: it runs exactly while the flag is up, every cached record
    after the first initialisation is the probed one, and shutting down stops
    the thread. *)
Definition caps_ok (a : agent_caps) : Prop :=
  ag_thread a = g_probe_thread_active a /\ (g_probe_thread_active a = true -> vc_ram_total_mb (g_cached_caps a) = 16384).

Theorem agent_caps_invariant (stack : vom_worker_capabilities) (create_ok : bool) (a : agent_caps) :
  caps_ok a ->
  caps_ok (vom_caps_refresh_turn stack a) /\ caps_ok (vom_caps_init create_ok a).2 /\ caps_ok (vom_caps_deinit a) /\
  ag_thread (vom_caps_deinit a) = false /\
  ((vom_caps_init create_ok a).1 = true <-> g_probe_thread_active (vom_caps_init create_ok a).2 = true).
Proof.
  intros [H1 H2]. unfold vom_caps_refresh_turn, vom_caps_init, vom_caps_deinit.
  unfold caps_ok.
  destruct (g_probe_thread_active a) eqn:E, create_ok; cbn; rewrite ?E; intuition congruence.
Qed.
