(* ===== verification/AgentThreads.v ===== *)
(** The probe thread of the agent ([agent/src/capabilities.c], repeated in
    [agent/src/heartbeat.c]) on the thread shim of
    [common/include/common/compat.h]: the main thread and the probe thread
    interleave at every access to the globals, the argument block of the thread
    is a heap block, and the thread is an open handle until it is joined.
    [Agent] models the same operations as single steps. *)
From S2P Require Import Prelude CFloat Scanf Threads Agent.

(** * Members of the structure *)

(** [memcpy]-like copies write one member after the other; [feature_bitmap]
    stands apart, since [vom_sys_info_collect] does not write it. *)
Definition put_caps (arch : VomCpuArch) (online total features ram free battery : Z) (charging ac display : bool)
    (width height : Z) (touch : bool) (link : VomLinkType) (bandwidth : Z) : vom_worker_capabilities :=
  {| vc_arch := arch; vc_cores_online := online; vc_cores_total := total; vc_feature_bitmap := features;
     vc_ram_total_mb := ram; vc_ram_free_mb := free; vc_battery_percent := battery; vc_is_charging := charging;
     vc_is_ac_online := ac; vc_display_attached := display; vc_display_width := width; vc_display_height := height;
     vc_touch_supported := touch; vc_network_link_type := link; vc_network_bandwidth_kbps := bandwidth |}.

Abbreviation caps := vom_worker_capabilities.

Definition collect_members : list (caps -> caps -> caps) :=
  [fun s d => put_caps (vc_arch s) (vc_cores_online d) (vc_cores_total d) (vc_feature_bitmap d) (vc_ram_total_mb d)
     (vc_ram_free_mb d) (vc_battery_percent d) (vc_is_charging d) (vc_is_ac_online d) (vc_display_attached d)
     (vc_display_width d) (vc_display_height d) (vc_touch_supported d) (vc_network_link_type d) (vc_network_bandwidth_kbps d);
   fun s d => put_caps (vc_arch d) (vc_cores_online s) (vc_cores_total d) (vc_feature_bitmap d) (vc_ram_total_mb d)
     (vc_ram_free_mb d) (vc_battery_percent d) (vc_is_charging d) (vc_is_ac_online d) (vc_display_attached d)
     (vc_display_width d) (vc_display_height d) (vc_touch_supported d) (vc_network_link_type d) (vc_network_bandwidth_kbps d);
   fun s d => put_caps (vc_arch d) (vc_cores_online d) (vc_cores_total s) (vc_feature_bitmap d) (vc_ram_total_mb d)
     (vc_ram_free_mb d) (vc_battery_percent d) (vc_is_charging d) (vc_is_ac_online d) (vc_display_attached d)
     (vc_display_width d) (vc_display_height d) (vc_touch_supported d) (vc_network_link_type d) (vc_network_bandwidth_kbps d);
   fun s d => put_caps (vc_arch d) (vc_cores_online d) (vc_cores_total d) (vc_feature_bitmap d) (vc_ram_total_mb s)
     (vc_ram_free_mb d) (vc_battery_percent d) (vc_is_charging d) (vc_is_ac_online d) (vc_display_attached d)
     (vc_display_width d) (vc_display_height d) (vc_touch_supported d) (vc_network_link_type d) (vc_network_bandwidth_kbps d);
   fun s d => put_caps (vc_arch d) (vc_cores_online d) (vc_cores_total d) (vc_feature_bitmap d) (vc_ram_total_mb d)
     (vc_ram_free_mb s) (vc_battery_percent d) (vc_is_charging d) (vc_is_ac_online d) (vc_display_attached d)
     (vc_display_width d) (vc_display_height d) (vc_touch_supported d) (vc_network_link_type d) (vc_network_bandwidth_kbps d);
   fun s d => put_caps (vc_arch d) (vc_cores_online d) (vc_cores_total d) (vc_feature_bitmap d) (vc_ram_total_mb d)
     (vc_ram_free_mb d) (vc_battery_percent s) (vc_is_charging d) (vc_is_ac_online d) (vc_display_attached d)
     (vc_display_width d) (vc_display_height d) (vc_touch_supported d) (vc_network_link_type d) (vc_network_bandwidth_kbps d);
   fun s d => put_caps (vc_arch d) (vc_cores_online d) (vc_cores_total d) (vc_feature_bitmap d) (vc_ram_total_mb d)
     (vc_ram_free_mb d) (vc_battery_percent d) (vc_is_charging s) (vc_is_ac_online d) (vc_display_attached d)
     (vc_display_width d) (vc_display_height d) (vc_touch_supported d) (vc_network_link_type d) (vc_network_bandwidth_kbps d);
   fun s d => put_caps (vc_arch d) (vc_cores_online d) (vc_cores_total d) (vc_feature_bitmap d) (vc_ram_total_mb d)
     (vc_ram_free_mb d) (vc_battery_percent d) (vc_is_charging d) (vc_is_ac_online s) (vc_display_attached d)
     (vc_display_width d) (vc_display_height d) (vc_touch_supported d) (vc_network_link_type d) (vc_network_bandwidth_kbps d);
   fun s d => put_caps (vc_arch d) (vc_cores_online d) (vc_cores_total d) (vc_feature_bitmap d) (vc_ram_total_mb d)
     (vc_ram_free_mb d) (vc_battery_percent d) (vc_is_charging d) (vc_is_ac_online d) (vc_display_attached s)
     (vc_display_width d) (vc_display_height d) (vc_touch_supported d) (vc_network_link_type d) (vc_network_bandwidth_kbps d);
   fun s d => put_caps (vc_arch d) (vc_cores_online d) (vc_cores_total d) (vc_feature_bitmap d) (vc_ram_total_mb d)
     (vc_ram_free_mb d) (vc_battery_percent d) (vc_is_charging d) (vc_is_ac_online d) (vc_display_attached d)
     (vc_display_width s) (vc_display_height d) (vc_touch_supported d) (vc_network_link_type d) (vc_network_bandwidth_kbps d);
   fun s d => put_caps (vc_arch d) (vc_cores_online d) (vc_cores_total d) (vc_feature_bitmap d) (vc_ram_total_mb d)
     (vc_ram_free_mb d) (vc_battery_percent d) (vc_is_charging d) (vc_is_ac_online d) (vc_display_attached d)
     (vc_display_width d) (vc_display_height s) (vc_touch_supported d) (vc_network_link_type d) (vc_network_bandwidth_kbps d);
   fun s d => put_caps (vc_arch d) (vc_cores_online d) (vc_cores_total d) (vc_feature_bitmap d) (vc_ram_total_mb d)
     (vc_ram_free_mb d) (vc_battery_percent d) (vc_is_charging d) (vc_is_ac_online d) (vc_display_attached d)
     (vc_display_width d) (vc_display_height d) (vc_touch_supported s) (vc_network_link_type d) (vc_network_bandwidth_kbps d);
   fun s d => put_caps (vc_arch d) (vc_cores_online d) (vc_cores_total d) (vc_feature_bitmap d) (vc_ram_total_mb d)
     (vc_ram_free_mb d) (vc_battery_percent d) (vc_is_charging d) (vc_is_ac_online d) (vc_display_attached d)
     (vc_display_width d) (vc_display_height d) (vc_touch_supported d) (vc_network_link_type s) (vc_network_bandwidth_kbps d);
   fun s d => put_caps (vc_arch d) (vc_cores_online d) (vc_cores_total d) (vc_feature_bitmap d) (vc_ram_total_mb d)
     (vc_ram_free_mb d) (vc_battery_percent d) (vc_is_charging d) (vc_is_ac_online d) (vc_display_attached d)
     (vc_display_width d) (vc_display_height d) (vc_touch_supported d) (vc_network_link_type d) (vc_network_bandwidth_kbps s)].

Definition caps_members : list (caps -> caps -> caps) :=
  (fun s d => put_caps (vc_arch d) (vc_cores_online d) (vc_cores_total d) (vc_feature_bitmap s) (vc_ram_total_mb d)
     (vc_ram_free_mb d) (vc_battery_percent d) (vc_is_charging d) (vc_is_ac_online d) (vc_display_attached d)
     (vc_display_width d) (vc_display_height d) (vc_touch_supported d) (vc_network_link_type d) (vc_network_bandwidth_kbps d))
  :: collect_members.

(** What [vom_sys_info_collect] makes of a structure, and the zeroed global. *)
Definition collected (c : caps) : caps := default c (agent_sys_info_collect (Some c)).2.

Definition zero_caps : caps :=
  put_caps VOM_ARCH_X86_64 0 0 0 0 0 0 false false false 0 0 false VOM_LINK_ETH 0.

(** * The world *)

(** A thread runs [_vom_thread_entry] with its argument block. *)
Inductive probe_pc :=
| P_entry                       (* targ->func(targ->arg) *)
| P_while                       (* while (g_probe_thread_active) *)
| P_collect                     (* vom_sys_info_collect(&fresh_caps) *)
| P_lock (fresh : caps)
| P_copy (fresh : caps) (k : nat)   (* g_cached_caps = fresh_caps *)
| P_unlock
| P_sleep (i : nat)             (* for (i < 30 && active) sleep(1) *)
| P_free                        (* free(targ) *)
| P_end.

Record probe := { p_block : nat; p_pc : probe_pc }.

Inductive main_pc :=
| M_idle
| I_lock | I_check | I_early | I_collect (k : nat) | I_flag | I_unlock
| I_malloc | I_begin (targ : nat) | I_free (targ : nat) | I_fail | I_store
| S_lock (snapshot : caps) | S_copy (snapshot : caps) (k : nat) | S_unlock (snapshot : caps)
| D_check | D_clear | D_wait | D_close.

(** [a_thread] is the thread whose handle is open; a fault is a block freed
    twice, a handle closed that is not open, or a thread started while another
    is still to be joined.  [a_out] collects what the calls return. *)
Inductive agent_result := InitDone (ok : bool) | Snapshot (c : caps) | DeinitDone.

Record agent_world := {
  a_caps : caps;
  a_active : bool;
  a_mutex : pthread_mutex_t;
  a_blocks : list nat;
  a_next : nat;
  a_thread : option probe;
  a_main : main_pc;
  a_out : list agent_result;
  a_fault : bool
}.

Definition agent_boot : agent_world :=
  {| a_caps := zero_caps; a_active := false; a_mutex := PTHREAD_MUTEX_INITIALIZER; a_blocks := []; a_next := 0;
     a_thread := None; a_main := M_idle; a_out := []; a_fault := false |}.

(** ** Single accesses *)

Definition set_main (pc : main_pc) (w : agent_world) : agent_world :=
  {| a_caps := a_caps w; a_active := a_active w; a_mutex := a_mutex w; a_blocks := a_blocks w; a_next := a_next w;
     a_thread := a_thread w; a_main := pc; a_out := a_out w; a_fault := a_fault w |}.
Definition set_caps (c : caps) (w : agent_world) : agent_world :=
  {| a_caps := c; a_active := a_active w; a_mutex := a_mutex w; a_blocks := a_blocks w; a_next := a_next w;
     a_thread := a_thread w; a_main := a_main w; a_out := a_out w; a_fault := a_fault w |}.
Definition set_active (b : bool) (w : agent_world) : agent_world :=
  {| a_caps := a_caps w; a_active := b; a_mutex := a_mutex w; a_blocks := a_blocks w; a_next := a_next w;
     a_thread := a_thread w; a_main := a_main w; a_out := a_out w; a_fault := a_fault w |}.
Definition set_mutex (mx : pthread_mutex_t) (w : agent_world) : agent_world :=
  {| a_caps := a_caps w; a_active := a_active w; a_mutex := mx; a_blocks := a_blocks w; a_next := a_next w;
     a_thread := a_thread w; a_main := a_main w; a_out := a_out w; a_fault := a_fault w |}.
Definition set_thread (p : option probe) (w : agent_world) : agent_world :=
  {| a_caps := a_caps w; a_active := a_active w; a_mutex := a_mutex w; a_blocks := a_blocks w; a_next := a_next w;
     a_thread := p; a_main := a_main w; a_out := a_out w; a_fault := a_fault w |}.
Definition emit (r : agent_result) (w : agent_world) : agent_world :=
  {| a_caps := a_caps w; a_active := a_active w; a_mutex := a_mutex w; a_blocks := a_blocks w; a_next := a_next w;
     a_thread := a_thread w; a_main := M_idle; a_out := a_out w ++ [r]; a_fault := a_fault w |}.
Definition alloc (w : agent_world) : agent_world :=
  {| a_caps := a_caps w; a_active := a_active w; a_mutex := a_mutex w; a_blocks := a_next w :: a_blocks w;
     a_next := S (a_next w); a_thread := a_thread w; a_main := a_main w; a_out := a_out w; a_fault := a_fault w |}.
(** [free (b)] *)
Definition release (b : nat) (w : agent_world) : agent_world :=
  {| a_caps := a_caps w; a_active := a_active w; a_mutex := a_mutex w;
     a_blocks := filter (fun x => x <> b) (a_blocks w); a_next := a_next w; a_thread := a_thread w; a_main := a_main w;
     a_out := a_out w; a_fault := a_fault w || negb (bool_decide (b ∈ a_blocks w)) |}.
Definition fault_if (b : bool) (w : agent_world) : agent_world :=
  {| a_caps := a_caps w; a_active := a_active w; a_mutex := a_mutex w; a_blocks := a_blocks w; a_next := a_next w;
     a_thread := a_thread w; a_main := a_main w; a_out := a_out w; a_fault := a_fault w || b |}.

Definition MAIN : nat := 0.
Definition PROBE : nat := 1.

(** ** The main thread *)

Inductive agent_call := CallInit | CallSnapshot (stack : caps) | CallDeinit.

(** [pthread_create]: [malloc_ok], [begin_ok]: whether [malloc] and
    [_beginthreadex] succeed. *)
Definition pthread_create_step (malloc_ok begin_ok : bool) (pc : main_pc) (w : agent_world) : option agent_world :=
  match pc with
  | I_malloc => Some (if malloc_ok then set_main (I_begin (a_next w)) (alloc w) else set_main I_fail w)
  | I_begin targ =>
      Some (if begin_ok then
              set_main I_store (set_thread (Some {| p_block := targ; p_pc := P_entry |})
                (fault_if (match a_thread w with Some _ => true | None => false end) w))
            else set_main (I_free targ) w)
  | I_free targ => Some (set_main I_fail (release targ w))
  | _ => None
  end.

(** [pthread_join]: [WaitForSingleObject], then [CloseHandle]. *)
Definition pthread_join_step (pc : main_pc) (w : agent_world) : option agent_world :=
  match pc with
  | D_wait =>
      match a_thread w with
      | Some {| p_pc := P_end |} => Some (set_main D_close w)
      | Some _ => None
      | None => Some (set_main D_close (fault_if true w))
      end
  | D_close =>
      Some (emit DeinitDone (set_thread None (fault_if (match a_thread w with Some _ => false | None => true end) w)))
  | _ => None
  end.

(** [call]: what the main thread does next when it is idle. *)
Definition main_exec (malloc_ok begin_ok : bool) (call : agent_call) (w : agent_world) : option agent_world :=
  match a_main w with
  | M_idle =>
      Some (set_main (match call with CallInit => I_lock | CallSnapshot c => S_lock c | CallDeinit => D_check end) w)
  | I_lock => '(_, mx) ← pthread_mutex_lock MAIN (a_mutex w); Some (set_main I_check (set_mutex mx w))
  | I_check => Some (set_main (if a_active w then I_early else I_collect 0) w)
  | I_early => Some (emit (InitDone true) (set_mutex (pthread_mutex_unlock (a_mutex w)).2 w))
  | I_collect k =>
      match collect_members !! k with
      | Some m => Some (set_main (I_collect (S k)) (set_caps (m (collected (a_caps w)) (a_caps w)) w))
      | None => Some (set_main I_flag w)
      end
  | I_flag => Some (set_main I_unlock (set_active true w))
  | I_unlock => Some (set_main I_malloc (set_mutex (pthread_mutex_unlock (a_mutex w)).2 w))
  | (I_malloc | I_begin _ | I_free _) as pc => pthread_create_step malloc_ok begin_ok pc w
  | I_fail => Some (emit (InitDone false) (set_active false w))
  | I_store => Some (emit (InitDone true) w)
  | S_lock c => '(_, mx) ← pthread_mutex_lock MAIN (a_mutex w); Some (set_main (S_copy c 0) (set_mutex mx w))
  | S_copy c k =>
      match caps_members !! k with
      | Some m => Some (set_main (S_copy (m (a_caps w) c) (S k)) w)
      | None => Some (set_main (S_unlock c) w)
      end
  | S_unlock c => Some (emit (Snapshot c) (set_mutex (pthread_mutex_unlock (a_mutex w)).2 w))
  | D_check => Some (if a_active w then set_main D_clear w else emit DeinitDone w)
  | D_clear => Some (set_main D_wait (set_active false w))
  | (D_wait | D_close) as pc => pthread_join_step pc w
  end.

(** ** The probe thread; [stack] is what [fresh_caps] held before *)

Definition set_probe (p : probe) (pc : probe_pc) (w : agent_world) : agent_world :=
  set_thread (Some {| p_block := p_block p; p_pc := pc |}) w.

(** [_vom_thread_entry]: the call through the argument block, and its end. *)
Definition vom_thread_entry_step (p : probe) (w : agent_world) : option agent_world :=
  match p_pc p with
  | P_entry => Some (set_probe p P_while (fault_if (negb (bool_decide (p_block p ∈ a_blocks w))) w))
  | P_free => Some (set_probe p P_end (release (p_block p) w))
  | _ => None
  end.

Definition probe_exec (stack : caps) (w : agent_world) : option agent_world :=
  p ← a_thread w;
  match p_pc p with
  | P_entry | P_free => vom_thread_entry_step p w
  | P_while => Some (set_probe p (if a_active w then P_collect else P_free) w)
  | P_collect => Some (set_probe p (P_lock (collected stack)) w)
  | P_lock fresh => '(_, mx) ← pthread_mutex_lock PROBE (a_mutex w); Some (set_probe p (P_copy fresh 0) (set_mutex mx w))
  | P_copy fresh k =>
      match caps_members !! k with
      | Some m => Some (set_probe p (P_copy fresh (S k)) (set_caps (m fresh (a_caps w)) w))
      | None => Some (set_probe p P_unlock w)
      end
  | P_unlock => Some (set_probe p (P_sleep 0) (set_mutex (pthread_mutex_unlock (a_mutex w)).2 w))
  | P_sleep i => Some (set_probe p (if (i <? 30)%nat && a_active w then P_sleep (S i) else P_while) w)
  | P_end => None
  end.

Inductive agent_tstep (w : agent_world) : agent_world -> Prop :=
| main_moves mo bo call w' : main_exec mo bo call w = Some w' -> agent_tstep w w'
| probe_moves stack w' : probe_exec stack w = Some w' -> agent_tstep w w'.

Inductive agent_treach : agent_world -> Prop :=
| treach_boot : agent_treach agent_boot
| treach_step w w' : agent_treach w -> agent_tstep w w' -> agent_treach w'.

(** * The invariant *)

(** A structure is whole when it is the zeroed global or the result of one
    collection. *)
Definition whole (c : caps) : Prop := c = zero_caps \/ exists d, c = collected d.

(** The first [k] members copied. *)
Definition upto (ms : list (caps -> caps -> caps)) (k : nat) (src dst : caps) : caps :=
  foldl (fun d m => m src d) dst (take k ms).

Definition phase_ok (pc : main_pc) (active : bool) (th : option probe) : Prop :=
  match pc with
  | M_idle | I_lock | I_check | S_lock _ | S_copy _ _ | S_unlock _ | D_check =>
      active = match th with Some _ => true | None => false end
  | I_early | I_store | D_clear => active = true /\ exists p, th = Some p
  | I_collect _ | I_flag => active = false /\ th = None
  | I_unlock | I_malloc | I_begin _ | I_free _ | I_fail => active = true /\ th = None
  | D_wait => active = false /\ exists p, th = Some p
  | D_close => active = false /\ exists b, th = Some {| p_block := b; p_pc := P_end |}
  end.

Definition main_block (pc : main_pc) : list nat := match pc with I_begin b | I_free b => [b] | _ => [] end.
Definition probe_block (th : option probe) : list nat :=
  match th with None | Some {| p_pc := P_end |} => [] | Some p => [p_block p] end.

Definition main_holds (pc : main_pc) : bool :=
  match pc with I_check | I_early | I_collect _ | I_flag | I_unlock | S_copy _ _ | S_unlock _ => true | _ => false end.
Definition probe_holds (th : option probe) : bool :=
  match th with Some {| p_pc := P_copy _ _ |} | Some {| p_pc := P_unlock |} => true | _ => false end.

Definition owner (pc : main_pc) (th : option probe) : pthread_mutex_t :=
  if main_holds pc then Some MAIN else if probe_holds th then Some PROBE else None.

Definition caps_ok (pc : main_pc) (th : option probe) (c : caps) : Prop :=
  match pc, th with
  | I_collect k, _ => exists c0, whole c0 /\ c = upto collect_members k (collected c0) c0
  | _, Some {| p_pc := P_copy fresh k |} => exists c0, c = upto caps_members k fresh c0
  | _, _ => whole c
  end.

Definition fresh_ok (th : option probe) : Prop :=
  match th with
  | Some {| p_pc := P_lock c |} | Some {| p_pc := P_copy c _ |} => whole c
  | _ => True
  end.

Definition snap_ok (pc : main_pc) (c : caps) : Prop :=
  match pc with
  | S_copy s k => exists s0, s = upto caps_members k c s0
  | S_unlock s => s = c
  | _ => True
  end.

(** A thread leaves its loop only after the flag was cleared. *)
Definition late_ok (th : option probe) (active : bool) : Prop :=
  match th with
  | Some {| p_pc := P_free |} | Some {| p_pc := P_end |} => active = false
  | _ => True
  end.

Definition result_ok (r : agent_result) : Prop := match r with Snapshot c => whole c | _ => True end.

Record agent_inv (w : agent_world) : Prop := {
  ai_fault : a_fault w = false;
  ai_phase : phase_ok (a_main w) (a_active w) (a_thread w);
  ai_late : late_ok (a_thread w) (a_active w);
  ai_blocks : a_blocks w = main_block (a_main w) ++ probe_block (a_thread w);
  ai_mutex : a_mutex w = owner (a_main w) (a_thread w);
  ai_one : main_holds (a_main w) && probe_holds (a_thread w) = false;
  ai_caps : caps_ok (a_main w) (a_thread w) (a_caps w);
  ai_fresh : fresh_ok (a_thread w);
  ai_snap : snap_ok (a_main w) (a_caps w);
  ai_out : Forall result_ok (a_out w)
}.

(** ** Copies *)

Lemma upto_S ms k m src dst : ms !! k = Some m -> m src (upto ms k src dst) = upto ms (S k) src dst.
Proof. intros H. unfold upto. by rewrite (take_S_r _ _ _ H), foldl_app. Qed.

Lemma upto_all k src dst : caps_members !! k = None -> upto caps_members k src dst = src.
Proof.
  intros H. apply lookup_ge_None in H. unfold upto. rewrite take_ge by done. by destruct src.
Qed.

Lemma upto_collected k c : collect_members !! k = None -> upto collect_members k (collected c) c = collected c.
Proof. intros H. apply lookup_ge_None in H. unfold upto. rewrite take_ge by done. by destruct c. Qed.

(** What is collected does not depend on what was there. *)
Lemma collect_const k m x y d : collect_members !! k = Some m -> m (collected x) d = m (collected y) d.
Proof.
  intros H. apply list_elem_of_lookup_2 in H. unfold collect_members in H.
  repeat (apply elem_of_cons in H as [->|H]; [reflexivity|]). by apply elem_of_nil in H.
Qed.

Lemma upto_0 ms src dst : upto ms 0 src dst = dst.
Proof. done. Qed.

Lemma whole_collected c : whole (collected c).
Proof. right. by eexists. Qed.

#[local] Hint Resolve whole_collected : core.

Lemma out_snoc l r : Forall result_ok l -> result_ok r -> Forall result_ok (l ++ [r]).
Proof. intros H R. apply Forall_app. split; [done|]. by apply Forall_singleton. Qed.

(** Splits the invariant of the next state and computes its parts. *)
Ltac agent_cases :=
  constructor; cbn [a_fault a_main a_active a_thread a_blocks a_mutex a_caps a_out set_main set_caps set_active set_mutex
    set_thread set_probe emit alloc release fault_if p_pc p_block phase_ok] in *; try done; try (by eauto).

Lemma main_inv mo bo call w w' : agent_inv w -> main_exec mo bo call w = Some w' -> agent_inv w'.
Proof.
  intros I H. pose proof I as [F P L B M O C Fr Sn Ou]. unfold main_exec, pthread_create_step, pthread_join_step in H.
  destruct w as [cp act mx bl nx th pc out flt]. cbn [a_fault a_main a_active a_thread a_blocks a_mutex a_caps a_out] in *.
  destruct pc; cbn [phase_ok main_block main_holds] in *.
  - injection H as <-. destruct call; agent_cases.
  - unfold owner in M. cbn in M. destruct (probe_holds th) eqn:E; subst mx; [done|]. injection H as <-. agent_cases.
  - injection H as <-. destruct act, th as [p|]; try done; agent_cases; eauto. exists cp. by split.
  - injection H as <-. destruct P as [-> [p ->]]. rewrite andb_true_l in O. agent_cases; [unfold owner; by rewrite O|by apply out_snoc].
  - destruct P as [-> ->]. destruct C as (c0 & W & ->). destruct (collect_members !! k) as [m|] eqn:E; injection H as <-; agent_cases.
    + exists c0. split; [done|]. rewrite (collect_const _ _ _ c0 _ E). by rewrite (upto_S _ _ _ _ _ E).
    + change (whole (upto collect_members k (collected c0) c0)). rewrite upto_collected by done. auto.
  - injection H as <-. destruct P as [-> ->]. agent_cases.
  - injection H as <-. destruct P as [-> ->]. agent_cases.
  - destruct P as [-> ->]. destruct mo; injection H as <-; agent_cases. by rewrite B.
  - destruct P as [-> ->]. destruct bo; injection H as <-; agent_cases. by rewrite F.
  - destruct P as [-> ->]. injection H as <-. agent_cases.
    + rewrite F, B. cbn. rewrite bool_decide_true by set_solver. done.
    + rewrite B. cbn [main_block probe_block app]. rewrite filter_cons_False by (intros X; by apply X). done.
  - destruct P as [-> ->]. injection H as <-. agent_cases. by apply out_snoc.
  - injection H as <-. destruct P as [-> [p ->]]. agent_cases. by apply out_snoc.
  - unfold owner in M. cbn in M. destruct (probe_holds th) eqn:E; subst mx; [done|]. injection H as <-. agent_cases. by exists snapshot.
  - destruct Sn as [s0 ->]. destruct (caps_members !! k) as [m|] eqn:E; injection H as <-; agent_cases.
    + exists s0. by rewrite (upto_S _ _ _ _ _ E).
    + by rewrite upto_all.
  - injection H as <-. rewrite andb_true_l in O. cbn in Sn. subst snapshot. agent_cases; [unfold owner; by rewrite O|].
    apply out_snoc; [done|]. cbn. unfold caps_ok in C. destruct th as [[b []]|]; done.
  - destruct act, th as [p|]; try done; injection H as <-; agent_cases; eauto. by apply out_snoc.
  - injection H as <-. destruct P as [-> [[b pc] ->]]. agent_cases. by destruct pc.
  - destruct P as [-> [[b pc] ->]]. destruct pc; try done. injection H as <-. agent_cases.
  - destruct P as [-> [b ->]]. injection H as <-. agent_cases; [by rewrite F|]. by apply out_snoc.
Qed.

(** Outside the parts where the main thread holds the mutex, the probe may. *)
Lemma probe_may_hold pc th : main_holds pc = false -> owner pc th = if probe_holds th then Some PROBE else None.
Proof. unfold owner. by intros ->. Qed.

Lemma caps_outside pc c : main_holds pc = false -> caps_ok pc None c = whole c.
Proof. by destruct pc. Qed.

Lemma snap_outside pc c c' : main_holds pc = false -> snap_ok pc c -> snap_ok pc c'.
Proof. by destruct pc. Qed.

(** The main thread's phase only looks at whether there is a thread, or at its end. *)
Lemma phase_probe pc act b q q' : q <> P_end -> phase_ok pc act (Some {| p_block := b; p_pc := q |}) ->
  phase_ok pc act (Some {| p_block := b; p_pc := q' |}).
Proof. destruct pc; cbn; intros N H; try done; destruct H as [A E]; try done; destruct E as [x E]; try (by eauto). by injection E as -> ->. Qed.

Lemma probe_no_main_block pc act p : phase_ok pc act (Some p) -> main_block pc = [].
Proof. by destruct pc; cbn; try (intros [? ?]). Qed.

Lemma phase_no_collect pc act p : phase_ok pc act (Some p) -> forall k, pc <> I_collect k.
Proof. by destruct pc; cbn; try (intros [? ?]). Qed.

(** Whether a thread is copying. *)
Lemma caps_probe pc act b q c : phase_ok pc act (Some {| p_block := b; p_pc := q |}) ->
  caps_ok pc (Some {| p_block := b; p_pc := q |}) c =
  match q with P_copy fresh k => exists c0, c = upto caps_members k fresh c0 | _ => whole c end.
Proof. destruct pc, q; cbn; try done; by intros [? ?]. Qed.

Lemma probe_inv stack w w' : agent_inv w -> probe_exec stack w = Some w' -> agent_inv w'.
Proof.
  intros I H. pose proof I as [F P L B M O C Fr Sn Ou]. unfold probe_exec, vom_thread_entry_step in H.
  destruct w as [cp act mx bl nx th pc out flt]. cbn [a_fault a_main a_active a_thread a_blocks a_mutex a_caps a_out] in *.
  destruct th as [[b q]|]; [|done]. cbn [mbind option_bind p_pc p_block] in H.
  assert (main_block pc = []) as Bm by (by eapply probe_no_main_block). rewrite (caps_probe _ _ _ _ _ P) in C. rewrite Bm in B.
  assert (forall q', q <> P_end -> phase_ok pc act (Some {| p_block := b; p_pc := q' |})) as Ph
    by (intros q' N; by eapply phase_probe).
  destruct q as [| | |fresh|fresh k| |i| |]; cbn [probe_holds probe_block app] in *.
  - injection H as <-. agent_cases; try (by apply Ph); try (by rewrite Bm); try (by erewrite caps_probe by (by apply Ph)).
    rewrite F, B, bool_decide_true by set_solver. done.
  - injection H as <-. destruct act; agent_cases; try (by apply Ph); try (by rewrite Bm); by erewrite caps_probe by (by apply Ph).
  - injection H as <-. agent_cases; try (by apply Ph); try (by rewrite Bm); try (by apply whole_collected).
    by erewrite caps_probe by (by apply Ph).
  - unfold owner in M. cbn in M. destruct (main_holds pc) eqn:E; subst mx; [done|]. injection H as <-.
    agent_cases; try (by apply Ph); try (by rewrite Bm).
    + unfold owner. by rewrite E.
    + by rewrite E.
    + erewrite caps_probe by (by apply Ph). by exists cp.
  - rewrite andb_true_r in O. destruct C as [c0 ->]. destruct (caps_members !! k) as [m|] eqn:E; injection H as <-;
      agent_cases; try (by apply Ph); try (by rewrite Bm); try (by rewrite O).
    + erewrite caps_probe by (by apply Ph). exists c0. by rewrite (upto_S _ _ _ _ _ E).
    + by eapply snap_outside.
    + erewrite caps_probe by (by apply Ph). by rewrite upto_all.
  - rewrite andb_true_r in O. injection H as <-. agent_cases; try (by apply Ph); try (by rewrite Bm).
    + unfold owner. by rewrite O.
    + by rewrite O.
    + by erewrite caps_probe by (by apply Ph).
  - injection H as <-. destruct ((i <? 30)%nat && act); agent_cases; try (by apply Ph); try (by rewrite Bm);
      by erewrite caps_probe by (by apply Ph).
  - injection H as <-. agent_cases; try (by apply Ph).
    + rewrite F, B, bool_decide_true by set_solver. done.
    + rewrite B, Bm. cbn [probe_block app]. rewrite filter_cons_False by (intros X; by apply X). done.
    + by erewrite caps_probe by (by apply Ph).
  - done.
Qed.

Lemma agent_treach_inv w : agent_treach w -> agent_inv w.
Proof.
  induction 1 as [|w w' _ I [mo bo call w'' H|stack w'' H]]; [|by eapply main_inv|by eapply probe_inv].
  constructor; cbn; try done. by left.
Qed.

(** ** The join returns *)

(** Steps to the end once the flag is down. *)
Definition to_end (q : probe_pc) : nat :=
  match q with
  | P_end => 0 | P_free => 1 | P_while => 2 | P_entry | P_sleep _ => 3 | P_unlock => 4
  | P_copy _ k => 5 + (length caps_members - k) | P_lock _ => 21 | P_collect => 22
  end.

Fixpoint probe_run (n : nat) (stack : caps) (w : agent_world) : agent_world :=
  match n with
  | O => w
  | S n => match probe_exec stack w with Some w' => probe_run n stack w' | None => w end
  end.

Lemma probe_nears_end stack w b q : agent_inv w -> a_main w = D_wait -> a_thread w = Some {| p_block := b; p_pc := q |} ->
  q <> P_end -> exists w' q', probe_exec stack w = Some w' /\ a_main w' = D_wait /\
    a_thread w' = Some {| p_block := b; p_pc := q' |} /\ (to_end q' < to_end q)%nat.
Proof.
  intros I D T N. pose proof (ai_phase _ I) as P. rewrite D in P. destruct P as [A _].
  pose proof (ai_mutex _ I) as M. rewrite D, T in M. unfold probe_exec, vom_thread_entry_step. rewrite T. cbn [mbind option_bind p_pc p_block].
  destruct q as [| | |fresh|fresh k| |i| |]; try done; rewrite ?A, ?andb_false_r; cbn in M; rewrite ?M.
  - do 2 eexists. split_and!; try done. cbn. lia.
  - do 2 eexists. split_and!; try done. cbn. lia.
  - do 2 eexists. split_and!; try done. cbn. lia.
  - do 2 eexists. split_and!; try done. cbn. lia.
  - destruct (caps_members !! k) eqn:E; do 2 eexists; split_and!; try done; cbn [to_end]; [|lia].
    apply lookup_lt_Some in E. lia.
  - do 2 eexists. split_and!; try done. cbn. lia.
  - do 2 eexists. split_and!; try done. cbn. lia.
  - do 2 eexists. split_and!; try done. cbn. lia.
Qed.

Lemma probe_run_ends n : forall stack w b q, agent_inv w -> a_main w = D_wait ->
  a_thread w = Some {| p_block := b; p_pc := q |} -> (to_end q <= n)%nat ->
  a_thread (probe_run n stack w) = Some {| p_block := b; p_pc := P_end |}.
Proof.
  induction n as [|n IH]; intros stack w b q I D T L.
  - destruct q; cbn in L; try lia. exact T.
  - destruct (decide (to_end q = 0)%nat) as [Z|Z].
    + destruct q; cbn in Z; try lia. cbn [probe_run]. unfold probe_exec. by rewrite T.
    + assert (q <> P_end) as N by (by intros ->).
      destruct (probe_nears_end stack w b q I D T N) as (w' & q' & E & D' & T' & L'). cbn [probe_run]. rewrite E.
      eapply IH; [by eapply probe_inv|done|done|lia].
Qed.

Lemma to_end_max q : (to_end q <= 22)%nat.
Proof. destruct q; cbn; lia. Qed.

(** If the main thread waits, the probe can move. *)
Lemma agent_no_deadlock mo bo call stack w : agent_inv w -> main_exec mo bo call w = None -> exists w', probe_exec stack w = Some w'.
Proof.
  intros I H. pose proof (ai_mutex _ I) as M. pose proof (ai_phase _ I) as P. unfold main_exec, pthread_create_step, pthread_join_step in H.
  destruct (a_main w) eqn:D; try done; unfold owner in M; cbn in M.
  - destruct (probe_holds (a_thread w)) eqn:E; rewrite M in H; [|done].
    destruct (a_thread w) as [[b q]|] eqn:T; [|done]. unfold probe_exec, vom_thread_entry_step. rewrite T. cbn [mbind option_bind p_pc].
    destruct q; try done; [destruct (caps_members !! k)|]; by eexists.
  - by destruct (collect_members !! k).
  - destruct (probe_holds (a_thread w)) eqn:E; rewrite M in H; [|done].
    destruct (a_thread w) as [[b q]|] eqn:T; [|done]. unfold probe_exec, vom_thread_entry_step. rewrite T. cbn [mbind option_bind p_pc].
    destruct q; try done; [destruct (caps_members !! k)|]; by eexists.
  - by destruct (caps_members !! k).
  - destruct (a_thread w) as [[b q]|] eqn:T; [|done].
    assert (q <> P_end) as N by (by intros ->).
    destruct (probe_nears_end stack w b q I D T N) as (w' & q' & E & _). by exists w'.
Qed.

(** C38: The agent's probe thread on the Windows thread shim, interleaved with
    the main thread at every access, however the main thread strings together
    [vom_caps_init], [vom_caps_snapshot] and [vom_caps_deinit] and wherever
    [malloc] or thread creation fails: no argument block is freed twice or read
    after it was freed, no handle is closed twice and no thread is started
    beside an unjoined one; a snapshot is always the result of one collection
    (or the zeroed global), never a mixture; the main thread waits only for a
    probe that can move, and after [vom_caps_deinit] has cleared the flag the
    probe ends within 22 of its steps, so the join returns; and when the agent
    is not active between calls, no thread, block or lock is left. *)
Theorem agent_threads_safe (w : agent_world) : agent_treach w ->
  a_fault w = false /\
  (forall c, Snapshot c ∈ a_out w -> whole c) /\
  (forall mo bo call stack, main_exec mo bo call w = None -> exists w', probe_exec stack w = Some w') /\
  (a_main w = D_wait -> forall stack, exists b, a_thread (probe_run 22 stack w) = Some {| p_block := b; p_pc := P_end |}) /\
  (a_main w = M_idle -> a_active w = false -> a_thread w = None /\ a_blocks w = [] /\ a_mutex w = None).
Proof.
  intros R. pose proof (agent_treach_inv w R) as I. split_and!.
  - apply I.
  - intros c Hc. pose proof (ai_out _ I) as O. rewrite Forall_forall in O. exact (O _ Hc).
  - intros mo bo call stack. by eapply agent_no_deadlock.
  - intros D stack. pose proof (ai_phase _ I) as P. rewrite D in P. destruct P as [_ [[b q] T]]. exists b.
    eapply probe_run_ends; [done|done|done|apply to_end_max].
  - intros D A. pose proof (ai_phase _ I) as P. pose proof (ai_blocks _ I) as B. pose proof (ai_mutex _ I) as M.
    rewrite D in *. rewrite A in P. cbn in P. destruct (a_thread w); [done|]. done.
Qed.

(** A run: start, a refresh under way, a snapshot that has to wait for the
    mutex, the stop and the join. *)
Fixpoint agent_trun (moves : list (option agent_call)) (w : agent_world) : agent_world :=
  match moves with
  | [] => w
  | Some call :: ms => agent_trun ms (default w (main_exec true true call w))
  | None :: ms => agent_trun ms (default w (probe_exec zero_caps w))
  end.

Lemma agent_trun_reach ms : forall w, agent_treach w -> agent_treach (agent_trun ms w).
Proof.
  induction ms as [|[call|] ms IH]; intros w R; [done|..]; cbn [agent_trun]; apply IH.
  - destruct (main_exec true true call w) eqn:E; [|done]. eapply treach_step; [done|]. by eapply main_moves.
  - destruct (probe_exec zero_caps w) eqn:E; [|done]. eapply treach_step; [done|]. by eapply probe_moves.
Qed.

Definition agent_demo : agent_world :=
  agent_trun (replicate 24 (Some CallInit) ++ replicate 10 None ++
              concat (replicate 40 [Some (CallSnapshot zero_caps); None]) ++
              concat (replicate 50 [Some CallDeinit; None])) agent_boot.

Lemma agent_threads_safe_witness :
  (length (a_out agent_demo) > 3)%nat /\ a_main agent_demo = M_idle /\ a_thread agent_demo = None /\ a_fault agent_demo = false.
Proof.
  assert (agent_treach agent_demo) as R by (apply agent_trun_reach, treach_boot).
  split_and!; [vm_compute; lia|vm_compute; reflexivity| |].
  - apply (agent_threads_safe agent_demo R); vm_compute; reflexivity.
  - apply (agent_threads_safe agent_demo R).
Defined.
