(* ===== verification/Lifecycle.v ===== *)
(** What the program takes from the system and gives back: heap blocks, mutexes,
    ZeroMQ contexts and sockets.  Every function that creates or destroys a
    context is a program on a ledger of the live resources, every step of a
    creation may fail, and a release of something that is not live, or of a
    ZeroMQ context with an open socket (on which [zmq_ctx_destroy] would block),
    is a fault.  The messages and states of the same components are in
    [Router], [WorkerTransport], [ClusterState], [MasterStart] and [WorkerMain]. *)
From S2P Require Import Prelude Threads ZmqContext.

(** * The ledger *)

(** A mutex is named by the block it lies in, a socket carries its context. *)
Inductive resource := Block (b : nat) | Mutex (b : nat) | Context (c : nat) | Socket (s c : nat).

#[export] Instance resource_eq_dec : EqDecision resource.
Proof. solve_decision. Defined.

Record ledger := { live : list resource; fresh : nat; fault : bool }.

Definition empty_ledger : ledger := {| live := []; fresh := 0; fault := false |}.

Abbreviation acts A := (prog ledger A).

(** [None] is the [NULL] of a failed call. *)
Definition acquire (mk : nat -> resource) (ok : bool) : acts (option nat) :=
  if ok then
    n ← read fresh;
    write (fun l => {| live := mk n :: live l; fresh := S n; fault := fault l |}) ;;
    mret (Some n)
  else mret None.

Definition blocks_on (r : resource) (l : list resource) : bool :=
  match r with
  | Context c => existsb (fun x => match x with Socket _ c' => (c =? c')%nat | _ => false end) l
  | _ => false
  end.

Definition give_back (r : resource) : acts unit :=
  write (fun l => {| live := filter (fun x => x <> r) (live l); fresh := fresh l;
                     fault := fault l || negb (bool_decide (r ∈ live l)) || blocks_on r (live l) |}).

Definition calloc := acquire Block.
Definition zmq_ctx_new := acquire Context.
Definition zmq_socket (c : nat) := acquire (fun n => Socket n c).
(** [pthread_mutex_init] on a mutex in block [b]; it fails with [ok = false]. *)
Definition mutex_init (b : nat) (ok : bool) : acts bool :=
  if ok then write (fun l => {| live := Mutex b :: live l; fresh := fresh l; fault := fault l |}) ;; mret true
  else mret false.

(** * Contexts that are one block *)

(** With a mutex whose initialisation is checked. *)
Definition create_checked (calloc_ok mutex_ok : bool) : acts (option nat) :=
  b ← calloc calloc_ok;
  match b with
  | None => mret None
  | Some b =>
      ok ← mutex_init b mutex_ok;
      if (ok : bool) then mret (Some b) else give_back (Block b) ;; mret None
  end.

(** With a mutex that is taken to be initialised. *)
Definition create_unchecked (calloc_ok : bool) : acts (option nat) :=
  b ← calloc calloc_ok;
  match b with
  | None => mret None
  | Some b => mutex_init b true ;; mret (Some b)
  end.

Definition destroy_locked (ctx : option nat) : acts unit :=
  match ctx with
  | None => mret tt
  | Some b => give_back (Mutex b) ;; give_back (Block b)
  end.

Definition destroy_plain (ctx : option nat) : acts unit :=
  match ctx with
  | None => mret tt
  | Some b => give_back (Block b)
  end.

Definition cluster_state_create_r := create_checked.
Definition cluster_state_destroy_r := destroy_locked.
Definition vom_registry_create_r := create_checked.
Definition vom_registry_destroy_r := destroy_locked.
Definition vom_workload_init_r := create_unchecked.
Definition vom_workload_destroy_r := destroy_locked.
Definition vom_recovery_init_r := create_unchecked.
Definition vom_recovery_destroy_r := destroy_locked.
Definition vom_monitor_init_r := create_unchecked.
Definition vom_monitor_destroy_r := destroy_locked.
Definition vom_worker_state_init_r := create_unchecked.
Definition vom_worker_state_destroy_r := destroy_locked.
Definition vom_worker_recovery_init_r := calloc.
Definition vom_worker_recovery_destroy_r := destroy_plain.
Definition vom_capabilities_manager_create_r := calloc.
Definition vom_capabilities_manager_destroy_r := destroy_plain.
Definition vom_worker_discovery_create_r := calloc.
Definition vom_worker_discovery_destroy_r := destroy_plain.
Definition vom_display_bridge_create_r := calloc.
Definition vom_display_bridge_destroy_r := destroy_plain.
Definition vom_ui_coordinator_create_r := calloc.
Definition vom_ui_coordinator_destroy_r := destroy_plain.

(** * The router and the transport *)

(** The block, the ZeroMQ context and the socket, if one is open. *)
Record endpoint := { ep_block : nat; ep_ctx : nat; ep_sock : option nat }.

Definition ep_set_sock (s : option nat) (e : endpoint) : endpoint :=
  {| ep_block := ep_block e; ep_ctx := ep_ctx e; ep_sock := s |}.

Definition vom_master_router_create_r (calloc_ok ctx_ok : bool) : acts (option endpoint) :=
  b ← calloc calloc_ok;
  match b with
  | None => mret None
  | Some b =>
      c ← zmq_ctx_new ctx_ok;
      match c with
      | None => give_back (Block b) ;; mret None
      | Some c => mutex_init b true ;; mret (Some {| ep_block := b; ep_ctx := c; ep_sock := None |})
      end
  end.

(** The new socket replaces the old one in the structure. *)
Definition endpoint_open (sock_ok attach_ok : bool) (e : endpoint) : acts (bool * endpoint) :=
  s ← zmq_socket (ep_ctx e) sock_ok;
  match s with
  | None => mret (false, ep_set_sock None e)
  | Some s =>
      if attach_ok then mret (true, ep_set_sock (Some s) e)
      else give_back (Socket s (ep_ctx e)) ;; mret (false, ep_set_sock None e)
  end.

Definition vom_master_router_start_r (bind_endpoint : bool) (sock_ok bind_ok : bool) (e : endpoint) : acts (bool * endpoint) :=
  if bind_endpoint then endpoint_open sock_ok bind_ok e else mret (false, e).

Definition close_socket (e : endpoint) : acts unit :=
  match ep_sock e with
  | Some s => give_back (Socket s (ep_ctx e))
  | None => mret tt
  end.

Definition vom_master_router_destroy_r (ctx : option endpoint) : acts unit :=
  match ctx with
  | None => mret tt
  | Some e =>
      close_socket e ;; give_back (Context (ep_ctx e)) ;;
      give_back (Mutex (ep_block e)) ;; give_back (Block (ep_block e))
  end.

Definition vom_worker_transport_create_r (calloc_ok ctx_ok : bool) : acts (option endpoint) :=
  b ← calloc calloc_ok;
  match b with
  | None => mret None
  | Some b =>
      c ← zmq_ctx_new ctx_ok;
      match c with
      | None => give_back (Block b) ;; mret None
      | Some c => mret (Some {| ep_block := b; ep_ctx := c; ep_sock := None |})
      end
  end.

Definition vom_worker_transport_connect_r (endpoint_ok : bool) (sock_ok connect_ok : bool) (e : endpoint) :
    acts (bool * endpoint) :=
  if endpoint_ok then endpoint_open sock_ok connect_ok e else mret (false, e).

Definition vom_worker_transport_disconnect_r (e : endpoint) : acts (bool * endpoint) :=
  match ep_sock e with
  | None => mret (false, e)
  | Some s => give_back (Socket s (ep_ctx e)) ;; mret (true, ep_set_sock None e)
  end.

Definition vom_worker_transport_destroy_r (ctx : option endpoint) : acts unit :=
  match ctx with
  | None => mret tt
  | Some e => close_socket e ;; give_back (Context (ep_ctx e)) ;; give_back (Block (ep_block e))
  end.

(** * The two daemons *)

(** [vom_zmq_context_term] of [common/src/zmq_context.c], with the shared context
    it terminates. *)
Definition vom_zmq_context_term_r (pid : Z) (z : zmq_globals) : acts zmq_globals :=
  let '(terminated, z) := vom_zmq_context_term pid z in
  match terminated with
  | Some c => give_back (Context c) ;; mret z
  | None => mret z
  end.

(** [main] of the master from the cluster state on, its loop left out; the
    result is the exit code.  Nothing on the way calls [vom_zmq_context], so the
    globals of the shared context are the initial ones when it is terminated. *)
Definition master_main_r (pid : Z) (calloc_ok mutex_ok ctx_ok sock_ok bind_ok : bool) : acts Z :=
  cluster_state ← cluster_state_create_r calloc_ok mutex_ok;
  match cluster_state with
  | None => mret 1
  | Some _ =>
      zmq_ctx ← zmq_ctx_new ctx_ok;
      match zmq_ctx with
      | None => cluster_state_destroy_r cluster_state ;; mret 1
      | Some c =>
          router_sock ← zmq_socket c sock_ok;
          match router_sock with
          | None => give_back (Context c) ;; cluster_state_destroy_r cluster_state ;; mret 1
          | Some s =>
              if bind_ok then
                give_back (Socket s c) ;; give_back (Context c) ;; cluster_state_destroy_r cluster_state ;;
                vom_zmq_context_term_r pid zmq_globals_init ;; mret 0
              else
                give_back (Socket s c) ;; give_back (Context c) ;; cluster_state_destroy_r cluster_state ;; mret 1
          end
      end
  end.

(** [send_envelope] of the worker: its buffer. *)
Definition send_envelope_r (malloc_ok send_ok : bool) : acts bool :=
  buf ← calloc malloc_ok;
  match buf with
  | None => mret false
  | Some b => give_back (Block b) ;; mret send_ok
  end.

(** The heartbeats and acknowledgements of the loop, by what [malloc] and
    [zmq_send] say to each. *)
Fixpoint worker_loop_r (sends : list (bool * bool)) : acts unit :=
  match sends with
  | [] => mret tt
  | (m, s) :: sends => send_envelope_r m s ;; worker_loop_r sends
  end.

Definition worker_main_r (ctx_ok sock_ok connect_ok : bool) (join : bool * bool) (sends : list (bool * bool)) : acts Z :=
  ctx ← zmq_ctx_new ctx_ok;
  match ctx with
  | None => mret 1
  | Some c =>
      dealer ← zmq_socket c sock_ok;
      match dealer with
      | None => give_back (Context c) ;; mret 1
      | Some s =>
          if connect_ok then
            sent ← send_envelope_r join.1 join.2;
            if (sent : bool) then worker_loop_r sends ;; give_back (Socket s c) ;; give_back (Context c) ;; mret 0
            else give_back (Socket s c) ;; give_back (Context c) ;; mret 1
          else give_back (Socket s c) ;; give_back (Context c) ;; mret 1
      end
  end.

(** * Sessions *)

(** A life of the transport: connections and disconnections in any number and
    order. *)
Inductive transport_op := Connect (endpoint sock_ok connect_ok : bool) | Disconnect.

Fixpoint transport_ops (ops : list transport_op) (e : endpoint) : acts endpoint :=
  match ops with
  | [] => mret e
  | Connect ep s c :: ops => r ← vom_worker_transport_connect_r ep s c e; transport_ops ops r.2
  | Disconnect :: ops => r ← vom_worker_transport_disconnect_r e; transport_ops ops r.2
  end.

Definition transport_life (calloc_ok ctx_ok : bool) (ops : list transport_op) : acts unit :=
  ctx ← vom_worker_transport_create_r calloc_ok ctx_ok;
  match ctx with
  | None => mret tt
  | Some e => e ← transport_ops ops e; vom_worker_transport_destroy_r (Some e)
  end.

(** A life of the router: it is started any number of times. *)
Fixpoint router_starts (tries : list (bool * bool * bool)) (e : endpoint) : acts endpoint :=
  match tries with
  | [] => mret e
  | (ep, s, b) :: tries => r ← vom_master_router_start_r ep s b e; router_starts tries r.2
  end.

Definition router_life (calloc_ok ctx_ok : bool) (tries : list (bool * bool * bool)) : acts unit :=
  ctx ← vom_master_router_create_r calloc_ok ctx_ok;
  match ctx with
  | None => mret tt
  | Some e => e ← router_starts tries e; vom_master_router_destroy_r (Some e)
  end.

(** * Properties *)

Definition older_than (n : nat) (r : resource) : Prop :=
  match r with Block b | Mutex b => (b < n)%nat | Context c => (c < n)%nat | Socket s c => (s < n)%nat /\ (c < n)%nat end.

(** The ledger while more is taken: what was live stays under it. *)
Definition on_top (top : list resource) (l0 l : ledger) : Prop :=
  live l = top ++ live l0 /\ fault l = fault l0 /\ (fresh l0 <= fresh l)%nat /\
  Forall (older_than (fresh l0)) (live l0) /\ Forall (older_than (fresh l)) top.

Lemma on_top_nil l : Forall (older_than (fresh l)) (live l) -> on_top [] l l.
Proof. intros H. split_and!; [done|done|lia|done|constructor]. Qed.

Lemma socket_older n c P : Forall (older_than n) P -> Context c ∈ P -> older_than (S n) (Socket n c).
Proof. intros H I. apply (proj1 (Forall_forall _ _) H) in I. cbn in *. lia. Qed.

Lemma older_than_mono n m r : (n <= m)%nat -> older_than n r -> older_than m r.
Proof. destruct r; cbn; lia. Qed.

(** What was taken later is not older. *)
Definition newer (l0 : ledger) (r : resource) : Prop :=
  match r with Block b | Mutex b => (fresh l0 <= b)%nat | Context c => (fresh l0 <= c)%nat
             | Socket s c => (fresh l0 <= s)%nat /\ (fresh l0 <= c)%nat end.

(** [p], run with [P] on top of [l0], leaves a list [Q] allows on top of it. *)
Definition triple (l0 : ledger) {A} (P : list resource) (p : acts A) (Q : A -> list resource -> Prop) : Prop :=
  forall l, on_top P l0 l -> exists top, Q (run p l).1 top /\ on_top top l0 (run p l).2.

(** Giving back something that was taken on top leaves the rest alone. *)
Lemma run_give_back r top l0 l : on_top top l0 l -> newer l0 r -> r ∈ top -> blocks_on r top = false ->
  on_top (filter (fun x => x <> r) top) l0 (run (give_back r) l).2.
Proof.
  intros (H1 & H2 & H3 & H4 & H5) N I B. unfold give_back. run_prog.
  assert (r ∉ live l0) as O.
  { intros E. rewrite Forall_forall in H4. specialize (H4 r E). destruct r; cbn in *; lia. }
  split_and!; cbn; [|rewrite H2, H1|done|done|].
  - rewrite H1, filter_app. f_equal. clear - O. induction (live l0) as [|x k IH]; [done|].
    apply not_elem_of_cons in O as [O1 O2]. rewrite filter_cons_True by congruence. by rewrite IH.
  - rewrite bool_decide_true by set_solver. rewrite orb_false_r. destruct r as [| |c|]; cbn in *; rewrite ?orb_false_r; try done.
    rewrite existsb_app, B. cbn. replace (existsb _ (live l0)) with false; [by rewrite orb_false_r|].
    symmetry. apply not_true_iff_false. intros E. apply existsb_exists in E as (x & Hx & E).
    apply list_elem_of_In in Hx. rewrite Forall_forall in H4. specialize (H4 x Hx). destruct x; try done.
    apply Nat.eqb_eq in E as ->. cbn in H4. lia.
  - apply Forall_forall. intros x [_ Hx]%list_elem_of_filter. by apply (proj1 (Forall_forall _ _) H5).
Qed.

Section Triples.
Variable l0 : ledger.

Lemma triple_ret {A} (a : A) P (Q : A -> list resource -> Prop) : Q a P -> triple l0 P (mret a) Q.
Proof. intros H l T. by exists P. Qed.

Lemma triple_bind {A B} (p : acts A) (k : A -> acts B) P Q R : triple l0 P p Q ->
  (forall a top, Q a top -> triple l0 top (k a) R) -> triple l0 P (p ≫= k) R.
Proof.
  intros H K l T. destruct (H l T) as (top & HQ & T1). destruct (K _ _ HQ _ T1) as (top2 & HR & T2).
  exists top2. rewrite run_bind. destruct (run p l). done.
Qed.

Lemma triple_acquire mk ok P : (forall n, (fresh l0 <= n)%nat -> Forall (older_than n) P -> older_than (S n) (mk n)) ->
  triple l0 P (acquire mk ok) (fun a top =>
  match a with
  | Some n => ok = true /\ ((fresh l0 <= n)%nat /\ Forall (older_than n) P) /\ top = mk n :: P
  | None => ok = false /\ top = P
  end).
Proof.
  intros Hmk l (H1 & H2 & H3 & H4 & H5). unfold acquire.
  destruct ok; run_prog; eexists; (split; [by split_and!|]); [|done].
  split_and!; cbn; [by rewrite H1|done|lia|done|]. constructor; [by apply Hmk|].
  eapply Forall_impl; [exact H5|]. intros r. apply older_than_mono. lia.
Qed.

Lemma triple_mutex b ok P : Block b ∈ P -> triple l0 P (mutex_init b ok) (fun a top => a = ok /\ top = if ok then Mutex b :: P else P).
Proof.
  intros Hb l (H1 & H2 & H3 & H4 & H5). unfold mutex_init. destruct ok; run_prog; eexists; (split; [by split_and!|]); [|done].
  split_and!; cbn; [by rewrite H1|done|lia|done|]. constructor; [|done]. exact (proj1 (Forall_forall _ _) H5 (Block b) Hb).
Qed.

Lemma triple_give_back r P1 P2 : newer l0 r -> r ∉ P1 ++ P2 -> blocks_on r (P1 ++ r :: P2) = false ->
  triple l0 (P1 ++ r :: P2) (give_back r) (fun _ top => top = P1 ++ P2).
Proof.
  intros N I B l T. eexists. split; [done|].
  replace (P1 ++ P2) with (filter (fun x => x <> r) (P1 ++ r :: P2)); [apply run_give_back; [done..|set_solver|done]|].
  assert (forall k : list resource, r ∉ k -> filter (fun x => x <> r) k = k) as F.
  { clear. induction k as [|x k IH]; intros O; [done|]. apply not_elem_of_cons in O as [O1 O2].
    rewrite filter_cons_True by congruence. by rewrite IH. }
  rewrite filter_app, filter_cons_False by (intros X; by apply X). rewrite !F by set_solver. done.
Qed.
End Triples.

(** Gives back the entry behind the first ones. *)
Ltac life_give P1 := eapply triple_bind; [apply (triple_give_back _ _ P1); [cbn; lia|set_solver|done]|]; intros ? ? ->; cbn [app].
Ltac life_take := eapply triple_bind; [apply triple_acquire; intros; first [by cbn; lia | eapply socket_older; [eassumption|set_solver]]|]; let E := fresh in intros [?n|] ?top E;
  [destruct E as (-> & [?Hn ?Ho] & ->)|destruct E as [-> ->]].

(** The program leaves what was live before it, and no fault. *)
Definition balanced {A} (p : acts A) : Prop := forall l0, triple l0 [] p (fun _ top => top = []).

(** Creations: what they leave when they succeed. *)
Definition locked (l0 : ledger) (a : option nat) (top : list resource) : Prop :=
  match a with Some n => (fresh l0 <= n)%nat /\ top = [Mutex n; Block n] | None => top = [] end.

Lemma checked_triple l0 c m : triple l0 [] (create_checked c m) (fun a top => locked l0 a top /\ (is_Some a <-> c && m = true)).
Proof.
  unfold create_checked, calloc. life_take; [|apply triple_ret; split; [done|]; by split; [intros []|]].
  eapply triple_bind; [apply triple_mutex; set_solver|]. intros a top [-> ->]. destruct m.
  - apply triple_ret. split; [done|]. by split; [|eexists].
  - life_give (@nil resource). apply triple_ret. split; [done|]. by split; [intros []|].
Qed.

Lemma unchecked_triple l0 c : triple l0 [] (create_unchecked c) (locked l0).
Proof.
  unfold create_unchecked, calloc. life_take; [|by apply triple_ret].
  eapply triple_bind; [apply triple_mutex; set_solver|]. intros a top [-> ->]. by apply triple_ret.
Qed.

Lemma destroy_triple l0 a top P : locked l0 a top ->
  (forall b, fresh l0 <= b -> Mutex b ∉ P /\ Block b ∉ P)%nat -> triple l0 (top ++ P) (destroy_locked a) (fun _ r => r = P).
Proof.
  intros H N. destruct a as [b|]; cbn in H; [|subst; by apply triple_ret]. destruct H as [Hb ->]. cbn [destroy_locked app].
  destruct (N b Hb) as [N1 N2]. life_give (@nil resource). apply (triple_give_back _ _ []); [done|done|done].
Qed.

Lemma locked_balanced p : (forall l0, triple l0 [] p (locked l0)) -> balanced (ctx ← p; destroy_locked ctx).
Proof.
  intros H l0. eapply triple_bind; [apply H|]. intros a top L. rewrite <- (app_nil_r top). apply destroy_triple; [done|set_solver].
Qed.

Lemma plain_balanced c : balanced (ctx ← calloc c; destroy_plain ctx).
Proof.
  intros l0. unfold calloc. life_take; cbn [destroy_plain]; [|by apply triple_ret].
  apply (triple_give_back _ _ []); [cbn; lia|set_solver|done].
Qed.

(** ** Endpoints *)

(** What an endpoint owns. *)
Definition owned (e : endpoint) : list resource :=
  match ep_sock e with Some s => [Socket s (ep_ctx e)] | None => [] end.
Definition is_open (e : endpoint) : bool := bool_decide (is_Some (ep_sock e)).

(** The sockets that were replaced while they were open. *)
Definition sockets (c : nat) (lost : list nat) : list resource := (fun s => Socket s c) <$> lost.

(** How many those are: every connection that gets as far as [zmq_socket] drops
    the socket that is open. *)
Fixpoint replaced (open : bool) (ops : list transport_op) : nat :=
  match ops with
  | [] => 0
  | Connect ep so co :: ops => if ep then (if open then 1 else 0) + replaced (so && co) ops else replaced open ops
  | Disconnect :: ops => replaced false ops
  end.

Definition ep_newer (l0 : ledger) (e : endpoint) : Prop :=
  (fresh l0 <= ep_block e)%nat /\ (fresh l0 <= ep_ctx e)%nat /\ forall s, ep_sock e = Some s -> (fresh l0 <= s)%nat.

(** An endpoint in a session, over what it holds besides sockets; [n] sockets
    are lost. *)
Definition session (l0 : ledger) (held : endpoint -> list resource) (n : nat) (e : endpoint) (top : list resource) : Prop :=
  exists lost, length lost = n /\ top = owned e ++ sockets (ep_ctx e) lost ++ held e /\ ep_newer l0 e /\
    Socket (default 0%nat (ep_sock e)) (ep_ctx e) ∉ (if is_open e then sockets (ep_ctx e) lost ++ held e else []).

Definition rest (e : endpoint) : list resource := [Context (ep_ctx e); Block (ep_block e)].
(** The router has its mutex between the socket and the context. *)
Definition router_rest (e : endpoint) : list resource := [Mutex (ep_block e); Context (ep_ctx e); Block (ep_block e)].

Section Sessions.
Variable held : endpoint -> list resource.
Hypothesis held_same : forall s e, held (ep_set_sock s e) = held e.
Hypothesis held_sockets : forall e s c, Socket s c ∉ held e.
Hypothesis held_context : forall e, Context (ep_ctx e) ∈ held e.

Lemma open_triple l0 n so ao e top : session l0 held n e top ->
  triple l0 top (endpoint_open so ao e) (fun r top =>
    session l0 held ((if is_open e then 1 else 0) + n) r.2 top /\ is_open r.2 = so && ao).
Proof.
  intros (lost & <- & -> & (N1 & N2 & N3) & F).
  set (lost' := match ep_sock e with Some s => s :: lost | None => lost end).
  assert (length lost' = (if is_open e then 1 else 0) + length lost)%nat as L by (unfold lost', is_open; by destruct (ep_sock e)).
  replace (owned e ++ sockets (ep_ctx e) lost ++ held e) with (sockets (ep_ctx e) lost' ++ held e)
    by (unfold lost', owned; by destruct (ep_sock e)).
  assert (forall s, ep_newer l0 (ep_set_sock s e) <-> match s with Some s => fresh l0 <= s | None => True end)%nat as N.
  { intros s. unfold ep_newer. cbn. split; [intros (_ & _ & H); destruct s; auto|]. intros H. split_and!; [done..|]. by intros x ->. }
  assert (session l0 held ((if is_open e then 1 else 0) + length lost) (ep_set_sock None e) (sockets (ep_ctx e) lost' ++ held e)) as SN.
  { exists lost'. rewrite held_same. split_and!; [done..|by apply N|]. cbn. set_solver. }
  unfold endpoint_open, zmq_socket. life_take; [|by apply triple_ret].
  assert (Socket n (ep_ctx e) ∉ sockets (ep_ctx e) lost' ++ held e) as New.
  { intros H. apply (proj1 (Forall_forall _ _) Ho) in H. cbn in H. lia. }
  destruct ao.
  - apply triple_ret. split; [|done]. exists lost'. cbn [snd ep_set_sock ep_sock ep_ctx owned]. rewrite held_same.
    split_and!; [done..|by apply N|]. done.
  - life_give (@nil resource). by apply triple_ret.
Qed.

Lemma close_op_triple l0 n e top : session l0 held n e top ->
  triple l0 top (vom_worker_transport_disconnect_r e) (fun r top => session l0 held n r.2 top /\ is_open r.2 = false).
Proof.
  intros (lost & <- & -> & (N1 & N2 & N3) & F). unfold vom_worker_transport_disconnect_r, owned, is_open in *.
  destruct (ep_sock e) as [s|] eqn:E; cbn [app].
  - specialize (N3 s eq_refl). rewrite bool_decide_true in F by eauto. cbn in F.
    eapply triple_bind; [apply (triple_give_back _ _ []); [cbn; lia|done|done]|]. intros _ top ->. apply triple_ret. split; [|done].
    exists lost. cbn. rewrite held_same. split_and!; [done..|]. set_solver.
  - apply triple_ret. cbn. unfold is_open. rewrite E. split; [|done]. exists lost. unfold owned, is_open. rewrite E.
    split_and!; [done..| |cbn; set_solver]. unfold ep_newer. by rewrite E.
Qed.

Lemma ops_triple l0 ops : forall n e top, session l0 held n e top ->
  triple l0 top (transport_ops ops e) (fun e' top => session l0 held (replaced (is_open e) ops + n) e' top).
Proof.
  induction ops as [|[ep so co|] ops IH]; intros n e top H; cbn [transport_ops replaced].
  - by apply triple_ret.
  - unfold vom_worker_transport_connect_r. destruct ep.
    + eapply triple_bind; [by apply open_triple|]. intros r top' [H' O]. rewrite <- O.
      rewrite (Nat.add_comm (if is_open e then 1 else 0)), <- Nat.add_assoc. by apply IH.
    + eapply triple_bind; [by apply (triple_ret _ (false, e) _ (fun r top => r.2 = e /\ session l0 held n e top))|].
      intros r top' [-> H']. by apply IH.
  - eapply triple_bind; [by apply close_op_triple|]. intros r top' [H' O]. rewrite <- O. by apply IH.
Qed.

End Sessions.

(** Giving back one entry of the ledger. *)
Lemma give_back_one r A B l : live l = A ++ r :: B -> r ∉ A -> r ∉ B ->
  let l' := (run (give_back r) l).2 in live l' = A ++ B /\ fault l' = fault l || blocks_on r (A ++ r :: B).
Proof.
  intros E NA NB l'. unfold l', give_back. run_prog. cbn. rewrite E. split.
  - assert (forall k : list resource, r ∉ k -> filter (fun x => x <> r) k = k) as F.
    { clear. induction k as [|x k IH]; intros O; [done|]. apply not_elem_of_cons in O as [O1 O2].
      rewrite filter_cons_True by congruence. by rewrite IH. }
    rewrite filter_app, filter_cons_False by (intros X; by apply X). by rewrite !F.
  - rewrite bool_decide_true by set_solver. by rewrite orb_false_r.
Qed.

(** The context is destroyed under the sockets that were lost, and under no
    other one. *)
Lemma lost_block c lost A l0 : Forall (older_than c) (live l0) -> (forall s c', Socket s c' ∉ A) ->
  blocks_on (Context c) (sockets c lost ++ A ++ live l0) = (0 <? length lost)%nat.
Proof.
  intros O HA. cbn. rewrite !existsb_app.
  assert (existsb (fun x => match x with Socket _ c' => (c =? c')%nat | _ => false end) (A ++ live l0) = false) as Z.
  { apply not_true_iff_false. intros (x & [Hx|Hx]%list_elem_of_In%elem_of_app & E)%existsb_exists; destruct x; try done.
    - by apply HA in Hx.
    - apply (proj1 (Forall_forall _ _) O) in Hx. apply Nat.eqb_eq in E as ->. cbn in Hx. lia. }
  rewrite existsb_app in Z. rewrite Z, orb_false_r. destruct lost as [|s lost]; [done|]. cbn. by rewrite Nat.eqb_refl.
Qed.

(** What is left of a session: the lost sockets, and the fault of destroying the
    context under them. *)
Definition leaves (l : ledger) {A} (p : acts A) (n : nat) : Prop :=
  exists c socks, length socks = n /\ live (run p l).2 = sockets c socks ++ live l /\
    fault (run p l).2 = fault l || (0 <? n)%nat.

Lemma newer_not_live l0 r : Forall (older_than (fresh l0)) (live l0) -> newer l0 r -> r ∉ live l0.
Proof. intros O N H. apply (proj1 (Forall_forall _ _) O) in H. destruct r; cbn in *; lia. Qed.

(** The end of a session. *)
Lemma session_end {A} l0 l held n e top (D : acts A) : session l0 held n e top -> on_top top l0 l -> (forall s c, Socket s c ∉ held e) ->
  (forall lost l1, on_top (sockets (ep_ctx e) lost ++ held e) l0 l1 ->
     live (run D l1).2 = sockets (ep_ctx e) lost ++ live l0 /\ fault (run D l1).2 = fault l0 || (0 <? length lost)%nat) ->
  let l' := (run (close_socket e ;; D) l).2 in
  exists c socks, length socks = n /\ live l' = sockets c socks ++ live l0 /\ fault l' = fault l0 || (0 <? n)%nat.
Proof.
  intros (lost & <- & -> & (N1 & N2 & N3) & F) T H HD l'. exists (ep_ctx e), lost. split; [done|]. unfold l'. run_prog.
  destruct (run (close_socket e) l) as [u l1] eqn:E. apply HD.
  unfold close_socket, owned, is_open in *. destruct (ep_sock e) as [s|]; [|by injection E as _ <-].
  specialize (N3 s eq_refl). rewrite bool_decide_true in F by eauto. cbn in F.
  destruct (triple_give_back l0 (Socket s (ep_ctx e)) [] (sockets (ep_ctx e) lost ++ held e)) with l as (t & -> & T1); try done.
  by rewrite E in T1.
Qed.

Lemma transport_end l0 e lost l1 : Forall (older_than (fresh l0)) (live l0) -> ep_newer l0 e ->
  on_top (sockets (ep_ctx e) lost ++ rest e) l0 l1 ->
  let l2 := (run (give_back (Context (ep_ctx e)) ;; give_back (Block (ep_block e))) l1).2 in
  live l2 = sockets (ep_ctx e) lost ++ live l0 /\ fault l2 = fault l0 || (0 <? length lost)%nat.
Proof.
  intros O (N1 & N2 & _) (H1 & H2 & _) l2. unfold l2. run_prog. rewrite <- app_assoc in H1.
  destruct (give_back_one (Context (ep_ctx e)) _ _ _ H1) as [A1 A2].
  { intros (x & ? & _)%list_elem_of_fmap. done. }
  { apply not_elem_of_cons. split; [done|]. by apply newer_not_live. }
  destruct (run (give_back (Context (ep_ctx e))) l1) as [u l3] eqn:E. cbn [snd] in A1, A2.
  destruct (give_back_one (Block (ep_block e)) _ _ _ A1) as [B1 B2].
  { intros (x & ? & _)%list_elem_of_fmap. done. }
  { by apply newer_not_live. }
  split; [done|]. rewrite B2, A2, H2. rewrite orb_false_r. f_equal.
  apply (lost_block (ep_ctx e) lost (rest e) l0); [|unfold rest; set_solver].
  eapply Forall_impl; [exact O|]. intros r. apply older_than_mono. done.
Qed.

Lemma router_end l0 e lost l1 : Forall (older_than (fresh l0)) (live l0) -> ep_newer l0 e ->
  on_top (sockets (ep_ctx e) lost ++ router_rest e) l0 l1 ->
  let l2 := (run (give_back (Context (ep_ctx e)) ;; give_back (Mutex (ep_block e)) ;; give_back (Block (ep_block e))) l1).2 in
  live l2 = sockets (ep_ctx e) lost ++ live l0 /\ fault l2 = fault l0 || (0 <? length lost)%nat.
Proof.
  intros O (N1 & N2 & _) (H1 & H2 & _) l2. unfold l2. run_prog. rewrite <- app_assoc in H1. unfold router_rest in H1. cbn [app] in H1.
  assert (forall r, (forall s c, r <> Socket s c) -> r ∉ sockets (ep_ctx e) lost) as S.
  { intros r Hr (x & -> & _)%list_elem_of_fmap. by eapply Hr. }
  change (sockets (ep_ctx e) lost ++ Mutex (ep_block e) :: Context (ep_ctx e) :: Block (ep_block e) :: live l0)
    with (sockets (ep_ctx e) lost ++ [Mutex (ep_block e)] ++ Context (ep_ctx e) :: Block (ep_block e) :: live l0) in H1.
  rewrite app_assoc in H1.
  destruct (give_back_one (Context (ep_ctx e)) _ _ _ H1) as [A1 A2].
  { apply not_elem_of_app. split; [by apply S|set_solver]. }
  { apply not_elem_of_cons. split; [done|]. by apply newer_not_live. }
  destruct (run (give_back (Context (ep_ctx e))) l1) as [u l3] eqn:E. cbn [snd] in A1, A2. run_prog.
  rewrite <- app_assoc in A1. cbn [app] in A1.
  destruct (give_back_one (Mutex (ep_block e)) _ _ _ A1) as [B1 B2].
  { by apply S. }
  { apply not_elem_of_cons. split; [done|]. by apply newer_not_live. }
  destruct (run (give_back (Mutex (ep_block e))) l3) as [u' l4] eqn:E'. cbn [snd] in B1, B2.
  destruct (give_back_one (Block (ep_block e)) _ _ _ B1) as [C1 C2].
  { by apply S. }
  { by apply newer_not_live. }
  cbn [blocks_on] in B2, C2. rewrite orb_false_r in B2, C2. split; [done|]. rewrite C2, B2, A2, H2. f_equal.
  rewrite <- app_assoc. apply (lost_block (ep_ctx e) lost (router_rest e) l0); [|unfold router_rest; set_solver].
  eapply Forall_impl; [exact O|]. intros r. apply older_than_mono. done.
Qed.

(** ** The daemons *)

Lemma send_triple l0 P m s : (forall b, Block b ∉ P) ->
  triple l0 P (send_envelope_r m s) (fun r top => top = P /\ r = m && s).
Proof.
  intros F. unfold send_envelope_r, calloc. life_take; [|by apply triple_ret]. life_give (@nil resource). by apply triple_ret.
Qed.

Lemma worker_loop_triple l0 P sends : (forall b, Block b ∉ P) -> triple l0 P (worker_loop_r sends) (fun _ top => top = P).
Proof.
  intros F. induction sends as [|[m s] sends IH]; cbn [worker_loop_r]; [by apply triple_ret|].
  eapply triple_bind; [by apply send_triple|]. by intros _ top [-> _].
Qed.

Lemma master_triple l0 pid ca mu cx so bi : triple l0 [] (master_main_r pid ca mu cx so bi) (fun code top =>
  top = [] /\ (code = 0 <-> ca && mu && cx && so && bi = true)).
Proof.
  unfold master_main_r, cluster_state_create_r, cluster_state_destroy_r, zmq_ctx_new, zmq_socket.
  eapply triple_bind; [apply checked_triple|]. intros [b|] top [L A].
  2: { cbn in L. subst. apply triple_ret. split; [done|]. destruct (ca && mu); cbn; [|done]. destruct A as [_ A]. by destruct A. }
  destruct (ca && mu); [|by destruct A as [A _]; discriminate A]. cbn [andb].
  destruct L as [Hb ->].
  assert (forall (k : acts Z) (Q : Z -> list resource -> Prop), triple l0 [] k Q ->
    triple l0 [Mutex b; Block b] (destroy_locked (Some b) ;; k) Q) as D.
  { intros k Q HQ. eapply triple_bind; [apply (destroy_triple l0 (Some b) [Mutex b; Block b] []); [done|set_solver]|].
    by intros _ r ->. }
  life_take; [life_take|by apply D, triple_ret].
  - destruct bi; life_give (@nil resource); life_give (@nil resource); apply D; [|by apply triple_ret].
    unfold vom_zmq_context_term_r, vom_zmq_context_term. cbn [zmq_globals_init g_zmq_context].
    eapply triple_bind; [by apply (triple_ret _ _ _ (fun _ top => top = []))|]. intros _ top ->. by apply triple_ret.
  - life_give (@nil resource). by apply D, triple_ret.
Qed.

Lemma worker_triple l0 cx so co join sends : triple l0 [] (worker_main_r cx so co join sends) (fun code top =>
  top = [] /\ (code = 0 <-> cx && so && co && join.1 && join.2 = true)).
Proof.
  unfold worker_main_r, zmq_ctx_new, zmq_socket. life_take; [|by apply triple_ret]. life_take.
  2: { life_give (@nil resource). by apply triple_ret. }
  destruct co; [|life_give (@nil resource); life_give (@nil resource); by apply triple_ret].
  eapply triple_bind; [apply send_triple; set_solver|]. intros sent top [-> ->]. cbn [andb]. destruct (join.1 && join.2).
  - eapply triple_bind; [apply worker_loop_triple; set_solver|]. intros _ top ->.
    life_give (@nil resource). life_give (@nil resource). by apply triple_ret.
  - life_give (@nil resource). life_give (@nil resource). by apply triple_ret.
Qed.

(** What is live and the faults are as before. *)
Definition keeps (l : ledger) {A} (p : acts A) : Prop := live (run p l).2 = live l /\ fault (run p l).2 = fault l.

Lemma triple_keeps {A} l (p : acts A) (R : A -> Prop) : Forall (older_than (fresh l)) (live l) ->
  triple l [] p (fun a top => top = [] /\ R a) -> keeps l p /\ R (run p l).1.
Proof. intros O H. destruct (H l (on_top_nil l O)) as (top & [-> HR] & (H1 & H2 & _)). done. Qed.

Lemma balanced_keeps {A} l (p : acts A) : Forall (older_than (fresh l)) (live l) -> balanced p -> keeps l p.
Proof. intros O H. destruct (H l l (on_top_nil l O)) as (top & -> & (H1 & H2 & _)). done. Qed.

(** A life: what is left is what its session lost. *)
Lemma life_leaves l held create destroy end_r ops : Forall (older_than (fresh l)) (live l) ->
  (forall s e, held (ep_set_sock s e) = held e) -> (forall e s c, Socket s c ∉ held e) -> (forall e, Context (ep_ctx e) ∈ held e) ->
  (forall e, destroy (Some e) = (close_socket e ;; end_r e)) -> destroy None = mret tt ->
  (forall e lost l1, ep_newer l e -> on_top (sockets (ep_ctx e) lost ++ held e) l l1 ->
     live (run (end_r e) l1).2 = sockets (ep_ctx e) lost ++ live l /\ fault (run (end_r e) l1).2 = fault l || (0 <? length lost)%nat) ->
  forall ok : bool, triple l [] create (fun r top => match r with
    | Some e => ok = true /\ top = held e /\ ep_newer l e /\ ep_sock e = None
    | None => ok = false /\ top = [] end) ->
  leaves l (ctx ← create; match ctx with None => mret tt | Some e => e ← transport_ops ops e; destroy (Some e) end)
    (if ok then replaced false ops else 0).
Proof.
  intros O H1 H2 H3 HD HN HE ok HC. destruct (HC l (on_top_nil l O)) as (top & Hr & T). unfold leaves. rewrite run_bind.
  destruct (run create l) as [[e|] l1] eqn:E; cbn [fst snd] in Hr, T.
  - destruct Hr as (-> & -> & N & S). rewrite run_bind.
    assert (session l held 0 e (held e)) as S0.
    { exists []. unfold owned, is_open. rewrite S. split_and!; [done..|]. cbn. set_solver. }
    destruct (ops_triple held H1 H2 H3 l ops 0%nat e (held e) S0 l1 T) as (top2 & S2 & T2).
    unfold is_open in S2. rewrite S in S2. rewrite bool_decide_false in S2 by (by intros [? ?]). rewrite Nat.add_0_r in S2.
    destruct (run (transport_ops ops e) l1) as [e2 l2] eqn:E2. cbn [fst snd] in S2, T2. rewrite HD.
    eapply session_end; [exact S2|exact T2|apply H2|]. intros lost l3 T3. apply HE; [|done].
    by destruct S2 as (_ & _ & _ & N2 & _).
  - destruct Hr as [-> ->]. exists 0%nat, []. destruct T as (T1 & T2 & _). cbn. by rewrite T1, T2, orb_false_r.
Qed.

Lemma transport_create_triple l0 co xo : triple l0 [] (vom_worker_transport_create_r co xo) (fun r top =>
  match r with
  | Some e => co && xo = true /\ top = rest e /\ ep_newer l0 e /\ ep_sock e = None
  | None => co && xo = false /\ top = []
  end).
Proof.
  unfold vom_worker_transport_create_r, calloc, zmq_ctx_new. life_take; [|by apply triple_ret]. life_take.
  - apply triple_ret. by split_and!.
  - life_give (@nil resource). by apply triple_ret.
Qed.

Lemma router_create_triple l0 co xo : triple l0 [] (vom_master_router_create_r co xo) (fun r top =>
  match r with
  | Some e => co && xo = true /\ top = router_rest e /\ ep_newer l0 e /\ ep_sock e = None
  | None => co && xo = false /\ top = []
  end).
Proof.
  unfold vom_master_router_create_r, calloc, zmq_ctx_new. life_take; [|by apply triple_ret]. life_take.
  - eapply triple_bind; [apply triple_mutex; set_solver|]. intros ? ? [-> ->]. apply triple_ret. by split_and!.
  - life_give (@nil resource). by apply triple_ret.
Qed.

(** The starts of a router are connections to the ledger. *)
Definition start_ops (tries : list (bool * bool * bool)) : list transport_op := (fun '(ep, s, b) => Connect ep s b) <$> tries.

Lemma router_starts_run tries : forall e l, run (router_starts tries e) l = run (transport_ops (start_ops tries) e) l.
Proof.
  induction tries as [|[[ep so] bo] tries IH]; intros e l; [done|].
  cbn [router_starts start_ops fmap list_fmap transport_ops]. rewrite !run_bind.
  unfold vom_master_router_start_r, vom_worker_transport_connect_r. destruct (run _ l). apply IH.
Qed.

Lemma transport_life_leaves l co xo ops : Forall (older_than (fresh l)) (live l) ->
  leaves l (transport_life co xo ops) (if co && xo then replaced false ops else 0).
Proof.
  intros O. apply (life_leaves l rest _ vom_worker_transport_destroy_r
    (fun e => give_back (Context (ep_ctx e)) ;; give_back (Block (ep_block e))) ops O); try done.
  - unfold rest. set_solver.
  - unfold rest. set_solver.
  - intros e lost l1 N T. by apply transport_end.
  - apply transport_create_triple.
Qed.

Lemma router_life_leaves l co xo tries : Forall (older_than (fresh l)) (live l) ->
  leaves l (router_life co xo tries) (if co && xo then replaced false (start_ops tries) else 0).
Proof.
  intros O.
  assert (forall n, leaves l (ctx ← vom_master_router_create_r co xo;
    match ctx with None => mret tt | Some e => e ← transport_ops (start_ops tries) e; vom_master_router_destroy_r (Some e) end) n ->
    leaves l (router_life co xo tries) n) as K.
  { intros n. unfold leaves, router_life. rewrite !run_bind. destruct (run _ l) as [[e|] l1]; [|done].
    rewrite !run_bind. by rewrite router_starts_run. }
  apply K. apply (life_leaves l router_rest _ vom_master_router_destroy_r
    (fun e => give_back (Context (ep_ctx e)) ;; give_back (Mutex (ep_block e)) ;; give_back (Block (ep_block e))) (start_ops tries) O); try done.
  - unfold router_rest. set_solver.
  - unfold router_rest. set_solver.
  - intros e lost l1 N T. by apply router_end.
  - apply router_create_triple.
Qed.

(** C36: Whatever call fails on the way, what these parts of the program take they
    give back, once and in an order that does not block: after the master's or the
    worker's [main] (from its resources on, a loop of any length, if it ends),
    and after the creation and destruction of the context of the cluster state,
    the registry, the workload manager, the recovery engine, the UI coordinator,
    the resource monitor, the worker's state, the worker's recovery, the
    capabilities, the discovery and the display bridge, the live blocks, mutexes,
    ZeroMQ contexts and sockets are those from before, and nothing was released
    twice or destroyed while in use.  The daemons exit with 0 exactly if every
    step of their start-up succeeds, the worker's join request included; what
    becomes of the messages of its loop does not matter.  After any life of the
    transport (connections and disconnections in any order) and of the router
    (started any number of times) what is left is exactly one socket for every
    connection that reached [zmq_socket] while a socket was open, and the context
    was destroyed under an open socket exactly if there is one. *)
Theorem resources_balanced (l : ledger) : Forall (older_than (fresh l)) (live l) ->
  (forall pid ca mu cx so bi, let p := master_main_r pid ca mu cx so bi in
     keeps l p /\ ((run p l).1 = 0 <-> ca && mu && cx && so && bi = true)) /\
  (forall cx so co join sends, let p := worker_main_r cx so co join sends in
     keeps l p /\ ((run p l).1 = 0 <-> cx && so && co && join.1 && join.2 = true)) /\
  (forall ca cx ops, leaves l (transport_life ca cx ops) (if ca && cx then replaced false ops else 0)) /\
  (forall ca cx tries, leaves l (router_life ca cx tries) (if ca && cx then replaced false (start_ops tries) else 0)) /\
  (forall ca mu, keeps l (c ← cluster_state_create_r ca mu; cluster_state_destroy_r c) /\
                 keeps l (c ← vom_registry_create_r ca mu; vom_registry_destroy_r c)) /\
  (forall ca, keeps l (c ← vom_workload_init_r ca; vom_workload_destroy_r c) /\
              keeps l (c ← vom_recovery_init_r ca; vom_recovery_destroy_r c) /\
              keeps l (c ← vom_ui_coordinator_create_r ca; vom_ui_coordinator_destroy_r c) /\
              keeps l (c ← vom_monitor_init_r ca; vom_monitor_destroy_r c) /\
              keeps l (c ← vom_worker_state_init_r ca; vom_worker_state_destroy_r c) /\
              keeps l (c ← vom_worker_recovery_init_r ca; vom_worker_recovery_destroy_r c) /\
              keeps l (c ← vom_capabilities_manager_create_r ca; vom_capabilities_manager_destroy_r c) /\
              keeps l (c ← vom_worker_discovery_create_r ca; vom_worker_discovery_destroy_r c) /\
              keeps l (c ← vom_display_bridge_create_r ca; vom_display_bridge_destroy_r c)).
Proof.
  intros O.
  assert (forall ca, balanced (c ← create_unchecked ca; destroy_locked c)) as U
    by (intros ca; apply locked_balanced; intros l0; apply unchecked_triple).
  assert (forall ca mu, balanced (c ← create_checked ca mu; destroy_locked c)) as C.
  { intros ca mu. apply locked_balanced. intros l0 l1 T. destruct (checked_triple l0 ca mu l1 T) as (top & [L _] & T').
    by exists top. }
  split_and!; intros.
  - apply (triple_keeps l p (fun c => c = 0 <-> ca && mu && cx && so && bi = true) O). apply master_triple.
  - apply (triple_keeps l p (fun c => c = 0 <-> cx && so && co && join.1 && join.2 = true) O). apply worker_triple.
  - by apply transport_life_leaves.
  - by apply router_life_leaves.
  - split; by apply balanced_keeps.
  - split_and!; apply balanced_keeps; try done; apply U || apply plain_balanced.
Qed.

(** A second connection without a disconnection leaves the first socket open,
    and the context cannot be destroyed any more. *)
Example transport_reconnect_leaks :
  let p := transport_life true true [Connect true true true; Connect true true true] in
  live (run p empty_ledger).2 = [Socket 2 1] /\ fault (run p empty_ledger).2 = true.
Proof. vm_compute. done. Qed.

Lemma resources_balanced_witness :
  let l := {| live := [Socket 2 1; Context 1; Block 0]; fresh := 3; fault := false |} in
  leaves l (transport_life true true [Connect true true false; Connect true true true; Disconnect; Disconnect; Connect true true true]) 0 /\
  leaves l (transport_life true true [Connect true true true; Connect true false true; Connect true true true]) 1 /\
  (run (master_main_r 7 true true true true false) l).1 <> 0.
Proof.
  intros l. assert (Forall (older_than (fresh l)) (live l)) as O by (repeat constructor; cbn; lia).
  destruct (resources_balanced l O) as (M & _ & T & _). split_and!; [apply (T true true)..|].
  intros E. by apply M in E.
Defined.
