(* ===== verification/SysInfo.v ===== *)
(** System probing ([common/src/sys_info.c]) on Linux: processors, memory from
    [/proc/meminfo], power supply, display.  The record it fills is the one of
    the agent.

    The system is an argument: the files' contents, [stat] and [sysconf], and
    the architecture the code is built for. *)
From S2P Require Import Prelude Scanf Agent.

Definition VOM_CPU_FEAT_AVX2 : Z := Z.shiftl 1 0.
Definition VOM_CPU_FEAT_NEON : Z := Z.shiftl 1 1.
Definition VOM_CPU_FEAT_AES_NI : Z := Z.shiftl 1 2.

Record sys_env := {
  se_arch : VomCpuArch;
  se_procs_online : Z;
  se_procs_conf : Z;
  (** The bytes of a file, [None] when it cannot be opened. *)
  se_file : string -> option (list Z);
  (** [stat (path, &st) == 0] *)
  se_stat : string -> bool
}.

(** * Files with one value *)

(** [%d]: a [long] that saturates, cut to an [int]. *)
Definition scan_int (l : list Z) : option Z :=
  let '(neg, l) := scan_sign (skip_space l) in
  match digit_run l with
  | [] => None
  | ds =>
      let v := digits_val 0 ds in
      Some (s32 (if neg : bool then Z.max (- 2 ^ 63) (- v) else Z.min (2 ^ 63 - 1) v))
  end.

Definition read_sysfs_int (file : option (list Z)) (default_val : Z) : Z :=
  match file with
  | None => default_val
  | Some f => match scan_int f with Some v => v | None => default_val end
  end.

Definition tolower (c : Ascii.ascii) : Ascii.ascii :=
  let n := Ascii.nat_of_ascii c in
  if (65 <=? n)%nat && (n <=? 90)%nat then Ascii.ascii_of_nat (n + 32) else c.

Fixpoint lower (s : string) : string :=
  match s with
  | EmptyString => EmptyString
  | String c s => String (tolower c) (lower s)
  end.

(** [strcasecmp (s, t) == 0] *)
Definition strcasecmp_eq (s t : string) : bool := strcmp_eq (lower s) (lower t).

Definition read_sysfs_str_match (file : option (list Z)) (target : string) : bool :=
  match file with
  | None => false
  | Some f => match fscanf_word 63 f with Some buf => strcasecmp_eq buf target | None => false end
  end.

(** * [/proc/meminfo] *)

(** Literal characters of a format, as far as they match. *)
Fixpoint scan_literal (lit l : list Z) : list Z :=
  match lit, l with
  | c :: lit, d :: l' => if c =? d then scan_literal lit l' else l
  | _, _ => l
  end.

(** One [fscanf (f, "%63s %llu kB", key, &val) == 2]: the key, the value and the
    rest of the file. *)
Definition scan_meminfo (f : list Z) : option (string * Z * list Z) :=
  '(key, l) ← scan_word 63 f;
  '(val, l) ← scan_u64 l;
  Some (cstr_of_bytes key, val, scan_literal [107; 66] (skip_space l)).

(** The body of the loop on one entry. *)
Definition meminfo_entry (key : string) (val : Z) (mem : Z * Z) : Z * Z :=
  let '(total_mb, free_mb) := mem in
  if strcmp_eq key "MemTotal:" then (val / 1024, free_mb)
  else if strcmp_eq key "MemAvailable:" || strcmp_eq key "MemFree:" then (total_mb, val / 1024)
  else mem.

(** The [while] loop; [None] when the fuel runs out. *)
Fixpoint meminfo_loop (fuel : nat) (f : list Z) (mem : Z * Z) : option (Z * Z) :=
  match fuel with
  | O => None
  | S fuel =>
      match scan_meminfo f with
      | None => Some mem
      | Some (key, val, f) => meminfo_loop fuel f (meminfo_entry key val mem)
      end
  end.

(** [total_mb] and [free_mb] before and after. *)
Definition linux_probe_memory (file : option (list Z)) (mem : Z * Z) : option (Z * Z) :=
  match file with
  | None => Some mem
  | Some f => meminfo_loop (S (length f)) f mem
  end.

(** * The probe *)

Definition feature_bitmap_of (a : VomCpuArch) : Z :=
  match a with
  | VOM_ARCH_X86_64 => Z.lor VOM_CPU_FEAT_AVX2 VOM_CPU_FEAT_AES_NI
  | VOM_ARCH_AARCH64 => VOM_CPU_FEAT_NEON
  | _ => 0
  end.

Definition BAT0 : string := "/sys/class/power_supply/BAT0".
Definition BATTERY : string := "/sys/class/power_supply/battery".

Definition vom_sys_info_collect (e : sys_env) (out : ptr vom_worker_capabilities) :
    option (bool * ptr vom_worker_capabilities) :=
  match out with
  | NULL => Some (false, NULL)
  | Some _ =>
      let cores_online := if se_procs_online e >? 0 then u32 (se_procs_online e) else 1 in
      let cores_total := if se_procs_conf e >? 0 then u32 (se_procs_conf e) else cores_online in
      '(total_mb, free_mb) ← linux_probe_memory (se_file e "/proc/meminfo") (0, 0);
      let '(percent, charging) :=
        if se_stat e BAT0 || se_stat e BATTERY then
          let bat_path := if se_stat e BAT0 then BAT0 else BATTERY in
          (read_sysfs_int (se_file e (strncpy 255 (bat_path ++ "/capacity"))) (-1),
           read_sysfs_str_match (se_file e (strncpy 255 (bat_path ++ "/status"))) "Charging")
        else (-1, false) in
      let display := se_stat e "/sys/class/graphics/fb0" || se_stat e "/dev/fb0" in
      Some (true, Some
        {| vc_arch := se_arch e; vc_cores_online := cores_online; vc_cores_total := cores_total;
           vc_feature_bitmap := feature_bitmap_of (se_arch e);
           vc_ram_total_mb := total_mb; vc_ram_free_mb := free_mb;
           vc_battery_percent := percent; vc_is_charging := charging;
           vc_is_ac_online := (read_sysfs_int (se_file e "/sys/class/power_supply/AC/online") 0 =? 1) ||
                              (read_sysfs_int (se_file e "/sys/class/power_supply/ACAD/online") 0 =? 1);
           vc_display_attached := display;
           vc_display_width := if display then 1920 else 0;
           vc_display_height := if display then 1080 else 0;
           vc_touch_supported := se_stat e "/dev/input/event0";
           vc_network_link_type := VOM_LINK_ETH; vc_network_bandwidth_kbps := 1000000 |})
  end.

(** * Properties *)

(** A line of [/proc/meminfo]: the key, spaces, the value and the unit that some
    entries do not have. *)
Record mem_line := { ml_key : string; ml_gap : nat; ml_value : Z; ml_unit : bool }.

Definition mem_line_bytes (m : mem_line) : list Z :=
  bytes_of_string (ml_key m) ++ replicate (S (ml_gap m)) 32 ++ bytes_of_string (fmt_d (ml_value m)) ++
  (if ml_unit m then [32; 107; 66] else []) ++ [10].

Definition mem_line_ok (m : mem_line) : Prop :=
  Forall (fun c => isspace c = false /\ c <> 0) (bytes_of_string (ml_key m)) /\
  (0 < String.length (ml_key m) <= 63)%nat /\ in_u64 (ml_value m) /\
  (** A key that would be taken for the unit of the line before. *)
  head (bytes_of_string (ml_key m)) <> Some 107.

(** What the file says: for each quantity the last line that names it. *)
Definition mem_spec (ls : list mem_line) (mem : Z * Z) : Z * Z :=
  foldl (fun mem m => meminfo_entry (ml_key m) (ml_value m) mem) mem ls.

Lemma skip_space_shrinks k : (length (skip_space k) <= length k)%nat.
Proof. induction k as [|c k IH]; cbn; [done|]. destruct (isspace c); cbn; lia. Qed.

Lemma scan_literal_shrinks lit : forall k, (length (scan_literal lit k) <= length k)%nat.
Proof.
  induction lit as [|c lit IH]; intros [|d k]; cbn [scan_literal]; try lia.
  destruct (c =? d); [|lia]. specialize (IH k). cbn. lia.
Qed.

Lemma scan_progress n l w r : scan_word n l = Some (w, r) -> (0 < n)%nat -> (length r < length l)%nat.
Proof.
  unfold scan_word. intros E Hn.
  pose proof skip_space_shrinks as Hsk.
  specialize (Hsk l). destruct (skip_space l) as [|c k] eqn:S; [done|]. injection E as <- <-.
  destruct n as [|n]; [lia|]. cbn [word_of].
  assert (isspace c = false) as Hc.
  { clear -S. induction l as [|d l IH]; cbn in S; [done|]. destruct (isspace d) eqn:D; [auto|]. congruence. }
  rewrite Hc. cbn [length drop]. rewrite length_drop. cbn in Hsk. lia.
Qed.

Lemma scan_u64_shrinks l v r : scan_u64 l = Some (v, r) -> (length r <= length l)%nat.
Proof.
  unfold scan_u64.
  pose proof skip_space_shrinks as Hsk.
  assert (forall k, (length (scan_sign k).2 <= length k)%nat) as Hsg
    by (intros [|c k]; cbn; [done|]; repeat destr_if; cbn; lia).
  specialize (Hsk l). specialize (Hsg (skip_space l)). destruct (scan_sign (skip_space l)) as [neg k]. cbn in Hsg.
  destruct (digit_run k); [done|]. intros [= _ <-]. rewrite length_drop. lia.
Qed.

Lemma scan_meminfo_progress f key val r : scan_meminfo f = Some (key, val, r) -> (length r < length f)%nat.
Proof.
  unfold scan_meminfo. destruct (scan_word 63 f) as [[w l]|] eqn:E1; [|done]. cbn [mbind option_bind].
  destruct (scan_u64 l) as [[v l2]|] eqn:E2; [|done]. cbn [mbind option_bind].
  pose proof (scan_literal_shrinks [107; 66] (skip_space l2)) as Hlit.
  set (q := scan_literal [107; 66] (skip_space l2)) in *. intros [= _ _ <-].
  apply scan_progress in E1; [|lia]. apply scan_u64_shrinks in E2.
  pose proof skip_space_shrinks as Hsk.
  specialize (Hsk l2). lia.
Qed.

(** The loop always ends. *)
Lemma meminfo_loop_total fuel : forall f mem, (length f < fuel)%nat -> exists mem', meminfo_loop fuel f mem = Some mem'.
Proof.
  induction fuel as [|fuel IH]; intros f mem H; [lia|]. cbn [meminfo_loop].
  destruct (scan_meminfo f) as [[[k v] r]|] eqn:E; [|by eexists]. apply scan_meminfo_progress in E. apply IH. lia.
Qed.

(** What may follow a line: nothing, or a key that is not the unit. *)
Definition follows_ok (rest : list Z) : Prop :=
  match rest with [] => True | c :: _ => isspace c = false /\ c <> 107 end.

Lemma line_scan sp m rest :
  Forall (fun c => isspace c = true) sp -> mem_line_ok m -> follows_ok rest ->
  exists sp', Forall (fun c => isspace c = true) sp' /\
    scan_meminfo (sp ++ mem_line_bytes m ++ rest) = Some (ml_key m, ml_value m, sp' ++ rest).
Proof.
  intros Hsp (Hk & Hl & Hv & _) Hr. unfold scan_meminfo, mem_line_bytes. rewrite <- !app_assoc.
  assert (length (bytes_of_string (ml_key m)) = String.length (ml_key m)) as Hlen
    by (clear; induction (ml_key m) as [|c s IH]; cbn; congruence).
  rewrite scan_word_app; [|done| | |done|lia].
  2: { eapply Forall_impl; [exact Hk|]. by intros c [? _]. }
  2: { intros E. rewrite E in Hlen. cbn in Hlen. lia. }
  cbn [mbind option_bind]. set (tail := (if ml_unit m then _ else _) ++ [10] ++ rest).
  rewrite (scan_u64_fmt (replicate (S (ml_gap m)) 32)); [|by apply Forall_replicate|done|by unfold tail; destruct (ml_unit m)].
  cbn [mbind option_bind].
  assert (cstr_of_bytes (bytes_of_string (ml_key m)) = ml_key m) as ->.
  { revert Hk. clear. induction (ml_key m) as [|c s IH]; cbn; [done|]. intros [[_ Hc] Hs]%Forall_cons.
    destruct (Z.eqb_spec (Z.of_N (Ascii.N_of_ascii c)) 0); [done|]. by rewrite N2Z.id, Ascii.ascii_N_embedding, IH. }
  unfold tail. destruct (ml_unit m).
  - exists [10]. split; [by repeat constructor|]. done.
  - exists []. split; [done|]. cbn [app skip_space]. change (isspace 10) with true. cbv iota.
    destruct rest as [|c rest]; [done|]. destruct Hr as [Hs Hc]. cbn [skip_space]. rewrite Hs. cbn [scan_literal].
    rewrite (proj2 (Z.eqb_neq 107 c)) by congruence. done.
Qed.

Lemma line_starts m rest : mem_line_ok m -> follows_ok (mem_line_bytes m ++ rest).
Proof.
  intros (Hk & Hl & _ & Hh). unfold mem_line_bytes. destruct (ml_key m) as [|c s]; [cbn in Hl; lia|].
  cbn in *. apply Forall_cons in Hk as [[Hs _] _]. split; congruence.
Qed.

Lemma meminfo_loop_lines ls : forall fuel sp mem, Forall mem_line_ok ls -> (length ls < fuel)%nat ->
  Forall (fun c => isspace c = true) sp ->
  meminfo_loop fuel (sp ++ concat (mem_line_bytes <$> ls)) mem = Some (mem_spec ls mem).
Proof.
  induction ls as [|m ls IH]; intros [|fuel] sp mem Hl Hf Hsp; cbn in Hf; try lia; cbn [meminfo_loop].
  - cbn [fmap list_fmap concat]. unfold scan_meminfo, scan_word. rewrite skip_space_app by done. done.
  - apply Forall_cons in Hl as [Hm Hl]. cbn [fmap list_fmap concat].
    destruct (line_scan sp m (concat (mem_line_bytes <$> ls)) Hsp Hm) as (sp' & Hsp' & ->).
    { destruct ls as [|m' ls]; [done|]. apply Forall_cons in Hl as [Hm' _]. by apply line_starts. }
    apply IH; [done|lia|done].
Qed.

Lemma meminfo_lines_length ls : (length ls <= length (concat (mem_line_bytes <$> ls)))%nat.
Proof.
  induction ls as [|m ls IH]; cbn [fmap list_fmap concat length]; [lia|]. rewrite length_app.
  change (list_fmap _ _ mem_line_bytes ls) with (mem_line_bytes <$> ls).
  unfold mem_line_bytes at 1. rewrite !length_app. cbn [length]. lia.
Qed.

(** Probing the system always succeeds with sensible values: whatever the
    files hold it ends, the processor counts are at least 1, a machine without
    a battery reports -1 and not charging, the display has a size exactly if
    there is one; and when [/proc/meminfo] is a list of lines (keys of up to 63
    characters, 64-bit values, with or without unit), the memory figures are
    those of the file in MiB: the last MemTotal line, and the last of the
    MemFree and MemAvailable lines. *)
Theorem sys_info_exact (e : sys_env) (out : vom_worker_capabilities) :
  se_procs_online e < 2 ^ 32 -> se_procs_conf e < 2 ^ 32 ->
  exists c, vom_sys_info_collect e (Some out) = Some (true, Some c) /\
    1 <= vc_cores_online c /\ 1 <= vc_cores_total c /\
    (se_stat e BAT0 || se_stat e BATTERY = false -> vc_battery_percent c = -1 /\ vc_is_charging c = false) /\
    (vc_display_attached c = true <-> 0 < vc_display_width c) /\
    (forall ls, Forall mem_line_ok ls -> se_file e "/proc/meminfo" = Some (concat (mem_line_bytes <$> ls)) ->
       (vc_ram_total_mb c, vc_ram_free_mb c) = mem_spec ls (0, 0)).
Proof.
  intros H1 H2. unfold vom_sys_info_collect.
  set (file := se_file e "/proc/meminfo").
  assert (exists mem, linux_probe_memory file (0, 0) = Some mem) as [[total free] E].
  { unfold linux_probe_memory. destruct file as [f|]; [|by eexists]. apply meminfo_loop_total. lia. }
  rewrite E. cbn [mbind option_bind].
  set (bat := if se_stat e BAT0 || se_stat e BATTERY then _ else _).
  destruct bat as [percent charging] eqn:B. unfold bat in B. eexists. split; [reflexivity|].
  cbn [vc_cores_online vc_cores_total vc_battery_percent vc_is_charging vc_display_attached vc_display_width
       vc_ram_total_mb vc_ram_free_mb].
  assert (forall k, 0 < k < 2 ^ 32 -> 1 <= u32 k) as Hu by (intros k Hk; rewrite u32_id by (unfold in_u32; lia); lia).
  assert (1 <= (if se_procs_online e >? 0 then u32 (se_procs_online e) else 1)) as Ho
    by (destruct (Z.gtb_spec (se_procs_online e) 0); [apply Hu|]; lia).
  split; [done|]. split; [destruct (Z.gtb_spec (se_procs_conf e) 0); [apply Hu; lia|done]|].
  split; [intros Hb; rewrite Hb in B; by injection B as <- <-|].
  split; [destruct (se_stat e "/sys/class/graphics/fb0" || se_stat e "/dev/fb0"); split; intros; done || lia|].
  intros ls Hl Hf. rewrite Hf in E. unfold linux_probe_memory in E.
  pose proof (meminfo_lines_length ls) as Hn.
  pose proof (meminfo_loop_lines ls (S (length (concat (mem_line_bytes <$> ls)))) [] (0, 0) Hl ltac:(lia)) as R.
  rewrite app_nil_l in R. rewrite R in E by constructor. by injection E as ->.
Qed.

Definition demo_meminfo : list mem_line :=
  [{| ml_key := "MemTotal:"; ml_gap := 7; ml_value := 16384000; ml_unit := true |};
   {| ml_key := "MemFree:"; ml_gap := 8; ml_value := 1024000; ml_unit := true |};
   {| ml_key := "MemAvailable:"; ml_gap := 3; ml_value := 8192000; ml_unit := true |};
   {| ml_key := "HugePages_Total:"; ml_gap := 7; ml_value := 0; ml_unit := false |};
   {| ml_key := "Hugepagesize:"; ml_gap := 7; ml_value := 2048; ml_unit := true |}].

Definition demo_sys_env : sys_env :=
  {| se_arch := VOM_ARCH_X86_64; se_procs_online := 8; se_procs_conf := 8;
     se_file := fun p => if strcmp_eq p "/proc/meminfo" then Some (concat (mem_line_bytes <$> demo_meminfo)) else None;
     se_stat := fun _ => false |}.

Lemma sys_info_exact_witness : exists c,
  vom_sys_info_collect demo_sys_env (Some (g_cached_caps demo_caps)) = Some (true, Some c) /\
  (vc_ram_total_mb c, vc_ram_free_mb c) = (16000, 8000) /\ vc_battery_percent c = -1.
Proof.
  destruct (sys_info_exact demo_sys_env (g_cached_caps demo_caps)) as (c & E & _ & _ & B & _ & M).
  - cbn. lia.
  - cbn. lia.
  - exists c. split; [exact E|]. split; [|apply B; reflexivity].
    apply (M demo_meminfo); [|reflexivity].
    unfold demo_meminfo. repeat (apply Forall_cons; split; [
      split; [repeat (apply Forall_cons; split; [split; [reflexivity|discriminate]|]); apply Forall_nil_2|
      split; [cbn; lia|split; [unfold in_u64; cbn [ml_value]; lia|discriminate]]]|]). apply Forall_nil_2.
Defined.

(** The free memory depends on the order of the lines. *)
Example meminfo_order_matters :
  linux_probe_memory (Some (concat (mem_line_bytes <$>
    [{| ml_key := "MemAvailable:"; ml_gap := 3; ml_value := 8192000; ml_unit := true |};
     {| ml_key := "MemFree:"; ml_gap := 8; ml_value := 1024000; ml_unit := true |}]))) (0, 0) = Some (0, 1000).
Proof. vm_compute. reflexivity. Qed.
