(* ===== verification/MasterStart.v ===== *)
(** The master's [main] as a whole ([master/src/main.c]): its argument stub and
    log level, the identity of the cluster, the loop until a signal arrives and
    the teardown. *)
From stdpp Require Import gmap.
From S2P Require Import Prelude Scanf SnapshotRing ClusterState ClusterStateProps Envelope MasterMain SysInfo Log ZmqContext WorkerMain.

(** * Identity *)

Definition hex_char (d : Z) : Ascii.ascii := Ascii.ascii_of_N (Z.to_N (if d <? 10 then 48 + d else 87 + d)).

(** [%llx]: at most 16 digits. *)
Fixpoint hex_go (k : nat) (n : Z) (acc : string) : string :=
  match k with
  | O => acc
  | S k =>
      let acc := String (hex_char (n mod 16)) acc in
      if n / 16 =? 0 then acc else hex_go k (n / 16) acc
  end.
Definition fmt_x (n : Z) : string := hex_go 16 n "".

(** The interface files are [None] when they cannot be opened. *)
Definition generate_cluster_uuid (cap : nat) (eth0 wlan0 : option (list Z)) (pid now rand : Z) : string :=
  let f := match eth0 with Some _ => eth0 | None => wlan0 end in
  match f ≫= fscanf_word 17 with
  | Some mac => strncpy (cap - 1) ("vom-" ++ mac ++ "-" ++ fmt_x (u64 now))
  | None => strncpy (cap - 1) ("vom-" ++ fmt_d pid ++ "-" ++ fmt_x (u64 now) ++ "-" ++ fmt_x (u64 rand))
  end.

(** * Arguments and log level *)

Record main_args := { mg_log_level : string; mg_daemonize : bool }.

Definition LOG_STR_MAX : nat := 128.

(** The arguments are not looked at. *)
Definition main_cli_parse (argv : list string) (out : main_args) : Z * main_args :=
  (0, {| mg_log_level := strncpy (LOG_STR_MAX - 1) "info"; mg_daemonize := false |}).

(** The chain of comparisons on the level's name. *)
Definition select_log_level (name : string) (g : logger) : logger :=
  if strcasecmp_eq name "trace" then vom_log_set_level VOM_LOG_LEVEL_TRACE g
  else if strcasecmp_eq name "debug" then vom_log_set_level VOM_LOG_LEVEL_DEBUG g
  else if strcasecmp_eq name "warn" then vom_log_set_level VOM_LOG_LEVEL_WARN g
  else if strcasecmp_eq name "error" then vom_log_set_level VOM_LOG_LEVEL_ERROR g
  else if strcasecmp_eq name "fatal" then vom_log_set_level VOM_LOG_LEVEL_FATAL g
  else g.

(** * [main] *)

Section Main.
Context {S : Type} `{Zmq S}.

(** A turn of the loop, and whether a signal arrives outside its receives. *)
Record master_turn := { mt_round : round_env; mt_signal : bool }.

(** Whether the handler of the signals sets the flag in a turn: a signal that
    ends a receive does. *)
Definition turn_signalled (t : master_turn) : bool :=
  mt_signal t || re_interrupt_delim (mt_round t) || re_interrupt_body (mt_round t).

(** Where the loop is after the turns the outside world offers: it has the flag
    and the state, or it waits for ever in a receive of the turn that began in
    [m], or an identity has overrun its buffer. *)
Inductive loop_end :=
| LoopAt (g_master_shutdown_requested : bool) (m : master S)
| LoopWaits (m : master S)
| LoopOverrun.

Fixpoint master_loop (ts : list master_turn) (g_master_shutdown_requested : bool) (m : master S) : loop_end :=
  match ts with
  | [] => LoopAt g_master_shutdown_requested m
  | t :: ts =>
      if g_master_shutdown_requested then LoopAt true m
      else
        match master_round (mt_round t) m with
        | Ends m => master_loop ts (turn_signalled t) m
        | WaitsForEver => LoopWaits m
        | Overruns => LoopOverrun
        end
  end.

(** What [main] finds: the identity's sources, the clock, the allocation of the
    cluster state, the write-ahead file's readability, the ROUTER socket after
    its set-up ([None] if any of its steps failed) and the process id. *)
Record master_env := {
  me_eth0 : option (list Z);
  me_wlan0 : option (list Z);
  me_pid : Z;
  me_time : Z;
  me_rand : Z;
  me_alloc : bool;
  me_rb_ok : bool;
  me_sock : ptr S
}.

(** Where [main] is: it has ended with an exit code and what is left, or its loop
    runs on after the turns given, or it waits for ever in a turn. *)
Inductive main_end :=
| MainExit (code : Z) (fs : wal_files) (z : zmq_globals)
| MainRunning (m : master S)
| MainWaits (m : master S).

Definition master_main (argv : list string) (stack : main_args) (e : master_env) (ts : list master_turn)
    (fs : wal_files) (z : zmq_globals) (g : logger) : option (main_end * logger) :=
  let g := vom_log_enable_colors true (vom_log_set_level VOM_LOG_LEVEL_INFO g) in
  let '(rc, args) := main_cli_parse argv stack in
  if negb (rc =? 0) then Some (MainExit 1 fs z, g)
  else
    let g := select_log_level (mg_log_level args) g in
    let uuid := generate_cluster_uuid 64 (me_eth0 e) (me_wlan0 e) (me_pid e) (me_time e) (me_rand e) in
    match master_boot (me_alloc e) uuid (me_time e) (me_rb_ok e) (me_sock e) fs with
    | None => Some (MainExit 1 fs z, g)
    | Some m =>
        match master_loop ts false m with
        | LoopOverrun => None
        | LoopAt true m => Some (MainExit 0 (ms_files m) (vom_zmq_context_term (me_pid e) z).2, g)
        | LoopAt false m => Some (MainRunning m, g)
        | LoopWaits m => Some (MainWaits m, g)
        end
    end.

End Main.
Arguments master_env S : clear implicits.
Arguments main_end S : clear implicits.

(** * Properties *)

Section MainProps.
Context {S : Type} `{Zmq S}.

Lemma master_loop_reachable ts : forall stop (m : master S), master_reachable m ->
  match master_loop ts stop m with
  | LoopAt _ m' | LoopWaits m' => master_reachable m'
  | LoopOverrun => True
  end.
Proof.
  induction ts as [|t ts IH]; intros stop m R; cbn [master_loop]; [done|].
  destruct stop; [done|]. destruct (master_round (mt_round t) m) as [m1| |] eqn:M; [|done..].
  apply IH. by eapply MA_round.
Qed.

(** The runs of [main] are the runs of the daemon model: from a first start, what
    is running, waiting in a receive or left behind satisfies the daemon's invariant; the command
    line changes nothing, and the messaging context of another process is never
    terminated. *)
Theorem master_main_sound (argv argv' : list string) (stack stack' : main_args) (e : master_env S) (ts : list master_turn)
    (z : zmq_globals) (g : logger) :
  master_main argv stack e ts ∅ z g = master_main argv' stack' e ts ∅ z g /\
  forall r g', master_main argv stack e ts ∅ z g = Some (r, g') ->
    g_current_level g' = VOM_LOG_LEVEL_INFO /\
    match r with
    | MainExit code fs z' =>
        (code = 0 \/ code = 1) /\ (forall p i, fs !! p = Some (Some i) -> state_ok i) /\
        (g_context_owner_pid z <> me_pid e -> z' = z)
    | MainRunning m | MainWaits m => master_reachable m
    end.
Proof.
  split; [done|]. intros r g'. unfold master_main. cbn [main_cli_parse negb Z.eqb mg_log_level].
  set (gl := select_log_level _ _). assert (g_current_level gl = VOM_LOG_LEVEL_INFO) as Hl by reflexivity. clearbody gl.
  destruct (master_boot _ _ _ _ _ _) as [m|] eqn:B.
  - pose proof (master_loop_reachable ts false m (MA_first _ _ _ _ _ _ B)) as R.
    destruct (master_loop ts false m) as [[] m'|m'|]; intros [= <- <-]; (split; [done|]); [|done..]. split; [by left|]. split.
    + intros p i. apply (master_reachable_inv m' R).
    + intros Hne. unfold vom_zmq_context_term. destruct (g_zmq_context z); [|done].
      by rewrite (proj2 (Z.eqb_neq _ _)) by congruence.
  - intros [= <- <-]. split; [done|]. split; [by right|]. split; [|done]. intros p i. by rewrite lookup_empty.
Qed.

End MainProps.

(** ** Identities of successive starts differ *)

Fixpoint hex_value (acc : Z) (s : string) : Z :=
  match s with
  | EmptyString => acc
  | String c s => let b := Z.of_N (Ascii.N_of_ascii c) in
                  hex_value (acc * 16 + (if b <? 58 then b - 48 else b - 87)) s
  end.

Lemma hex_char_value d : 0 <= d < 16 ->
  (let b := Z.of_N (Ascii.N_of_ascii (hex_char d)) in if b <? 58 then b - 48 else b - 87) = d.
Proof.
  intros H. assert (d = 0 \/ d = 1 \/ d = 2 \/ d = 3 \/ d = 4 \/ d = 5 \/ d = 6 \/ d = 7 \/ d = 8 \/ d = 9 \/ d = 10 \/
    d = 11 \/ d = 12 \/ d = 13 \/ d = 14 \/ d = 15) as C by lia. repeat destruct C as [->|C]; try subst; reflexivity.
Qed.

Lemma hex_go_value k : forall n acc, 0 <= n < 16 ^ Z.of_nat k -> hex_value 0 (hex_go k n acc) = hex_value n acc.
Proof.
  induction k as [|k IH]; intros n acc Hn; cbn [hex_go]; [cbn in Hn; by replace n with 0 by lia|].
  assert (0 <= n mod 16 < 16) as Hm by (apply Z.mod_pos_bound; lia).
  pose proof (Z.div_mod n 16 ltac:(lia)) as Hd.
  rewrite Nat2Z.inj_succ, Z.pow_succ_r in Hn by lia.
  assert (0 <= n / 16 < 16 ^ Z.of_nat k) as Hq by (split; [apply Z.div_pos; lia|apply Z.div_lt_upper_bound; lia]).
  destruct (Z.eqb_spec (n / 16) 0) as [E|_]; [|rewrite IH by done]; cbn [hex_value]; rewrite hex_char_value by done;
    f_equal; lia.
Qed.

Lemma fmt_x_inj a b : in_u64 a -> in_u64 b -> fmt_x a = fmt_x b -> a = b.
Proof.
  intros Ha Hb E. unfold in_u64 in *. pose proof (hex_go_value 16 a "" ltac:(cbn; lia)) as Va.
  pose proof (hex_go_value 16 b "" ltac:(cbn; lia)) as Vb. unfold fmt_x in E. rewrite E in Va. cbn [hex_value] in *. congruence.
Qed.

Lemma hex_go_length k : forall n acc, (String.length (hex_go k n acc) <= k + String.length acc)%nat.
Proof.
  induction k as [|k IH]; intros n acc; cbn [hex_go]; [done|]. destruct (_ =? 0); [cbn; lia|].
  etrans; [apply IH|]. cbn. lia.
Qed.

Lemma append_length a b : String.length (a ++ b)%string = (String.length a + String.length b)%nat.
Proof.
  induction a as [|x a IH]; [done|].
  change (S (String.length (a ++ b)%string) = S (String.length a + String.length b)). by rewrite IH.
Qed.

Lemma append_inj_l a b c : (a ++ b = a ++ c)%string -> b = c.
Proof.
  induction a as [|x a IH]; [done|]. change (String x (a ++ b) = String x (a ++ c) -> b = c). intros [= E]. auto.
Qed.

(** On a machine with a readable interface, starts in different seconds name the
    cluster differently. *)
Theorem cluster_uuid_distinct (eth0 : list Z) (wlan0 wlan0' : option (list Z)) (mac : string) (pid pid' t t' r r' : Z) :
  fscanf_word 17 eth0 = Some mac -> in_u64 t -> in_u64 t' -> t <> t' ->
  generate_cluster_uuid 64 (Some eth0) wlan0 pid t r <> generate_cluster_uuid 64 (Some eth0) wlan0' pid' t' r'.
Proof.
  intros M Ht Ht' Hne. unfold generate_cluster_uuid. cbn [mbind option_bind]. rewrite M.
  rewrite !u64_id by done.
  assert (String.length mac <= 17)%nat as Hm.
  { unfold fscanf_word, scan_word in M. destruct (skip_space eth0) as [|c l]; [done|]. injection M as <-.
    assert (forall n l, length (word_of n l) <= n)%nat as Hw
      by (clear; induction n as [|n IH]; intros [|c l]; cbn; try lia; destruct (isspace c); cbn; [lia|specialize (IH l); lia]).
    assert (forall l, String.length (cstr_of_bytes l) <= length l)%nat as Hc
      by (clear; induction l as [|b l IH]; cbn; [done|]; destruct (b =? 0); cbn; lia).
    specialize (Hw 17%nat (c :: l)). etrans; [apply Hc|exact Hw]. }
  pose proof append_length as Hl.
  rewrite !strncpy_short.
  2,3: rewrite !Hl; cbn [String.length]; match goal with |- context [fmt_x ?x] =>
    pose proof (hex_go_length 16 x "") as Hx; cbn [String.length] in Hx; fold (fmt_x x) in Hx end; lia.
  intros E. apply append_inj_l, append_inj_l, append_inj_l, fmt_x_inj in E; done.
Qed.
