(* ===== verification/Getopt.v ===== *)
(** The [getopt] and [getopt_long] of [common/compat.h], which the programs use
    where the system has none, with their static state. *)
From S2P Require Import Prelude.

(** * State and options *)

(** [optind] and the other globals; [gs_next] is [_vom_getopt_next], the rest
    of the argument it points into. *)
Record getopt_state := {
  optind : nat;
  opterr : bool;
  optopt : Z;
  optarg : ptr string;
  gs_initialized : bool;
  gs_next : ptr string;
  (** The stores through [flag] pointers, each with the number of its target. *)
  gs_flags : list (nat * Z)
}.

Definition getopt_init : getopt_state :=
  {| optind := 1; opterr := true; optopt := 0; optarg := NULL; gs_initialized := false; gs_next := NULL; gs_flags := [] |}.

Inductive arg_kind := no_argument | required_argument | optional_argument.

Record long_option := {
  lo_name : string;
  lo_has_arg : arg_kind;
  lo_flag : ptr nat;
  lo_val : Z
}.

Definition set_optind (n : nat) (g : getopt_state) : getopt_state :=
  {| optind := n; opterr := opterr g; optopt := optopt g; optarg := optarg g;
     gs_initialized := gs_initialized g; gs_next := gs_next g; gs_flags := gs_flags g |}.
Definition set_opterr (b : bool) (g : getopt_state) : getopt_state :=
  {| optind := optind g; opterr := b; optopt := optopt g; optarg := optarg g;
     gs_initialized := gs_initialized g; gs_next := gs_next g; gs_flags := gs_flags g |}.
Definition set_optopt (c : Z) (g : getopt_state) : getopt_state :=
  {| optind := optind g; opterr := opterr g; optopt := c; optarg := optarg g;
     gs_initialized := gs_initialized g; gs_next := gs_next g; gs_flags := gs_flags g |}.
Definition set_optarg (a : ptr string) (g : getopt_state) : getopt_state :=
  {| optind := optind g; opterr := opterr g; optopt := optopt g; optarg := a;
     gs_initialized := gs_initialized g; gs_next := gs_next g; gs_flags := gs_flags g |}.
Definition set_next (p : ptr string) (g : getopt_state) : getopt_state :=
  {| optind := optind g; opterr := opterr g; optopt := optopt g; optarg := optarg g;
     gs_initialized := gs_initialized g; gs_next := p; gs_flags := gs_flags g |}.
Definition set_initialized (g : getopt_state) : getopt_state :=
  {| optind := optind g; opterr := opterr g; optopt := optopt g; optarg := optarg g;
     gs_initialized := true; gs_next := gs_next g; gs_flags := gs_flags g |}.
Definition store_flag (p : nat) (v : Z) (g : getopt_state) : getopt_state :=
  {| optind := optind g; opterr := opterr g; optopt := optopt g; optarg := optarg g;
     gs_initialized := gs_initialized g; gs_next := gs_next g; gs_flags := gs_flags g ++ [(p, v)] |}.

(** [s[k]] as an unsigned byte, for [k] up to the terminator. *)
Definition char_at (k : nat) (s : string) : Z := nth k (bytes_of_string s) 0.

(** A byte as a (signed) [char]. *)
Definition schar (b : Z) : Z := if b >=? 128 then b - 256 else b.

(** [strchr (s, c)] as an index; it finds the terminator for 0. *)
Definition strchr_idx (s : string) (c : Z) : option nat := find_idx (Z.eqb c) (bytes_of_string s ++ [0]).

Definition QUESTION : Z := 63.
Definition COLON : Z := 58.
Definition DASH : Z := 45.
Definition EQUALS : Z := 61.

(** * The functions *)

(** [after] is the byte that follows [optstring]'s terminator in memory, which
    the look-ahead for a colon reads when the option character is 0. *)
Definition getopt (after : Z) (argv : list string) (optstring : string) (g : getopt_state) : Z * getopt_state :=
  let argc := length argv in
  let g := if negb (gs_initialized g) || (match gs_next g with NULL => true | Some _ => false end)
           then set_initialized (if (optind g =? 0)%nat then set_opterr true (set_optind 1 g) else g)
           else g in
  let start :=
    match gs_next g with
    | Some (String _ rest) => inr (rest, g)
    | _ =>
        match argv !! optind g with
        | None => inl g
        | Some a =>
            if negb (char_at 0 a =? DASH) || (char_at 1 a =? 0) then inl g
            else if (char_at 1 a =? DASH) && (char_at 2 a =? 0) then inl (set_optind (S (optind g)) g)
            else inr (str_skip 1 a, set_optind (S (optind g)) g)
        end
    end in
  match start with
  | inl g => (-1, g)
  | inr (next, g) =>
      let g := set_next (Some next) g in
      let c := char_at 0 next in
      match strchr_idx optstring c with
      | None => (QUESTION, set_optopt (schar c) g)
      | Some place =>
          if c =? COLON then (QUESTION, set_optopt (schar c) g)
          else
            let follow := if (place <? String.length optstring)%nat then char_at (S place) optstring else after in
            if follow =? COLON then
              if negb (c =? 0) then (schar c, set_next NULL (set_optarg (Some next) g))
              else
                match argv !! optind g with
                | Some a => (schar c, set_optind (S (optind g)) (set_optarg (Some a) g))
                | None =>
                    (if char_at 0 optstring =? COLON then COLON else QUESTION, set_optopt (schar c) g)
                end
            else (schar c, g)
      end
  end.

(** [strncmp (arg, name, len) == 0 && (arg[len] == '=' || arg[len] == 0)] *)
Definition long_matches (arg : string) (o : long_option) : bool :=
  let len := String.length (lo_name o) in
  String.prefix (lo_name o) arg && ((char_at len arg =? EQUALS) || (char_at len arg =? 0)).

(** The long option at [optind], once it is found in the table. *)
Definition long_found (argv : list string) (arg : string) (o : long_option) (g : getopt_state) : Z * getopt_state :=
  let len := String.length (lo_name o) in
  let value := if char_at len arg =? EQUALS then Some (str_skip (S len) arg) else NULL in
  let finish g :=
    match lo_flag o with
    | Some p => (0, store_flag p (lo_val o) g)
    | NULL => (lo_val o, g)
    end in
  match lo_has_arg o with
  | required_argument =>
      match value with
      | Some v => finish (set_optarg (Some v) g)
      | NULL =>
          match argv !! optind g with
          | Some a => finish (set_optind (S (optind g)) (set_optarg (Some a) g))
          | None => (QUESTION, g)
          end
      end
  | optional_argument => finish (set_optarg value g)
  | no_argument => finish (set_optarg NULL g)
  end.

Definition getopt_long (after : Z) (argv : list string) (optstring : string) (longopts : list long_option)
    (longindex : ptr nat) (g : getopt_state) : Z * ptr nat * getopt_state :=
  match argv !! optind g with
  | Some a =>
      if (char_at 0 a =? DASH) && (char_at 1 a =? DASH) then
        if char_at 2 a =? 0 then (-1, longindex, set_optind (S (optind g)) g)
        else
          let arg := str_skip 2 a in
          let g := set_optind (S (optind g)) g in
          match find_idx (long_matches arg) longopts with
          | Some i =>
              let longindex := match longindex with Some _ => Some i | NULL => NULL end in
              match longopts !! i with
              | Some o => let (rc, g) := long_found argv arg o g in (rc, longindex, g)
              | None => (QUESTION, longindex, g)
              end
          | None => (QUESTION, longindex, g)
          end
      else let (rc, g) := getopt after argv optstring g in (rc, longindex, g)
  | None => let (rc, g) := getopt after argv optstring g in (rc, longindex, g)
  end.

(** * Progress

    Every call that does not end the options leaves less to read: the bytes of
    the argument in hand and, for each argument not yet begun, one more than
    its bytes. *)

Definition unread (argv : list string) (g : getopt_state) : nat :=
  String.length (default ""%string (gs_next g)) +
  foldr (fun a n => S (String.length a) + n)%nat 0%nat (drop (optind g) argv).

Lemma str_skip_length n s : String.length (str_skip n s) = (String.length s - n)%nat.
Proof. revert n. induction s as [|c s IH]; intros [|n]; cbn; done || apply IH. Qed.

Definition args_size (args : list string) : nat := foldr (fun a n => S (String.length a) + n)%nat 0%nat args.

Lemma args_size_drop argv i j : (i <= j)%nat -> (args_size (drop j argv) <= args_size (drop i argv))%nat.
Proof.
  intros H. replace j with (i + (j - i))%nat by lia. rewrite <- drop_drop. generalize (drop i argv) (j - i)%nat.
  clear. induction l as [|a l IH]; intros [|n]; try (cbn; lia). specialize (IH n).
  rewrite skipn_cons. change (args_size (a :: l)) with (S (String.length a) + args_size l)%nat. lia.
Qed.

Lemma args_size_take argv i a : argv !! i = Some a ->
  args_size (drop i argv) = (S (String.length a) + args_size (drop (S i) argv))%nat.
Proof. intros H. by rewrite (drop_S _ _ _ H). Qed.

Lemma unread_eq argv g : unread argv g = (String.length (default ""%string (gs_next g)) + args_size (drop (optind g) argv))%nat.
Proof. reflexivity. Qed.

(** [getopt] as it is called from [getopt_long], once an argument is in hand. *)
Lemma getopt_progress after argv optstring g rc g' :
  getopt after argv optstring g = (rc, g') -> rc <> -1 -> (unread argv g' < unread argv g)%nat.
Proof.
  unfold getopt. set (g0 := if _ || _ then _ else g). intros E Hrc.
  assert (gs_next g0 = gs_next g /\ (unread argv g0 <= unread argv g)%nat) as [Hn Hu].
  { unfold g0. destruct (_ || _); [|done]. destruct (Nat.eqb_spec (optind g) 0) as [Z0|]; [|done].
    split; [done|]. rewrite !unread_eq. cbn [set_initialized set_opterr set_optind optind gs_next].
    pose proof (args_size_drop argv (optind g) 1). lia. }
  clearbody g0. set (start := match gs_next g0 with Some (String _ rest) => _ | _ => _ end) in E.
  assert (match start with
          | inl _ => True
          | inr (next, h) => (String.length next + args_size (drop (optind h) argv) < unread argv g)%nat
          end) as Hs.
  { rewrite unread_eq in Hu. unfold start. destruct (gs_next g0) as [[|x rest]|]; cbn [default] in Hu.
    - destruct (argv !! optind g0) as [a|] eqn:A; [|exact I]. destruct (_ || _); [exact I|].
      destruct (_ && _); [exact I|].
      rewrite str_skip_length. rewrite (args_size_take _ _ _ A) in Hu. cbn -[args_size drop] in *. lia.
    - cbn in *. lia.
    - destruct (argv !! optind g0) as [a|] eqn:A; [|exact I]. destruct (_ || _); [exact I|].
      destruct (_ && _); [exact I|].
      rewrite str_skip_length. rewrite (args_size_take _ _ _ A) in Hu. cbn -[args_size drop] in *. lia. }
  destruct start as [h|[next h]]; [congruence|].
  assert (forall k, (optind h <= k)%nat ->
    (String.length next + args_size (drop k argv) < unread argv g)%nat) as Hk
    by (intros k Hk; pose proof (args_size_drop argv _ _ Hk); lia).
  destruct (strchr_idx _ _) as [place|]; [|by injection E as <- <-; apply Hk].
  destruct (_ =? COLON); [by injection E as <- <-; apply Hk|].
  destruct (_ =? COLON); [|by injection E as <- <-; apply Hk].
  destruct (negb _).
  - injection E as <- <-. specialize (Hk (optind h)). rewrite unread_eq.
    cbn [set_next set_optarg optind gs_next default String.length]. lia.
  - cbn [set_next optind] in E. destruct (argv !! optind h) as [b|]; injection E as <- <-;
      [apply (Hk (S (optind h))); lia|by apply Hk].
Qed.

Lemma long_found_optind argv arg o g :
  (optind g <= optind (long_found argv arg o g).2)%nat /\ gs_next (long_found argv arg o g).2 = gs_next g.
Proof.
  unfold long_found. destruct (lo_has_arg o), (lo_flag o); try done;
    destruct (_ =? EQUALS); try done; destruct (argv !! optind g); cbn; auto.
Qed.

Lemma getopt_long_progress after argv optstring longopts li g rc li' g' :
  getopt_long after argv optstring longopts li g = (rc, li', g') -> rc <> -1 ->
  (unread argv g' < unread argv g)%nat.
Proof.
  unfold getopt_long. intros E Hrc.
  destruct (argv !! optind g) as [a|] eqn:A.
  2: { destruct (getopt _ _ _ _) as [r h] eqn:G. injection E as -> _ <-. by eapply getopt_progress. }
  destruct (_ && _).
  2: { destruct (getopt _ _ _ _) as [r h] eqn:G. injection E as -> _ <-. by eapply getopt_progress. }
  destruct (_ =? 0); [by injection E as <-|].
  set (g1 := set_optind (S (optind g)) g) in *.
  assert (forall h, (optind g1 <= optind h)%nat -> gs_next h = gs_next g1 -> (unread argv h < unread argv g)%nat) as Hk.
  { intros h Ho Hn. rewrite !unread_eq, Hn. cbn [g1 set_optind gs_next optind] in *.
    pose proof (args_size_drop argv _ _ Ho). rewrite (args_size_take _ _ _ A). lia. }
  destruct (find_idx _ _) as [i|]; [|injection E as _ _ <-; by apply Hk].
  destruct (longopts !! i) as [o|]; [|injection E as _ _ <-; by apply Hk].
  pose proof (long_found_optind argv (str_skip 2 a) o g1) as [Ho Hn].
  destruct (long_found _ _ _ _) as [r h]. injection E as _ _ <-. by apply Hk.
Qed.

(** The value of an option that requires one is never [NULL]. *)
Definition requires_arg (optstring : string) (longopts : list long_option) (c : Z) : Prop :=
  (forall p, strchr_idx optstring c = Some p -> (p < String.length optstring)%nat /\ char_at (S p) optstring = COLON) /\
  (forall o, o ∈ longopts -> lo_val o = c -> lo_has_arg o = required_argument).

Lemma getopt_required after argv optstring longopts g c g' :
  requires_arg optstring longopts c -> 0 < c < 128 -> c <> QUESTION -> c <> COLON ->
  getopt after argv optstring g = (c, g') -> exists v, optarg g' = Some v.
Proof.
  intros [Hs _] Hc Hq Hcol. unfold getopt. set (g0 := if _ || _ then _ else g). clearbody g0.
  set (start := match gs_next g0 with Some (String _ rest) => _ | _ => _ end).
  destruct start as [h|[next h]]; [intros [= <- <-]; lia|].
  assert (forall x, 0 <= x < 256 -> schar x = c -> x = c) as Hsc by (unfold schar; intros x Hx; destr_if; bprop; lia).
  assert (0 <= char_at 0 next < 256) as Hpos.
  { unfold char_at. destruct next as [|a s]; cbn; [lia|]. pose proof (Ascii.N_ascii_bounded a). lia. }
  destruct (strchr_idx optstring (char_at 0 next)) as [place|] eqn:P; [|intros [= E _]; by destruct Hq].
  destruct (_ =? COLON); [intros [= E _]; by destruct Hq|].
  destruct (Z.eqb_spec (if (place <? String.length optstring)%nat then char_at (S place) optstring else after) COLON) as [F|F].
  - destruct (negb _); [intros [= _ <-]; eauto|]. destruct (argv !! _).
    + intros [= _ <-]. eauto.
    + destruct (_ =? COLON); intros [= E _]; [by destruct Hcol|by destruct Hq].
  - intros [= E _]. apply Hsc in E; [|done]. rewrite E in P. destruct (Hs _ P) as [L F'].
    rewrite (proj2 (Nat.ltb_lt _ _) L) in F. done.
Qed.

Lemma getopt_long_required after argv optstring longopts li g c li' g' :
  requires_arg optstring longopts c -> 0 < c < 128 -> c <> QUESTION -> c <> COLON ->
  getopt_long after argv optstring longopts li g = (c, li', g') -> exists v, optarg g' = Some v.
Proof.
  intros HR Hc Hq Hcol. unfold getopt_long.
  destruct (argv !! optind g) as [a|].
  2: { destruct (getopt _ _ _ _) as [r h] eqn:G. intros [= -> _ <-]. by eapply getopt_required. }
  destruct (_ && _).
  2: { destruct (getopt _ _ _ _) as [r h] eqn:G. intros [= -> _ <-]. by eapply getopt_required. }
  destruct (_ =? 0); [intros [= <- _ _]; lia|].
  destruct (find_idx _ _) as [i|]; [|intros [= <- _ _]; done].
  destruct (longopts !! i) as [o|] eqn:O; [|intros [= <- _ _]; done].
  apply list_elem_of_lookup_2 in O. pose proof (proj2 HR o O) as Hreq.
  destruct (long_found _ _ _ _) as [r h] eqn:F. intros [= -> _ <-]. unfold long_found in F.
  assert (lo_val o = c -> lo_has_arg o = required_argument) by done.
  destruct (lo_has_arg o); destruct (lo_flag o); try (injection F as F _; lia);
    try (injection F as F _; specialize (Hreq F); done);
    (destruct (_ =? EQUALS); [injection F as ? <-; lia || eauto|]);
    (destruct (argv !! _); [injection F as ? <-; lia || eauto|by injection F as F _]).
Qed.
