(* ===== verification/Compat.v ===== *)
(** The other functions of [common/compat.h] for systems without POSIX: the
    clock, the processor count, the process calls the executor makes, signals and
    polling.  What
    the operating system reports is an argument. *)
From S2P Require Import Prelude.

(** * The clock *)

(** Hundreds of nanoseconds between the two epochs. *)
Definition EPOCH_OFFSET : Z := 116444736000000000.

(** [tv_sec] and [tv_usec] for a file time; [long] has 32 bits there. *)
Definition gettimeofday (filetime : Z) : Z * Z :=
  let q := u64 (filetime - EPOCH_OFFSET) in
  (s32 (q / 10000000), s32 (q mod 10000000 / 10)).

(** * Processors *)

Definition SC_NPROCESSORS_ONLN : Z := 1.
Definition SC_NPROCESSORS_CONF : Z := 2.

Definition sysconf (processors : Z) (name : Z) : Z :=
  if (name =? SC_NPROCESSORS_ONLN) || (name =? SC_NPROCESSORS_CONF) then s32 processors else -1.

(** * Processes *)

Definition SIGKILL : Z := 9.
Definition SIGTERM : Z := 15.
Definition STILL_ACTIVE : Z := 259.

Definition fork : Z := u32 (-1).

(** [OpenProcess], [GetExitCodeProcess] with the code it stores, and whether
    [WaitForSingleObject] returns [WAIT_OBJECT_0]. *)
Record process_view := {
  pv_open : bool;
  pv_code_ok : bool;
  pv_exit_code : Z;
  pv_wait_ok : bool
}.

(** The process id and what is stored through [status], if anything; a process
    id is a [DWORD], so the initial -1 is 2^32 - 1. *)
Definition vom_waitpid_wrap (v : process_view) (pid : Z) (nohang : bool) : Z * option Z :=
  let none := u32 (-1) in
  if negb (pv_open v) then (none, None)
  else if nohang then
    if pv_code_ok v then
      if pv_exit_code v =? STILL_ACTIVE then (0, Some 0) else (pid, Some (s32 (pv_exit_code v)))
    else (none, None)
  else if pv_wait_ok v then (pid, Some (s32 (pv_exit_code v)))
  else (none, None).

(** Every exit counts as one by [exit]. *)
Definition WIFEXITED (status : Z) : Z := 1.

Definition WEXITSTATUS (status : Z) : Z := Z.land status 255.

(** [open_ok]: whether the process could be opened to terminate it; the exit code
    it is given, if it is terminated. *)
Definition kill (open_ok : bool) (sig : Z) : Z * option Z :=
  if (sig =? SIGKILL) || (sig =? SIGTERM) then
    if open_ok then (0, Some sig) else (-1, None)
  else (-1, None).

Definition daemon (nochdir noclose : Z) : Z := 0.

(** * Signals *)

(** Handlers are known by numbers. *)
Inductive sa_disposition := SIG_DFL | SIG_HANDLER (f : nat).

Record sigaction_t := { sa_handler : sa_disposition; sa_mask : Z }.

Definition sigemptyset (s : ptr Z) : ptr Z := (fun _ => 0) <$> s.

(** [signal (sig, handler)] on the dispositions of the process; the old action is
    not reported. *)
Definition sigaction (sig : Z) (sa : sigaction_t) (old : ptr sigaction_t) (table : Z -> sa_disposition) :
    ptr sigaction_t * (Z -> sa_disposition) :=
  (old, fun s => if s =? sig then sa_handler sa else table s).

(** * Polling *)

(** [WSAPoll] is the system's: it may fill in the events that arrived. *)
Definition poll {pollfd} (WSAPoll : list pollfd -> Z -> Z -> Z * list pollfd) (fds : list pollfd) (nfds timeout_ms : Z) :
    Z * list pollfd :=
  WSAPoll fds (u32 nfds) timeout_ms.

(** * Properties *)

(** The clock shim is exact: for every file time from 1970 until January
    2038 the seconds and microseconds are those of the time, the microseconds
    are below a million, and later times are never smaller. *)
Theorem windows_clock_exact (ft ft' : Z) :
  EPOCH_OFFSET <= ft <= ft' -> ft' < EPOCH_OFFSET + 2 ^ 31 * 10000000 ->
  let '(sec, usec) := gettimeofday ft in
  let '(sec', usec') := gettimeofday ft' in
  sec * 1000000 + usec = (ft - EPOCH_OFFSET) / 10 /\ 0 <= sec < 2 ^ 31 /\ 0 <= usec < 1000000 /\
  sec * 1000000 + usec <= sec' * 1000000 + usec'.
Proof.
  intros H1 H2.
  assert (forall t, EPOCH_OFFSET <= t <= ft' -> exists s u, gettimeofday t = (s, u) /\
    s * 1000000 + u = (t - EPOCH_OFFSET) / 10 /\ 0 <= s < 2 ^ 31 /\ 0 <= u < 1000000) as G.
  { intros t Ht. unfold gettimeofday. unfold EPOCH_OFFSET in *.
    rewrite u64_id by (unfold in_u64; lia). set (q := t - 116444736000000000) in *.
    assert (0 <= q < 2 ^ 31 * 10000000) as Hq by (unfold q; lia). clearbody q.
    assert (0 <= q / 10000000 < 2 ^ 31) as Hs by (split; [apply Z.div_pos; lia|apply Z.div_lt_upper_bound; lia]).
    pose proof (Z.mod_pos_bound q 10000000 ltac:(lia)) as Hm.
    assert (0 <= q mod 10000000 / 10 < 1000000) as Hu by (split; [apply Z.div_pos; lia|apply Z.div_lt_upper_bound; lia]).
    eexists _, _. split; [reflexivity|]. rewrite !s32_id by (unfold in_s32; lia). split; [|lia].
    pose proof (Z.div_mod q 10000000 ltac:(lia)) as Hd.
    rewrite Hd at 3. replace (10000000 * (q / 10000000) + q mod 10000000)
      with (q mod 10000000 + (1000000 * (q / 10000000)) * 10) by lia.
    rewrite Z.div_add by lia. lia. }
  destruct (G ft ltac:(lia)) as (s & u & -> & E & B1 & B2). destruct (G ft' ltac:(lia)) as (s' & u' & -> & E' & _).
  split_and!; try lia. rewrite E, E'. apply Z.div_le_mono; lia.
Qed.

Lemma windows_clock_exact_witness :
  gettimeofday (EPOCH_OFFSET + 12345678) = (1, 234567) /\
  (let '(sec, usec) := gettimeofday (EPOCH_OFFSET + 12345678) in sec * 1000000 + usec = 12345678 / 10).
Proof.
  split; [vm_compute; reflexivity|].
  pose proof (windows_clock_exact (EPOCH_OFFSET + 12345678) (EPOCH_OFFSET + 12345678)) as H.
  destruct (gettimeofday (EPOCH_OFFSET + 12345678)) as [s u].
  destruct H as [-> _]; [unfold EPOCH_OFFSET; lia|unfold EPOCH_OFFSET; lia|reflexivity].
Defined.

(** From 2038 on the seconds wrap. *)
Example windows_clock_2038 : gettimeofday (EPOCH_OFFSET + 2 ^ 31 * 10000000) = (- 2 ^ 31, 0).
Proof. vm_compute. reflexivity. Qed.

(** The failure of [fork] is not negative, as its callers expect. *)
Example fork_failure_is_positive : fork = 4294967295 /\ (fork <? 0) = false.
Proof. split; reflexivity. Qed.

(** A child that exits with code 259 is never seen to end without blocking. *)
Example exit_259_looks_running pid :
  vom_waitpid_wrap {| pv_open := true; pv_code_ok := true; pv_exit_code := 259; pv_wait_ok := true |} pid true = (0, Some 0).
Proof. reflexivity. Qed.
