(* ===== verification/CommandLine.v ===== *)
(** The command lines: the master's ([master/src/cli.c], on [getopt_long]), the
    worker's ([worker/src/cli.c]) and the client's ([cli/src/main.c]).

    [getopt_long] is the system's or that of [common/compat.h]; the master's
    parser uses it through the class [Getopt], and what the parser relies on is
    [GetoptLaws], which the functions of [Getopt] satisfy. *)
From S2P Require Import Prelude Scanf Config Getopt WorkerMain.

(** * [getopt_long] as an interface *)

Class Getopt (G : Type) := {
  gl_call : list string -> string -> list long_option -> ptr nat -> G -> Z * ptr nat * G;
  gl_optarg : G -> ptr string;
  gl_no_errors : G -> G
}.

(** A call that does not end the options leaves less to read, and the value of
    an option that requires one is there. *)
Class GetoptLaws (G : Type) `{Getopt G} := {
  gl_left : list string -> G -> nat;
  gl_progress : forall argv os los li g rc li' g',
    gl_call argv os los li g = (rc, li', g') -> rc <> -1 -> (gl_left argv g' < gl_left argv g)%nat;
  gl_required : forall argv os los li g c li' g',
    requires_arg os los c -> 0 < c < 128 -> c <> QUESTION -> c <> COLON ->
    gl_call argv os los li g = (c, li', g') -> exists v, gl_optarg g' = Some v
}.

(** The shim, with the byte that follows the option string. *)
Definition shim (after : Z) : Getopt getopt_state :=
  {| gl_call := getopt_long after; gl_optarg := optarg; gl_no_errors := set_opterr false |}.

Definition shim_laws (after : Z) : @GetoptLaws getopt_state (shim after) :=
  @Build_GetoptLaws getopt_state (shim after) unread
    (getopt_long_progress after) (getopt_long_required after).

(** * The master *)

Record vom_master_args := {
  ma_help : bool;
  ma_version : bool;
  ma_config_file : ptr string;
  ma_log_level : ptr string;
  ma_bind_endpoint : ptr string;
  ma_daemonize : bool;
  ma_print_uuid : bool;
  ma_simulate_workers_count : Z
}.

Definition vom_master_cli_validate_endpoint (endpoint : ptr string) : bool :=
  match endpoint with
  | NULL => false
  | Some e => (String.prefix "tcp://" e || String.prefix "ipc://" e) && (6 <? String.length e)%nat
  end.

Definition master_args_default : vom_master_args :=
  {| ma_help := false; ma_version := false; ma_config_file := NULL; ma_log_level := Some "info"%string;
     ma_bind_endpoint := NULL; ma_daemonize := false; ma_print_uuid := false; ma_simulate_workers_count := 0 |}.

Definition short_options : string := "hVc:l:b:fdus:".

Definition long_options : list long_option :=
  [Build_long_option "help" no_argument NULL 104; Build_long_option "version" no_argument NULL 86;
   Build_long_option "config" required_argument NULL 99; Build_long_option "log-level" required_argument NULL 108;
   Build_long_option "bind" required_argument NULL 98; Build_long_option "foreground" no_argument NULL 102;
   Build_long_option "daemon" no_argument NULL 100; Build_long_option "print-uuid" no_argument NULL 117;
   Build_long_option "simulate" required_argument NULL 115].

(** How the parser ends: [exit (EXIT_SUCCESS)] with the line it printed, a
    return, or a [NULL] passed to [atoi]. *)
Inductive cli_result :=
| CliExit (uuid : option string) (out : vom_master_args)
| CliReturn (rc : Z) (out : vom_master_args)
| CliNullArgument.

(** What the [--print-uuid] branch reads: the interface files, the process id
    and the time. *)
Record uuid_env := {
  ue_eth0 : option (list Z);
  ue_wlan0 : option (list Z);
  ue_pid : Z;
  ue_time : Z
}.

Definition cli_uuid (e : uuid_env) : string :=
  let mf := match ue_eth0 e with Some _ => ue_eth0 e | None => ue_wlan0 e end in
  let uuid_buf :=
    match mf ≫= fscanf_word 17 with
    | Some mac => strncpy 63 ("vom-" ++ mac ++ "-" ++ fmt_d (ue_time e))
    | None => ""%string
    end in
  if strcmp_eq uuid_buf "" then strncpy 63 ("vom-" ++ fmt_d (ue_pid e) ++ "-" ++ fmt_d (ue_time e)) else uuid_buf.

Definition ma_set (help version : bool) (config level bind : ptr string) (daemon uuid : bool) (sim : Z) : vom_master_args :=
  {| ma_help := help; ma_version := version; ma_config_file := config; ma_log_level := level;
     ma_bind_endpoint := bind; ma_daemonize := daemon; ma_print_uuid := uuid; ma_simulate_workers_count := sim |}.

(** The [switch]: the result, or the arguments with which the loop goes on. *)
Definition master_cli_case (e : uuid_env) (opt : Z) (arg : ptr string) (a : vom_master_args) :
    cli_result + vom_master_args :=
  let '{| ma_help := h; ma_version := v; ma_config_file := cf; ma_log_level := ll; ma_bind_endpoint := be;
          ma_daemonize := d; ma_print_uuid := u; ma_simulate_workers_count := n |} := a in
  if opt =? 104 then inl (CliExit None (ma_set true v cf ll be d u n))
  else if opt =? 86 then inl (CliExit None (ma_set h true cf ll be d u n))
  else if opt =? 99 then inr (ma_set h v arg ll be d u n)
  else if opt =? 108 then inr (ma_set h v cf arg be d u n)
  else if opt =? 98 then
    if vom_master_cli_validate_endpoint arg then inr (ma_set h v cf ll arg d u n) else inl (CliReturn (-1) a)
  else if opt =? 102 then inr (ma_set h v cf ll be false u n)
  else if opt =? 100 then inr (ma_set h v cf ll be true u n)
  else if opt =? 117 then inl (CliExit (Some (cli_uuid e)) (ma_set h v cf ll be d true n))
  else if opt =? 115 then
    match arg with
    | NULL => inl CliNullArgument
    | Some s =>
        let a := ma_set h v cf ll be d u (atoi s) in
        if atoi s <? 0 then inl (CliReturn (-1) a) else inr a
    end
  else inl (CliReturn (-1) a).

Section MasterCli.
Context {G : Type} `{Getopt G}.

(** The [while] loop; [None] when the fuel runs out. *)
Fixpoint master_cli_loop (fuel : nat) (e : uuid_env) (argv : list string) (option_index : ptr nat) (g : G)
    (a : vom_master_args) : option (cli_result * G) :=
  match fuel with
  | O => None
  | S fuel =>
      let '(opt, option_index, g) := gl_call argv short_options long_options option_index g in
      if opt =? -1 then Some (CliReturn 0 a, g)
      else
        match master_cli_case e opt (gl_optarg g) a with
        | inl r => Some (r, g)
        | inr a => master_cli_loop fuel e argv option_index g a
        end
  end.

(** [out] is [NULL] or a structure to fill. *)
Definition vom_master_cli_parse (fuel : nat) (e : uuid_env) (argv : list string) (out : ptr vom_master_args) (g : G) :
    option (cli_result * G) :=
  match out with
  | NULL => Some (CliReturn (-1) master_args_default, g)
  | Some _ => master_cli_loop fuel e argv (Some O) (gl_no_errors g) master_args_default
  end.

(** ** Whatever the arguments *)

Definition master_args_ok (a : vom_master_args) : Prop :=
  (forall e, ma_bind_endpoint a = Some e -> vom_master_cli_validate_endpoint (Some e) = true) /\
  0 <= ma_simulate_workers_count a < 2 ^ 31 /\ ma_log_level a <> NULL /\ ma_help a = false /\ ma_version a = false /\ ma_print_uuid a = false.

Lemma atoi_range s : in_s32 (atoi s).
Proof. unfold atoi, s32, in_s32. pose proof (Z.mod_pos_bound (strtol10 s + 2 ^ 31) (2 ^ 32)). lia. Qed.

(** The options of the table that require a value. *)
Lemma master_requires c : c ∈ [99; 108; 98; 115] -> requires_arg short_options long_options c.
Proof.
  intros Hc. repeat (apply elem_of_cons in Hc as [->|Hc]); [..|by apply elem_of_nil in Hc];
    (split; [intros p; vm_compute; intros [= <-]; split; [lia|done]|]); intros o Ho;
    unfold long_options in Ho; repeat (apply elem_of_cons in Ho as [->|Ho]); done || by apply elem_of_nil in Ho.
Qed.

Lemma master_case_ok e opt arg a r :
  master_args_ok a -> (opt = 99 \/ opt = 108 \/ opt = 98 \/ opt = 115 -> exists v, arg = Some v) ->
  master_cli_case e opt arg a = r ->
  match r with inr a' => master_args_ok a' | inl r => r <> CliNullArgument /\ forall a, r <> CliReturn 0 a end.
Proof.
  intros (H1 & H2 & H3 & H4 & H5 & H6) Harg <-. destruct a as [h v cf ll be d u n].
  cbn [ma_help ma_version ma_log_level ma_bind_endpoint ma_print_uuid ma_simulate_workers_count] in *.
  unfold master_cli_case. cbv beta iota zeta.
  repeat (match goal with |- context [opt =? ?k] => destruct (Z.eqb_spec opt k) as [->|] end);
    try (split; [done|intros ?; discriminate]).
  all: try (destruct Harg as [s ->]; [by auto|]).
  all: try (split_and!; cbn -[vom_master_cli_validate_endpoint]; done || lia).
  - destruct (vom_master_cli_validate_endpoint (Some s)) eqn:V; [|split; [done|intros ?; discriminate]].
    split_and!; cbn -[vom_master_cli_validate_endpoint]; try done; try lia. congruence.
  - pose proof (atoi_range s). destruct (Z.ltb_spec (atoi s) 0); [split; [done|intros ?; discriminate]|].
    split_and!; cbn -[vom_master_cli_validate_endpoint]; done || unfold in_s32 in *; lia.
Qed.

Lemma master_loop_total `{!GetoptLaws G} e argv : forall fuel li g a,
  (gl_left argv g < fuel)%nat -> master_args_ok a ->
  exists r g', master_cli_loop fuel e argv li g a = Some (r, g') /\ r <> CliNullArgument /\
    forall out, r = CliReturn 0 out -> master_args_ok out.
Proof.
  induction fuel as [|fuel IH]; intros li g a Hf Ha; [lia|]. cbn [master_cli_loop].
  destruct (gl_call argv short_options long_options li g) as [[opt li'] g1] eqn:E.
  destruct (Z.eqb_spec opt (-1)) as [->|Hne].
  { eexists _, _. split; [done|]. split; [done|]. congruence. }
  pose proof (gl_progress _ _ _ _ _ _ _ _ E Hne) as Hp.
  assert (opt = 99 \/ opt = 108 \/ opt = 98 \/ opt = 115 -> exists v, gl_optarg g1 = Some v) as Harg.
  { intros Ho. eapply gl_required; [apply (master_requires opt)| | | |exact E]; unfold QUESTION, COLON; try lia.
    destruct Ho as [->|[->|[->| ->]]]; set_solver. }
  pose proof (master_case_ok e opt (gl_optarg g1) a _ Ha Harg eq_refl) as Hc.
  destruct (master_cli_case _ _ _ _) as [r|a'].
  - eexists _, _. split; [done|]. split; [apply Hc|]. intros out ->. by destruct (proj2 Hc out).
  - apply IH; [lia|done].
Qed.

End MasterCli.

(** ** Long options on the shim *)

(** A setting, as a user writes it: [--name value] or [--name=value]. *)
Inductive master_setting :=
| SetConfig (v : string) | SetLogLevel (v : string) | SetBind (v : string) | SetSimulate (v : string)
| SetForeground | SetDaemon.

Definition setting_words (joined : bool) (s : master_setting) : list string :=
  let valued (name v : string) := if joined then [(name ++ "=" ++ v)%string] else [name; v] in
  match s with
  | SetConfig v => valued "--config"%string v
  | SetLogLevel v => valued "--log-level"%string v
  | SetBind v => valued "--bind"%string v
  | SetSimulate v => valued "--simulate"%string v
  | SetForeground => ["--foreground"%string]
  | SetDaemon => ["--daemon"%string]
  end.

Definition setting_ok (s : master_setting) : Prop :=
  match s with
  | SetBind v => vom_master_cli_validate_endpoint (Some v) = true
  | SetSimulate v => 0 <= atoi v
  | _ => True
  end.

(** What a setting means. *)
Definition apply_setting (a : vom_master_args) (s : master_setting) : vom_master_args :=
  let '{| ma_help := h; ma_version := v; ma_config_file := cf; ma_log_level := ll; ma_bind_endpoint := be;
          ma_daemonize := d; ma_print_uuid := u; ma_simulate_workers_count := n |} := a in
  match s with
  | SetConfig x => ma_set h v (Some x) ll be d u n
  | SetLogLevel x => ma_set h v cf (Some x) be d u n
  | SetBind x => ma_set h v cf ll (Some x) d u n
  | SetSimulate x => ma_set h v cf ll be d u (atoi x)
  | SetForeground => ma_set h v cf ll be false u n
  | SetDaemon => ma_set h v cf ll be true u n
  end.

Definition settings_words (l : list (bool * master_setting)) : list string :=
  concat ((fun p => setting_words p.1 p.2) <$> l).

Lemma lookup_drop_head {A} (l : list A) i x r : drop i l = x :: r -> l !! i = Some x /\ drop (S i) l = r.
Proof.
  intros H. split.
  - rewrite <- (Nat.add_0_r i), <- lookup_drop, H. done.
  - replace (S i) with (i + 1)%nat by lia. by rewrite <- drop_drop, H.
Qed.

(** One call on a setting in hand. *)
Lemma shim_setting after argv li g joined s rest :
  drop (optind g) argv = setting_words joined s ++ rest ->
  exists rc i g', getopt_long after argv short_options long_options (Some li) g = (rc, Some i, g') /\
    rc <> -1 /\ drop (optind g') argv = rest /\ gs_next g' = gs_next g /\ (optind g < optind g')%nat /\
    (forall e a, setting_ok s -> master_cli_case e rc (optarg g') a = inr (apply_setting a s)).
Proof.
  intros D. unfold getopt_long.
  destruct s as [v|v|v|v| |], joined; cbn [setting_words app] in D;
    (apply lookup_drop_head in D as [L1 D]; rewrite L1);
    try (pose proof D as D0; apply lookup_drop_head in D0 as [L2 D2]);
    match goal with |- context [(char_at 0 ?a =? DASH)] => set (w := a) end;
    change ((char_at 0 w =? DASH) && (char_at 1 w =? DASH)) with true;
    change (char_at 2 w =? 0) with false; cbv iota zeta;
    match goal with |- context [find_idx ?p long_options] =>
      let r := eval vm_compute in (find_idx p long_options) in
      change (find_idx p long_options) with r end; cbv iota;
    match goal with |- context [long_options !! ?i] =>
      let r := eval vm_compute in (long_options !! i) in change (long_options !! i) with r end; cbv iota;
    unfold long_found; cbn [lo_name lo_has_arg lo_flag lo_val];
    match goal with
    | |- context [char_at ?n ?a =? EQUALS] =>
        let r := eval vm_compute in (char_at n a =? EQUALS) in change (char_at n a =? EQUALS) with r
    | _ => idtac
    end; cbv iota; cbn [set_optind optind]; try rewrite L2;
    (eexists _, _, _; split; [reflexivity|]; split; [done|]; split; [done|]; split; [done|]; split; [cbn; lia|]);
    intros e [h ve cf ll be d u n] Hok;
    try match goal with |- context [optarg ?g'] => change (optarg g') with (Some v) end;
    cbn -[vom_master_cli_validate_endpoint atoi] in *;
    try reflexivity; rewrite ?Hok; try reflexivity; by rewrite (proj2 (Z.ltb_ge _ _)).
Qed.

(** The end of the options: no argument left, or one that is no option. *)
Definition positional (pos : list string) : Prop :=
  match pos with [] => True | a :: _ => char_at 0 a <> DASH end.

Lemma shim_end after argv li g pos :
  drop (optind g) argv = pos -> positional pos -> gs_next g = NULL -> (optind g <> 0)%nat ->
  exists g', getopt_long after argv short_options long_options li g = (-1, li, g').
Proof.
  intros D P N O. unfold getopt_long.
  assert (exists g', getopt after argv short_options g = (-1, g')) as [g' E].
  { unfold getopt. rewrite N, orb_true_r, (proj2 (Nat.eqb_neq _ _) O).
    cbn [set_initialized gs_next optind]. rewrite N.
    destruct pos as [|a r]; cbn in P.
    - rewrite lookup_ge_None_2 by (apply (f_equal length) in D; rewrite length_drop in D; cbn in D; lia). eauto.
    - apply lookup_drop_head in D as [-> _]. rewrite (proj2 (Z.eqb_neq _ _) P). cbn. eauto. }
  rewrite E. destruct pos as [|a r]; cbn in P.
  - rewrite lookup_ge_None_2 by (apply (f_equal length) in D; rewrite length_drop in D; cbn in D; lia). eauto.
  - apply lookup_drop_head in D as [-> _]. rewrite (proj2 (Z.eqb_neq _ _) P). cbn. eauto.
Qed.

Lemma shim_loop after e argv pos : positional pos -> forall l fuel li g a,
  Forall (fun p => setting_ok p.2) l -> (length l < fuel)%nat ->
  drop (optind g) argv = settings_words l ++ pos -> gs_next g = NULL -> (optind g <> 0)%nat ->
  exists g', @master_cli_loop _ (shim after) fuel e argv (Some li) g a =
             Some (CliReturn 0 (foldl apply_setting a l.*2), g').
Proof.
  intros HP. induction l as [|[j s] l IH]; intros fuel li g a Hl Hf D N O; (destruct fuel as [|fuel]; [cbn in Hf; lia|]);
    cbn [master_cli_loop gl_call shim gl_optarg].
  - destruct (shim_end after argv (Some li) g pos D HP N O) as [g' ->]. eauto.
  - apply Forall_cons in Hl as [Hs Hl]. cbn in Hs. unfold settings_words in D. cbn in D. rewrite <- app_assoc in D.
    destruct (shim_setting after argv li g j s _ D) as (rc & i & g' & E & Hrc & D' & N' & O' & C). rewrite E.
    rewrite (proj2 (Z.eqb_neq _ _) Hrc), C by done. apply IH; [done|cbn in Hf; lia|done|congruence|lia].
Qed.

(** * The worker *)

Definition CLI_STR_MAX : nat := 128.

Record vom_worker_args := {
  wa_master_endpoint : string;
  wa_worker_id : string;
  wa_config_path : string;
  wa_heartbeat_interval_ms : Z;
  wa_disable_discovery : bool;
  wa_execute_self_test : bool
}.

Definition worker_args_default : vom_worker_args :=
  {| wa_master_endpoint := strncpy (CLI_STR_MAX - 1) "tcp://127.0.0.1:5555"; wa_worker_id := ""; wa_config_path := "";
     wa_heartbeat_interval_ms := 1000; wa_disable_discovery := false; wa_execute_self_test := false |}.

(** The branches that take a value; [None] when the word is none of them. *)
Definition worker_value_option (w v : string) (a : vom_worker_args) : option vom_worker_args :=
  let '(Build_vom_worker_args me wi cp hb dd st) := a in
  let cut := strncpy (CLI_STR_MAX - 1) in
  if strcmp_eq w "--master" then Some (Build_vom_worker_args (cut v) wi cp hb dd st)
  else if strcmp_eq w "--worker-id" then Some (Build_vom_worker_args me (cut v) cp hb dd st)
  else if strcmp_eq w "--config" then Some (Build_vom_worker_args me wi (cut v) hb dd st)
  else if strcmp_eq w "--heartbeat-ms" then
    Some (Build_vom_worker_args me wi cp (u32 (strtoul10 (bytes_of_string v))) dd st)
  else None.

Definition worker_flag_option (w : string) (a : vom_worker_args) : vom_worker_args :=
  let '(Build_vom_worker_args me wi cp hb dd st) := a in
  if strcmp_eq w "--no-discovery" then Build_vom_worker_args me wi cp hb true st
  else if strcmp_eq w "--test" then Build_vom_worker_args me wi cp hb dd true
  else a.

(** The loop over [argv], without the program's name. *)
Fixpoint worker_cli_loop (argv : list string) (a : vom_worker_args) : vom_worker_args :=
  match argv with
  | [] => a
  | w :: rest =>
      match rest with
      | [] => worker_flag_option w a
      | v :: rest' =>
          match worker_value_option w v a with
          | Some a => worker_cli_loop rest' a
          | None => worker_cli_loop rest (worker_flag_option w a)
          end
      end
  end.

(** [out_args] is [NULL] or a structure to fill. *)
Definition vom_worker_args_parse (argv : list string) (out_args : ptr vom_worker_args) : Z * ptr vom_worker_args :=
  match out_args with
  | NULL => (-1, NULL)
  | Some _ => (0, Some (worker_cli_loop (drop 1 argv) worker_args_default))
  end.

(** * The client *)

Inductive CliCommandType :=
  CMD_TYPE_CLUSTER_STATUS | CMD_TYPE_WORKLOAD_SUBMIT | CMD_TYPE_WORKLOAD_INSPECT | CMD_TYPE_WORKLOAD_CANCEL
| CMD_TYPE_WORKER_DRAIN | CMD_TYPE_WORKER_RESUME | CMD_TYPE_WORKER_APPROVE | CMD_TYPE_UI_MODE_SET | CMD_TYPE_UNKNOWN.

Inductive CliOutputFormat :=
  CLI_OUTPUT_HUMAN_READABLE | CLI_OUTPUT_JSON_STRUCTURABLE | CLI_OUTPUT_PLAIN_SCRIPT_TABLE.

Inductive CliExitCode :=
  CLI_EXIT_SUCCESS | CLI_EXIT_ERR_BAD_SYNTAX | CLI_EXIT_ERR_UNKNOWN_CMD | CLI_EXIT_ERR_MISSING_ARG
| CLI_EXIT_ERR_INVALID_VAL | CLI_EXIT_ERR_NETWORK_FAULT | CLI_EXIT_ERR_INTERNAL.

Definition exit_value (c : CliExitCode) : Z :=
  match c with
  | CLI_EXIT_SUCCESS => 0 | CLI_EXIT_ERR_BAD_SYNTAX => 1 | CLI_EXIT_ERR_UNKNOWN_CMD => 2
  | CLI_EXIT_ERR_MISSING_ARG => 3 | CLI_EXIT_ERR_INVALID_VAL => 4 | CLI_EXIT_ERR_NETWORK_FAULT => 5
  | CLI_EXIT_ERR_INTERNAL => 6
  end.

Definition CLI_MAX_ARGS_LEN : nat := 128.
Definition CLI_MAX_PATH_LEN : nat := 256.

(** The union: the member that was written, or all zero bytes. *)
Inductive CmdOptions :=
| OptZero
| OptSubmit (workload_path : string) (simulated_priority_level : Z)
| OptTargetId (target_id : Z)
| OptWorker (target_worker_id : string)
| OptUi (mode_name : string).

Record CliParsedCommand := {
  pc_type : CliCommandType;
  pc_format_strategy : CliOutputFormat;
  pc_options : CmdOptions
}.

Definition pc_start (f : CliOutputFormat) : CliParsedCommand :=
  {| pc_type := CMD_TYPE_UNKNOWN; pc_format_strategy := f; pc_options := OptZero |}.

(** The verb and what follows it. *)
Definition cli_verb (f : CliOutputFormat) (verb : string) (args : list string) : CliExitCode * CliParsedCommand :=
  let ok t o := (CLI_EXIT_SUCCESS, {| pc_type := t; pc_format_strategy := f; pc_options := o |}) in
  let with_arg (k : string -> CliExitCode * CliParsedCommand) :=
    match args with [] => (CLI_EXIT_ERR_MISSING_ARG, pc_start f) | x :: _ => k x end in
  if strcmp_eq verb "status" then ok CMD_TYPE_CLUSTER_STATUS OptZero
  else if strcmp_eq verb "submit" then
    with_arg (fun x => ok CMD_TYPE_WORKLOAD_SUBMIT (OptSubmit (strncpy (CLI_MAX_PATH_LEN - 1) x) 1))
  else if strcmp_eq verb "inspect" then
    with_arg (fun x => ok CMD_TYPE_WORKLOAD_INSPECT (OptTargetId (strtoul10 (bytes_of_string x))))
  else if strcmp_eq verb "cancel" then
    with_arg (fun x => ok CMD_TYPE_WORKLOAD_CANCEL (OptTargetId (strtoul10 (bytes_of_string x))))
  else if strcmp_eq verb "drain" then
    with_arg (fun x => ok CMD_TYPE_WORKER_DRAIN (OptWorker (strncpy (CLI_MAX_ARGS_LEN - 1) x)))
  else (CLI_EXIT_ERR_UNKNOWN_CMD, pc_start f).

(** [argv] with the program's name first; [out_cmd] is [NULL] or a structure. *)
Definition vom_cli_commands_parse (argv : list string) (out_cmd : ptr CliParsedCommand) :
    CliExitCode * ptr CliParsedCommand :=
  match argv, out_cmd with
  | _ :: a1 :: rest, Some _ =>
      let '(f, rest) :=
        if strcmp_eq a1 "--json" then (CLI_OUTPUT_JSON_STRUCTURABLE, rest)
        else if strcmp_eq a1 "--script" then (CLI_OUTPUT_PLAIN_SCRIPT_TABLE, rest)
        else (CLI_OUTPUT_HUMAN_READABLE, a1 :: rest) in
      match rest with
      | [] => (CLI_EXIT_ERR_MISSING_ARG, Some (pc_start f))
      | verb :: args => let (rc, cmd) := cli_verb f verb args in (rc, Some cmd)
      end
  | _, _ => (CLI_EXIT_ERR_BAD_SYNTAX, out_cmd)
  end.

(** [main]: the exit code. *)
Definition cli_main (argv : list string) (cmd : CliParsedCommand) : Z :=
  exit_value (vom_cli_commands_parse argv (Some cmd)).1.

(** * Properties *)

(** C40: Long options round trip through the compatibility [getopt_long] and the
    master's parser: any list of settings, each written as [--name value] or
    [--name=value] with any value (valid endpoints and non-negative counts
    where the parser checks them) and followed by anything that is no option,
    is accepted, and the result is the settings applied in order to the
    defaults; one turn of the loop per setting and one more are enough. *)
Theorem master_long_options_roundtrip (after : Z) (e : uuid_env) (prog : string)
    (l : list (bool * master_setting)) (pos : list string) (fuel : nat) (out : vom_master_args) :
  Forall (fun p => setting_ok p.2) l -> positional pos -> (length l < fuel)%nat ->
  exists g', @vom_master_cli_parse _ (shim after) fuel e (prog :: settings_words l ++ pos) (Some out) getopt_init =
             Some (CliReturn 0 (foldl apply_setting master_args_default l.*2), g').
Proof. intros Hl HP Hf. by eapply shim_loop. Qed.

Definition demo_uuid : uuid_env := {| ue_eth0 := None; ue_wlan0 := None; ue_pid := 42; ue_time := 1700000000 |}.

Lemma master_long_options_roundtrip_witness : exists g',
  @vom_master_cli_parse _ (shim 0) 5 demo_uuid
    ["master"; "--bind=tcp://*:7"; "--config"; "--daemon"; "--simulate"; "3"; "--daemon"; "x"]%string
    (Some master_args_default) getopt_init =
  Some (CliReturn 0 (ma_set false false (Some "--daemon"%string) (Some "info"%string) (Some "tcp://*:7"%string) true false 3), g').
Proof.
  destruct (master_long_options_roundtrip 0 demo_uuid "master"
    [(true, SetBind "tcp://*:7"); (false, SetConfig "--daemon"); (false, SetSimulate "3"); (false, SetDaemon)]
    ["x"%string] 5 master_args_default) as [g' E].
  - repeat constructor; vm_compute; discriminate.
  - discriminate.
  - cbn. lia.
  - exists g'. exact E.
Defined.

(** A worker's parsed arguments fit their fields. *)
Definition worker_args_ok (a : vom_worker_args) : Prop :=
  (String.length (wa_master_endpoint a) < CLI_STR_MAX)%nat /\ (String.length (wa_worker_id a) < CLI_STR_MAX)%nat /\
  (String.length (wa_config_path a) < CLI_STR_MAX)%nat /\ in_u32 (wa_heartbeat_interval_ms a).

(** A client command has the options of its type, within their bounds. *)
Definition command_ok (rc : CliExitCode) (c : CliParsedCommand) : Prop :=
  match rc with
  | CLI_EXIT_SUCCESS =>
      match pc_type c, pc_options c with
      | CMD_TYPE_CLUSTER_STATUS, OptZero => True
      | CMD_TYPE_WORKLOAD_SUBMIT, OptSubmit path p => (String.length path < CLI_MAX_PATH_LEN)%nat /\ in_u32 p
      | CMD_TYPE_WORKLOAD_INSPECT, OptTargetId id | CMD_TYPE_WORKLOAD_CANCEL, OptTargetId id => in_u64 id
      | CMD_TYPE_WORKER_DRAIN, OptWorker w => (String.length w < CLI_MAX_ARGS_LEN)%nat
      | _, _ => False
      end
  | CLI_EXIT_ERR_BAD_SYNTAX | CLI_EXIT_ERR_UNKNOWN_CMD | CLI_EXIT_ERR_MISSING_ARG =>
      pc_type c = CMD_TYPE_UNKNOWN /\ pc_options c = OptZero
  | _ => False
  end.

Lemma strncpy_fits n s : (0 < n)%nat -> (String.length (strncpy (n - 1) s) < n)%nat.
Proof. rewrite strncpy_length. lia. Qed.

Lemma strtoul10_range l : in_u64 (strtoul10 l).
Proof.
  assert (forall l acc, 0 <= acc -> 0 <= digits_val acc l) as Hd.
  { clear. induction l as [|c l IH]; intros acc H; cbn; [done|]. destr_if; [|done].
    unfold isdigit in *. bprop. apply IH. lia. }
  unfold strtoul10, in_u64. set (k := skip_space l). clearbody k.
  assert (forall m, 0 <= Z.min (2 ^ 64 - 1) (digits_val 0 m) < 2 ^ 64) as Hm by (intros m; specialize (Hd m 0); lia).
  repeat (case_match; try apply Hm); try lia. apply u64_range.
Qed.

Lemma worker_cli_cons w v r a :
  worker_cli_loop (w :: v :: r) a =
  match worker_value_option w v a with
  | Some a => worker_cli_loop r a
  | None => worker_cli_loop (v :: r) (worker_flag_option w a)
  end.
Proof. reflexivity. Qed.

Lemma worker_cli_ok argv a : worker_args_ok a -> worker_args_ok (worker_cli_loop argv a).
Proof.
  remember (length argv) as n eqn:Hn. revert argv a Hn.
  assert (forall w a, worker_args_ok a -> worker_args_ok (worker_flag_option w a)) as Hfl.
  { intros w [] H. unfold worker_flag_option. by repeat destr_if. }
  assert (forall w v a a', worker_args_ok a -> worker_value_option w v a = Some a' -> worker_args_ok a') as Hvl.
  { intros w v [] a' (H1 & H2 & H3 & H4). unfold worker_value_option. unfold worker_args_ok in *. cbn in H1, H2, H3, H4.
    assert (forall s, String.length (strncpy (CLI_STR_MAX - 1) s) < CLI_STR_MAX)%nat by (intros; apply strncpy_fits; unfold CLI_STR_MAX; lia).
    repeat destr_if; intros [= <-]; split_and!; cbn [wa_master_endpoint wa_worker_id wa_config_path
      wa_heartbeat_interval_ms]; try done; try apply H; apply u32_range. }
  induction n as [n IH] using lt_wf_ind. intros [|w [|v r]] a -> Ha; [done|by apply Hfl|].
  rewrite worker_cli_cons. destruct (worker_value_option w v a) as [a'|] eqn:E.
  - eapply IH; [|reflexivity|by eapply Hvl]. cbn. lia.
  - apply (IH (length (v :: r))); [cbn; lia|done|by apply Hfl].
Qed.

(** C39: Whatever the arguments, the three parsers end with well-typed results:
    the master's loop comes to its end on any [getopt_long] that makes progress
    (the compatibility one in particular, with as many turns as it has bytes to
    read), never uses a missing value, and when it succeeds the endpoint is
    valid, the worker count an [int] that is not negative and a log level set;
    the worker's strings and interval fit their fields; a client command has
    the options of its type within bounds, and none when it is refused. *)
Theorem command_lines_typed (after : Z) (e : uuid_env) (argv : list string) (g : getopt_state)
    (out : vom_master_args) (wout : vom_worker_args) (cmd : CliParsedCommand) :
  (exists r g', @vom_master_cli_parse _ (shim after) (S (unread argv g)) e argv (Some out) g = Some (r, g') /\
     r <> CliNullArgument /\ forall a, r = CliReturn 0 a -> master_args_ok a) /\
  (exists a, vom_worker_args_parse argv (Some wout) = (0, Some a) /\ worker_args_ok a) /\
  (if (length argv <? 2)%nat then vom_cli_commands_parse argv (Some cmd) = (CLI_EXIT_ERR_BAD_SYNTAX, Some cmd)
   else exists rc c, vom_cli_commands_parse argv (Some cmd) = (rc, Some c) /\ command_ok rc c).
Proof.
  split.
  { unfold vom_master_cli_parse. eapply (@master_loop_total _ (shim after) (shim_laws after)).
    - cbn [gl_left shim_laws gl_no_errors shim]. unfold unread. cbn [set_opterr gs_next optind]. lia.
    - unfold master_args_ok. cbn. split_and!; done || lia. }
  split.
  { eexists. split; [reflexivity|]. apply worker_cli_ok. split_and!; try (apply Nat.ltb_lt; reflexivity). done. }
  destruct argv as [|p [|a1 rest]]; [done..|]. cbn [length Nat.ltb Nat.leb vom_cli_commands_parse].
  set (p2 := if strcmp_eq a1 "--json" then _ else _). destruct p2 as [f [|verb args]]; [by eexists _, _|].
  destruct (cli_verb f verb args) as [rc c] eqn:V. exists rc, c. split; [done|]. unfold cli_verb in V.
  assert (forall s, String.length (strncpy 255 s) < 256)%nat by (intros; apply (strncpy_fits 256); lia).
  assert (forall s, String.length (strncpy 127 s) < 128)%nat by (intros; apply (strncpy_fits 128); lia).
  repeat (destr_if_hyp; [destruct args; injection V as <- <-; cbn; done || apply strtoul10_range || auto|]).
  by injection V as <- <-.
Qed.

(** ** Decimal numbers *)

Lemma strtoul10_pretty n : in_u64 n -> strtoul10 (bytes_of_string (fmt_d n)) = n.
Proof.
  intros Hn. unfold in_u64 in Hn. destruct (fmt_d_digits n) as (d & ds & E & F & V); [lia|].
  specialize (V []). rewrite app_nil_r in V. change (digits_val n []) with n in V.
  pose proof (proj1 (proj1 (Forall_cons _ _ _) F)) as Hd. pose proof (isdigit_range _ Hd) as Hr.
  unfold strtoul10. rewrite E, skip_space_digit by done.
  transitivity (Z.min (2 ^ 64 - 1) (digits_val 0 (d :: ds))); [|rewrite V; lia].
  repeat (case_match; try reflexivity; try lia).
Qed.

(** The commands a user can give, and how they are written. *)
Inductive client_command :=
| Status | Submit (path : string) | Inspect (id : Z) | Cancel (id : Z) | Drain (worker : string).

Definition command_words (c : client_command) : list string :=
  match c with
  | Status => ["status"%string] | Submit p => ["submit"%string; p] | Inspect i => ["inspect"%string; fmt_d i]
  | Cancel i => ["cancel"%string; fmt_d i] | Drain w => ["drain"%string; w]
  end.

Definition format_words (f : CliOutputFormat) : list string :=
  match f with
  | CLI_OUTPUT_HUMAN_READABLE => [] | CLI_OUTPUT_JSON_STRUCTURABLE => ["--json"%string]
  | CLI_OUTPUT_PLAIN_SCRIPT_TABLE => ["--script"%string]
  end.

Definition parsed_of (f : CliOutputFormat) (c : client_command) : CliParsedCommand :=
  let mk t o := {| pc_type := t; pc_format_strategy := f; pc_options := o |} in
  match c with
  | Status => mk CMD_TYPE_CLUSTER_STATUS OptZero
  | Submit p => mk CMD_TYPE_WORKLOAD_SUBMIT (OptSubmit p 1)
  | Inspect i => mk CMD_TYPE_WORKLOAD_INSPECT (OptTargetId i)
  | Cancel i => mk CMD_TYPE_WORKLOAD_CANCEL (OptTargetId i)
  | Drain w => mk CMD_TYPE_WORKER_DRAIN (OptWorker w)
  end.

Definition client_command_ok (c : client_command) : Prop :=
  match c with
  | Status => True
  | Submit p => (String.length p < CLI_MAX_PATH_LEN)%nat
  | Inspect i | Cancel i => in_u64 i
  | Drain w => (String.length w < CLI_MAX_ARGS_LEN)%nat
  end.

(** The client understands every command it offers: a command printed with
    its output format in front, with 64-bit identifiers in decimal and strings
    that fit, followed by any other words, parses to that command and exit code
    0; a command without the argument it needs is refused with code 3 and an
    unknown one with code 2. *)
Theorem client_command_roundtrip (prog : string) (f : CliOutputFormat) (c : client_command) (extra : list string)
    (out : CliParsedCommand) (verb : string) :
  client_command_ok c ->
  vom_cli_commands_parse (prog :: format_words f ++ command_words c ++ extra) (Some out) =
    (CLI_EXIT_SUCCESS, Some (parsed_of f c)) /\
  cli_main (prog :: format_words f ++ command_words c ++ extra) out = 0 /\
  (verb ∈ ["submit"; "inspect"; "cancel"; "drain"]%string -> cli_main (prog :: format_words f ++ [verb]) out = 3) /\
  (verb ∉ ["status"; "submit"; "inspect"; "cancel"; "drain"; "--json"; "--script"]%string ->
   cli_main (prog :: format_words f ++ verb :: extra) out = 2).
Proof.
  intros Hc.
  assert (vom_cli_commands_parse (prog :: format_words f ++ command_words c ++ extra) (Some out) =
    (CLI_EXIT_SUCCESS, Some (parsed_of f c))) as E.
  { assert (forall w, (let (rc, cmd) := cli_verb f (hd ""%string (command_words c)) (tl (command_words c) ++ w) in (rc, Some cmd)) =
      (CLI_EXIT_SUCCESS, Some (parsed_of f c))) as H.
    { intros w. destruct c; cbn -[strncpy strtoul10 fmt_d] in *; rewrite ?strtoul10_pretty by done; rewrite ?strncpy_short;
        try done; unfold CLI_MAX_PATH_LEN, CLI_MAX_ARGS_LEN in *; cbn in *; lia. }
    destruct f, c; exact (H extra). }
  split; [exact E|]. split; [unfold cli_main; by rewrite E|]. split.
  - intros Hv. repeat (apply elem_of_cons in Hv as [->|Hv]); [..|by apply elem_of_nil in Hv]; by destruct f.
  - intros Hv. repeat (apply not_elem_of_cons in Hv as [? Hv]). unfold cli_main.
    assert (cli_verb f verb extra = (CLI_EXIT_ERR_UNKNOWN_CMD, pc_start f)) as V
      by (unfold cli_verb; rewrite !strcmp_ne by done; done).
    destruct f; cbn [format_words app vom_cli_commands_parse]; rewrite ?(strcmp_ne verb) by done;
      try change (strcmp_eq "--json" "--json") with true;
      try change (strcmp_eq "--script" "--json") with false; try change (strcmp_eq "--script" "--script") with true;
      cbv iota; by rewrite V.
Qed.

Lemma client_command_roundtrip_witness :
  vom_cli_commands_parse ["vom-cli"; "--json"; "cancel"; "18446744073709551615"]%string (Some (pc_start CLI_OUTPUT_HUMAN_READABLE)) =
    (CLI_EXIT_SUCCESS, Some (parsed_of CLI_OUTPUT_JSON_STRUCTURABLE (Cancel (2 ^ 64 - 1)))).
Proof.
  refine (proj1 (client_command_roundtrip "vom-cli" CLI_OUTPUT_JSON_STRUCTURABLE (Cancel (2 ^ 64 - 1)) [] _ "status" _)).
  unfold client_command_ok, in_u64. lia.
Defined.

(** ** What the short options of the shim do

    A flag is followed by a call that reads the terminator behind it as another
    option and returns 0, which the parser refuses; an option with a value
    takes its own letter for the value. *)
Example shim_short_flag_is_refused :
  exists a g, @vom_master_cli_parse _ (shim 0) 20 demo_uuid ["master"; "-d"]%string (Some master_args_default) getopt_init =
              Some (CliReturn (-1) a, g).
Proof. eexists _, _. vm_compute. reflexivity. Qed.

Example shim_short_value_is_its_letter :
  exists g, @vom_master_cli_parse _ (shim 0) 20 demo_uuid ["master"; "-c"; "my.conf"]%string (Some master_args_default) getopt_init =
            Some (CliReturn 0 (ma_set false false (Some "c"%string) (Some "info"%string) NULL false false 0), g).
Proof. eexists. vm_compute. reflexivity. Qed.

(** The three verbs [resume], [approve] and [ui-mode] of the command types are
    not understood. *)
Example client_resume_unknown :
  cli_main ["vom-cli"; "resume"; "w1"]%string (pc_start CLI_OUTPUT_HUMAN_READABLE) = 2.
Proof. reflexivity. Qed.
