(* ===== verification/TestPrograms.v ===== *)
(** The result type of [common/include/common/result.h] and the three test
    programs under [tests/], as functions to their exit codes. *)
From S2P Require Import Prelude CFloat Scheduler Layout Declarations.

(** * [result.h] *)

(** An enumerator of a declared enumeration. *)
Definition enum_value (e : list (string * Z)) (name : string) : Z :=
  default (-1) (snd <$> List.find (fun x => String.eqb x.1 name) e).

Definition cat (name : string) : Z := enum_value rlh_VomErrorCategory name.
Definition retry (name : string) : Z := enum_value rlh_VomRetryAction name.

Record vom_result := {
  category : Z;
  stable_code : Z;
  retry_policy : Z;
  human_detail : string
}.

Definition vom_result_success : vom_result :=
  {| category := cat "VOM_CAT_SUCCESS"; stable_code := 0; retry_policy := retry "VOM_RETRY_NONE";
     human_detail := "Operation completed successfully" |}.

Definition vom_result_is_success (res : vom_result) : bool :=
  (category res =? cat "VOM_CAT_SUCCESS") && (retry_policy res =? retry "VOM_RETRY_NONE").

(** * Counting *)

(** [test_count], [pass_count] and the exit code of [main]. *)
Definition exit_code (verdicts : list bool) : Z :=
  let test_count := length verdicts in
  let pass_count := length (filter (fun b => b = true) verdicts) in
  if (pass_count =? test_count)%nat then 0 else 1.

(** * [tests/test_scheduler_logic.c] *)

(** The zeroed structures with the members the tests set. *)
Definition view (id : string) (cpu mem draining : Z) (reliability : cdouble) : vom_worker_view :=
  {| wv_worker_id := strncpy 63 id; wv_platform := 0; wv_runtime := 0; wv_cpu_units := cpu; wv_reserv_cpu := 0;
     wv_free_memory_mb := mem; wv_reserv_mem_mb := 0; wv_battery_pct := S754_zero false; wv_active_chunks := 0;
     wv_has_touch_input := 0; wv_draining := draining; wv_healthy := 1; wv_reliability_score := reliability |}.
Definition plan (chunk workload cpu mem : Z) : vom_chunk_plan :=
  {| cp_chunk_id := chunk; cp_workload_id := workload; cp_required_platform := 0; cp_required_runtime := 0;
     cp_required_cpu := cpu; cp_required_memory_mb := mem; cp_requires_touch := 0; cp_is_blocked := false;
     cp_preferred_node := 0 |}.

(** [vom_scheduler_init], a worker and a chunk. *)
Definition prepared (w : vom_worker_view) (c : vom_chunk_plan) : sched :=
  snd (vom_scheduler_submit_ready_chunk (Some c) (snd (vom_scheduler_register_worker (Some w) vom_scheduler_init))).

Definition run_register_worker : bool :=
  fst (vom_scheduler_register_worker (Some (view "worker-01" 8 16384 0 (ddiv (double_of_Z 95) (double_of_Z 100)))) vom_scheduler_init) =? 0.

Definition run_submit_chunk : bool :=
  fst (vom_scheduler_submit_ready_chunk (Some (plan 1001 501 2 1024)) vom_scheduler_init) =? 0.

Definition run_tick_assigns_chunk : bool :=
  let s := prepared (view "worker-01" 8 16384 0 (ddiv (double_of_Z 9) (double_of_Z 10))) (plan 2001 601 2 512) in
  let '(dispatched, leases, _) := vom_scheduler_tick 1000 10 s in
  (dispatched =? 1) && match leases with l :: _ => al_is_active l && (al_chunk_id l =? 2001) | [] => false end.

Definition run_reject_insufficient_cpu : bool :=
  let s := prepared (view "worker-tiny" 1 4096 0 (double_of_Z 1)) (plan 3001 701 8 512) in
  let '(dispatched, _, _) := vom_scheduler_tick 1000 10 s in dispatched =? 0.

Definition run_reject_draining_worker : bool :=
  let s := prepared (view "worker-drain" 8 16384 1 (double_of_Z 1)) (plan 4001 801 1 256) in
  let '(dispatched, _, _) := vom_scheduler_tick 1000 10 s in dispatched =? 0.

Definition run_lease_release : bool :=
  let s := prepared (view "worker-01" 4 4096 0 (double_of_Z 1)) (plan 5001 901 2 1024) in
  let '(_, _, s) := vom_scheduler_tick 1000 10 s in
  let s := vom_scheduler_release_lease 5001 s in
  let s := snd (vom_scheduler_submit_ready_chunk (Some (plan 5002 901 2 1024)) s) in
  let '(dispatched, _, _) := vom_scheduler_tick 2000 10 s in 1 <=? dispatched.

(** The first test passes when [vom_scheduler_init] returns. *)
Definition test_scheduler_logic_main : Z :=
  exit_code [true; run_register_worker; run_submit_chunk; run_tick_assigns_chunk; run_reject_insufficient_cpu;
             run_reject_draining_worker; run_lease_release].

(** * [tests/test_common_log.c] *)

Definition test_common_log_main : Z :=
  let worker := enum_value dmh_VomWorkerStatus in
  exit_code
    [enum_value dmh_VomWorkloadState "VOM_WORKLOAD_STATE_SUBMITTED" =? 0;
     enum_value dmh_VomChunkState "VOM_CHUNK_PENDING" =? 0;
     negb (worker "VOM_WORKER_OFFLINE"%string =? worker "VOM_WORKER_HEALTHY"%string) &&
     negb (worker "VOM_WORKER_HEALTHY"%string =? worker "VOM_WORKER_DRAINING"%string);
     (0 <? sizeof dmh_vom_workload_state)%nat && (0 <? sizeof dmh_vom_chunk_plan)%nat && (0 <? sizeof dmh_vom_worker_observation)%nat;
     vom_result_is_success vom_result_success && (category vom_result_success =? cat "VOM_CAT_SUCCESS");
     (dmh_DOMAIN_UUID_LEN =? 40)%nat && (dmh_DOMAIN_NAME_MAX =? 64)%nat].

(** * [tests/test_capnp_roundtrip.c] *)

(** The double loop over the table: no two entries are equal. *)
Fixpoint distinct (l : list Z) : bool :=
  match l with
  | [] => true
  | x :: l => forallb (fun y => negb (x =? y)) l && distinct l
  end.

Definition timed_out : vom_result :=
  {| category := cat "VOM_CAT_TIMEOUT"; stable_code := 9; retry_policy := retry "VOM_RETRY_BACKOFF"; human_detail := "Timed out" |}.

Definition test_capnp_roundtrip_main : Z :=
  exit_code
    [true; vom_result_is_success vom_result_success; negb (vom_result_is_success timed_out);
     distinct (cat <$> ["VOM_CAT_SUCCESS"; "VOM_CAT_INVALID_INPUT"; "VOM_CAT_TRANSPORT"; "VOM_CAT_PROTOCOL";
                        "VOM_CAT_SCHEDULER_REJECT"; "VOM_CAT_WORKER_EXECUTION"; "VOM_CAT_TIMEOUT"; "VOM_CAT_CANCELLATION";
                        "VOM_CAT_AUTHENTICATION"; "VOM_CAT_INTERNAL"]%string);
     distinct (retry <$> ["VOM_RETRY_NONE"; "VOM_RETRY_IMMEDIATE"; "VOM_RETRY_BACKOFF"; "VOM_RETRY_REPLAN"]%string)].

(** * Properties *)

Lemma test_programs_succeed :
  test_scheduler_logic_main = 0 /\ test_common_log_main = 0 /\ test_capnp_roundtrip_main = 0.
Proof. split_and!; vm_compute; reflexivity. Qed.
