(* ===== verification/SelfTests.v ===== *)
(** The self-tests the source files carry ([execute_..._test_suite] and the
    [main]s behind [VOM_STANDALONE_TEST]): each suite is replayed on the model,
    with the results it checks or prints as a list of verdicts.  What the suites
    leave to chance (uninitialised locals, what [malloc] and ZeroMQ return) is
    an argument. *)
From S2P Require Import Prelude CFloat Scanf ChunkPlanner MasterRecovery Envelope Router WorkerTransport.
From S2P Require Import WorkerRecovery ResourceMonitor WorkerState UiModel UiCoordinator Capabilities Discovery DisplayBridge.
From S2P Require Import Getopt CommandLine TestPrograms.

#[local] Instance router_status_eq_dec : EqDecision VomRouterStatus.
Proof. solve_decision. Defined.
#[local] Instance thermal_eq_dec : EqDecision VomCapThermal.
Proof. solve_decision. Defined.
#[local] Instance discovery_status_eq_dec : EqDecision VomDiscoveryStatus.
Proof. solve_decision. Defined.
#[local] Instance ui_mode_eq_dec : EqDecision VomUiMode.
Proof. solve_decision. Defined.

(** [PASS] or [FAIL] in the order of the suite. *)
Abbreviation verdicts := (list bool).

(** * [chunk_planner.c] *)

Definition GiB : Z := 1024 * 1024 * 1024.

Definition monolithic_wl : ChunkPlanner.Workload :=
  {| wl_workload_name := "LegacyMonolithicDBDump"; wl_strategy_type := STRATEGY_SEQUENTIAL_PIPELINE;
     wl_total_input_size_bytes := GiB * 50; wl_compute_intensity_factor := 4; wl_is_splittable := false; wl_raw_data_node_id := 0 |}.
Definition batch_wl : ChunkPlanner.Workload :=
  {| wl_workload_name := "ParallelETLJob"; wl_strategy_type := STRATEGY_INDEPENDENT_BATCH;
     wl_total_input_size_bytes := GiB * 8; wl_compute_intensity_factor := 2; wl_is_splittable := true; wl_raw_data_node_id := 1 |}.
Definition pipeline_wl : ChunkPlanner.Workload :=
  {| wl_workload_name := "OrderedDataTransform"; wl_strategy_type := STRATEGY_SEQUENTIAL_PIPELINE;
     wl_total_input_size_bytes := GiB * 16; wl_compute_intensity_factor := 3; wl_is_splittable := true; wl_raw_data_node_id := 2 |}.

(** The forged plan's nodes keep what the stack held in the other members. *)
Definition forged_node (stack : ChunkNode) (id : Z) : ChunkNode :=
  {| cn_chunk_id := id; cn_memory_demand_bytes := cn_memory_demand_bytes stack;
     cn_cpu_cores_demand := cn_cpu_cores_demand stack; cn_target_node_id := cn_target_node_id stack;
     cn_data_locality_score := cn_data_locality_score stack |}.
Definition cyclic_forged_plan (s1 s2 : ChunkNode) : ExecutionPlan :=
  {| ep_chunks := [forged_node s1 0xDEADE; forged_node s2 0xBEEFE];
     ep_edges := [{| de_src_chunk_id := 0xDEADE; de_dst_chunk_id := 0xBEEFE |};
                  {| de_src_chunk_id := 0xBEEFE; de_dst_chunk_id := 0xDEADE |}];
     ep_is_valid := true |}.

Definition execute_test_suite (p1 p2 p3 : ExecutionPlan) (s1 s2 : ChunkNode) : verdicts :=
  let r := snd (register_planning_strategy STRATEGY_INDEPENDENT_BATCH (Some plan_independent_batch_strategy) []) in
  let r := snd (register_planning_strategy STRATEGY_SEQUENTIAL_PIPELINE (Some plan_sequential_pipeline_strategy) r) in
  let '(res_1, plan_1) := generate_chunk_graph r (Some monolithic_wl) (Some p1) in
  let '(res_2, plan_2) := generate_chunk_graph r (Some batch_wl) (Some p2) in
  let '(res_3, plan_3) := generate_chunk_graph r (Some pipeline_wl) (Some p3) in
  [negb res_1 && match plan_1 with Some p => negb (ep_is_valid p) | None => false end;
   res_2; match plan_2 with Some p => verify_plan_topology_is_dag p | None => false end;
   res_3; match plan_3 with Some p => verify_plan_topology_is_dag p | None => false end;
   negb (verify_plan_topology_is_dag (cyclic_forged_plan s1 s2))].

(** * [recovery.c] of the master *)

(** The suite only prints: what the dashboard shows at the end. *)
Definition recovery_main : option (MasterRecovery.UiHealthStatus * list (Z * LeaseState) * list (string * bool)) :=
  engine ← vom_recovery_init true;
  let simulated_clock_ms := 10000 in
  let engine := vom_recovery_register_worker_heartbeat (Some "worker-tablet-01"%string) simulated_clock_ms engine in
  let engine := vom_recovery_inject_test_lease 7001 501 "worker-tablet-01" (simulated_clock_ms + 5000) VOM_RETRY_IMMEDIATE engine in
  let engine := vom_recovery_sweep_timeouts (simulated_clock_ms + 15000) 5000 engine in
  Some (rec_summary_health engine, (fun l => (rl_lease_id l, rl_state l)) <$> rec_leases engine,
        (fun w => (ro_worker_id w, ro_is_healthy w)) <$> rec_workers engine).

(** * [router.c] and [transport.c] *)

Section Sockets.
Context {S : Type} `{Zmq S}.

(** [zmq_socket], [bind_ok]: what [zmq_socket] returns for each type of socket,
    and [zmq_bind]. *)
Definition execute_router_test_suite (zmq_socket : Z -> ptr S) (bind_ok : bool) (giant stack : list Z) (sec usec : Z) : verdicts :=
  match vom_master_router_create true with
  | NULL => []
  | Some broker =>
      let '(rc_start, broker) := vom_master_router_start (Some "tcp://127.0.0.1:6555"%string) zmq_socket bind_ok broker in
      let '(rc_size, broker) := vom_master_router_send_to_worker (Some "worker-node-01"%string) ROUTER_MSG_CHUNK_ASSIGN
                                  (Some giant) (ROUTER_PAYLOAD_MAX_LEN + 100) stack sec usec broker in
      [bool_decide (rc_start = ROUTER_STATUS_SUCCESS); bool_decide (rc_size = ROUTER_STATUS_ERR_SIZE)]
  end.

(** The context as the suite destroys it, and the status of [disconnect]. *)
Definition execute_transport_test_suite (cfg : vom_transport_config) (zmq_socket : Z -> ptr S) (connect_ok : bool) (stack : list Z) (sec usec : Z) :
    option (VomTransportStatus * vom_worker_transport_context S) :=
  ctx ← vom_worker_transport_create true;
  let ctx := snd (vom_worker_transport_configure (Some cfg) ctx) in
  let ctx := snd (vom_worker_transport_connect (Some "tcp://127.0.0.1:5555"%string) zmq_socket connect_ok ctx) in
  let ctx := snd (vom_worker_transport_send MSG_CODE_AUTH_REQ (Some (bytes_of_string "credentials")) 11 stack sec usec ctx) in
  let '(_, _, ctx) := vom_worker_transport_poll true true ctx in
  Some (vom_worker_transport_disconnect true ctx).
End Sockets.

(** * [recovery.c], [resource_monitor.c] and [worker_state.c] of the worker *)

(** [claimed_hash] is uninitialised. *)
Definition execute_worker_recovery_test_suite (claimed_hash : string) : option (verdicts * ptr string) :=
  rec ← vom_worker_recovery_init true;
  let '(r1, rec) := vom_worker_recovery_accept_new_chunk 9001 101 true rec in
  let rec := vom_worker_recovery_set_drain true rec in
  let '(r2, rec) := vom_worker_recovery_accept_new_chunk 9002 102 true rec in
  let rec := vom_worker_recovery_set_drain false rec in
  let rec := snd (vom_worker_recovery_accept_new_chunk 9003 103 false rec) in
  let rec := vom_worker_recovery_handle_revocation 9003 rec in
  let rec := snd (vom_worker_recovery_accept_new_chunk 9004 104 true rec) in
  let rec := vom_worker_recovery_complete_chunk 9004 (Some "sha256-verified-output"%string) rec in
  rec ← vom_worker_recovery_reconnect_reconcile [9004] rec;
  let '(claimed, hash) := vom_worker_recovery_claim_result 9004 (Some claimed_hash) rec in
  let '(stray_claimed, _) := vom_worker_recovery_claim_result 9001 hash rec in
  Some ([r1; negb r2; claimed; negb stray_claimed], hash).

Definition zero_sample : ResourceSample :=
  {| rs_timestamp_ms := 0; rs_status := SAMPLE_FRESH; rs_cpu_utilization_pct := S754_zero false;
     rs_effective_cpu_units_available := 0; rs_free_ram_mb := 0; rs_reclaimable_ram_mb := 0; rs_free_storage_mb := 0;
     rs_current_io_read_mbps := 0; rs_battery_percentage := S754_zero false; rs_thermal_state := THERMAL_NOMINAL |}.

(** The verdicts, with the two numbers of available cores that are printed. *)
Definition execute_monitor_test_suite : option (verdicts * list Z) :=
  monitor ← vom_monitor_init true;
  let monitor := vom_monitor_record_sample 5000 monitor in
  res1 ← snd (vom_monitor_get_latest_availability 5000 (Some zero_sample) monitor);
  let monitor := vom_monitor_update_reservations 2 1024 monitor in
  let monitor := vom_monitor_record_sample 5500 monitor in
  res2 ← snd (vom_monitor_get_latest_availability 5500 (Some res1) monitor);
  res3 ← snd (vom_monitor_get_latest_availability 20500 (Some res2) monitor);
  Some ([bool_decide (rs_status res1 = SAMPLE_FRESH); bool_decide (rs_effective_cpu_units_available res2 = 2);
         bool_decide (rs_status res3 = SAMPLE_STALE)],
        [rs_effective_cpu_units_available res1; rs_effective_cpu_units_available res2]).

(** The verdicts and the states that are printed. *)
Definition execute_worker_state_test_suite : option (verdicts * list WorkerState) :=
  ws ← vom_worker_state_init true;
  let '(r1, ws) := vom_worker_state_transition WRK_EVENT_CONNECT 1000 (Some "tcp://127.0.0.1:5555"%string) ws in
  let s1 := vom_worker_state_get ws in
  let '(r2, ws) := vom_worker_state_transition WRK_EVENT_REGISTER_SUCCESS 1100 NULL ws in
  let s2 := vom_worker_state_get ws in
  let ws := vom_worker_state_update_tasks 2 ws in
  let s3 := vom_worker_state_get ws in
  let '(r3, ws) := vom_worker_state_transition WRK_EVENT_START_DRAIN 1200 NULL ws in
  let s4 := vom_worker_state_get ws in
  let '(r4, ws) := vom_worker_state_transition WRK_EVENT_DISCONNECT 1300 NULL ws in
  let s5 := vom_worker_state_get ws in
  let ws := snd (vom_worker_state_transition WRK_EVENT_CONNECT 1400 (Some "tcp://127.0.0.1:5555"%string) ws) in
  let ws := snd (vom_worker_state_transition WRK_EVENT_REGISTER_SUCCESS 1450 NULL ws) in
  let '(r5, ws) := vom_worker_state_transition WRK_EVENT_TERMINATE 1500 NULL ws in
  Some ([r1; r2; r3; r4; r5], [s1; s2; s3; s4; s5; vom_worker_state_get ws]).

(** * [capabilities.c], [discovery.c], [display_bridge.c] and [cli.c] of the worker *)

Definition execute_capabilities_test_suite (buffer : list Z) (dyn_1 : vom_worker_dynamic_resources) : option verdicts :=
  mgr ← vom_capabilities_manager_create true;
  let mgr := vom_capabilities_manager_set_fixture 0 mgr in
  let '(size_static_0, _, mgr) := vom_capabilities_build_join_request (Some buffer) (Z.of_nat STATIC_SIZE) mgr in
  let mgr := vom_capabilities_manager_set_fixture 1 mgr in
  dyn_1 ← snd (vom_capabilities_collect_dynamic (Some dyn_1) mgr);
  Some [size_static_0 =? Z.of_nat STATIC_SIZE; bool_decide (dr_thermal_state dyn_1 = CAP_THERMAL_THROTTLED)].

(** [mock_discovery_callback] counts its calls. *)
Definition execute_discovery_test_suite (current : string) : option verdicts :=
  disc ← vom_worker_discovery_create true;
  let v0 := bool_decide (vom_worker_discovery_get_status (Some disc) = DISCOVERY_STATUS_IDLE) in
  let disc := snd (vom_worker_discovery_configure (Some "tcp://192.168.1.50:5555"%string) 5000 disc) in
  let '(_, calls1, disc) := vom_worker_discovery_start (Some 1%nat) (Some 1%nat) disc in
  let v1 := bool_decide (vom_worker_discovery_get_status (Some disc) = DISCOVERY_STATUS_FALLBACK) in
  let '(rc1, cur1) := vom_worker_discovery_current (Some current) DISCOVERY_ENDPOINT_MAX disc in
  let disc := vom_worker_discovery_stop disc in
  let disc := vom_worker_discovery_enable_mdns true disc in
  let '(_, calls2, disc) := vom_worker_discovery_start (Some 1%nat) (Some 1%nat) disc in
  let v2 := bool_decide (vom_worker_discovery_get_status (Some disc) = DISCOVERY_STATUS_FOUND) in
  let '(rc2, cur2) := vom_worker_discovery_current cur1 DISCOVERY_ENDPOINT_MAX disc in
  Some [v0; v1; (length calls1 =? 1)%nat; rc1 =? 0; bool_decide (cur1 = Some "tcp://192.168.1.50:5555"%string); v2;
        (length calls1 + length calls2 =? 2)%nat; rc2 =? 0; bool_decide (cur2 = Some "tcp://discovered-master.local:5555"%string)].

Definition execute_display_bridge_test_suite (list0 : list vom_display_descriptor) (stack : vom_input_data) (frame : Z) : option verdicts :=
  bridge ← vom_display_bridge_create true;
  let '(enumerated, out) := vom_display_bridge_enumerate (Some list0) (Z.of_nat FIXTURE_COUNT) bridge in
  out ← out;
  let '(rc_mode, bridge) := vom_display_bridge_set_mode 0 UI_MODE_MASTER_DIRECTED bridge in
  let v_mode := bool_decide (db_active_mode bridge !! 0%nat = Some UI_MODE_MASTER_DIRECTED) in
  let bridge := snd (vom_display_bridge_register_callbacks (Some 1%nat) (Some 2%nat) (Some 3%nat) bridge) in
  let '(_, event) := vom_display_bridge_poll_events stack bridge in
  let bridge := vom_display_bridge_trigger_isolated_fault true bridge in
  let rc_render := vom_display_bridge_render_frame 0 (Some [frame]) 1 bridge in
  Some [enumerated =? Z.of_nat FIXTURE_COUNT; bool_decide (dd_width_pixels <$> out !! 0%nat = Some 1920); rc_mode =? 0; v_mode;
        match event with Some (_, e, _) => in_pointer_x (ev_data e) =? 100 | None => false end; rc_render =? -2].

Definition execute_cli_test_suite (args : vom_worker_args) : option verdicts :=
  let '(rc1, a1) := vom_worker_args_parse ["worker_bin"; "--test"]%string (Some args) in
  a1 ← a1;
  let '(rc2, a2) := vom_worker_args_parse ["worker_bin"; "--master"; "tcp://10.0.0.1:6666"; "--worker-id"; "node-42";
                                           "--heartbeat-ms"; "3000"; "--no-discovery"]%string (Some a1) in
  a2 ← a2;
  Some [rc1 =? 0; wa_execute_self_test a1; negb (wa_disable_discovery a1);
        strcmp_eq (wa_master_endpoint a1) "tcp://127.0.0.1:5555";
        rc2 =? 0; negb (wa_execute_self_test a2); wa_disable_discovery a2; strcmp_eq (wa_master_endpoint a2) "tcp://10.0.0.1:6666";
        strcmp_eq (wa_worker_id a2) "node-42"; wa_heartbeat_interval_ms a2 =? 3000].

(** * The two views: [ui_coordinator.c] and [ui/src/model.c] *)

Definition execute_ui_coordinator_test_suite (raw_ascii : bool) (render_output_buffer : string) (dummy_snapshot : Z) :
    option (ptr string * bool) :=
  ui ← vom_ui_coordinator_create true raw_ascii;
  let ui := vom_ui_coordinator_synchronize (Some dummy_snapshot) ui in
  let out := vom_ui_coordinator_render_to_buffer (Some render_output_buffer) 1024 ui in
  let valid := vom_ui_coordinator_validate_intent (Some {| ui_command_type := 1; ui_target_id := 501; ui_text_arg := "" |}) true in
  Some (out, valid).

Definition zero_ui_metrics : UiModel.ClusterMetrics :=
  {| met_aggregate_memory_bytes := 0; met_allocated_memory_bytes := 0; met_aggregate_cores := 0; met_allocated_cores := 0;
     met_active_worker_count := 0 |}.
Definition empty_snap : UiModel.ClusterStateSnapshot :=
  {| ss_cluster_uuid := "9999-ABCD"; ss_master_epoch := 0; ss_state_generation_version := 42;
     ss_global_status := CLUSTER_STATUS_BOOSTRAP; ss_active_workers := []; ss_active_leases := []; ss_metrics := zero_ui_metrics |}.
Definition active_snap : UiModel.ClusterStateSnapshot :=
  {| ss_cluster_uuid := "NODE-CLUSTER-ONE"; ss_master_epoch := 1234567; ss_state_generation_version := 105;
     ss_global_status := CLUSTER_STATUS_OPERATIONAL;
     ss_active_workers :=
       [{| UiModel.wm_worker_id := 101; wm_hostname := "worker-alpha"; UiModel.wm_health := WORKER_HEALTH_ONLINE;
           wm_last_heartbeat_monotonic_ms := 4500;
           UiModel.wm_resources := {| res_total_memory_bytes := GiB * 16; res_reserved_memory_bytes := GiB * 4;
                                      res_total_cores := 8; res_reserved_cores := 2 |} |}];
     ss_active_leases :=
       [{| UiModel.cl_chunk_id := 5001; cl_workload_id := 9001; cl_assigned_worker_id := 101;
           UiModel.cl_status := LEASE_STATUS_EXECUTING;
           UiModel.cl_progress_percentage := fdiv (float_of_Z 755) (float_of_Z 10); UiModel.cl_failure_retry_count := 0 |}];
     ss_metrics := {| met_aggregate_memory_bytes := GiB * 16; met_allocated_memory_bytes := GiB * 4; met_aggregate_cores := 8;
                      met_allocated_cores := 2; met_active_worker_count := 0 |} |}.

(** The two view models the suite prints. *)
Definition run_ui_model_test_suite (view_model : UiLogicalDeviceViewModel) : option (UiLogicalDeviceViewModel * UiLogicalDeviceViewModel) :=
  v1 ← ui_model_transform_snapshot (Some empty_snap) 5000 (Some view_model);
  v2 ← ui_model_transform_snapshot (Some active_snap) 5000 (Some v1);
  Some (v1, v2).

(** * Verdicts *)

Lemma planner_suite_passes p1 p2 p3 s1 s2 : execute_test_suite p1 p2 p3 s1 s2 = replicate 6 true.
Proof. destruct p1, p2, p3, s1, s2. vm_compute. reflexivity. Qed.

Section Verdicts.
Context {S : Type} `{Zmq S}.

(** A socket that cannot be had or bound fails both checks. *)
Lemma router_suite_verdicts (zmq_socket : Z -> ptr S) bind_ok giant stack sec usec :
  execute_router_test_suite zmq_socket bind_ok giant stack sec usec =
  replicate 2 (match zmq_socket router_socket_type with Some _ => bind_ok | NULL => false end).
Proof.
  unfold execute_router_test_suite, vom_master_router_start. cbn -[vom_master_router_send_to_worker].
  destruct (zmq_socket _) as [s|], bind_ok; reflexivity.
Qed.

(** The socket stays with the context through [send] and [poll]. *)
Lemma send_keeps_socket code p n stack sec usec (c : vom_worker_transport_context S) :
  is_Some (wt_sock (snd (vom_worker_transport_send code p n stack sec usec c))) <-> is_Some (wt_sock c).
Proof.
  unfold vom_worker_transport_send. destruct (wt_sock c) as [s|] eqn:E; cbn [snd].
  2: { by rewrite E. }
  repeat destr_if; cbn [snd]; rewrite ?E; try done.
  destruct (zmq_send _ _ _) as [rc s']. destr_if; cbn [snd wt_sock]; by split; intros; eexists.
Qed.
Lemma poll_keeps_socket m e (c : vom_worker_transport_context S) :
  is_Some (wt_sock (snd (vom_worker_transport_poll m e c))) <-> is_Some (wt_sock c).
Proof.
  unfold vom_worker_transport_poll. destruct (wt_sock c) as [s|] eqn:E; cbn [snd].
  2: { by rewrite E. }
  destruct (zmq_recv_dontwait _ _) as [[rc buffer] s']. repeat destr_if; cbn [snd wt_sock wt_set]; by split; intros; eexists.
Qed.

(** Once connected, the suite disconnects whatever was sent or received. *)
Lemma transport_suite_disconnects cfg (zmq_socket : Z -> ptr S) (s : S) stack sec usec :
  zmq_socket transport_socket_type = Some s ->
  exists c, execute_transport_test_suite cfg zmq_socket true stack sec usec = Some (TRANS_STATUS_SUCCESS, c) /\
    wt_sock c = None /\ wt_is_connected c = false /\ wt_is_authenticated c = false /\ wt_is_joined c = false.
Proof.
  intros Es. unfold execute_transport_test_suite. cbn [mbind option_bind vom_worker_transport_create].
  set (c1 := snd (vom_worker_transport_connect _ _ _ _)).
  set (c2 := snd (vom_worker_transport_send _ _ _ _ _ _ c1)).
  pose proof (poll_keeps_socket true true c2) as P. destruct (vom_worker_transport_poll true true c2) as [[st calls] c3]. cbn [snd] in P.
  assert (is_Some (wt_sock c1)) as K by (unfold c1, vom_worker_transport_connect; cbn; rewrite Es; by eexists).
  assert (is_Some (wt_sock c3)) as [x X] by (by apply P, send_keeps_socket).
  unfold vom_worker_transport_disconnect. rewrite X. by eexists.
Qed.
End Verdicts.

(** The three test programs exit with 0, and every self-test of the source
    files passes on the model, whatever uninitialised memory holds: the planner rejects, plans and catches the cycle
    as its suite expects; the master's recovery run ends with the lease expired
    and the worker unhealthy; the router suite passes if the socket can be bound
    and fails both checks otherwise; the transport suite ends disconnected
    whatever the socket does; and the suites of worker recovery, resource
    monitor, worker state, capabilities, discovery, display bridge, command line,
    coordinator and view model give the results they check or print. *)
Theorem self_tests_pass :
  (test_scheduler_logic_main = 0 /\ test_common_log_main = 0 /\ test_capnp_roundtrip_main = 0) /\
  (forall p1 p2 p3 s1 s2, execute_test_suite p1 p2 p3 s1 s2 = replicate 6 true) /\
  recovery_main = Some (MasterRecovery.UI_HEALTH_WARN, [(7001, LEASE_EXPIRED)], [("worker-tablet-01"%string, false)]) /\
  (forall (S : Type) (Z0 : Zmq S) (zmq_socket : Z -> ptr S) bind_ok giant stack sec usec,
     execute_router_test_suite zmq_socket bind_ok giant stack sec usec =
     replicate 2 (match zmq_socket router_socket_type with Some _ => bind_ok | NULL => false end)) /\
  (forall (S : Type) (Z0 : Zmq S) cfg zmq_socket (s : S) stack sec usec,
     zmq_socket transport_socket_type = Some s -> exists c,
     execute_transport_test_suite cfg zmq_socket true stack sec usec = Some (TRANS_STATUS_SUCCESS, c) /\ wt_sock c = None) /\
  (forall h, execute_worker_recovery_test_suite h = Some (replicate 4 true, Some "sha256-verified-output"%string)) /\
  execute_monitor_test_suite = Some (replicate 3 true, [4; 2]) /\
  execute_worker_state_test_suite = Some (replicate 5 true,
    [WRK_STATE_CONNECTED; WRK_STATE_REGISTERED; WRK_STATE_RUNNING; WRK_STATE_DRAINING; WRK_STATE_OFFLINE; WRK_STATE_SHUTDOWN]) /\
  (forall buffer dyn, execute_capabilities_test_suite buffer dyn = Some (replicate 2 true)) /\
  (forall current, execute_discovery_test_suite current = Some (replicate 9 true)) /\
  (forall list0 stack frame, execute_display_bridge_test_suite list0 stack frame = Some (replicate 6 true)) /\
  (forall args, execute_cli_test_suite args = Some (replicate 10 true)) /\
  (forall raw buf snap, (fun r => r.2) <$> execute_ui_coordinator_test_suite raw buf snap = Some true) /\
  (forall v, (fun '(v1, v2) => (vm_summary_health v1, vm_operational_status_text v1, length (vm_nodes v1), vm_summary_health v2,
                              (vm_cluster_total_memory_gb v2, vm_cluster_used_memory_gb v2, vm_cluster_overall_cpu_pct v2),
                              un_ms_since_last_heartbeat <$> vm_nodes v2, ut_status_text <$> vm_tasks v2))
       <$> run_ui_model_test_suite v =
     Some (UiModel.UI_HEALTH_WARN, "RECOVERING/BOOT"%string, 0%nat, UiModel.UI_HEALTH_OK,
           (double_of_Z 16, double_of_Z 4, double_of_Z 25), [500], ["RUNNING"%string])).
Proof.
  split; [exact test_programs_succeed|]. split_and!.
  - apply planner_suite_passes.
  - vm_compute. reflexivity.
  - intros. apply router_suite_verdicts.
  - intros. destruct (transport_suite_disconnects cfg zmq_socket s stack sec usec) as (c & H1 & H2 & _); [done|by exists c].
  - intros h. vm_compute. reflexivity.
  - vm_compute. reflexivity.
  - vm_compute. reflexivity.
  - intros buffer dyn. vm_compute. reflexivity.
  - intros current. vm_compute. reflexivity.
  - intros list0 stack frame. vm_compute. reflexivity.
  - intros args. vm_compute. reflexivity.
  - intros raw buf snap. reflexivity.
  - intros v. vm_compute. reflexivity.
Qed.
